(* ===== verification/_CoqProject ===== *)
-Q . S2P
Prelude.v
PyFloat.v
Heapq.v
Features.v
Predictor.v
Aging.v
PriorityQueue.v
BaseScheduler.v
Fcfs.v
Sjf.v
Gateway.v
Dataset.v
Trainer.v
Loggers.v
Pipeline.v
Serving.v
SmolLM3.v
Bench.v
PyText.v
Regex.v
FloatBounds.v
FeatureExtractor.v
EndToEnd.v
RegistryPatch.v
Report.v
SmolShapes.v
SmolForward.v
Simulation.v
LiveBench.v
App.v
AuditScripts.v
SmokeTests.v
Dispatch.v
Starvation.v
MinHeap.v
CppRuntime.v
GoEngine.v
GoWait.v
GoGateway.v
