(* ===== verification/Prelude.v ===== *)
(** * Verification of the output-length-aware serving platform

    The program schedules chat requests for a vLLM backend.  A gateway accepts
    OpenAI-style requests, hands them to a scheduler (first come first served,
    shortest job first by predicted output length, or an oracle that knows the
    token budget), and dispatchers forward what the scheduler returns.  The
    shortest-job-first scheduler asks a small neural network for the expected
    number of output tokens; the network is trained, evaluated and exported by
    scripts on data sets built from several sources.  Next to it stand a port
    of the SmolLM3 model to vLLM and two families of benchmarks.

    ** Files

    - Prelude.v (this file): exceptions as values, their monad and functions
      lifted to results, tactics and the hint database [sched], lists, strings, Python dictionaries that
      keep insertion order.
    - PyFloat.v: Python floats.  A float is an integer multiple of 2^-1074, an
      infinity or NaN; addition, multiplication, division and conversions
      round to nearest, ties to even, and are compared with the Standard
      Library's SpecFloat on sample inputs.  Zero has no sign.  [fsum] is the
      compensated [sum] of CPython 3.12.  Single precision where numpy uses it.
    - Heapq.v: heappush and heappop of CPython's heapq, for any order.
    - Features.v: python/predictor/features.py.
    - Predictor.v: model.py, predictor.py and inference.py of python/predictor.
    - Aging.v: python/scheduler/aging.py.
    - PriorityQueue.v: python/scheduler/priority_queue.py.
    - BaseScheduler.v: python/scheduler/base_scheduler.py; the abstract class
      as the type class [SchedulerOps] with the laws [SchedulerLaws].
    - Fcfs.v, Sjf.v: fcfs_scheduler.py and sjf_scheduler.py, instances of it.
    - Gateway.v: python/scheduler/gateway.py, for any instance.
    - Dataset.v: python/predictor/dataset.py.
    - Trainer.v: python/predictor/trainer.py; Loggers.v its experiment trackers.
    - Pipeline.v: export.py and the scripts of python/training.
    - Serving.v: the predictor classes and their constructors over the files an
      export leaves (predictor.py, inference.py, export.py, startup of gateway.py).
    - SmolLM3.v: vllm_port/smollm3.py.
    - Bench.v: metrics.py and compare.py of python/benchmark and the aggregation of
      benchmarks/run_benchmark.py.
    - PyText.v: Python text as code points, with the Unicode tables as the type
      class [Unicode], and the [str] methods the program calls.
    - Regex.v: Python's [re]: a backtracking matcher, search, findall, split and
      sub, and the language of a pattern as a relation.
    - FloatBounds.v: error and range bounds of the float operations.
    - FeatureExtractor.v: python/predictor/feature_extractor.py, and parallel
      extraction of dataset.py.
    - EndToEnd.v: train.py over files, and training, export, startup and scheduler
      composed.
    - RegistryPatch.v: scripts/patch_registry.py, scripts/patch_init.py and the texts
      of vllm_port/registry_patch.py.
    - Report.v: generate_report of compare.py, python/evaluation/generate_report.py,
      scripts/generate_benchmark_report.py, the tables of run_benchmark.py and the
      series of plots.py.
    - SmolShapes.v: the constructors of smollm3.py as module trees, and the shapes of
      its tensors.
    - SmolForward.v: the standalone forward pass of smollm3.py on values.
    - Simulation.v: fcfs.py and sjf.py of python/benchmark, as tasks and an asyncio
      semaphore over any scheduler.
    - LiveBench.v: run_level of benchmarks/run_benchmark.py, on the tasks of Simulation.v.
    - App.v: create_app of gateway.py: routes, handlers, proxy and lifespan.
    - AuditScripts.v: audit_scripts/phase1_static.py and run_audit.py.
    - SmokeTests.v: audit_scripts/phase4_6_7.py and smoke_tests.py.
    - Dispatch.v: gateway and scheduler composed: who is forwarded, in which order and
      how often; the gateway with an aging scheduler.
    - Starvation.v: the SJF scheduler over time: its invariant, overtaking, and what
      aging does against starvation.
    - MinHeap.v: what the two other queues need of a standard library's heap, as a class.
    - CppRuntime.v: cpp/src/priority_queue.cpp, the queue and scheduler of the C++ runtime.
    - GoEngine.v: go/internal/api/scheduler.go call by call; GoWait.v: callers of its
      [Acquire] on the condition variable, as interleaved steps.
    - GoGateway.v: go/cmd/gateway/main.go and go/internal/config over that machine.

    ** How the code is modelled

    Functions and methods are functions; an object is a record and a method
    returns the new record.  A method that can raise returns a [result], and
    where it changes state before raising, the state next to it.  Request
    objects are shared between the gateway, the schedulers and the queue, so
    they live in a store and are passed by location.  Coroutines run until
    they really suspend: each stretch between two suspension points is one
    definition, and theorems quantify over sequences of them.  Clock readings,
    random numbers, ids and the answers of the backend are arguments, in the
    order the code obtains them.  Torch, numpy reductions, the C mathematical
    library, JSON and TOML, the PDF libraries, hashing and the Hugging Face loader are parameters; what a
    theorem needs of them is a named hypothesis, and a witness instantiates it.

    Loops are structural where the code iterates over a list.  The inner loop
    of dequeue takes the length of the heap as fuel (each turn removes an
    item), the training loop the number of epochs, synthetic generation the
    [3 * n] iterations of its range, string replacement the length of the
    string, batching the length of the list (a batch is not empty), repetition in
    a regular expression the length of the rest (a turn consumes a character),
    and the iteration over matches two turns per character: in each
    case the bound is what the code itself cannot exceed, and the theorems
    show that the result is reached, not only that a result is right.

    ** What is proved

    - Priority queue: the heap invariant under every sequence of calls;
      shortest first, ties by age; a refinement to a bag served in order as
      long as no priority is updated; accounting of items; what an update
      leaves behind; the deadline behaviour of dequeue.
    - C++ runtime: its queue refines the same bag; its aging changes no answer, so long
      requests starve under it.
    - Go engine: it refines the same bag without ties by age; its aging changes no answer;
      no wake-up is lost as long as no context ends, and one is when it does.
    - Go gateway: it calls the backend at most once per client and with that client's body,
      whatever request it acquired; what its dispatch loops take off the queue is lost to
      the handlers; predicted lengths stay within the budget.
    - Training to scheduling: a trained network, exported and loaded at startup, decides the
      priority of every request without a prediction; a run that never improves exports
      the checkpoint of an earlier one.
    - Aging: the bounds of a boost for all three policies with rounding.
    - Schedulers: first in, first out for FCFS; for SJF every path of a
      submission, the effect of an aging pass on every request, that boosts
      compound and duplicate deliveries, that the fallback is permanent and
      strands the priority queue, what a reload changes, what building
      yields; smallest budget first for the oracle in all reachable states.
    - Schedulers over time: an invariant of the SJF scheduler from its creation on; an
      item of the queue is overtaken only by what is ahead of it; linear aging that
      takes a token off per pass prevents starvation: n passes for a prediction of n
      tokens, then one acquire per queued item and per item that later passes push,
      for predictions up to 2^20 tokens (predictions end at 4096, and
      below 2^20 half tokens are exact floats); the shipped configuration takes at most
      half a token off per pass, so that a request below what is left is served first.
    - Gateway and scheduler: no request is sent twice as long as the scheduler hands
      out what was queued (FCFS and oracle do, SJF after an aging pass does not); the
      FCFS gateway starts requests in order and makes progress.
    - Gateway: a future is settled once; every backend outcome reaches the
      client and with which status; counters of gateway and scheduler agree
      for any scheduler that keeps the laws; an end-to-end round trip; a
      stream that fails leaves its consumer blocked; start and stop.
    - Predictor: predictions lie in the clamp range; the three backends see
      the same row; where they differ; what an export leaves is loaded by the
      ONNX and TorchScript backends, and by the checkpoint backend and the gateway exactly
      if it has the default shapes, and predicts alike; what missing files do.
    - Data and training: records, cache, deduplication and split lose and
      duplicate nothing, and the split raises exactly on a ragged training part; synthetic generation ends; training and serving
      normalise alike; early stopping returns the first best epoch and its
      checkpoint; what is exported can be loaded; evaluation uses the
      held-out split when prompts are distinct.
    - SmolLM3: which layers skip rotation; the residual stream computes the
      documented pre-norm stack; the stacked branch of load_weights is dead; the
      module tree has the parameters the loader looks up; the standalone model is
      well typed in its shapes; expanding the key and value heads is grouped attention;
      in exact arithmetic the standalone model does not see the order of tokens, and raises
      exactly on unsuitable head counts or ids outside the vocabulary.
    - Feature extractor: extraction is total and gives forty finite numbers; ranges
      of the features; words are maximal runs; together with predictor and
      scheduler no submission falls back, though a NaN of the network is queued as it is; parallel extraction gives the same vectors.
    - Benchmarks: percentiles are ordered and aggregation is total; simulated runs
      end, and measure the semaphore and not the scheduler, so that the rows of
      the comparison agree; the live benchmark keeps its bound on requests in flight
      and reports the same whatever the order; what the reports contain, which is
      never written, what a PDF library that raises leaves, and that the plots show every result.
    - Application: only the chat endpoint reaches the scheduler; which pages, those of
      FastAPI's documentation included, are answered locally and what is proxied; while
      requests are served, under any interleaving, the gateway runs with all its dispatch
      loops, and after shutdown none is left, while forward tasks in flight go on.
    - Scripts: the registry patch is not idempotent, the export patch is; the
      exit code of the static checks; when the audit runs the tests; what the
      experiment trackers receive; that no smoke test can pass, and why.

    The theorems that summarise a component are numbered; the other theorems and
    lemmas carry them or state further behaviour.

    ** What is not modelled

    Left out, because they are library calls with no logic of their own: the HTTP
    server below the routes, drawing of plots (their panels and curves are modelled),
    logging, the Prometheus exposition, tensor kernels and device placement
    (parameters), scipy correlations, argument parsing and printing.  Of the programs in
    phase4_6_7.py what follows an import that cannot succeed is left out.  In the Go
    gateway the helper of a wait is started when the caller already sleeps: a broadcast
    before that is not modelled, nor are the endpoints that answer constants.  The C++
    feature extractor and inference engine are a demonstration no Python code calls, and
    deployment files hold no logic.  In the Python gateway a backend reply of status 200 is a JSON
    object, a request body has its four fields with values of their documented types, and a
    future's own refusal to be settled twice is not written out (the guards keep the code from
    trying).  The norm of an embedding is part of what the embedding parameter returns, and
    inside vLLM the norm of a model without layers never happens to have two rows.
    Outside PyText.v and its clients strings hold ASCII text, except that the texts of Report.v are
    UTF-8 bytes.  In
    SmolForward.v arithmetic is exact: sums commute and associate, as they do not in
    floating point.  What is left of the Python
    sources are imports, documentation strings and the calls listed here. *)
From Stdlib Require Import ZArith Lia List Permutation.
From stdpp Require Import base option list strings gmap.

(** ** Automation *)

Create HintDb sched.

(** Splits every conditional of the goal (or of a hypothesis) on its test. *)
Ltac split_if :=
  match goal with
  | |- context [if ?b then _ else _] => destruct b eqn:?
  | H : context [if ?b then _ else _] |- _ => destruct b eqn:?
  end.

(** Splits a [match] on an option-valued scrutinee. *)
Ltac split_opt :=
  match goal with
  | |- context [match ?o with Some _ => _ | None => _ end] => destruct o eqn:?
  | H : context [match ?o with Some _ => _ | None => _ end] |- _ => destruct o eqn:?
  end.

(** Closes the leaves left by the two tactics above. *)
Ltac finish := simplify_eq/=; try done; eauto with sched.

(** Boolean hypotheses over [Z] and [nat] to propositions. *)
Ltac bool_to_prop :=
  repeat match goal with
  | H : (_ <? _)%Z = true |- _ => apply Z.ltb_lt in H
  | H : (_ <? _)%Z = false |- _ => apply Z.ltb_ge in H
  | H : (_ <=? _)%Z = true |- _ => apply Z.leb_le in H
  | H : (_ <=? _)%Z = false |- _ => apply Z.leb_gt in H
  | H : (_ =? _)%Z = true |- _ => apply Z.eqb_eq in H
  | H : (_ =? _)%Z = false |- _ => apply Z.eqb_neq in H
  | H : (_ <? _)%nat = true |- _ => apply Nat.ltb_lt in H
  | H : (_ <? _)%nat = false |- _ => apply Nat.ltb_ge in H
  | H : (_ <=? _)%nat = true |- _ => apply Nat.leb_le in H
  | H : (_ <=? _)%nat = false |- _ => apply Nat.leb_gt in H
  | H : (_ && _) = true |- _ => apply andb_prop in H; destruct H
  | H : negb _ = true |- _ => apply negb_true_iff in H
  | H : negb _ = false |- _ => apply negb_false_iff in H
  end.

(** ** Python exceptions as values *)

Inductive exn :=
| TimeoutError
| CancelledError
| KeyError (key : string)
| ValueError (msg : string)
| TypeError (msg : string)
| ZeroDivisionError
| OverflowError
| AssertionError
| IndexError
| OtherError (msg : string).

#[global] Instance exn_eq_dec : EqDecision exn.
Proof. solve_decision. Defined.

(** A call either returns a value or raises. *)
Inductive result (A : Type) :=
| Ok (a : A)
| Raise (e : exn).
Arguments Ok {A} a.
Arguments Raise {A} e.

Definition rbind {A B} (r : result A) (k : A -> result B) : result B :=
  match r with
  | Ok a => k a
  | Raise e => Raise e
  end.

Declare Scope py_scope.
Delimit Scope py_scope with py.
Notation "'let?' x ':=' r 'in' k" := (rbind r (fun x => k))
  (at level 10, x pattern, r at level 100, k at level 200) : py_scope.

(** [map] with a function that may raise: stops at the first exception. *)
Fixpoint rmap {A B} (f : A -> result B) (l : list A) : result (list B) :=
  match l with
  | [] => Ok []
  | x :: l' => rbind (f x) (fun y => rbind (rmap f l') (fun ys => Ok (y :: ys)))
  end.

Lemma rbind_Ok {A B} (r : result A) (k : A -> result B) b :
  rbind r k = Ok b -> exists a, r = Ok a /\ k a = Ok b.
Proof. destruct r; simpl; [eauto | discriminate]. Qed.

Definition is_ok {A} (r : result A) : bool := match r with Ok _ => true | Raise _ => false end.

(** Functions on values, on fallible values; the first exception wins. *)
Definition rlift {A B} (f : A -> B) (r : result A) : result B := rbind r (fun a => Ok (f a)).
Definition rlift2 {A B C} (f : A -> B -> C) (r : result A) (r' : result B) : result C :=
  rbind r (fun a => rbind r' (fun b => Ok (f a b))).

(** Both return related values, or both raise the same. *)
Definition result_rel {A B} (R : A -> B -> Prop) (r : result A) (r' : result B) : Prop :=
  match r, r' with
  | Ok a, Ok b => R a b
  | Raise e, Raise e' => e = e'
  | _, _ => False
  end.

Lemma is_ok_lift {A B} (f : A -> B) r : is_ok (rlift f r) = is_ok r.
Proof. by destruct r. Qed.

Lemma is_ok_lift2 {A B C} (f : A -> B -> C) r r' : is_ok (rlift2 f r r') = is_ok r && is_ok r'.
Proof. by destruct r, r'. Qed.

Lemma is_ok_bind {A B} (r : result A) (k : A -> result B) b :
  (forall a, is_ok (k a) = b) -> is_ok (rbind r k) = is_ok r && b.
Proof. intros H. destruct r; [exact (H a)|done]. Qed.

Lemma lift_rel {A A' B B'} (R : A -> A' -> Prop) (Q : B -> B' -> Prop) f f' r r' :
  (forall a a', R a a' -> Q (f a) (f' a')) -> result_rel R r r' -> result_rel Q (rlift f r) (rlift f' r').
Proof. intros Hf. destruct r, r'; try done. apply Hf. Qed.

Lemma lift2_rel {A A' B B' C C'} (R : A -> A' -> Prop) (Q : B -> B' -> Prop) (U : C -> C' -> Prop) f f' r r' q q' :
  (forall a a' b b', R a a' -> Q b b' -> U (f a b) (f' a' b')) ->
  result_rel R r r' -> result_rel Q q q' -> result_rel U (rlift2 f r q) (rlift2 f' r' q').
Proof. intros Hf. destruct r, r', q, q'; try done. apply Hf. Qed.

Lemma rmap_Ok {A B} (f : A -> result B) l ys :
  rmap f l = Ok ys -> Forall2 (fun x y => f x = Ok y) l ys.
Proof.
  revert ys. induction l as [|x l IH]; intros ys H; simpl in H.
  - simplify_eq. constructor.
  - apply rbind_Ok in H as (y & Hy & H). apply rbind_Ok in H as (ys' & Hys & H).
    simplify_eq. constructor; auto.
Qed.

Lemma rmap_total {A B} (f : A -> result B) (g : A -> B) l :
  (forall x, x ∈ l -> f x = Ok (g x)) -> rmap f l = Ok (map g l).
Proof.
  induction l as [|x l IH]; intros H; simpl; [done|].
  rewrite (H x) by set_solver. simpl. rewrite IH; [done|]. set_solver.
Qed.

Lemma rmap_exists {A B} (f : A -> result B) (P : B -> Prop) l :
  (forall x, x ∈ l -> exists y, f x = Ok y /\ P y) ->
  exists ys, rmap f l = Ok ys /\ Forall P ys /\ length ys = length l.
Proof.
  induction l as [|x l IH]; intros H; simpl; [by exists []|].
  destruct (H x ltac:(by left)) as (y & -> & Hy).
  destruct IH as (ys & -> & Hys & Hl); [intros z Hz; apply H; by right|].
  exists (y :: ys). simpl. rewrite Hl. split_and!; [done|by constructor|done].
Qed.

(** ** Lists *)

Section ListFacts.
Context {A : Type}.

Lemma list_filter_ext_in (P1 P2 : A -> Prop) `{!forall x, Decision (P1 x), !forall x, Decision (P2 x)}
    (l : list A) :
  (forall x, x ∈ l -> P1 x <-> P2 x) -> filter P1 l = filter P2 l.
Proof.
  induction l as [|x l IH]; intros Hl; [done|].
  specialize (IH ltac:(intros y Hy; apply Hl; by right)).
  pose proof (Hl x ltac:(by left)) as Hx.
  destruct (decide (P1 x)).
  - rewrite !filter_cons_True by tauto. by rewrite IH.
  - rewrite !filter_cons_False by tauto. done.
Qed.

Lemma list_filter_none (P : A -> Prop) `{!forall x, Decision (P x)} (l : list A) :
  (forall x, x ∈ l -> ~ P x) -> filter P l = [].
Proof.
  induction l as [|x l IH]; intros Hl; [done|].
  rewrite filter_cons_False by (apply Hl; by left). apply IH. intros y Hy. apply Hl. by right.
Qed.

Lemma list_filter_all (P : A -> Prop) `{!forall x, Decision (P x)} (l : list A) :
  (forall x, x ∈ l -> P x) -> filter P l = l.
Proof.
  induction l as [|x l IH]; intros Hl; [done|].
  rewrite filter_cons_True by (apply Hl; by left). f_equal. apply IH. intros y Hy. apply Hl. by right.
Qed.
End ListFacts.

(** ** Strings *)

(** [sep.join(xs)] *)
Fixpoint join (sep : string) (xs : list string) : string :=
  match xs with
  | [] => EmptyString
  | [x] => x
  | x :: xs' => String.append x (String.append sep (join sep xs'))
  end.

Definition newline : string := String (Ascii.ascii_of_nat 10) EmptyString.

Lemma append_assoc (a b c : string) :
  String.append (String.append a b) c = String.append a (String.append b c).
Proof. induction a as [|x a IH]; [done|]. exact (f_equal (String x) IH). Qed.

Lemma append_nil (a : string) : String.append a EmptyString = a.
Proof. induction a as [|x a IH]; [done|]. exact (f_equal (String x) IH). Qed.

(** ** Python dictionaries that are iterated

    A [dict] iterates in insertion order; assigning an existing key keeps its
    place.  Dictionaries that are only looked up are [gmap]s in this
    development; those the code iterates are ordered ([odict]). *)
Abbreviation odict A := (list (string * A)).

Section Odict.
Context {A : Type}.
Implicit Types (d : odict A) (k : string) (v : A).

Fixpoint od_get k d : option A :=
  match d with
  | [] => None
  | (k', v) :: d' => if bool_decide (k = k') then Some v else od_get k d'
  end.

Fixpoint od_set k v d : odict A :=
  match d with
  | [] => [(k, v)]
  | (k', v') :: d' => if bool_decide (k = k') then (k, v) :: d' else (k', v') :: od_set k v d'
  end.

Fixpoint od_pop k d : odict A :=
  match d with
  | [] => []
  | (k', v') :: d' => if bool_decide (k = k') then d' else (k', v') :: od_pop k d'
  end.

Definition od_keys d : list string := map fst d.

Lemma od_get_set k k' v d :
  od_get k' (od_set k v d) = if bool_decide (k' = k) then Some v else od_get k' d.
Proof.
  induction d as [|[k1 v1] d IH]; simpl; [by repeat case_bool_decide|].
  repeat case_bool_decide; subst; simpl; repeat case_bool_decide; congruence.
Qed.

Lemma od_get_pop_ne k k' d : k' <> k -> od_get k' (od_pop k d) = od_get k' d.
Proof.
  intros Hne. induction d as [|[k1 v1] d IH]; simpl; [done|].
  repeat case_bool_decide; subst; simpl; repeat case_bool_decide; congruence.
Qed.

Lemma od_get_None k d : od_get k d = None <-> k ∉ od_keys d.
Proof.
  induction d as [|[k1 v1] d IH]; simpl; [by split; [intros _ ?%elem_of_nil|]|].
  rewrite not_elem_of_cons. case_bool_decide; naive_solver.
Qed.

Lemma od_keys_set k v d : k ∈ od_keys d -> od_keys (od_set k v d) = od_keys d.
Proof.
  induction d as [|[k1 v1] d IH]; simpl; [by intros ?%elem_of_nil|].
  rewrite elem_of_cons. case_bool_decide; simpl; [congruence|].
  intros [->|?]; [done|]. f_equal. auto.
Qed.

Lemma od_keys_set_new k v d : k ∉ od_keys d -> od_keys (od_set k v d) = od_keys d ++ [k].
Proof.
  induction d as [|[k1 v1] d IH]; simpl; [done|].
  rewrite not_elem_of_cons. intros [? ?]. rewrite bool_decide_eq_false_2 by done.
  simpl. f_equal. auto.
Qed.

Lemma od_pop_middle k v d1 d2 :
  NoDup (od_keys (d1 ++ (k, v) :: d2)) -> od_pop k (d1 ++ (k, v) :: d2) = d1 ++ d2.
Proof.
  induction d1 as [|[k' v'] d1 IH]; simpl; intros Hnd; [by rewrite bool_decide_eq_true_2|].
  apply NoDup_cons in Hnd as [Hni Hnd]. rewrite bool_decide_eq_false_2, IH; [done|done|].
  intros ->. apply Hni. unfold od_keys. rewrite map_app, elem_of_app. right. by left.
Qed.

Lemma od_pop_sub k d x : x ∈ od_keys (od_pop k d) -> x ∈ od_keys d.
Proof.
  induction d as [|[k1 v1] d IH]; simpl; [done|].
  case_bool_decide; simpl; rewrite ?elem_of_cons; naive_solver.
Qed.

Lemma od_pop_nodup k d : NoDup (od_keys d) -> NoDup (od_keys (od_pop k d)).
Proof.
  induction d as [|[k1 v1] d IH]; simpl; [done|].
  intros [Hn Hd]%NoDup_cons. case_bool_decide; simpl; [done|].
  constructor; [|auto]. intros ?%od_pop_sub. done.
Qed.

Lemma od_set_nodup k v d : NoDup (od_keys d) -> NoDup (od_keys (od_set k v d)).
Proof.
  intros Hd. destruct (decide (k ∈ od_keys d)).
  - by rewrite od_keys_set.
  - rewrite od_keys_set_new by done. apply NoDup_app. split; [done|split].
    + intros x Hx ->%list_elem_of_singleton. done.
    + apply NoDup_singleton.
Qed.

Lemma od_get_pop_eq k d : NoDup (od_keys d) -> od_get k (od_pop k d) = None.
Proof.
  induction d as [|[k1 v1] d IH]; simpl; [done|].
  intros [Hn Hd]%NoDup_cons. case_bool_decide; subst; [by apply od_get_None|].
  simpl. rewrite bool_decide_eq_false_2 by done. auto.
Qed.

Lemma od_get_elem k v d : od_get k d = Some v -> (k, v) ∈ d.
Proof.
  induction d as [|[k' v'] d IH]; simpl; [done|]. case_bool_decide; [intros [= <-]; subst; left|].
  intros H'. right. auto.
Qed.

Lemma od_elem_get k v d : NoDup (od_keys d) -> (k, v) ∈ d -> od_get k d = Some v.
Proof.
  induction d as [|[k' v'] d IH]; simpl; [by intros _ ?%elem_of_nil|].
  intros [Hn Hd]%NoDup_cons [[= -> ->]|Hin]%elem_of_cons; case_bool_decide; subst; auto; [done|].
  destruct Hn. by apply (list_elem_of_fmap_2 fst _ _ Hin).
Qed.

Lemma od_get_pop_sub k k' v d : NoDup (od_keys d) -> od_get k' (od_pop k d) = Some v -> od_get k' d = Some v.
Proof.
  intros Hd H. destruct (decide (k' = k)) as [->|Hne].
  - by rewrite od_get_pop_eq in H.
  - by rewrite od_get_pop_ne in H.
Qed.
End Odict.
