(* ===== verification/PyFloat.v ===== *)
(** * Python floats: IEEE 754 binary64

    Every finite binary64 number is an integer multiple of [2^-1074], the
    least subnormal.  A finite float is therefore represented by that integer
    ([Fin z] stands for [z * 2^-1074]), so that comparison of floats is
    comparison of integers, and an operation is: compute the exact rational
    result, then round it once, to nearest, ties to even ([round_ratio]).
    The two zeros are one value here: Python compares them equal, and nothing
    in the source tells them apart.  Literals are decimal fractions rounded
    the same way ([flit]).

    The file proves that rounding is monotone, fixes representable numbers
    and yields representable numbers; the arithmetic laws the schedulers rely
    on follow from these three facts.  It also fixes CPython 3.12's [sum] of
    floats (compensated summation), which is the version the images pin. *)
From Stdlib Require Import ZArith Lia Floats.SpecFloat.
From stdpp Require Import base option list strings.
From S2P Require Import Prelude.
Local Open Scope Z_scope.

Inductive float :=
| Fin (z : Z)
| Inf (neg : bool)
| NaN.

#[global] Instance float_eq_dec : EqDecision float.
Proof. solve_decision. Defined.

Declare Scope float_scope.
Delimit Scope float_scope with float.
Bind Scope float_scope with float.

(** ** Rounding *)

(** Fractional bits of the fixed-point grid, and the overflow threshold
    [2^1024] in units of the grid. *)
Definition grid : Z := 1074.
Definition overflow : Z := 2 ^ 2098.

(** Nearest integer to [a / d], ties to even. *)
Definition rne (a d : Z) : Z :=
  let q := a / d in
  let r := a mod d in
  if 2 * r <? d then q
  else if d <? 2 * r then q + 1
  else if Z.even q then q else q + 1.

(** Exponent of the unit in the last place of [a / d] in a format of [prec]
    significant bits whose least unit is [2^emin]. *)
Definition ulp_exp (emin prec a d : Z) : Z := Z.max emin (Z.log2 (a / d) - (prec - 1)).

Definition round_at (emin prec a d : Z) : Z :=
  let e := ulp_exp emin prec a d in rne a (d * 2 ^ e) * 2 ^ e.

(** binary64: 53 bits, the grid itself as least unit. *)
Definition round_pos (a d : Z) : Z := round_at 0 53 a d.

(** The float nearest to [n / d] grid units, [d > 0]. *)
Definition round_ratio (n d : Z) : float :=
  let z := Z.sgn n * round_pos (Z.abs n) d in
  if overflow <=? Z.abs z then Inf (n <? 0) else Fin z.

(** ** Operations *)

Definition flit (n d : Z) : float := round_ratio (n * 2 ^ grid) d.
Definition of_int (n : Z) : float := flit n 1.

Definition fneg (x : float) : float :=
  match x with Fin z => Fin (- z) | Inf s => Inf (negb s) | NaN => NaN end.

Definition fadd (x y : float) : float :=
  match x, y with
  | NaN, _ | _, NaN => NaN
  | Fin a, Fin b => round_ratio (a + b) 1
  | Inf s, Inf t => if Bool.eqb s t then Inf s else NaN
  | Inf s, Fin _ | Fin _, Inf s => Inf s
  end.

Definition fsub (x y : float) : float := fadd x (fneg y).

Definition fsign (x : float) : bool :=
  match x with Fin z => z <? 0 | Inf s => s | NaN => false end.

Definition fmul (x y : float) : float :=
  match x, y with
  | NaN, _ | _, NaN => NaN
  | Fin a, Fin b => round_ratio (a * b) (2 ^ grid)
  | Inf _, Fin b => if b =? 0 then NaN else Inf (xorb (fsign x) (fsign y))
  | Fin a, Inf _ => if a =? 0 then NaN else Inf (xorb (fsign x) (fsign y))
  | Inf s, Inf t => Inf (xorb s t)
  end.

(** Python's [/] raises on a zero divisor. *)
Definition fdiv (x y : float) : result float :=
  match x, y with
  | _, Fin 0 => Raise ZeroDivisionError
  | NaN, _ | _, NaN => Ok NaN
  | Fin a, Fin b => Ok (round_ratio (a * Z.sgn b * 2 ^ grid) (Z.abs b))
  | Inf _, Fin _ => Ok (Inf (xorb (fsign x) (fsign y)))
  | Fin _, Inf _ => Ok (Fin 0)
  | Inf _, Inf _ => Ok NaN
  end.

(** [int / int] is correctly rounded, whatever the size of the operands. *)
Definition int_div (n d : Z) : result float :=
  if d =? 0 then Raise ZeroDivisionError
  else Ok (round_ratio (n * Z.sgn d * 2 ^ grid) (Z.abs d)).

(** Comparisons: false as soon as one operand is a NaN. *)
Definition fltb (x y : float) : bool :=
  match x, y with
  | NaN, _ | _, NaN => false
  | Fin a, Fin b => a <? b
  | Inf s, Inf t => s && negb t
  | Inf s, Fin _ => s
  | Fin _, Inf t => negb t
  end.

Definition feqb (x y : float) : bool :=
  match x, y with
  | Fin a, Fin b => a =? b
  | Inf s, Inf t => Bool.eqb s t
  | _, _ => false
  end.

Definition fleb (x y : float) : bool := fltb x y || feqb x y.

(** [min(x, y)] and [max(x, y)] keep the first argument unless the second is
    strictly better. *)
Definition fmin (x y : float) : float := if fltb y x then y else x.
Definition fmax (x y : float) : float := if fltb x y then y else x.

Definition fabs (x : float) : float :=
  match x with Fin z => Fin (Z.abs z) | Inf _ => Inf false | NaN => NaN end.

(** Truth value: everything but zero. *)
Definition ftruthy (x : float) : bool :=
  match x with Fin z => negb (z =? 0) | _ => true end.

(** [int(x)]: truncation. *)
Definition to_int (x : float) : result Z :=
  match x with
  | Fin z => Ok (Z.quot z (2 ^ grid))
  | Inf _ => Raise OverflowError
  | NaN => Raise (ValueError "cannot convert float NaN to integer"%string)
  end.

Definition is_nan (x : float) : bool := match x with NaN => true | _ => false end.
Definition is_fin (x : float) : bool := match x with Fin _ => true | _ => false end.

Definition f0 : float := Fin 0.
Definition f1 : float := of_int 1.

(** The values a Python float object can hold: grid points that rounding
    fixes, the infinities and NaN. *)
Definition wf_float (x : float) : bool :=
  match x with
  | Fin z => (round_pos (Z.abs z) 1 =? Z.abs z) && (Z.abs z <? overflow)
  | _ => true
  end.

(** CPython 3.12 [sum] over floats: Neumaier's compensated sum, the
    compensation added at the end when it is nonzero and finite. *)
Fixpoint fsum_loop (acc c : float) (xs : list float) : float :=
  match xs with
  | [] => if ftruthy c && is_fin c then fadd acc c else acc
  | x :: xs' =>
      let t := fadd acc x in
      let d := if fleb (fabs x) (fabs acc) then fadd (fsub acc t) x
               else fadd (fsub x t) acc in
      fsum_loop t (fadd c d) xs'
  end.

Definition fsum (xs : list float) : float :=
  match xs with
  | [] => f0
  | x :: xs' => fsum_loop (fadd f0 x) f0 xs'
  end.

(** ** Agreement with the Standard Library's specification floats

    [SpecFloat] is the executable specification of binary64 the kernel's
    primitive floats are axiomatised by; these evaluations compare the two
    models on rounding, ties, subnormals and overflow. *)
Definition of_spec (x : spec_float) : float :=
  match x with
  | S754_zero _ => Fin 0
  | S754_infinity s => Inf s
  | S754_nan => NaN
  | S754_finite s m e =>
      Fin ((if s then -1 else 1) * Z.pos m * 2 ^ (e + grid))
  end.

Definition spec_lit (n : positive) (d : positive) : spec_float :=
  SFdiv 53 1024 (binary_normalize 53 1024 (Z.pos n) 0 false)
                (binary_normalize 53 1024 (Z.pos d) 0 false).

Example flit_spec :
  flit 1 10 = of_spec (spec_lit 1 10) /\
  flit 1 1000 = of_spec (spec_lit 1 1000) /\
  flit 13 10 = of_spec (spec_lit 13 10) /\
  flit 4096 1 = of_spec (spec_lit 4096 1).
Proof. vm_compute. done. Qed.

Example ops_spec :
  let a := spec_lit 1 10 in
  let b := spec_lit 2 10 in
  let c := spec_lit 1 3 in
  fadd (of_spec a) (of_spec b) = of_spec (SFadd 53 1024 a b) /\
  fsub (of_spec a) (of_spec c) = of_spec (SFsub 53 1024 a c) /\
  fmul (of_spec a) (of_spec c) = of_spec (SFmul 53 1024 a c) /\
  fdiv (of_spec a) (of_spec c) = Ok (of_spec (SFdiv 53 1024 a c)).
Proof. vm_compute. done. Qed.

Example tie_spec :
  let big := binary_normalize 53 1024 (2 ^ 53) 0 false in
  let one := spec_lit 1 1 in
  fadd (of_spec big) (of_spec one) = of_spec (SFadd 53 1024 big one) /\
  fadd (of_spec big) (of_spec one) = of_spec big.
Proof. vm_compute. done. Qed.

Example range_spec :
  let mx := SFsub 53 1024 (SFldexp 53 1024 (spec_lit 1 1) 1023)
                          (SFldexp 53 1024 (spec_lit 1 1) 960) in
  let tiny := SFldexp 53 1024 (spec_lit 3 1) (-1074) in
  fadd (of_spec mx) (of_spec mx) = of_spec (SFadd 53 1024 mx mx) /\
  fmul (of_spec mx) (of_spec (spec_lit 3 1)) = of_spec (SFmul 53 1024 mx (spec_lit 3 1)) /\
  fmul (of_spec tiny) (of_spec (spec_lit 1 2)) = of_spec (SFmul 53 1024 tiny (spec_lit 1 2)).
Proof. vm_compute. done. Qed.

(** ** Rounding is monotone *)

Lemma pow2_pos e : 0 <= e -> 0 < 2 ^ e.
Proof. intros. apply Z.pow_pos_nonneg; lia. Qed.

#[export] Hint Resolve pow2_pos : sched.

Lemma rne_bounds a d : 0 < d -> a / d <= rne a d <= a / d + 1.
Proof. intros Hd. unfold rne. repeat split_if; lia. Qed.

(** Floor division is monotone in the fraction. *)
Lemma div_ratio_mono a1 d1 a2 d2 :
  0 < d1 -> 0 < d2 -> a1 * d2 <= a2 * d1 -> a1 / d1 <= a2 / d2.
Proof.
  intros H1 H2 H.
  rewrite <- (Z.div_mul_cancel_r a1 d1 d2), <- (Z.div_mul_cancel_r a2 d2 d1) by lia.
  rewrite (Z.mul_comm d2 d1). apply Z.div_le_mono; lia.
Qed.

Lemma rne_mono a1 d1 a2 d2 :
  0 < d1 -> 0 < d2 -> a1 * d2 <= a2 * d1 -> rne a1 d1 <= rne a2 d2.
Proof.
  intros H1 H2 H.
  pose proof (div_ratio_mono _ _ _ _ H1 H2 H) as Hq.
  pose proof (rne_bounds a1 d1 H1). pose proof (rne_bounds a2 d2 H2).
  destruct (Z.eq_dec (a1 / d1) (a2 / d2)) as [Heq|]; [|lia].
  pose proof (Z.div_mod a1 d1 ltac:(lia)) as E1.
  pose proof (Z.div_mod a2 d2 ltac:(lia)) as E2.
  unfold rne. rewrite <- Heq in *.
  assert (Hr : (a1 mod d1) * d2 <= (a2 mod d2) * d1) by nia.
  set (q := a1 / d1) in *. set (r1 := a1 mod d1) in *. set (r2 := a2 mod d2) in *.
  clearbody q r1 r2. clear E1 E2 H.
  destruct (2 * r1 <? d1) eqn:T1; destruct (2 * r2 <? d2) eqn:T2;
    destruct (d1 <? 2 * r1) eqn:T3; destruct (d2 <? 2 * r2) eqn:T4;
    destruct (Z.even q); bool_to_prop; try lia; nia.
Qed.

Section Format.
Context (emin prec : Z) (Hemin : 0 <= emin) (Hprec : 1 < prec).
Local Abbreviation ulp := (ulp_exp emin prec).
Local Abbreviation rnd := (round_at emin prec).

Lemma ulp_exp_ge a d : emin <= ulp a d.
Proof. unfold ulp_exp. lia. Qed.

Lemma ulp_pow_pos a d : 0 < 2 ^ ulp a d.
Proof. apply pow2_pos. pose proof (ulp_exp_ge a d). lia. Qed.

Lemma ulp_exp_mono a1 d1 a2 d2 :
  0 < d1 -> 0 < d2 -> a1 * d2 <= a2 * d1 -> ulp a1 d1 <= ulp a2 d2.
Proof.
  intros H1 H2 H. unfold ulp_exp.
  pose proof (Z.log2_le_mono _ _ (div_ratio_mono _ _ _ _ H1 H2 H)). lia.
Qed.

(** The integral significand has at most [prec] bits ... *)
Lemma round_at_upper a d :
  0 <= a -> 0 < d -> rne a (d * 2 ^ ulp a d) <= 2 ^ prec.
Proof.
  intros Ha Hd. pose proof (ulp_pow_pos a d) as Hp. pose proof (ulp_exp_ge a d).
  pose proof (rne_bounds a (d * 2 ^ ulp a d) ltac:(nia)) as [_ Hu].
  enough (a / (d * 2 ^ ulp a d) < 2 ^ prec) by lia.
  rewrite <- Z.div_div by nia.
  apply Z.div_lt_upper_bound; [done|].
  rewrite <- Z.pow_add_r by lia.
  destruct (Z.eq_dec (a / d) 0) as [->|]; [apply pow2_pos; lia|].
  assert (0 <= a / d) by (apply Z.div_pos; lia).
  apply Z.log2_lt_pow2; [lia|]. unfold ulp_exp. lia.
Qed.

(** ... and exactly [prec] above the least unit's own range. *)
Lemma round_at_lower a d :
  0 <= a -> 0 < d -> emin < ulp a d ->
  2 ^ (prec - 1) <= rne a (d * 2 ^ ulp a d).
Proof.
  intros Ha Hd He. pose proof (ulp_pow_pos a d) as Hp.
  pose proof (rne_bounds a (d * 2 ^ ulp a d) ltac:(nia)) as [Hl _].
  enough (2 ^ (prec - 1) <= a / (d * 2 ^ ulp a d)) by lia.
  rewrite <- Z.div_div by nia.
  apply Z.div_le_lower_bound; [done|].
  rewrite <- Z.pow_add_r by lia.
  assert (Hlog : ulp a d + (prec - 1) = Z.log2 (a / d)) by (unfold ulp_exp in *; lia).
  rewrite Hlog. apply Z.log2_spec.
  destruct (Z.le_gt_cases (a / d) 0) as [Hz|]; [|lia].
  rewrite (Z.log2_nonpos _ Hz) in Hlog. lia.
Qed.

Lemma round_at_mono a1 d1 a2 d2 :
  0 <= a1 -> 0 <= a2 -> 0 < d1 -> 0 < d2 -> a1 * d2 <= a2 * d1 ->
  rnd a1 d1 <= rnd a2 d2.
Proof.
  intros Ha1 Ha2 H1 H2 H. unfold round_at.
  pose proof (ulp_exp_mono _ _ _ _ H1 H2 H) as He.
  pose proof (ulp_exp_ge a1 d1) as Hn1.
  pose proof (ulp_pow_pos a1 d1) as Hp1. pose proof (ulp_pow_pos a2 d2) as Hp2.
  destruct (Z.eq_dec (ulp a1 d1) (ulp a2 d2)) as [Heq|Hne].
  - rewrite <- Heq in *. apply Z.mul_le_mono_nonneg_r; [lia|].
    apply rne_mono; nia.
  - pose proof (round_at_upper a1 d1 Ha1 H1).
    pose proof (round_at_lower a2 d2 Ha2 H2 ltac:(lia)).
    transitivity (2 ^ prec * 2 ^ ulp a1 d1); [nia|].
    transitivity (2 ^ (prec - 1) * 2 ^ ulp a2 d2); [|nia].
    rewrite <- !Z.pow_add_r by lia. apply Z.pow_le_mono_r; lia.
Qed.

Lemma round_at_nonneg a d : 0 <= a -> 0 < d -> 0 <= rnd a d.
Proof.
  intros Ha Hd. unfold round_at.
  pose proof (ulp_pow_pos a d) as Hp.
  pose proof (rne_bounds a (d * 2 ^ ulp a d) ltac:(nia)) as [Hl _].
  assert (0 <= a / (d * 2 ^ ulp a d)) by (apply Z.div_pos; nia). nia.
Qed.

Lemma rne_exact k d : 0 < d -> rne (k * d) d = k.
Proof.
  intros Hd. unfold rne. rewrite Z.div_mul, Z.mod_mul by lia.
  destruct (2 * 0 <? d) eqn:?; bool_to_prop; lia.
Qed.

(** A significand below [2^prec], with its leading bit set unless the exponent
    is the least one, is fixed by rounding. *)
Lemma round_at_fixed k e :
  emin <= e -> 0 <= k <= 2 ^ prec -> (e = emin \/ 2 ^ (prec - 1) <= k) ->
  rnd (k * 2 ^ e) 1 = k * 2 ^ e.
Proof.
  intros He Hk Hn. pose proof (pow2_pos e ltac:(lia)) as Hp. unfold round_at, ulp_exp.
  rewrite Z.div_1_r, Z.mul_1_l.
  destruct (Z.eq_dec k 0) as [->|Hk0].
  { rewrite Z.mul_0_l. simpl Z.log2. rewrite <- (Z.mul_0_l (2 ^ Z.max emin (0 - (prec - 1)))).
    rewrite rne_exact; [lia|]. apply pow2_pos. lia. }
  destruct (Z.eq_dec k (2 ^ prec)) as [->|Hkp].
  - rewrite <- Z.pow_add_r, Z.log2_pow2 by lia.
    replace (Z.max emin (prec + e - (prec - 1))) with (e + 1) by lia.
    replace (2 ^ (prec + e)) with (2 ^ (prec - 1) * 2 ^ (e + 1))
      by (rewrite <- Z.pow_add_r by lia; f_equal; lia).
    rewrite rne_exact by (apply pow2_pos; lia). done.
  - rewrite Z.log2_mul_pow2 by lia.
    assert (Hl : Z.log2 k < prec) by (apply Z.log2_lt_pow2; lia).
    destruct Hn as [->|Hn].
    + replace (Z.max emin (emin + Z.log2 k - (prec - 1))) with emin by lia.
      rewrite rne_exact by done. done.
    + assert (prec - 1 <= Z.log2 k) by (apply Z.log2_le_pow2; lia).
      replace (Z.max emin (e + Z.log2 k - (prec - 1))) with e by lia.
      rewrite rne_exact by done. done.
Qed.

Lemma round_at_idem a d : 0 <= a -> 0 < d -> rnd (rnd a d) 1 = rnd a d.
Proof.
  intros Ha Hd. pose proof (ulp_exp_ge a d) as He. pose proof (ulp_pow_pos a d) as Hp.
  unfold round_at at 2 3. apply round_at_fixed; [done| |].
  - split; [|by apply round_at_upper].
    pose proof (rne_bounds a (d * 2 ^ ulp a d) ltac:(nia)) as [Hl _].
    assert (0 <= a / (d * 2 ^ ulp a d)) by (apply Z.div_pos; nia). lia.
  - destruct (Z.eq_dec (ulp a d) emin) as [->|]; [by left|right].
    apply round_at_lower; lia.
Qed.
End Format.

(** The same facts for binary64. *)
Lemma round_pos_mono a1 d1 a2 d2 :
  0 <= a1 -> 0 <= a2 -> 0 < d1 -> 0 < d2 -> a1 * d2 <= a2 * d1 ->
  round_pos a1 d1 <= round_pos a2 d2.
Proof. by apply round_at_mono. Qed.

Lemma round_pos_nonneg a d : 0 <= a -> 0 < d -> 0 <= round_pos a d.
Proof. by apply round_at_nonneg. Qed.

Lemma round_pos_idem a d : 0 <= a -> 0 < d -> round_pos (round_pos a d) 1 = round_pos a d.
Proof. by apply round_at_idem. Qed.

(** Order on floats that are not NaN, as a proposition. *)
Definition fle (x y : float) : Prop := fleb x y = true.
Definition flt (x y : float) : Prop := fltb x y = true.

Infix "<=" := fle : float_scope.
Infix "<" := flt : float_scope.

(** The signed rounding [round_ratio] works on, before the overflow test. *)
Definition round_signed (n d : Z) : Z := Z.sgn n * round_pos (Z.abs n) d.

Lemma round_signed_mono n1 d1 n2 d2 :
  0 < d1 -> 0 < d2 -> n1 * d2 <= n2 * d1 -> round_signed n1 d1 <= round_signed n2 d2.
Proof.
  intros H1 H2 H. unfold round_signed.
  pose proof (round_pos_nonneg (Z.abs n1) d1 ltac:(lia) H1).
  pose proof (round_pos_nonneg (Z.abs n2) d2 ltac:(lia) H2).
  destruct (Z.le_gt_cases 0 n1), (Z.le_gt_cases 0 n2).
  - pose proof (round_pos_mono (Z.abs n1) d1 (Z.abs n2) d2
      ltac:(lia) ltac:(lia) H1 H2 ltac:(nia)).
    assert (n2 = 0 -> n1 = 0) by nia.
    destruct (Z.sgn_spec n1) as [[? ->]|[[? ->]|[? ->]]];
      destruct (Z.sgn_spec n2) as [[? ->]|[[? ->]|[? ->]]]; lia.
  - nia.
  - destruct (Z.sgn_spec n1) as [[? ->]|[[? ->]|[? ->]]]; lia.
  - pose proof (round_pos_mono (Z.abs n2) d2 (Z.abs n1) d1
      ltac:(lia) ltac:(lia) H2 H1 ltac:(nia)).
    rewrite !Z.sgn_neg by lia. lia.
Qed.

Lemma overflow_pos : 0 < overflow.
Proof. apply pow2_pos; lia. Qed.

Lemma overflow_sign n d :
  0 < d -> overflow <= Z.abs (round_signed n d) -> (n <? 0) = (round_signed n d <? 0).
Proof.
  intros Hd Ho. pose proof overflow_pos.
  pose proof (round_pos_nonneg (Z.abs n) d ltac:(lia) Hd). unfold round_signed in *.
  destruct (Z.sgn_spec n) as [[? E]|[[? E]|[? E]]]; rewrite E in *; lia.
Qed.

Lemma round_ratio_mono n1 d1 n2 d2 :
  0 < d1 -> 0 < d2 -> n1 * d2 <= n2 * d1 ->
  (round_ratio n1 d1 <= round_ratio n2 d2)%float.
Proof.
  intros H1 H2 H. pose proof overflow_pos.
  pose proof (round_signed_mono _ _ _ _ H1 H2 H) as Hz.
  pose proof (overflow_sign n1 d1 H1) as Hs1. pose proof (overflow_sign n2 d2 H2) as Hs2.
  unfold fle, fleb, round_ratio. fold (round_signed n1 d1) (round_signed n2 d2).
  destruct (overflow <=? Z.abs (round_signed n1 d1)) eqn:O1;
    destruct (overflow <=? Z.abs (round_signed n2 d2)) eqn:O2; bool_to_prop; simpl;
    rewrite ?Hs1, ?Hs2 by lia; lia.
Qed.

(** ** Rounding yields, and fixes, representable numbers *)

Lemma round_ratio_wf n d : 0 < d -> wf_float (round_ratio n d) = true.
Proof.
  intros Hd. unfold round_ratio. destruct (overflow <=? _) eqn:Ho; [done|].
  bool_to_prop. simpl. rewrite andb_true_iff, Z.eqb_eq, Z.ltb_lt. split; [|done].
  pose proof (round_pos_nonneg (Z.abs n) d ltac:(lia) Hd).
  rewrite Z.abs_mul, (Z.abs_eq (round_pos _ _)) by done.
  destruct (Z.eq_dec n 0) as [->|Hn]; [done|].
  replace (Z.abs (Z.sgn n)) with 1 by (destruct n; simpl in *; lia).
  rewrite Z.mul_1_l. apply round_pos_idem; lia.
Qed.

Lemma round_ratio_fixed z : wf_float (Fin z) = true -> round_ratio z 1 = Fin z.
Proof.
  simpl. rewrite andb_true_iff, Z.eqb_eq, Z.ltb_lt. intros [Hr Ho].
  unfold round_ratio. rewrite Hr, Z.mul_comm, Z.abs_sgn.
  destruct (overflow <=? Z.abs z) eqn:E; bool_to_prop; [lia|done].
Qed.

(** Every operation returns a representable number. *)
Lemma flit_wf n d : 0 < d -> wf_float (flit n d) = true.
Proof. apply round_ratio_wf. Qed.

Lemma fneg_wf x : wf_float x = true -> wf_float (fneg x) = true.
Proof. destruct x; simpl; auto. by rewrite Z.abs_opp. Qed.

Lemma fadd_wf x y : wf_float (fadd x y) = true.
Proof.
  destruct x as [a|s|], y as [b|t|]; simpl; try done.
  - by apply (round_ratio_wf (a + b) 1).
  - by destruct (Bool.eqb s t).
Qed.

Lemma fsub_wf x y : wf_float (fsub x y) = true.
Proof. apply fadd_wf. Qed.

Lemma fmul_wf x y : wf_float (fmul x y) = true.
Proof.
  destruct x as [a|s|], y as [b|t|]; simpl; try done.
  - apply round_ratio_wf. by apply pow2_pos.
  - by destruct (a =? 0).
  - by destruct (b =? 0).
Qed.

Lemma fmin_wf x y : wf_float x = true -> wf_float y = true -> wf_float (fmin x y) = true.
Proof. unfold fmin. by destruct (fltb y x). Qed.

#[export] Hint Resolve flit_wf fneg_wf fadd_wf fsub_wf fmul_wf fmin_wf : sched.

(** ** Order laws *)

(** Case analysis on floats followed by integer arithmetic. *)
Ltac float_cases :=
  try unfold fle, flt in *; unfold fleb in *;
  repeat match goal with
  | x : float |- _ => destruct x as [?|[]|]
  end; simpl in *; try discriminate; try done; try lia.

Lemma fle_Fin a b : (Fin a <= Fin b)%float <-> (a <= b)%Z.
Proof. unfold fle, fleb. cbn -[Z.ltb Z.eqb]. lia. Qed.

Lemma flt_Fin a b : (Fin a < Fin b)%float <-> (a < b)%Z.
Proof. unfold flt. cbn -[Z.ltb]. lia. Qed.

Lemma fle_refl x : is_nan x = false -> (x <= x)%float.
Proof. float_cases. Qed.

Lemma fle_trans x y z : (x <= y -> y <= z -> x <= z)%float.
Proof. float_cases. Qed.

Lemma flt_le x y : (x < y -> x <= y)%float.
Proof. float_cases. Qed.

Lemma fle_lt_trans x y z : (x <= y -> y < z -> x < z)%float.
Proof. float_cases. Qed.

Lemma flt_le_trans x y z : (x < y -> y <= z -> x < z)%float.
Proof. float_cases. Qed.

Lemma flt_trans x y z : (x < y -> y < z -> x < z)%float.
Proof. float_cases. Qed.

Lemma fltb_irrefl x : fltb x x = false.
Proof. float_cases. Qed.

Lemma fltb_false x y :
  is_nan x = false -> is_nan y = false -> fltb x y = false <-> (y <= x)%float.
Proof. float_cases. Qed.

Lemma fltb_not_le x y : (y <= x)%float -> fltb x y = false.
Proof. float_cases. Qed.

Lemma fleb_false x y :
  is_nan x = false -> is_nan y = false -> fleb x y = false <-> (y < x)%float.
Proof. float_cases. Qed.

Lemma fle_antisym x y : (x <= y -> y <= x -> x = y)%float.
Proof. float_cases. intros. f_equal. lia. Qed.

Lemma fle_not_nan x y : (x <= y)%float -> is_nan x = false /\ is_nan y = false.
Proof. float_cases. Qed.

Lemma feqb_eq x y : feqb x y = true -> x = y.
Proof. float_cases. intros. f_equal. lia. Qed.

Lemma feqb_refl x : is_nan x = false -> feqb x x = true.
Proof. float_cases. Qed.

Lemma fle_lt x y : (x <= y)%float -> x <> y -> (x < y)%float.
Proof. float_cases. intros H Hne. assert (z <> z0) by congruence. lia. Qed.

Lemma is_fin_not_nan x : is_fin x = true -> is_nan x = false.
Proof. by destruct x. Qed.

#[export] Hint Resolve fle_refl fle_trans flt_le fle_lt_trans flt_le_trans is_fin_not_nan : sched.

Lemma fmin_le_l x y : is_nan x = false -> (fmin x y <= x)%float.
Proof. unfold fmin. intros. destruct (fltb y x) eqn:E; auto with sched. Qed.

Lemma fmin_le_r x y : is_nan x = false -> is_nan y = false -> (fmin x y <= y)%float.
Proof.
  unfold fmin. intros. destruct (fltb y x) eqn:E; auto with sched. by apply fltb_false.
Qed.

Lemma fmin_glb x y z : (z <= x -> z <= y -> z <= fmin x y)%float.
Proof. unfold fmin. by destruct (fltb y x). Qed.

Lemma fmin_mono x y z : is_nan z = false -> (x <= y -> fmin x z <= fmin y z)%float.
Proof. unfold fmin. float_cases; repeat split_if; float_cases. Qed.

Lemma fmin_r x y : (y <= x)%float -> fmin x y = y.
Proof.
  intros H. unfold fmin. destruct (fltb y x) eqn:E; [done|].
  pose proof (fle_not_nan _ _ H) as [? ?].
  apply fltb_false in E; [|done..]. by apply fle_antisym.
Qed.

(** ** Arithmetic laws *)

Lemma fadd_mono_l x y z : is_fin z = true -> (x <= y)%float -> (fadd x z <= fadd y z)%float.
Proof.
  destruct z as [c|?|]; [|done..]. intros _ H.
  destruct x as [a|[]|], y as [b|[]|]; simpl; try done;
    unfold fle, fleb in *; simpl in *; try done.
  - apply round_ratio_mono; lia.
  - unfold round_ratio. by destruct (_ <=? _); simpl; [destruct (_ <? _)|].
  - unfold round_ratio. by destruct (_ <=? _); simpl; [destruct (_ <? _)|].
Qed.

Lemma fneg_anti x y : (x <= y)%float -> (fneg y <= fneg x)%float.
Proof. float_cases. Qed.

Lemma fadd_comm x y : fadd x y = fadd y x.
Proof.
  destruct x as [a|[]|], y as [b|[]|]; simpl; try done. by rewrite Z.add_comm.
Qed.

(** Subtraction is monotone in its first and antitone in its second operand. *)
Lemma fsub_mono_l x y z : is_fin z = true -> (x <= y)%float -> (fsub x z <= fsub y z)%float.
Proof. intros Hz H. apply fadd_mono_l; [by destruct z|done]. Qed.

Lemma fsub_anti_r x y z : is_fin x = true -> (y <= z)%float -> (fsub x z <= fsub x y)%float.
Proof.
  intros Hx H. unfold fsub. rewrite !(fadd_comm x). apply fadd_mono_l; [done|].
  by apply fneg_anti.
Qed.

Lemma fsub_0_r x : wf_float x = true -> fsub x f0 = x.
Proof.
  destruct x as [a|s|]; try done. intros Hx. unfold fsub. simpl.
  rewrite Z.add_0_r. by apply round_ratio_fixed.
Qed.

(** Taking a nonnegative amount away never raises a number. *)
Lemma fsub_le x y :
  wf_float x = true -> is_fin x = true -> (f0 <= y)%float -> (fsub x y <= x)%float.
Proof.
  intros Hwf Hfin Hy. rewrite <- (fsub_0_r x Hwf) at 2. by apply fsub_anti_r.
Qed.

Lemma round_ratio_0 d : round_ratio 0 d = Fin 0.
Proof. unfold round_ratio. simpl. done. Qed.

Lemma fmul_nonneg x y :
  is_fin x = true -> is_fin y = true -> (f0 <= x)%float -> (f0 <= y)%float ->
  (f0 <= fmul x y)%float.
Proof.
  destruct x as [a|?|], y as [b|?|]; try done. intros _ _ Ha Hb. simpl.
  unfold f0. rewrite <- (round_ratio_0 1).
  apply fle_Fin in Ha, Hb.
  apply round_ratio_mono; [done|by apply pow2_pos|nia].
Qed.

Lemma fmul_mono_r x y z :
  is_fin x = true -> is_fin y = true -> is_fin z = true ->
  (f0 <= x)%float -> (y <= z)%float -> (fmul x y <= fmul x z)%float.
Proof.
  destruct x as [a|?|], y as [b|?|], z as [c|?|]; try done. intros _ _ _ Ha Hb. simpl.
  apply fle_Fin in Ha, Hb.
  pose proof (pow2_pos grid ltac:(done)).
  apply round_ratio_mono; [done..|].
  apply Z.mul_le_mono_nonneg_r; [lia|]. by apply Z.mul_le_mono_nonneg_l.
Qed.

Lemma fadd_nonneg x y :
  is_fin x = true -> is_fin y = true -> (f0 <= x)%float -> (f0 <= y)%float ->
  (f0 <= fadd x y)%float.
Proof.
  destruct x as [a|?|], y as [b|?|]; try done. intros _ _ Ha Hb. simpl.
  unfold f0. rewrite <- (round_ratio_0 1).
  apply fle_Fin in Ha, Hb.
  apply round_ratio_mono; lia.
Qed.

(** The same with a left operand that may have overflowed. *)
Lemma fmul_nonneg_pos x y :
  is_fin y = true -> (f0 <= x)%float -> (f0 < y)%float -> (f0 <= fmul x y)%float.
Proof.
  destruct y as [b|?|]; try done. intros _ Hx Hy. apply flt_Fin in Hy.
  destruct x as [a|[]|]; try done.
  - apply fmul_nonneg; try done. apply fle_Fin. lia.
  - simpl. destruct (b =? 0) eqn:E; [bool_to_prop; lia|].
    destruct (b <? 0) eqn:E'; [bool_to_prop; lia|done].
Qed.

(** Rounding is evaluated by [vm_compute] only: the other reduction machines
    would unfold thousand-bit constants. *)
Lemma unit_pos : 0 < 2 ^ grid.
Proof. by apply pow2_pos. Qed.

Lemma flit_mono_1 n d m : 0 < d -> n <= m * d -> (flit n d <= of_int m)%float.
Proof. intros Hd H. pose proof unit_pos. apply round_ratio_mono; nia. Qed.

Lemma of_int_def n : of_int n = round_ratio (n * 2 ^ grid) 1.
Proof. done. Qed.

Lemma flit_def n d : flit n d = round_ratio (n * 2 ^ grid) d.
Proof. done. Qed.

#[global] Opaque round_ratio grid overflow flit of_int f1.

(** Closes a goal that is decided by evaluating closed float expressions. *)
Ltac fcompute := vm_compute; first [reflexivity | done].

Lemma fdiv_Fin a b : 0 < b -> fdiv (Fin a) (Fin b) = Ok (round_ratio (a * 2 ^ grid) b).
Proof. intros Hb. destruct b as [|b|]; try lia. simpl. by rewrite Z.mul_1_r. Qed.

Lemma fdiv_of_int_Ok x n : 0 < n -> exists y, fdiv x (of_int n) = Ok y.
Proof.
  intros Hn. pose proof unit_pos as Hu.
  assert (Hm : (of_int 1 <= of_int n)%float).
  { rewrite !of_int_def. apply round_ratio_mono; [lia|lia|].
    clear -Hn Hu. generalize dependent (2 ^ grid). nia. }
  assert (H1 : (f0 < of_int 1)%float) by (vm_compute; reflexivity).
  pose proof (flt_le_trans _ _ _ H1 Hm) as H. clear Hm H1.
  destruct (of_int n) as [z|s|]; [|by destruct x; eauto..].
  apply flt_Fin in H. destruct z as [|z|z]; [lia| |lia].
  destruct x; simpl; eauto.
Qed.

Lemma of_int_10 : of_int 10 = Fin (10 * 2 ^ grid). Proof. fcompute. Qed.
Lemma of_int_5 : of_int 5 = Fin (5 * 2 ^ grid). Proof. fcompute. Qed.

Lemma fin_between x y : (f0 <= x)%float -> (x <= y)%float -> is_fin y = true -> is_fin x = true.
Proof. by destruct x as [?|[]|], y as [?|[]|]. Qed.

(** Scaling what exceeds one by a nonnegative factor. *)
Lemma scaled_excess_nonneg k e :
  is_fin k = true -> (f0 <= k)%float -> is_fin e = true -> wf_float e = true ->
  (f1 <= e)%float -> (f0 <= fmul k (fsub e f1))%float.
Proof.
  intros Hkf Hk Hef Hew He.
  assert (H0 : (f0 <= fsub e f1)%float).
  { replace f0 with (fsub f1 f1) by fcompute. apply fsub_mono_l; [fcompute|done]. }
  apply fmul_nonneg; [done| |done..].
  apply (fin_between _ e); [done| |done]. apply fsub_le; [done..|]. fcompute.
Qed.

Lemma fin_between_inv x b : (f0 <= x)%float -> (x <= Fin b)%float -> exists a, x = Fin a /\ 0 <= a <= b.
Proof.
  destruct x as [a|[]|]; try done. intros H0 Hb. apply fle_Fin in H0, Hb. eauto.
Qed.

Lemma fdiv_pos_Ok x y : fltb f0 y = true -> exists q, fdiv x y = Ok q.
Proof.
  intros Hy. destruct y as [z|[]|]; try done; [|destruct x; simpl; eauto].
  destruct z as [|z|z]; try done. destruct x; simpl; eauto.
Qed.

Lemma fle_pos_inf x : is_nan x = false -> (x <= Inf false)%float.
Proof. by destruct x as [?|[]|]. Qed.

Lemma fle_neg_inf x : is_nan x = false -> (Inf true <= x)%float.
Proof. by destruct x as [?|[]|]. Qed.

Lemma fle_inv_neg a : ~ (Fin a <= Inf true)%float.
Proof. done. Qed.

Lemma fle_inv_pos a : ~ (Inf false <= Fin a)%float.
Proof. done. Qed.

Lemma of_int_mono n m : n <= m -> (of_int n <= of_int m)%float.
Proof.
  intros H. rewrite !of_int_def. pose proof unit_pos. apply round_ratio_mono; [lia|lia|].
  clear -H H0. generalize dependent (2 ^ grid). nia.
Qed.

Lemma of_int_0 : of_int 0 = f0. Proof. fcompute. Qed.

Lemma of_int_2_53 : of_int (2 ^ 53) = Fin (2 ^ 53 * 2 ^ grid). Proof. fcompute. Qed.
Lemma f1_def : f1 = Fin (2 ^ grid). Proof. fcompute. Qed.

(** A part of a count: multiplying by a ratio between 0 and 1 and truncating. *)
Lemma count_part n r :
  0 <= n <= 2 ^ 53 -> (f0 <= r)%float -> (r <= f1)%float ->
  exists k, to_int (fmul (of_int n) r) = Ok k /\ 0 <= k.
Proof.
  intros [Hn Hn'] Hr0 Hr1. pose proof unit_pos as Hu.
  assert (Hn0 : (f0 <= of_int n)%float) by (rewrite <- of_int_0; by apply of_int_mono).
  assert (Hnm : (of_int n <= of_int (2 ^ 53))%float) by (by apply of_int_mono).
  assert (Hnf : is_fin (of_int n) = true) by (apply (fin_between _ _ Hn0 Hnm); fcompute).
  assert (Hrf : is_fin r = true) by (apply (fin_between _ _ Hr0 Hr1); fcompute).
  assert (H0 : (f0 <= fmul (of_int n) r)%float) by (by apply fmul_nonneg).
  assert (H1 : (fmul (of_int n) r <= fmul (of_int n) f1)%float)
    by (apply fmul_mono_r; [assumption|assumption|fcompute|assumption|assumption]).
  assert (H2 : (fmul (of_int n) f1 <= fmul (of_int (2 ^ 53)) f1)%float).
  { destruct (of_int n) as [a|?|]; [|discriminate Hnf..].
    rewrite of_int_2_53 in Hnm |- *. rewrite f1_def. apply fle_Fin in Hnm.
    clear -Hnm Hu. unfold fmul. apply round_ratio_mono; [exact Hu|exact Hu|].
    generalize dependent (2 ^ grid). generalize (2 ^ 53). nia. }
  assert (Hf : is_fin (fmul (of_int n) r) = true)
    by (apply (fin_between _ _ H0 (fle_trans _ _ _ H1 H2)); fcompute).
  destruct (fmul (of_int n) r) as [z|?|]; [|discriminate Hf..].
  apply fle_Fin in H0. eexists. split; [reflexivity|]. apply Z.quot_pos; [exact H0|exact Hu].
Qed.

#[global] Opaque fle flt.

(** ** Single precision

    NumPy and torch compute on binary32 numbers, which are grid points too:
    24 significant bits, least subnormal [2^-149] = [2^925] grid units,
    overflow at [2^128]. *)
Definition round_pos32 (a d : Z) : Z := round_at 925 24 a d.

Definition round_ratio32 (n d : Z) : float :=
  let z := Z.sgn n * round_pos32 (Z.abs n) d in
  if 2 ^ 1202 <=? Z.abs z then Inf (n <? 0) else Fin z.

Definition to_f32 (x : float) : float :=
  match x with Fin z => round_ratio32 z 1 | _ => x end.

Definition fsub32 (x y : float) : float :=
  match x, y with
  | Fin a, Fin b => round_ratio32 (a - b) 1
  | _, _ => fsub x y
  end.

(** Array division does not raise: a zero divisor gives an infinity or NaN. *)
Definition fdiv32 (x y : float) : float :=
  match x, y with
  | NaN, _ | _, NaN => NaN
  | Fin a, Fin b =>
      if b =? 0 then (if a =? 0 then NaN else Inf (a <? 0))
      else round_ratio32 (a * Z.sgn b * 2 ^ grid) (Z.abs b)
  | Inf _, Fin _ => Inf (xorb (fsign x) (fsign y))
  | Fin _, Inf _ => Fin 0
  | Inf _, Inf _ => NaN
  end.

(** Converting to single precision twice is converting once. *)
Lemma to_f32_idem x : to_f32 (to_f32 x) = to_f32 x.
Proof.
  destruct x as [z|s|]; [|done..]. simpl. unfold round_ratio32.
  set (w := Z.sgn z * round_pos32 (Z.abs z) 1).
  destruct (2 ^ 1202 <=? Z.abs w) eqn:E; [done|]. simpl. unfold round_ratio32.
  assert (Hw : Z.abs w = round_pos32 (Z.abs z) 1).
  { subst w. assert (0 <= round_pos32 (Z.abs z) 1) by (apply round_at_nonneg; lia).
    destruct (Z.eq_dec z 0) as [->|]; [vm_compute; done|].
    rewrite Z.abs_mul, (Z.abs_eq (round_pos32 _ _)) by done.
    replace (Z.abs (Z.sgn z)) with 1 by (destruct z; simpl in *; lia). lia. }
  assert (Hf : round_pos32 (Z.abs w) 1 = Z.abs w).
  { rewrite Hw. apply round_at_idem; lia. }
  rewrite Hf, Z.mul_comm, Z.abs_sgn, E. done.
Qed.

#[global] Opaque round_ratio32.
