(* ===== verification/Heapq.v ===== *)
(** * The heapq module of the Python standard library

    [heappush] and [heappop] on a list, with the loops of [_siftdown] and
    [_siftup] as CPython runs them: [_siftup] moves the smaller child up until
    the hole reaches a leaf and only then lets the new item sink back with
    [_siftdown].  Items are compared with [<] only.  The order laws are asked
    of a set [V] of items, because Python's [<] on floats is not an order once
    a NaN takes part. *)
From Stdlib Require Import Lia.
From stdpp Require Import base option list sorting.
From S2P Require Import Prelude.

Section Heapq.
Context {A : Type} (lt : A -> A -> bool).

Definition parent (i : nat) : nat := (i - 1) / 2.

(** [_siftdown(heap, 0, pos)]: [x] is the item being placed.  The index falls
    at every turn, so [pos] itself is enough fuel. *)
Fixpoint siftdown_loop (fuel : nat) (h : list A) (x : A) (pos : nat) : list A :=
  match fuel with
  | 0 => <[pos := x]> h
  | S fuel' =>
      if 0 <? pos then
        match h !! parent pos with
        | Some p =>
            if lt x p then siftdown_loop fuel' (<[pos := p]> h) x (parent pos)
            else <[pos := x]> h
        | None => <[pos := x]> h
        end
      else <[pos := x]> h
  end.

Definition siftdown (h : list A) (pos : nat) : list A :=
  match h !! pos with
  | Some x => siftdown_loop pos h x pos
  | None => h
  end.

(** The child of [pos] the loop of [_siftup] follows. *)
Definition pick_child (h : list A) (pos : nat) : option (nat * A) :=
  let c := 2 * pos + 1 in
  match h !! c, h !! (c + 1) with
  | Some l, Some r => if lt l r then Some (c, l) else Some (c + 1, r)
  | Some l, None => Some (c, l)
  | None, _ => None
  end.

(** The loop of [_siftup]: the array with its hole, and where the hole ends. *)
Fixpoint siftup_loop (fuel : nat) (h : list A) (pos : nat) : list A * nat :=
  match fuel with
  | 0 => (h, pos)
  | S fuel' =>
      match pick_child h pos with
      | Some (c, y) => siftup_loop fuel' (<[pos := y]> h) c
      | None => (h, pos)
      end
  end.

Definition siftup (h : list A) : list A :=
  match h !! 0 with
  | Some x =>
      let '(h', pos) := siftup_loop (length h) h 0 in
      siftdown (<[pos := x]> h') pos
  | None => h
  end.

Definition heappush (h : list A) (x : A) : list A := siftdown (h ++ [x]) (length h).

(** [None] is the IndexError of popping an empty list. *)
Definition heappop (h : list A) : option (A * list A) :=
  match last h with
  | None => None
  | Some lastelt =>
      let h' := take (length h - 1) h in
      match h' !! 0 with
      | Some r => Some (r, siftup (<[0 := lastelt]> h'))
      | None => Some (lastelt, [])
      end
  end.

Lemma parent_iff i p : 0 < i -> parent i = p <-> i = 2 * p + 1 \/ i = 2 * p + 2.
Proof.
  intros Hi. unfold parent.
  pose proof (Nat.div_mod_eq (i - 1) 2). pose proof (Nat.mod_upper_bound (i - 1) 2).
  lia.
Qed.

Lemma parent_lt i : 0 < i -> parent i < i.
Proof. intros Hi. pose proof (proj1 (parent_iff i _ Hi) eq_refl). lia. Qed.

(** ** The items are kept *)

Lemma siftdown_loop_length fuel h x pos : length (siftdown_loop fuel h x pos) = length h.
Proof.
  revert h pos. induction fuel as [|fuel IH]; intros h pos; simpl; [apply length_insert|].
  repeat (split_if || split_opt); rewrite ?IH, ?length_insert; done.
Qed.

Lemma siftdown_loop_perm fuel h x pos :
  pos < length h -> siftdown_loop fuel h x pos ≡ₚ <[pos := x]> h.
Proof.
  revert h pos. induction fuel as [|fuel IH]; intros h pos Hpos; simpl; [done|].
  destruct (0 <? pos) eqn:E0; [|done]. bool_to_prop.
  destruct (h !! parent pos) as [p|] eqn:Ep; [|done].
  destruct (lt x p); [|done].
  pose proof (parent_lt pos E0).
  rewrite IH by (rewrite length_insert; lia).
  rewrite <- (Permutation_insert_swap (<[pos := x]> h) (parent pos) pos p x).
  - by rewrite (list_insert_insert_ne h (parent pos) pos x x), list_insert_insert_eq,
      (list_insert_insert_ne h) by lia.
  - by rewrite list_lookup_insert_ne by lia.
  - by apply list_lookup_insert_eq.
Qed.

Lemma siftdown_perm h pos : siftdown h pos ≡ₚ h.
Proof.
  unfold siftdown. destruct (h !! pos) as [x|] eqn:E; [|done].
  rewrite siftdown_loop_perm by (by eapply lookup_lt_Some).
  by rewrite list_insert_id.
Qed.

Lemma pick_child_spec h pos c y :
  pick_child h pos = Some (c, y) -> h !! c = Some y /\ (c = 2 * pos + 1 \/ c = 2 * pos + 2).
Proof.
  unfold pick_child. intros H. repeat (split_opt || split_if); simplify_eq; split; auto; lia.
Qed.

Lemma siftup_loop_perm fuel h pos x h' pos' :
  pos < length h -> siftup_loop fuel h pos = (h', pos') ->
  pos' < length h' /\ length h' = length h /\ <[pos' := x]> h' ≡ₚ <[pos := x]> h.
Proof.
  revert h pos. induction fuel as [|fuel IH]; intros h pos Hpos Hl; simpl in Hl.
  { simplify_eq. done. }
  destruct (pick_child h pos) as [[c y]|] eqn:Ec; [|simplify_eq; done].
  apply pick_child_spec in Ec as [Hy Hc]. pose proof (lookup_lt_Some _ _ _ Hy).
  apply IH in Hl as (? & Hlen & Hp); [|by rewrite length_insert].
  rewrite length_insert in Hlen. split; [done|split; [done|]].
  rewrite Hp, <- (Permutation_insert_swap (<[pos := x]> h) c pos y x).
  - by rewrite (list_insert_insert_ne h c pos x x), list_insert_insert_eq,
      (list_insert_insert_ne h) by lia.
  - by rewrite list_lookup_insert_ne by lia.
  - by apply list_lookup_insert_eq.
Qed.

Lemma siftup_perm h : siftup h ≡ₚ h.
Proof.
  unfold siftup. destruct (h !! 0) as [x|] eqn:E; [|done].
  destruct (siftup_loop (length h) h 0) as [h' pos] eqn:El.
  apply (siftup_loop_perm _ _ _ x) in El as (? & ? & Hp); [|by eapply lookup_lt_Some].
  rewrite siftdown_perm, Hp. by rewrite list_insert_id.
Qed.

Lemma heappush_perm h x : heappush h x ≡ₚ x :: h.
Proof. unfold heappush. rewrite siftdown_perm. by rewrite (comm app). Qed.

Lemma heappop_perm h r h' : heappop h = Some (r, h') -> h ≡ₚ r :: h'.
Proof.
  unfold heappop. destruct (last h) as [e|] eqn:El; [|done].
  apply last_Some in El as [k ->]. rewrite length_app. simpl.
  replace (length k + 1 - 1) with (length k) by lia. rewrite take_app_length.
  destruct (k !! 0) as [x|] eqn:Ek; intros H; simplify_eq.
  - destruct k as [|y k]; simplify_eq/=. rewrite siftup_perm. simpl.
    by rewrite (comm app).
  - by destruct k.
Qed.

Lemma heappop_None h : heappop h = None <-> h = [].
Proof.
  unfold heappop. split; [|by intros ->].
  destruct (last h) eqn:E; [|by apply last_None in E].
  split_opt; done.
Qed.

Lemma heappop_length h r h' : heappop h = Some (r, h') -> length h = S (length h').
Proof. intros H. by rewrite (heappop_perm _ _ _ H). Qed.
End Heapq.

(** ** The heap order *)

Section HeapOrder.
Context {A : Type} (lt : A -> A -> bool) (V : A -> Prop).

(** [a] may stand above [b]. *)
Definition above (a b : A) : Prop := lt b a = false.

(** The laws asked of [<] on the items of [V]: a strict weak order. *)
Class HeapOrder : Prop := {
  lt_asym a b : V a -> V b -> lt a b = true -> above a b;
  above_trans a b c : V a -> V b -> V c -> above a b -> above b c -> above a c;
}.

Definition heap_ok (h : list A) : Prop :=
  forall i a b, 0 < i -> h !! parent i = Some a -> h !! i = Some b -> above a b.

(** A heap but for the item at [pos], which may be smaller than its parent. *)
Definition heap_below (h : list A) (pos : nat) : Prop :=
  (forall i a b, 0 < i -> i <> pos ->
     h !! parent i = Some a -> h !! i = Some b -> above a b) /\
  (forall i a b, 0 < i -> parent i = pos -> 0 < pos ->
     h !! parent pos = Some a -> h !! i = Some b -> above a b).

(** A heap with a hole at [pos]. *)
Definition heap_hole (h : list A) (pos : nat) : Prop :=
  (forall i a b, 0 < i -> i <> pos -> parent i <> pos ->
     h !! parent i = Some a -> h !! i = Some b -> above a b) /\
  (forall i a b, 0 < i -> parent i = pos -> 0 < pos ->
     h !! parent pos = Some a -> h !! i = Some b -> above a b).

Context `{HeapOrder}.

Lemma heap_below_0 h : heap_below h 0 -> heap_ok h.
Proof. intros [H1 _] i a b Hi. apply H1; lia. Qed.

Lemma heap_below_ok h pos p x :
  0 < pos -> h !! parent pos = Some p -> h !! pos = Some x -> above p x ->
  heap_below h pos -> heap_ok h.
Proof.
  intros Hpos Hp Hx Hpx [H1 _] i a b Hi Ha Hb.
  destruct (decide (i = pos)) as [->|]; [|eauto]. by simplify_eq.
Qed.

(** One turn of [_siftdown]: the parent comes down, the item goes up. *)
Lemma heap_below_step h pos p x :
  Forall V h -> 0 < pos -> h !! parent pos = Some p -> h !! pos = Some x ->
  lt x p = true -> heap_below h pos ->
  heap_below (<[parent pos := x]> (<[pos := p]> h)) (parent pos).
Proof.
  intros HV Hpos Hp Hx Hlt [H1 H2].
  pose proof (parent_lt pos Hpos) as Hpp.
  pose proof (lookup_lt_Some _ _ _ Hp) as Lp. pose proof (lookup_lt_Some _ _ _ Hx) as Lx.
  assert (HVl : forall i a, h !! i = Some a -> V a) by (intros; by eapply Forall_lookup_1).
  assert (Hxp : above x p) by (apply lt_asym; eauto).
  set (h' := <[parent pos := x]> _).
  assert (Lk : forall i, h' !! i = if decide (i = parent pos) then Some x
                                   else if decide (i = pos) then Some p else h !! i).
  { intros i. subst h'. repeat case_decide; subst.
    - by rewrite list_lookup_insert_eq by (rewrite length_insert; done).
    - by rewrite list_lookup_insert_ne, list_lookup_insert_eq by done.
    - by rewrite !list_lookup_insert_ne by done. }
  split; intros i a b Hi; rewrite !Lk; pose proof (parent_lt i Hi).
  - intros Hne. destruct (decide (i = parent pos)) as [|_]; [done|].
    repeat case_decide; intros; simplify_eq; try lia; eauto.
    eapply (above_trans _ p); eauto. apply (H1 i); [done..| |done]. congruence.
  - intros Hpar Hpos'. pose proof (parent_lt _ Hpos').
    repeat case_decide; intros; simplify_eq; try lia; eauto.
    eapply (above_trans _ p); eauto.
    apply (H1 i); [done..| |done]. congruence.
Qed.

Lemma siftdown_loop_ok fuel h x pos :
  pos <= fuel -> pos < length h -> Forall V (<[pos := x]> h) ->
  heap_below (<[pos := x]> h) pos -> heap_ok (siftdown_loop lt fuel h x pos).
Proof.
  revert h pos. induction fuel as [|fuel IH]; intros h pos Hf Hlen HV Hb; simpl.
  { assert (pos = 0) as -> by lia. by apply heap_below_0. }
  destruct (0 <? pos) eqn:E0; bool_to_prop;
    [|assert (pos = 0) as -> by lia; by apply heap_below_0].
  pose proof (parent_lt pos E0).
  destruct (h !! parent pos) as [p|] eqn:Ep; [|apply lookup_ge_None in Ep; lia].
  assert (Hp : <[pos := x]> h !! parent pos = Some p) by (by rewrite list_lookup_insert_ne by lia).
  assert (Hx : <[pos := x]> h !! pos = Some x) by (by apply list_lookup_insert_eq).
  destruct (lt x p) eqn:Elt; [|by eapply heap_below_ok].
  pose proof (heap_below_step _ _ _ _ HV E0 Hp Hx Elt Hb) as Hstep.
  rewrite list_insert_insert_eq in Hstep.
  apply IH; rewrite ?length_insert; [lia|lia| |done].
  eapply Forall_Permutation; [reflexivity| |exact HV].
  rewrite <- (Permutation_insert_swap _ _ _ _ _ Hp Hx).
  by rewrite (list_insert_insert_ne h (parent pos) pos x x), list_insert_insert_eq,
    (list_insert_insert_ne h) by lia.
Qed.

Lemma siftdown_ok h pos :
  pos < length h -> Forall V h -> heap_below h pos -> heap_ok (siftdown lt h pos).
Proof.
  intros Hl HV Hb. unfold siftdown.
  destruct (h !! pos) as [x|] eqn:E; [|apply lookup_ge_None in E; lia].
  apply siftdown_loop_ok; rewrite ?list_insert_id by done; auto.
Qed.

(** The child the loop picks stands above its sibling. *)
Lemma pick_child_above h pos c y i b :
  Forall V h -> pick_child lt h pos = Some (c, y) ->
  0 < i -> parent i = pos -> h !! i = Some b -> above y b.
Proof.
  intros HV Hpc Hi Hpar Hb. apply parent_iff in Hpar; [|done].
  assert (HVl : forall i a, h !! i = Some a -> V a) by (intros; by eapply Forall_lookup_1).
  assert (Hrefl : forall a, V a -> above a a).
  { intros a Ha. unfold above. destruct (lt a a) eqn:E; [|done]. by pose proof (lt_asym a a Ha Ha E) as <-. }
  unfold pick_child in Hpc. replace (2 * pos + 1 + 1) with (2 * pos + 2) in * by lia.
  destruct Hpar as [->| ->]; repeat (split_opt || split_if); simplify_eq; eauto.
  by apply lt_asym; eauto.
Qed.

(** One turn of [_siftup]: the picked child fills the hole. *)
Lemma heap_hole_step h pos c y :
  Forall V h -> pos < length h -> pick_child lt h pos = Some (c, y) ->
  heap_hole h pos -> heap_hole (<[pos := y]> h) c.
Proof.
  intros HV Hlen Hpc [H1 H2]. pose proof (pick_child_spec _ _ _ _ _ Hpc) as [Hy Hc].
  assert (Hpc' : parent c = pos) by (apply parent_iff; lia).
  assert (Hsib : forall i b, 0 < i -> parent i = pos -> h !! i = Some b -> above y b)
    by (intros; by eapply pick_child_above).
  assert (Lk : forall i, <[pos := y]> h !! i = if decide (i = pos) then Some y else h !! i).
  { intros i. case_decide; subst; [by apply list_lookup_insert_eq|].
    by rewrite list_lookup_insert_ne by done. }
  split; intros i a b Hi; rewrite !Lk; pose proof (parent_lt i Hi).
  - intros Hne Hpne. repeat case_decide; intros; simplify_eq; try lia; eauto.
    eapply (H2 c); eauto; lia.
  - intros Hpar Hcpos. rewrite Hpc'.
    repeat case_decide; intros; simplify_eq; try lia.
    eapply (H1 i); eauto; congruence || lia.
Qed.

Lemma siftup_loop_ok fuel h pos h' pos' :
  length h <= fuel + pos -> pos < length h -> Forall V h -> heap_hole h pos ->
  siftup_loop lt fuel h pos = (h', pos') ->
  Forall V h' /\ heap_hole h' pos' /\ length h' <= 2 * pos' + 1.
Proof.
  revert h pos. induction fuel as [|fuel IH]; intros h pos Hf Hlen HV Hh Hl; simpl in Hl; [lia|].
  destruct (pick_child lt h pos) as [[c y]|] eqn:Ec.
  - pose proof (pick_child_spec _ _ _ _ _ Ec) as [Hy Hc]. pose proof (lookup_lt_Some _ _ _ Hy).
    apply IH in Hl; rewrite ?length_insert; [done|lia|done| |by eapply heap_hole_step].
    apply Forall_insert; [done|]. by eapply Forall_lookup_1.
  - simplify_eq. split; [done|split; [done|]]. unfold pick_child in Ec.
    destruct (h' !! (2 * pos' + 1)) eqn:E; [|by apply lookup_ge_None in E].
    repeat (split_opt || split_if); done.
Qed.

(** A hole without children can take any item. *)
Lemma heap_hole_leaf h pos x :
  length h <= 2 * pos + 1 -> heap_hole h pos -> heap_below (<[pos := x]> h) pos.
Proof.
  intros Hlen [H1 _].
  assert (Hno : forall i, 0 < i -> i < length h -> parent i <> pos).
  { intros i Hi Hl Hp. apply parent_iff in Hp; lia. }
  split; intros i a b Hi.
  - intros Hne Ha Hb. apply lookup_lt_Some in Hb as Lb. rewrite length_insert in Lb.
    specialize (Hno i Hi Lb). rewrite list_lookup_insert_ne in Ha, Hb by done. eauto.
  - intros Hpar _ _ Hb. apply lookup_lt_Some in Hb. rewrite length_insert in Hb.
    by destruct (Hno i Hi Hb).
Qed.

Lemma siftup_ok h : Forall V h -> heap_hole h 0 -> heap_ok (siftup lt h).
Proof.
  intros HV Hh. unfold siftup. destruct (h !! 0) as [x|] eqn:E.
  2: { intros i a b Hi Ha Hb. apply lookup_lt_Some in Hb. apply lookup_ge_None in E. lia. }
  apply lookup_lt_Some in E as Hlen.
  destruct (siftup_loop lt (length h) h 0) as [h' pos] eqn:El.
  pose proof (siftup_loop_perm lt _ _ _ x _ _ Hlen El) as (Hpos & Hl' & Hp).
  apply siftup_loop_ok in El as (HV' & Hh' & Hleaf); [|lia|done..].
  apply siftdown_ok; rewrite ?length_insert; [done| |by apply heap_hole_leaf].
  apply Forall_insert; [done|]. by apply (Forall_lookup_1 _ _ _ _ HV E).
Qed.

(** ** The two operations keep the heap, and the root is a least item *)

Lemma heap_ok_nil : heap_ok [].
Proof. intros i a b _ Ha. by rewrite lookup_nil in Ha. Qed.

Lemma heappush_ok h x : Forall V h -> V x -> heap_ok h -> heap_ok (heappush lt h x).
Proof.
  intros HV Hx Hh. apply siftdown_ok.
  - rewrite length_app. simpl. lia.
  - by apply Forall_app_2; [|apply Forall_singleton].
  - split; intros i a b Hi.
    + intros Hne Ha Hb. apply lookup_lt_Some in Hb as Lb. rewrite length_app in Lb. simpl in Lb.
      pose proof (parent_lt i Hi).
      rewrite lookup_app_l in Ha, Hb by lia. eauto.
    + intros Hpar _ _ Hb. apply lookup_lt_Some in Hb as Lb. rewrite length_app in Lb. simpl in Lb.
      pose proof (parent_lt i Hi). lia.
Qed.

Lemma heappop_ok h r h' :
  Forall V h -> heap_ok h -> heappop lt h = Some (r, h') -> heap_ok h'.
Proof.
  intros HV Hh. unfold heappop. destruct (last h) as [e|] eqn:El; [|done].
  apply last_Some in El as [k ->]. rewrite length_app. simpl.
  replace (length k + 1 - 1) with (length k) by lia. rewrite take_app_length.
  apply Forall_app in HV as [HVk HVe]. apply (Forall_singleton V e) in HVe.
  destruct (k !! 0) as [x|] eqn:Ek; intros; simplify_eq; [|apply heap_ok_nil].
  apply siftup_ok; [by apply Forall_insert|].
  split; intros i a b Hi; [|lia]. intros Hne Hpne Ha Hb.
  rewrite list_lookup_insert_ne in Ha, Hb by lia.
  apply (Hh i); [done|..]; rewrite lookup_app_l; eauto using lookup_lt_Some.
Qed.

Lemma heap_root h r x : Forall V h -> heap_ok h -> h !! 0 = Some r -> x ∈ h -> above r x.
Proof.
  intros HV Hh Hr Hx. apply list_elem_of_lookup in Hx as [i Hi].
  revert x Hi. induction (lt_wf i) as [i _ IH]. intros x Hi.
  assert (HVl : forall i a, h !! i = Some a -> V a) by (intros; by eapply Forall_lookup_1).
  destruct (decide (i = 0)) as [->|Hne].
  - simplify_eq. unfold above. destruct (lt r r) eqn:E; [|done].
    by pose proof (lt_asym r r ltac:(eauto) ltac:(eauto) E) as <-.
  - pose proof (parent_lt i ltac:(lia)).
    assert (parent i < length h) as [a Ha]%lookup_lt_is_Some_2
      by (apply lookup_lt_Some in Hi; lia).
    apply (above_trans _ a); eauto. apply (Hh i); [lia|done..].
Qed.

Lemma heappop_root h r h' : heappop lt h = Some (r, h') -> h !! 0 = Some r.
Proof.
  unfold heappop. destruct (last h) as [e|] eqn:El; [|done].
  apply last_Some in El as [k ->]. rewrite length_app. simpl.
  replace (length k + 1 - 1) with (length k) by lia. rewrite take_app_length.
  destruct (k !! 0) as [x|] eqn:Ek; intros; simplify_eq.
  - rewrite lookup_app_l; eauto using lookup_lt_Some.
  - by destruct k.
Qed.

Lemma heappop_min h r h' x :
  Forall V h -> heap_ok h -> heappop lt h = Some (r, h') -> x ∈ h -> above r x.
Proof. intros HV Hh Hp. apply heap_root; [done..|]. by eapply heappop_root. Qed.

Lemma heappush_Forall (P : A -> Prop) h x : Forall P h -> P x -> Forall P (heappush lt h x).
Proof. intros. rewrite heappush_perm. by constructor. Qed.

Lemma heappop_Forall (P : A -> Prop) h r h' :
  heappop lt h = Some (r, h') -> Forall P h -> P r /\ Forall P h'.
Proof. intros Hp HP. rewrite (heappop_perm _ _ _ _ Hp) in HP. by apply Forall_cons. Qed.
End HeapOrder.

#[export] Hint Resolve heap_ok_nil heappush_ok heappop_ok heappush_Forall : sched.
