(* ===== verification/Features.v ===== *)
(** * Feature schema (python/predictor/features.py) *)
From Stdlib Require Import ZArith Lia.
From stdpp Require Import base option list strings gmap fin_maps.
From S2P Require Import Prelude PyFloat.
Local Open Scope string_scope.
Local Open Scope list_scope.
Local Open Scope nat_scope.

Definition FEATURE_NAMES : list string := [
  "prompt_token_count"; "prompt_char_count"; "word_count"; "avg_token_length";
  "avg_word_length"; "vocabulary_size"; "unique_word_ratio"; "prompt_entropy";
  "information_density"; "punctuation_count"; "question_mark_count";
  "exclamation_count"; "period_count"; "comma_count"; "digit_count";
  "uppercase_ratio"; "lowercase_ratio"; "whitespace_ratio"; "has_markdown";
  "has_code_fence"; "has_python"; "has_sql"; "has_json"; "has_xml"; "has_yaml";
  "url_count"; "newline_count"; "conversation_turn_count"; "has_system_prompt";
  "has_assistant_prompt"; "has_user_prompt"; "language_code"; "unicode_ratio";
  "reasoning_score"; "coding_probability"; "stopword_ratio"; "sentence_count";
  "avg_sentence_length"; "named_entity_count"; "embedding_norm"].

Definition NUM_FEATURES : nat := length FEATURE_NAMES.

(** A frozen dataclass with one field; [make_feature_vector] is its
    constructor with the check of [__post_init__]. *)
Record FeatureVector := mkFeatures { values : list float }.

Definition make_feature_vector (vs : list float) : result FeatureVector :=
  if bool_decide (length vs = NUM_FEATURES) then Ok (mkFeatures vs)
  else Raise (ValueError "Expected 40 features").

Definition as_list (v : FeatureVector) : list float := v.(values).

(** [dict(zip(FEATURE_NAMES, self.values, strict=True))] *)
Definition as_dict (v : FeatureVector) : result (gmap string float) :=
  if bool_decide (length v.(values) = NUM_FEATURES) then
    Ok (list_to_map (reverse (zip FEATURE_NAMES v.(values))))
  else Raise (ValueError "zip() argument 2 is not the length of argument 1").

Definition dict_get (data : gmap string float) (name : string) : result float :=
  match data !! name with
  | Some x => Ok x
  | None => Raise (KeyError name)
  end.

Definition from_dict (data : gmap string float) : result FeatureVector :=
  rbind (rmap (dict_get data) FEATURE_NAMES) make_feature_vector.

Definition zeros : result FeatureVector :=
  make_feature_vector (map (fun _ => f0) FEATURE_NAMES).

(** The vectors the constructor lets through. *)
Definition wf_features (v : FeatureVector) : Prop := length v.(values) = NUM_FEATURES.

Lemma make_feature_vector_wf vs v : make_feature_vector vs = Ok v -> wf_features v.
Proof. unfold make_feature_vector. case_bool_decide; intros; by simplify_eq. Qed.

Lemma FEATURE_NAMES_nodup : NoDup FEATURE_NAMES.
Proof. apply (bool_decide_unpack _). vm_compute. exact I. Qed.

(** Looking the names up in the zipped dictionary gives the values back. *)
Lemma lookup_zip (names : list string) (vs : list float) (m : gmap string float) :
  NoDup names -> length vs = length names ->
  (forall i n v, names !! i = Some n -> vs !! i = Some v -> m !! n = Some v) ->
  rmap (dict_get m) names = Ok vs.
Proof.
  revert vs. induction names as [|n names IH]; intros [|v vs] Hnd Hl Hm; try done.
  apply NoDup_cons in Hnd as [Hn Hnd]. simpl. unfold dict_get at 1.
  rewrite (Hm 0 n v) by done. simpl. rewrite (IH vs); [done|done|simpl in Hl; lia|].
  intros i. apply (Hm (S i)).
Qed.

Lemma as_dict_lookup v i n x :
  wf_features v -> FEATURE_NAMES !! i = Some n -> v.(values) !! i = Some x ->
  exists d, as_dict v = Ok d /\ d !! n = Some x.
Proof.
  intros Hv Hn Hx. unfold as_dict. rewrite bool_decide_eq_true_2 by done.
  eexists. split; [done|]. apply elem_of_list_to_map_1.
  - rewrite fmap_reverse, fst_zip by (rewrite Hv; done).
    rewrite reverse_Permutation. apply FEATURE_NAMES_nodup.
  - rewrite elem_of_reverse. apply list_elem_of_lookup. exists i.
    by apply lookup_zip_with_Some; eauto.
Qed.

(** Round trip: a feature vector read back from its dictionary is the same
    vector, with every feature in its place. *)
Theorem from_dict_as_dict (v : FeatureVector) :
  wf_features v -> rbind (as_dict v) from_dict = Ok v.
Proof.
  intros Hv. unfold from_dict.
  assert (Hd : exists d, as_dict v = Ok d).
  { unfold as_dict. rewrite bool_decide_eq_true_2 by done. eauto. }
  destruct Hd as [d Hd]. rewrite Hd. cbn [rbind].
  rewrite (lookup_zip FEATURE_NAMES v.(values) d FEATURE_NAMES_nodup Hv).
  - cbn [rbind]. unfold make_feature_vector. rewrite bool_decide_eq_true_2 by done. by destruct v.
  - intros i n x Hn Hx. destruct (as_dict_lookup v i n x Hv Hn Hx) as (d' & Hd' & ?). congruence.
Qed.

(** Building a vector from a dictionary succeeds exactly when every
    feature name is a key, and raises KeyError otherwise; extra keys are
    ignored. *)
Theorem from_dict_total (d : gmap string float) :
  (exists v, from_dict d = Ok v /\ wf_features v) <->
  (forall n, n ∈ FEATURE_NAMES -> is_Some (d !! n)).
Proof.
  split.
  - intros (v & H & _) n Hn. apply rbind_Ok in H as (vs & Hvs & _).
    apply rmap_Ok in Hvs. apply list_elem_of_lookup in Hn as [i Hi].
    destruct (Forall2_lookup_l _ _ _ _ _ Hvs Hi) as (x & _ & Hx). unfold dict_get in Hx.
    destruct (d !! n); [eauto|done].
  - intros H. unfold from_dict.
    rewrite (rmap_total _ (fun n => default f0 (d !! n))).
    + cbn [rbind]. unfold make_feature_vector. rewrite bool_decide_eq_true_2 by (by rewrite length_map).
      eexists. split; [done|]. unfold wf_features. cbn [values]. by rewrite length_map.
    + intros n Hn. unfold dict_get. by destruct (H n Hn) as [x ->].
Qed.

Lemma from_dict_as_dict_witness :
  rbind (as_dict (mkFeatures (map (fun _ => f1) FEATURE_NAMES))) from_dict =
  Ok (mkFeatures (map (fun _ => f1) FEATURE_NAMES)).
Proof. apply from_dict_as_dict. reflexivity. Defined.
