(* ===== verification/Predictor.v ===== *)
(** * Output-length prediction (python/predictor/model.py, predictor.py, inference.py)

    The network itself (torch, TorchScript or ONNX Runtime) is a parameter: a
    function from the normalised feature row to the raw output.  What the
    source adds around it is modelled: the shapes of the layers, the clamp of
    [forward], the normalisation of the features in single precision, the
    loading of the normalisation arrays, and the three predictors built on
    them. *)
From Stdlib Require Import ZArith Lia.
From stdpp Require Import base option list strings gmap.
From S2P Require Import Prelude PyFloat Features.
Local Open Scope string_scope.
Local Open Scope list_scope.
Local Open Scope Z_scope.
Local Open Scope py_scope.

(** ** The model *)

Record ModelConfig := mkModelConfig {
  input_dim : Z;
  hidden_dim : Z;
  dropout : float;
  output_min : float;
  output_max : float;
}.

Definition default_model_config : ModelConfig :=
  mkModelConfig (Z.of_nat NUM_FEATURES) 128 (flit 1 10) (of_int 1) (of_int 4096).

(** [torch.clamp]: NaN passes through. *)
Definition clamp (lo hi x : float) : float := fmin (fmax x lo) hi.

Definition forward (cfg : ModelConfig) (net : list float -> float) (row : list float) : float :=
  clamp cfg.(output_min) cfg.(output_max) (net row).

(** The parameters of [self.net] with their shapes: [nn.Sequential] numbers its
    modules, and ReLU and Dropout have no parameters. *)
Definition param_shapes (cfg : ModelConfig) : list (string * list Z) :=
  let h := cfg.(hidden_dim) in
  let h2 := h / 2 in
  [("net.0.weight", [h; cfg.(input_dim)]); ("net.0.bias", [h]);
   ("net.1.weight", [h]); ("net.1.bias", [h]);
   ("net.4.weight", [h2; h]); ("net.4.bias", [h2]);
   ("net.5.weight", [h2]); ("net.5.bias", [h2]);
   ("net.8.weight", [1; h2]); ("net.8.bias", [1])].

(** [load_state_dict] in its default strict mode: names and shapes must agree. *)
Definition load_state_dict (cfg : ModelConfig) (state : list (string * list Z)) : result unit :=
  if bool_decide (state = param_shapes cfg) then Ok tt
  else Raise (OtherError "Error(s) in loading state_dict").

(** ** Normalisation *)

(** Elementwise operation on one-dimensional arrays, with broadcasting. *)
Definition broadcast (f : float -> float -> float) (xs ys : list float) : result (list float) :=
  if bool_decide (length xs = length ys) then Ok (zip_with f xs ys)
  else match xs, ys with
       | _, [y] => Ok (map (fun x => f x y) xs)
       | [x], _ => Ok (map (f x) ys)
       | _, _ => Raise (ValueError "operands could not be broadcast together")
       end.

(** [np.where(std < 1e-8, 1.0, std)] *)
Definition safe_std (std : list float) : list float :=
  map (fun s => if fltb s (to_f32 (flit 1 100000000)) then f1 else s) std.

(** [(arr - mean) / std] on single-precision arrays. *)
Definition normalize (arr mean std : list float) : result (list float) :=
  let? d := broadcast fsub32 arr mean in
  broadcast fdiv32 d (safe_std std).

(** [np.array(xs, dtype=np.float32)] *)
Definition np_float32 (xs : list float) : list float := map to_f32 xs.

(** The metadata file the export step writes, as far as it is read back. *)
Record ModelMeta := { meta_mean : option (list float); meta_std : option (list float) }.

(** [OutputLengthPredictor.from_checkpoint]: arrays that are missing or empty
    switch normalisation off. *)
Definition checkpoint_norm (meta : option ModelMeta)
    : option (list float) * option (list float) :=
  match meta with
  | None => (None, None)
  | Some m =>
      let mean := np_float32 (default [] m.(meta_mean)) in
      let std := np_float32 (default [] m.(meta_std)) in
      match mean with
      | [] => (None, None)
      | _ => (Some mean, Some std)
      end
  end.

(** [_load_norm_arrays] of inference.py *)
Definition _load_norm_arrays (meta : option ModelMeta)
    : option (list float) * option (list float) :=
  match meta with
  | None => (None, None)
  | Some m =>
      (Some (np_float32 (default [] m.(meta_mean))), Some (np_float32 (default [] m.(meta_std))))
  end.

(** ** The three predictors *)

Record PredictionResult := mkPrediction {
  predicted_tokens : float;
  features : FeatureVector;
  feature_latency_ms : float;
  predict_latency_ms : float;
}.

Definition total_latency_ms (r : PredictionResult) : float :=
  fadd r.(feature_latency_ms) r.(predict_latency_ms).

Definition ms_between (t0 t1 : float) : float := fmul (fsub t1 t0) (of_int 1000).

Record ExtractionResult := {
  ext_features : FeatureVector;
  latency_ms : float;
  ext_prompt : string;
}.

Section Predictors.
(** The feature extractor and the network. *)
Context (extract : string -> result ExtractionResult).
Context (net : list float -> float).

Definition _to_tensor (mean std : option (list float)) (v : FeatureVector) : result (list float) :=
  let arr := np_float32 (as_list v) in
  match mean, std with
  | Some m, Some s => normalize arr (np_float32 m) (np_float32 s)
  | _, _ => Ok arr
  end.

(** [OutputLengthPredictor.predict]; [t0], [t1] are its two clock readings. *)
Definition predict (cfg : ModelConfig) (mean std : option (list float)) (t0 t1 : float)
    (prompt : string) : result PredictionResult :=
  let? ext := extract prompt in
  let? tensor := _to_tensor mean std ext.(ext_features) in
  let pred := forward cfg net tensor in
  Ok (mkPrediction pred ext.(ext_features) ext.(latency_ms) (ms_between t0 t1)).

Definition predict_batch (cfg : ModelConfig) (mean std : option (list float)) (t0 t1 : float)
    (prompts : list string) : result (list PredictionResult) :=
  rmap (predict cfg mean std t0 t1) prompts.
End Predictors.

(** [ONNXPredictor.predict]: [run] is the session on one row. *)
Definition onnx_predict (run : list float -> float) (mean std : option (list float))
    (t0 t1 : float) (v : FeatureVector) : result (float * float) :=
  let arr := np_float32 (as_list v) in
  let? row := match mean with
              | Some m => normalize arr m (default [] std)
              | None => Ok arr
              end in
  Ok (run row, ms_between t0 t1).

(** [TorchScriptPredictor.predict] *)
Definition torchscript_predict (run : list float -> float) (mean std : option (list float))
    (t0 t1 : float) (v : FeatureVector) : result (float * float) :=
  let arr := np_float32 (as_list v) in
  let? row := match mean, std with
              | Some m, Some s => normalize arr m s
              | _, _ => Ok arr
              end in
  Ok (run row, ms_between t0 t1).

Inductive Backend := OnnxBackend | TorchScriptBackend | PyTorchBackend.

(** [load_predictor]: which predictor a backend name selects; anything but the
    two names is the checkpoint predictor. *)
Definition load_predictor (backend : string) : Backend :=
  if bool_decide (backend = "onnx") then OnnxBackend
  else if bool_decide (backend = "torchscript") then TorchScriptBackend
  else PyTorchBackend.

(** ** Properties *)

Lemma forward_bounds (cfg : ModelConfig) (net : list float -> float) row :
  (cfg.(output_min) <= cfg.(output_max))%float -> is_nan (net row) = false ->
  (cfg.(output_min) <= forward cfg net row)%float /\
  (forward cfg net row <= cfg.(output_max))%float.
Proof.
  intros Hc Hn. unfold forward, clamp. generalize dependent (net row). intros x Hn.
  apply fle_not_nan in Hc as Hnn. destruct Hnn as [Hlo Hhi].
  assert (Hm : (output_min cfg <= fmax x (output_min cfg))%float).
  { unfold fmax. destruct (fltb x (output_min cfg)) eqn:E; [by apply fle_refl|].
    by apply fltb_false in E. }
  split; [by apply fmin_glb|]. apply fmin_le_r; [|done]. by destruct (fle_not_nan _ _ Hm).
Qed.

Lemma default_clamp_ok :
  (output_min default_model_config <= output_max default_model_config)%float.
Proof. fcompute. Qed.

Lemma ge_1_truthy x : (of_int 1 <= x)%float -> ftruthy x = true.
Proof.
  intros H. assert (H0 : (f0 < of_int 1)%float) by fcompute.
  pose proof (flt_le_trans _ _ _ H0 H) as Hx. clear H H0.
  destruct x as [z|s|]; [|reflexivity..]. apply flt_Fin in Hx. simpl.
  destruct (z =? 0) eqn:E; [|reflexivity]. bool_to_prop. lia.
Qed.

(** The prediction lies between [output_min] and [output_max] unless the
    network returned NaN, which passes through. *)
Theorem forward_range (cfg : ModelConfig) (net : list float -> float) row :
  (cfg.(output_min) <= cfg.(output_max))%float ->
  if is_nan (net row) then forward cfg net row = NaN
  else (cfg.(output_min) <= forward cfg net row)%float /\
       (forward cfg net row <= cfg.(output_max))%float.
Proof.
  intros Hc. destruct (is_nan (net row)) eqn:Hn; [|by apply forward_bounds].
  unfold forward, clamp. destruct (net row); try done.
  by destruct (output_min cfg), (output_max cfg).
Qed.

Lemma normalize_total arr mean std :
  length mean = length arr -> length std = length arr ->
  exists row, normalize arr mean std = Ok row /\ length row = length arr.
Proof.
  intros Hm Hs. unfold normalize, broadcast. rewrite bool_decide_eq_true_2 by done.
  cbn [rbind]. assert (Hz : length (zip_with fsub32 arr mean) = length arr)
    by (rewrite length_zip_with; lia).
  rewrite bool_decide_eq_true_2 by (unfold safe_std; rewrite length_map; lia).
  eexists. split; [done|]. rewrite length_zip_with. unfold safe_std. rewrite length_map. lia.
Qed.

Lemma np_float32_idem xs : np_float32 (np_float32 xs) = np_float32 xs.
Proof. unfold np_float32. rewrite map_map. apply map_ext. apply to_f32_idem. Qed.

(** A divisor of the normalisation is never zero. *)
Lemma safe_std_nonzero std s : s ∈ safe_std std -> s <> f0.
Proof.
  unfold safe_std. intros (x & -> & _)%list_elem_of_fmap.
  assert (H0 : fltb f0 (to_f32 (flit 1 100000000)) = true) by fcompute.
  destruct (fltb x (to_f32 (flit 1 100000000))) eqn:E.
  - intros H. assert (Hf : feqb f1 f0 = false) by fcompute. by rewrite H in Hf.
  - congruence.
Qed.

(** A prediction as the clamp leaves it: a number between 1 and 4096, or the
    NaN the network returned. *)
Definition clamped (net : list float -> float) (row : list float) (p : float) : Prop :=
  if is_nan (net row) then p = NaN else (of_int 1 <= p)%float /\ (p <= of_int 4096)%float.

Lemma forward_clamped net row : clamped net row (forward default_model_config net row).
Proof. exact (forward_range default_model_config net row default_clamp_ok). Qed.

Lemma clamped_truthy net row p : clamped net row p -> ftruthy p = true.
Proof.
  unfold clamped. destruct (is_nan (net row)); [intros ->; reflexivity|]. intros [H _]. exact (ge_1_truthy p H).
Qed.

(** The checkpoint predictor on well-formed features: with no
    normalisation arrays, or with arrays of the feature count, it succeeds;
    its prediction is what the network says about the normalised row, between
    1 and 4096 unless that is NaN, and true in the scheduler's test, so it is
    never mistaken for a missing prediction. *)
Theorem predict_in_range extract net mean std t0 t1 prompt ext :
  extract prompt = Ok ext -> wf_features ext.(ext_features) ->
  match mean, std with
  | Some m, Some s => length m = NUM_FEATURES /\ length s = NUM_FEATURES
  | _, _ => True
  end ->
  exists r row, predict extract net default_model_config mean std t0 t1 prompt = Ok r /\
    r.(features) = ext.(ext_features) /\ _to_tensor mean std ext.(ext_features) = Ok row /\
    r.(predicted_tokens) = forward default_model_config net row /\
    clamped net row r.(predicted_tokens) /\ ftruthy r.(predicted_tokens) = true.
Proof.
  intros Hext Hwf Hn. unfold predict. rewrite Hext. cbn [rbind].
  assert (Ht : exists row, _to_tensor mean std ext.(ext_features) = Ok row).
  { unfold _to_tensor. destruct mean as [m|]; [|eauto]. destruct std as [s|]; [|eauto].
    destruct Hn as [Hm Hs]. unfold wf_features in Hwf.
    destruct (normalize_total (np_float32 (as_list (ext_features ext))) (np_float32 m)
                (np_float32 s)) as (row & -> & _); [..|eauto];
      unfold np_float32, as_list; rewrite !length_map; congruence. }
  destruct Ht as [row Ht]. rewrite Ht. cbn [rbind]. eexists _, row. cbn [predicted_tokens features].
  pose proof (forward_clamped net row) as Hc.
  exact (conj eq_refl (conj eq_refl (conj eq_refl (conj eq_refl (conj Hc (clamped_truthy _ _ _ Hc)))))).
Qed.

(** A checkpoint loads into a model only if it has that model's shapes: a
    model trained with another hidden dimension does not load into the default
    architecture that from_checkpoint, train.py and evaluate.py build. *)
Theorem checkpoint_loads_iff (cfg : ModelConfig) :
  cfg.(input_dim) = Z.of_nat NUM_FEATURES ->
  load_state_dict default_model_config (param_shapes cfg) = Ok tt <-> cfg.(hidden_dim) = 128.
Proof.
  intros Hin. unfold load_state_dict. case_bool_decide as E.
  - split; [intros _|done]. unfold param_shapes in E. simpl in E. by simplify_eq.
  - split; [done|]. intros Hh. destruct E. unfold param_shapes. by rewrite Hin, Hh.
Qed.

(** The backends disagree on a metadata file without normalisation
    arrays: the checkpoint predictor runs on the raw features, while the ONNX
    and TorchScript predictors raise on every prompt, because they subtract an
    empty array. *)
Theorem missing_norm_arrays_diverge run t0 t1 v :
  wf_features v ->
  let meta := Some {| meta_mean := None; meta_std := None |} in
  _to_tensor (fst (checkpoint_norm meta)) (snd (checkpoint_norm meta)) v =
    Ok (np_float32 (as_list v)) /\
  (exists e, onnx_predict run (fst (_load_norm_arrays meta)) (snd (_load_norm_arrays meta)) t0 t1 v
             = Raise e) /\
  (exists e, torchscript_predict run (fst (_load_norm_arrays meta))
               (snd (_load_norm_arrays meta)) t0 t1 v = Raise e).
Proof.
  intros Hwf meta. unfold wf_features in Hwf. split; [done|].
  destruct v as [[|x [|y vs]]]; [discriminate Hwf|discriminate Hwf|].
  split; eexists; reflexivity.
Qed.

(** The three predictors feed the network the same row: with normalisation
    arrays loaded from one metadata file, the ONNX and the TorchScript
    predictor run on exactly the tensor the checkpoint predictor builds, and
    fail when it fails. *)
Theorem backends_agree run t0 t1 v mean std :
  mean <> [] ->
  let meta := Some {| meta_mean := Some mean; meta_std := Some std |} in
  let arrays := _load_norm_arrays meta in
  let tensor := _to_tensor (fst (checkpoint_norm meta)) (snd (checkpoint_norm meta)) v in
  let answer := rbind tensor (fun row => Ok (run row, ms_between t0 t1)) in
  onnx_predict run (fst arrays) (snd arrays) t0 t1 v = answer /\
  torchscript_predict run (fst arrays) (snd arrays) t0 t1 v = answer.
Proof.
  intros Hne. cbn zeta.
  assert (Hck : checkpoint_norm (Some {| meta_mean := Some mean; meta_std := Some std |}) =
                (Some (np_float32 mean), Some (np_float32 std))) by (by destruct mean).
  rewrite Hck. unfold _to_tensor, onnx_predict, torchscript_predict. cbn [fst snd].
  by rewrite !np_float32_idem.
Qed.

(** ** Witnesses *)

Definition zero_features : FeatureVector := mkFeatures (map (fun _ => f0) FEATURE_NAMES).
Definition zero_extraction (prompt : string) : result ExtractionResult :=
  Ok {| ext_features := zero_features; latency_ms := f0; ext_prompt := prompt |}.

Lemma forward_range_witness :
  (output_min default_model_config <=
   forward default_model_config (fun _ => of_int 5000) [])%float /\
  (forward default_model_config (fun _ => of_int 5000) [] <= output_max default_model_config)%float.
Proof.
  exact (forward_range default_model_config (fun _ => of_int 5000) [] default_clamp_ok).
Defined.

Lemma predict_in_range_witness :
  exists r row, predict zero_extraction (fun _ => f0) default_model_config None None f0 f1 "hi" = Ok r /\
    r.(features) = zero_features /\ _to_tensor None None zero_features = Ok row /\
    r.(predicted_tokens) = forward default_model_config (fun _ => f0) row /\
    clamped (fun _ => f0) row r.(predicted_tokens) /\ ftruthy r.(predicted_tokens) = true.
Proof.
  apply (predict_in_range zero_extraction (fun _ => f0) None None f0 f1 "hi"
           {| ext_features := zero_features; latency_ms := f0; ext_prompt := "hi" |}).
  - reflexivity.
  - reflexivity.
  - exact I.
Defined.

Lemma checkpoint_loads_iff_witness :
  load_state_dict default_model_config
    (param_shapes (mkModelConfig 40 256 (flit 1 10) (of_int 1) (of_int 4096))) = Ok tt <->
  256 = 128.
Proof. apply (checkpoint_loads_iff (mkModelConfig 40 256 (flit 1 10) (of_int 1) (of_int 4096))). reflexivity. Defined.

Lemma missing_norm_arrays_diverge_witness :
  exists e, onnx_predict (fun _ => f1) (Some []) (Some []) f0 f1 zero_features = Raise e.
Proof. exact (proj1 (proj2 (missing_norm_arrays_diverge (fun _ => f1) f0 f1 zero_features eq_refl))). Defined.

Lemma backends_agree_witness :
  onnx_predict (fun _ => f1) (Some (np_float32 [f0])) (Some (np_float32 [f1])) f0 f1 zero_features =
  rbind (_to_tensor (Some (np_float32 [f0])) (Some (np_float32 [f1])) zero_features)
    (fun row => Ok (f1, ms_between f0 f1)).
Proof.
  assert (H : [f0] <> []) by discriminate.
  exact (proj1 (backends_agree (fun _ => f1) f0 f1 zero_features [f0] [f1] H)).
Defined.
