(* ===== verification/Aging.v ===== *)
(** * Aging policies (python/scheduler/aging.py)

    The three aging classes behind [create_aging].  [math.log1p] and
    [math.exp] are C library functions: they are parameters here, with the
    sign facts the bounds below need as the class [Libm]. *)
From Stdlib Require Import ZArith Lia.
From stdpp Require Import base option list strings.
From S2P Require Import Prelude PyFloat.
Local Open Scope Z_scope.
Local Open Scope py_scope.

(** [AgingPolicy] is a string enumeration: its members are equal to, and hash
    like, their values, so a configuration may hold either. *)
Inductive AgingPolicy := LINEAR | LOGARITHMIC | EXPONENTIAL.

Definition policy_value (p : AgingPolicy) : string :=
  match p with
  | LINEAR => "linear"
  | LOGARITHMIC => "logarithmic"
  | EXPONENTIAL => "exponential"
  end.

Record AgingConfig := {
  policy : string;
  factor : float;
  max_boost : float;
  base_priority : float;
}.

Definition default_aging_config : AgingConfig := {|
  policy := policy_value LINEAR;
  factor := flit 1 1000;
  max_boost := of_int 500;
  base_priority := f0;
|}.

(** An object of one of the three aging classes. *)
Inductive AgingFunction :=
| LinearAging (config : AgingConfig)
| LogarithmicAging (config : AgingConfig)
| ExponentialAging (config : AgingConfig).

Definition aging_config_of (a : AgingFunction) : AgingConfig :=
  match a with
  | LinearAging c | LogarithmicAging c | ExponentialAging c => c
  end.

Definition create_aging (config : AgingConfig) : result AgingFunction :=
  if bool_decide (config.(policy) = policy_value LINEAR) then Ok (LinearAging config)
  else if bool_decide (config.(policy) = policy_value LOGARITHMIC) then
    Ok (LogarithmicAging config)
  else if bool_decide (config.(policy) = policy_value EXPONENTIAL) then
    Ok (ExponentialAging config)
  else Raise (KeyError config.(policy)).

Section Boost.
Context (log1p exp : float -> result float).

Definition linear_boost (c : AgingConfig) (wait_time_sec base : float) : result float :=
  let boost := fmul c.(factor) wait_time_sec in
  Ok (fsub base (fmin boost c.(max_boost))).

Definition logarithmic_boost (c : AgingConfig) (wait_time_sec base : float) : result float :=
  let? l := log1p wait_time_sec in
  let boost := fmul (fmul c.(factor) l) (of_int 100) in
  Ok (fsub base (fmin boost c.(max_boost))).

Definition exponential_boost (c : AgingConfig) (wait_time_sec base : float) : result float :=
  let? x := fdiv (fmin wait_time_sec (of_int 10)) (of_int 5) in
  let? e := exp x in
  let boost := fmul (fmul c.(factor) (fsub e f1)) (of_int 50) in
  Ok (fsub base (fmin boost c.(max_boost))).

Definition boost (a : AgingFunction) (wait_time_sec base : float) : result float :=
  match a with
  | LinearAging c => linear_boost c wait_time_sec base
  | LogarithmicAging c => logarithmic_boost c wait_time_sec base
  | ExponentialAging c => exponential_boost c wait_time_sec base
  end.
End Boost.

(** What the bounds below need of the C library: on the arguments the code
    passes, [log1p] of a nonnegative number is nonnegative and [exp] of a
    number between 0 and 2 is finite and at least 1. *)
Class Libm (log1p exp : float -> result float) : Prop := {
  log1p_nonneg x : is_fin x = true -> (f0 <= x)%float ->
    exists y, log1p x = Ok y /\ is_fin y = true /\ (f0 <= y)%float;
  exp_ge_1 x : (f0 <= x)%float -> (x <= of_int 2)%float ->
    exists y, exp x = Ok y /\ is_fin y = true /\ wf_float y = true /\ (f1 <= y)%float;
}.

(** A usable configuration: finite nonnegative factor and cap. *)
Record aging_ok (c : AgingConfig) : Prop := {
  factor_fin : is_fin c.(factor) = true;
  factor_nonneg : (f0 <= c.(factor))%float;
  max_boost_fin : is_fin c.(max_boost) = true;
  max_boost_nonneg : (f0 <= c.(max_boost))%float;
}.

(** ** Lemmas *)

Lemma create_aging_config c a : create_aging c = Ok a -> aging_config_of a = c.
Proof. unfold create_aging. repeat case_bool_decide; intros; by simplify_eq. Qed.

Lemma create_aging_policy p c : c.(policy) = policy_value p -> exists a, create_aging c = Ok a.
Proof. unfold create_aging. intros ->. destruct p; simpl; eauto. Qed.

(** The step the three classes share: taking a capped nonnegative boost off the
    base priority lands between [base - max_boost] and [base]. *)
Lemma capped_sub_bounds b cap base :
  (f0 <= b)%float -> is_fin cap = true -> (f0 <= cap)%float ->
  is_fin base = true -> wf_float base = true ->
  (fsub base cap <= fsub base (fmin b cap) /\ fsub base (fmin b cap) <= base)%float.
Proof.
  intros Hb Hcf Hc Hf Hwf. pose proof (fle_not_nan _ _ Hb) as [_ Hbn].
  split.
  - apply fsub_anti_r; [done|]. apply fmin_le_r; auto with sched.
  - apply fsub_le; [done..|]. by apply fmin_glb.
Qed.

(** The exponent [min(wait, 10) / 5] lies between 0 and 2. *)
Lemma exp_argument w :
  is_fin w = true -> (f0 <= w)%float ->
  exists x, fdiv (fmin w (of_int 10)) (of_int 5) = Ok x /\
    (f0 <= x)%float /\ (x <= of_int 2)%float.
Proof.
  intros Hf Hw.
  assert (Hm : (f0 <= fmin w (of_int 10))%float) by (apply fmin_glb; [done|fcompute]).
  assert (Hm' : (fmin w (of_int 10) <= of_int 10)%float)
    by (apply fmin_le_r; [exact (is_fin_not_nan _ Hf)|fcompute]).
  rewrite of_int_10 in *. apply fin_between_inv in Hm' as (a & -> & Ha); [|done].
  rewrite of_int_5.
  pose proof unit_pos as Hg.
  rewrite fdiv_Fin by lia. eexists. split; [done|].
  rewrite of_int_def. unfold f0. rewrite <- (round_ratio_0 1). clear Hm.
  generalize dependent (2 ^ grid). intros u Ha Hg. split; apply round_ratio_mono; nia.
Qed.

Section BoostProperties.
Context (log1p exp : float -> result float) `{!Libm log1p exp}.

(** Each class takes a capped nonnegative boost off the base priority. *)
Lemma boost_capped (a : AgingFunction) (w base : float) :
  aging_ok (aging_config_of a) -> is_fin w = true -> (f0 <= w)%float ->
  exists b, boost log1p exp a w base = Ok (fsub base (fmin b (max_boost (aging_config_of a)))) /\
    (f0 <= b)%float.
Proof.
  intros [Hff Hf0 Hmf Hm0] Hwf Hw. destruct a as [c|c|c]; simpl in *.
  - eexists. split; [done|]. by apply fmul_nonneg.
  - unfold logarithmic_boost. destruct (log1p_nonneg w) as (l & -> & Hlf & Hl); [done..|]. simpl.
    eexists. split; [done|].
    apply fmul_nonneg_pos; [fcompute|by apply fmul_nonneg|fcompute].
  - unfold exponential_boost. destruct (exp_argument w) as (x & -> & Hx & Hx2); [done..|]. simpl.
    destruct (exp_ge_1 x) as (e & -> & Hef & Hew & He); [done..|]. simpl.
    eexists. split; [done|].
    apply fmul_nonneg_pos; [fcompute| |fcompute].
    apply scaled_excess_nonneg; assumption.
Qed.

(** C33.  Whatever the policy, a boost succeeds on a finite nonnegative wait
    and a finite base priority, and the boosted priority lies between
    [base - max_boost] and [base]: aging never lowers a request's precedence
    and takes at most [max_boost] off in one step. *)
Theorem boost_bounds (a : AgingFunction) (w base : float) :
  aging_ok (aging_config_of a) ->
  is_fin w = true -> (f0 <= w)%float -> is_fin base = true -> wf_float base = true ->
  exists p, boost log1p exp a w base = Ok p /\
    (fsub base (max_boost (aging_config_of a)) <= p)%float /\ (p <= base)%float.
Proof.
  intros Hok Hwf Hw Hbf Hbw. destruct (boost_capped a w base Hok Hwf Hw) as (b & -> & Hb).
  destruct Hok as [_ _ Hmf Hm0]. eexists. split; [reflexivity|]. by apply capped_sub_bounds.
Qed.

(** The linear boost is antitone in the waiting time: of two requests
    with the same base priority, the one that waited longer gets at least the
    precedence of the other. *)
Theorem linear_boost_antitone (c : AgingConfig) (w w' base p p' : float) :
  aging_ok c -> is_fin w = true -> is_fin w' = true -> is_fin base = true ->
  (w <= w')%float ->
  boost log1p exp (LinearAging c) w base = Ok p ->
  boost log1p exp (LinearAging c) w' base = Ok p' -> (p' <= p)%float.
Proof.
  intros [Hff Hf0 Hmf Hm0] Hw Hw' Hb Hle H H'. simpl in *. unfold linear_boost in *.
  simplify_eq. apply fsub_anti_r; [done|]. apply fmin_mono; [auto with sched|].
  by apply fmul_mono_r.
Qed.

(** The exponential boost saturates: beyond ten seconds of waiting it is
    the boost of ten seconds, whatever the configuration. *)
Theorem exponential_boost_saturates (c : AgingConfig) (w base : float) :
  (of_int 10 <= w)%float ->
  boost log1p exp (ExponentialAging c) w base =
  boost log1p exp (ExponentialAging c) (of_int 10) base.
Proof.
  intros Hw. simpl. unfold exponential_boost.
  rewrite (fmin_r w _ Hw), (fmin_r (of_int 10)); [reflexivity|fcompute].
Qed.
End BoostProperties.

(** ** Witnesses *)

(** A library with the required signs: [log1p x = x], [exp x = 1 + x]. *)
Definition toy_log1p (x : float) : result float := Ok x.
Definition toy_exp (x : float) : result float := Ok (fadd f1 x).

#[export] Instance toy_libm : Libm toy_log1p toy_exp.
Proof.
  split; intros x; [by eauto|]. intros H0 H2. exists (fadd f1 x).
  assert (Hx : is_fin x = true)
    by (apply (fin_between _ (of_int 2)); [assumption..|fcompute]).
  assert (Hlo : (f1 <= fadd f1 x)%float).
  { replace f1 with (fadd f0 f1) at 1 by fcompute. rewrite (fadd_comm f1).
    apply fadd_mono_l; [fcompute|assumption]. }
  split; [reflexivity|]. split; [|split; [apply fadd_wf|assumption]].
  apply (fin_between _ (fadd (of_int 2) f1)); [|rewrite fadd_comm|fcompute].
  - eapply fle_trans; [|exact Hlo]. fcompute.
  - apply fadd_mono_l; [fcompute|assumption].
Qed.

Lemma default_aging_ok : aging_ok default_aging_config.
Proof. split; fcompute. Qed.

Lemma boost_bounds_witness :
  exists p, boost toy_log1p toy_exp (ExponentialAging default_aging_config) (of_int 3) (of_int 80) = Ok p /\
    (fsub (of_int 80) (max_boost default_aging_config) <= p)%float /\ (p <= of_int 80)%float.
Proof.
  apply (boost_bounds toy_log1p toy_exp (ExponentialAging default_aging_config)).
  - exact default_aging_ok.
  - fcompute.
  - fcompute.
  - fcompute.
  - fcompute.
Defined.

Lemma linear_boost_antitone_witness :
  exists p p',
    boost toy_log1p toy_exp (LinearAging default_aging_config) (of_int 0) (of_int 100) = Ok p /\
    boost toy_log1p toy_exp (LinearAging default_aging_config) (of_int 10) (of_int 100) = Ok p' /\
    (p' <= p)%float.
Proof.
  set (at_wait w := fsub (of_int 100)
    (fmin (fmul (factor default_aging_config) w) (max_boost default_aging_config))).
  exists (at_wait (of_int 0)), (at_wait (of_int 10)).
  split; [reflexivity|]. split; [reflexivity|].
  eapply (linear_boost_antitone toy_log1p toy_exp default_aging_config (of_int 0) (of_int 10)).
  - exact default_aging_ok.
  - fcompute.
  - fcompute.
  - instantiate (1 := of_int 100). fcompute.
  - fcompute.
  - reflexivity.
  - reflexivity.
Defined.

Lemma exponential_boost_saturates_witness :
  boost toy_log1p toy_exp (ExponentialAging default_aging_config) (of_int 60) (of_int 80) =
  boost toy_log1p toy_exp (ExponentialAging default_aging_config) (of_int 10) (of_int 80).
Proof. apply exponential_boost_saturates. fcompute. Defined.
