(* ===== verification/PriorityQueue.v ===== *)
(** * The asynchronous priority queue (python/scheduler/priority_queue.py)

    One definition per method.  Every read of [time.monotonic()] is an
    argument, in the order the method performs the reads.  The body of each
    method runs under [self._lock]; the only suspension point is the wait of
    [dequeue], which gives the lock up, so a method (or one turn of the outer
    loop of [dequeue], [dequeue_turn]) is one atomic step of the event loop. *)
From Stdlib Require Import ZArith Lia.
From stdpp Require Import base option list strings gmap sorting.
From S2P Require Import Prelude PyFloat Heapq.
Local Open Scope string_scope.
Local Open Scope list_scope.
Local Open Scope nat_scope.

Record PrioritizedItem (T : Type) := mkItem {
  priority : float;
  enqueue_time : float;
  request_id : string;
  payload : T;
}.
Arguments mkItem {T}.
Arguments priority {T}.
Arguments enqueue_time {T}.
Arguments request_id {T}.
Arguments payload {T}.

Record QueueStats := {
  depth : nat;
  total_enqueued : nat;
  total_dequeued : nat;
  total_cancelled : nat;
  avg_wait_ms : float;
  max_wait_ms : float;
}.

Record PriorityQueue (T : Type) := mkQueue {
  _heap : list (PrioritizedItem T);
  _cancelled : gset string;
  _pending : gmap string (PrioritizedItem T);
  _total_enqueued : nat;
  _total_dequeued : nat;
  _total_cancelled : nat;
  _wait_times : list float;
}.
Arguments mkQueue {T}.
Arguments _heap {T}.
Arguments _cancelled {T}.
Arguments _pending {T}.
Arguments _total_enqueued {T}.
Arguments _total_dequeued {T}.
Arguments _total_cancelled {T}.
Arguments _wait_times {T}.

Section Queue.
Context {T : Type}.
Implicit Types (it : PrioritizedItem T) (q : PriorityQueue T) (rid : string).

(** [dataclass(order=True)] compares the tuples of the compared fields, here
    [(priority, enqueue_time)]: the first unequal component decides. *)
Definition item_lt (a b : PrioritizedItem T) : bool :=
  if feqb a.(priority) b.(priority) then fltb a.(enqueue_time) b.(enqueue_time)
  else fltb a.(priority) b.(priority).

Definition new_queue : PriorityQueue T := mkQueue [] ∅ ∅ 0 0 0 [].

Definition enqueue (now : float) rid (prio : float) (p : T) q : PriorityQueue T :=
  let item := mkItem prio now rid p in
  mkQueue (heappush item_lt q.(_heap) item) q.(_cancelled)
    (<[rid := item]> q.(_pending))
    (q.(_total_enqueued) + 1) q.(_total_dequeued) q.(_total_cancelled) q.(_wait_times).

(** The wait-time log keeps its last 5000 entries once it passes 10000. *)
Definition log_wait (ws : list float) (w : float) : list float :=
  let ws' := ws ++ [w] in
  if (10000 <? Z.of_nat (length ws'))%Z
  then drop (Z.to_nat (Z.of_nat (length ws') - 5000)) ws' else ws'.

(** The inner loop of [dequeue]: pop until an item that is not cancelled; each
    turn removes one item, so the length of the heap is enough fuel. *)
Fixpoint pop_loop (fuel : nat) (now : float) q : option (PrioritizedItem T) * PriorityQueue T :=
  match fuel with
  | 0 => (None, q)
  | S fuel' =>
      match heappop item_lt q.(_heap) with
      | None => (None, q)
      | Some (item, h) =>
          if bool_decide (item.(request_id) ∈ q.(_cancelled)) then
            pop_loop fuel' now
              (mkQueue h (q.(_cancelled) ∖ {[item.(request_id)]})
                 (delete item.(request_id) q.(_pending))
                 q.(_total_enqueued) q.(_total_dequeued) (q.(_total_cancelled) + 1)
                 q.(_wait_times))
          else
            let wait_ms := fmul (fsub now item.(enqueue_time)) (of_int 1000) in
            (Some item,
             mkQueue h q.(_cancelled) (delete item.(request_id) q.(_pending))
               q.(_total_enqueued) (q.(_total_dequeued) + 1) q.(_total_cancelled)
               (log_wait q.(_wait_times) wait_ms))
      end
  end.

Definition pop_live (now : float) q := pop_loop (length q.(_heap)) now q.

(** [deadline = time.monotonic() + timeout if timeout else None] *)
Definition dequeue_deadline (timeout : option float) (now : float) : option float :=
  match timeout with
  | Some t => if ftruthy t then Some (fadd now t) else None
  | None => None
  end.

(** What one turn of the outer loop of [dequeue] ends in: it returns an item,
    raises [TimeoutError], or waits for a notification, with a bound on the
    wait when there is a deadline. *)
Inductive dequeue_outcome :=
| Returned (item : PrioritizedItem T)
| TimedOut
| Waits (remaining : option float).

Definition dequeue_turn (deadline : option float) (t_pop t_check t_rem : float) q
    : dequeue_outcome * PriorityQueue T :=
  match pop_live t_pop q with
  | (Some item, q') => (Returned item, q')
  | (None, q') =>
      match deadline with
      | Some d =>
          if ftruthy d && fleb d t_check then (TimedOut, q')
          else
            let remaining := fsub d t_rem in
            if fleb remaining f0 then (TimedOut, q')
            else (Waits (Some remaining), q')
      | None => (Waits None, q')
      end
  end.

Definition cancel rid q : bool * PriorityQueue T :=
  if bool_decide (is_Some (q.(_pending) !! rid)) then
    (true, mkQueue q.(_heap) ({[rid]} ∪ q.(_cancelled)) q.(_pending) q.(_total_enqueued)
             q.(_total_dequeued) q.(_total_cancelled) q.(_wait_times))
  else (false, q).

(** [_cancelled.add] and, after the push, [_cancelled.discard]: the item
    already in the heap is left there. *)
Definition update_priority rid (new_priority : float) q : bool * PriorityQueue T :=
  match q.(_pending) !! rid with
  | None => (false, q)
  | Some item =>
      let new_item := mkItem new_priority item.(enqueue_time) rid item.(payload) in
      (true, mkQueue (heappush item_lt q.(_heap) new_item)
               (({[rid]} ∪ q.(_cancelled)) ∖ {[rid]})
               (<[rid := new_item]> q.(_pending)) q.(_total_enqueued)
               q.(_total_dequeued) q.(_total_cancelled) q.(_wait_times))
  end.

Definition fmax_list (ws : list float) : float :=
  match ws with
  | [] => f0
  | w :: ws' => fold_left fmax ws' w
  end.

Definition stats q : result QueueStats :=
  let waits := q.(_wait_times) in
  rbind (match waits with
         | [] => Ok f0
         | _ => fdiv (fsum waits) (of_int (Z.of_nat (length waits)))
         end)
    (fun avg => Ok {|
       depth := length q.(_heap);
       total_enqueued := q.(_total_enqueued);
       total_dequeued := q.(_total_dequeued);
       total_cancelled := q.(_total_cancelled);
       avg_wait_ms := avg;
       max_wait_ms := fmax_list waits;
     |}).

Definition queue_depth q : nat := length q.(_heap).

(** ** The order of the items *)

(** Items whose keys are not NaN. *)
Definition valid_item it : Prop :=
  is_nan it.(priority) = false /\ is_nan it.(enqueue_time) = false.

#[global] Instance item_heap_order : HeapOrder item_lt valid_item.
Proof.
  split.
  - intros [p t ? ?] [p' t' ? ?] [Hp Ht] [Hp' Ht']. unfold above, item_lt. simpl in *.
    clear -Hp Hp' Ht Ht'. float_cases; repeat split_if; bool_to_prop; try done; lia.
  - intros [p t ? ?] [p' t' ? ?] [p'' t'' ? ?] [Hp Ht] [Hp' Ht'] [Hp'' Ht''].
    unfold above, item_lt. simpl in *. clear -Hp Hp' Hp'' Ht Ht' Ht''.
    float_cases; repeat split_if; bool_to_prop; try done; lia.
Qed.

(** ** Invariant *)

Record queue_inv q : Prop := {
  inv_heap : heap_ok item_lt q.(_heap);
  inv_valid : Forall valid_item q.(_heap);
  inv_pending : forall rid it, q.(_pending) !! rid = Some it ->
    it ∈ q.(_heap) /\ it.(request_id) = rid;
  inv_cancelled : q.(_cancelled) ⊆ dom q.(_pending);
  inv_waits : (Z.of_nat (length q.(_wait_times)) <= 10000)%Z;
}.

Abbreviation ids := (map request_id).

(** What [pop_live] does, on any heap: it drops the cancelled items [skipped]
    it meets on the way, one per cancelled id, and stops at the first item
    that is not cancelled, which no remaining item precedes. *)
Record pop_spec q (skipped : list (PrioritizedItem T)) (r : option (PrioritizedItem T))
    (q' : PriorityQueue T) : Prop := {
  ps_perm : q.(_heap) ≡ₚ skipped ++ option_list r ++ q'.(_heap);
  ps_cancelled : q'.(_cancelled) = q.(_cancelled) ∖ list_to_set (ids skipped);
  ps_skipped : Forall (fun it => it.(request_id) ∈ q.(_cancelled)) skipped;
  ps_nodup : NoDup (ids skipped);
  ps_pending rid : q'.(_pending) !! rid =
    if bool_decide (rid ∈ ids (skipped ++ option_list r)) then None else q.(_pending) !! rid;
  ps_some it : r = Some it -> it.(request_id) ∉ q'.(_cancelled);
  ps_min it x : r = Some it -> x ∈ q'.(_heap) -> above item_lt it x;
  ps_none : r = None -> q'.(_heap) = [];
  ps_enqueued : q'.(_total_enqueued) = q.(_total_enqueued);
  ps_dequeued : q'.(_total_dequeued) = q.(_total_dequeued) + length (option_list r);
  ps_total_cancelled : q'.(_total_cancelled) = q.(_total_cancelled) + length skipped;
}.

Lemma log_wait_bound ws w :
  (Z.of_nat (length ws) <= 10000)%Z -> (Z.of_nat (length (log_wait ws w)) <= 10000)%Z.
Proof.
  unfold log_wait. intros H. destruct (_ <? _)%Z eqn:E; bool_to_prop; [|lia].
  rewrite length_drop. rewrite length_app in *. simpl in *. lia.
Qed.

Lemma pop_spec_empty q : q.(_heap) = [] -> pop_spec q [] None q.
Proof.
  intros Hn. split; simpl; rewrite ?Hn; try done; try lia; [set_solver|constructor..].
Qed.

(** Membership of a key among one more, in the lookups [pop_spec] states. *)
Lemma lookup_delete_cons {B} rid x (l : list string) (m : gmap string B) :
  (if bool_decide (rid ∈ l) then None else delete x m !! rid) =
  if bool_decide (rid ∈ x :: l) then None else m !! rid.
Proof.
  rewrite lookup_delete. destruct (decide (rid ∈ l)), (decide (rid = x));
    repeat case_bool_decide; repeat case_decide; set_solver.
Qed.

Lemma pop_loop_spec fuel now q r q' :
  length q.(_heap) <= fuel -> heap_ok item_lt q.(_heap) -> Forall valid_item q.(_heap) ->
  pop_loop fuel now q = (r, q') ->
  (exists skipped, pop_spec q skipped r q') /\
  heap_ok item_lt q'.(_heap) /\
  ((Z.of_nat (length q.(_wait_times)) <= 10000)%Z ->
   (Z.of_nat (length q'.(_wait_times)) <= 10000)%Z).
Proof.
  revert q. induction fuel as [|fuel IH]; intros q Hlen Hh HV Hl; simpl in Hl.
  { simplify_eq. assert (Hn : q'.(_heap) = []) by (apply nil_length_inv; lia).
    split; [exists []; by apply pop_spec_empty|done]. }
  destruct (heappop item_lt q.(_heap)) as [[item h]|] eqn:Ep.
  2: { simplify_eq. apply heappop_None in Ep.
       split; [exists []; by apply pop_spec_empty|done]. }
  pose proof (heappop_perm _ _ _ _ Ep) as Hperm.
  pose proof (heappop_ok _ _ _ _ _ HV Hh Ep) as Hh'.
  pose proof (heappop_length _ _ _ _ Ep) as Hlen'.
  pose proof (heappop_Forall _ _ _ _ _ Ep HV) as [_ HV'].
  case_bool_decide as Hc.
  - apply IH in Hl as ([sk Hsp] & Hok & Hw); simpl in *; [|lia|done..].
    split; [|done]. exists (item :: sk). destruct Hsp; simpl in *. split; simpl; try done.
    + by rewrite Hperm, ps_perm0.
    + rewrite ps_cancelled0. set_solver.
    + constructor; [done|]. eapply Forall_impl; [done|]. set_solver.
    + constructor; [|done]. rewrite list_elem_of_fmap. intros (it & Heq & Hin).
      rewrite Forall_forall in ps_skipped0. apply ps_skipped0 in Hin. set_solver.
    + intros rid. by rewrite ps_pending0, lookup_delete_cons.
    + rewrite ps_total_cancelled0. lia.
  - simplify_eq. simpl in *. split; [exists []|split; [done|apply log_wait_bound]].
    split; simpl; try done.
    + by rewrite difference_empty_L.
    + constructor.
    + intros rid. by rewrite <- lookup_delete_cons.
    + intros it [= <-]. done.
    + intros it x [= <-] Hx. apply (heappop_min _ _ _ _ _ x HV Hh Ep).
      rewrite Hperm. by right.
Qed.

Lemma pop_live_spec now q r q' :
  queue_inv q -> pop_live now q = (r, q') ->
  (exists skipped, pop_spec q skipped r q') /\ queue_inv q'.
Proof.
  intros [Hh HV Hp Hc Hw] Hl. unfold pop_live in Hl.
  apply pop_loop_spec in Hl as ([sk Hsp] & Hok & Hw'); [|done..].
  split; [by exists sk|]. pose proof Hsp as Hsp'. destruct Hsp.
  assert (Hsub : Forall valid_item q'.(_heap)).
  { rewrite ps_perm0, !Forall_app in HV. tauto. }
  split; auto.
  - intros rid it Hit. rewrite ps_pending0 in Hit. case_bool_decide as Hn; [done|].
    apply Hp in Hit as [Hin <-]. split; [|done]. rewrite ps_perm0 in Hin.
    rewrite map_app in Hn. rewrite !elem_of_app in *.
    destruct Hin as [Hin|[Hin|Hin]]; [..|done]; destruct Hn; [left|right];
      by apply list_elem_of_fmap_2.
  - intros rid Hrid. rewrite ps_cancelled0 in Hrid.
    apply elem_of_difference in Hrid as [Hrid Hns].
    rewrite elem_of_dom, ps_pending0. case_bool_decide as Hn.
    + rewrite map_app, elem_of_app in Hn. destruct Hn as [Hn|Hn]; [set_solver|].
      destruct r as [it|]; [|set_solver]. simpl in Hn. apply list_elem_of_singleton in Hn as ->.
      exfalso. apply (ps_some0 it); [done|]. rewrite ps_cancelled0. set_solver.
    + apply elem_of_dom. by apply Hc.
Qed.

(** ** Sequences of operations *)

Inductive op :=
| Enqueue (now : float) (rid : string) (prio : float) (p : T)
| Dequeue (now : float)
| Cancel (rid : string)
| Update (rid : string) (prio : float).

Inductive out :=
| Done
| Popped (r : option (PrioritizedItem T))
| Flag (b : bool).

Definition step (o : op) q : out * PriorityQueue T :=
  match o with
  | Enqueue now rid prio p => (Done, enqueue now rid prio p q)
  | Dequeue now => let '(r, q') := pop_live now q in (Popped r, q')
  | Cancel rid => let '(b, q') := cancel rid q in (Flag b, q')
  | Update rid prio => let '(b, q') := update_priority rid prio q in (Flag b, q')
  end.

Fixpoint run (os : list op) q : list out * PriorityQueue T :=
  match os with
  | [] => ([], q)
  | o :: os' =>
      let '(r, q1) := step o q in
      let '(rs, q2) := run os' q1 in (r :: rs, q2)
  end.

(** Priorities and clock readings that are numbers. *)
Definition valid_op (o : op) : Prop :=
  match o with
  | Enqueue now _ prio _ => is_nan now = false /\ is_nan prio = false
  | Update _ prio => is_nan prio = false
  | _ => True
  end.

Lemma new_queue_inv : queue_inv new_queue.
Proof.
  split; simpl; [apply heap_ok_nil|constructor| |by apply empty_subseteq|lia].
  intros rid it H. by rewrite lookup_empty in H.
Qed.

Lemma heappush_elem (h : list (PrioritizedItem T)) x y :
  y ∈ heappush item_lt h x <-> y = x \/ y ∈ h.
Proof. by rewrite heappush_perm, elem_of_cons. Qed.

Lemma enqueue_inv now rid prio p q :
  is_nan now = false -> is_nan prio = false -> queue_inv q ->
  queue_inv (enqueue now rid prio p q).
Proof.
  intros Hn Hp [Hh HV Hpd Hc Hw]. split; simpl; auto.
  - by apply (heappush_ok item_lt valid_item).
  - by apply heappush_Forall.
  - intros rid' it. rewrite lookup_insert, heappush_elem. case_decide as E.
    + intros [= <-]. auto.
    + intros Hl. apply Hpd in Hl as [? ?]. auto.
  - rewrite dom_insert_L. set_solver.
Qed.

Lemma cancel_inv rid q b q' : queue_inv q -> cancel rid q = (b, q') -> queue_inv q'.
Proof.
  intros [Hh HV Hpd Hc Hw] H. unfold cancel in H. case_bool_decide as E; simplify_eq; split; auto.
  simpl. apply elem_of_dom in E. set_solver.
Qed.

Lemma update_priority_inv rid prio q b q' :
  is_nan prio = false -> queue_inv q -> update_priority rid prio q = (b, q') -> queue_inv q'.
Proof.
  intros Hp [Hh HV Hpd Hc Hw] H. unfold update_priority in H.
  destruct (q.(_pending) !! rid) as [it|] eqn:E; simplify_eq; [|done].
  destruct (Hpd _ _ E) as [Hin _].
  assert (Hv : valid_item (mkItem prio it.(enqueue_time) rid it.(payload))).
  { split; [done|]. simpl. rewrite Forall_forall in HV. by apply HV in Hin as [_ ?]. }
  split; simpl; auto.
  - by apply (heappush_ok item_lt valid_item).
  - by apply heappush_Forall.
  - intros rid' it'. rewrite lookup_insert, heappush_elem. case_decide.
    + intros [= <-]. auto.
    + intros Hl. apply Hpd in Hl as [? ?]. auto.
  - rewrite dom_insert_L. set_solver.
Qed.

Lemma step_inv o q r q' : valid_op o -> queue_inv q -> step o q = (r, q') -> queue_inv q'.
Proof.
  intros Hv Hi H. destruct o; simpl in *.
  - simplify_eq. apply enqueue_inv; tauto.
  - destruct (pop_live now q) eqn:E. simplify_eq. by apply pop_live_spec in E as [_ ?].
  - destruct (cancel rid q) eqn:E. simplify_eq. by eapply cancel_inv.
  - destruct (update_priority rid prio q) eqn:E. simplify_eq. by eapply update_priority_inv.
Qed.

Lemma run_inv os q rs q' :
  Forall valid_op os -> queue_inv q -> run os q = (rs, q') -> queue_inv q'.
Proof.
  intros Hv. revert q rs.
  induction Hv as [|o os Ho Hos IH]; intros q rs Hi H; simpl in H; [by simplify_eq|].
  destruct (step o q) as [r q1] eqn:Es. destruct (run os q1) as [rs' q2] eqn:Er.
  simplify_eq. eapply IH; [|done]. by eapply step_inv.
Qed.

(** C18.  Every sequence of enqueue, dequeue, cancel and update_priority calls
    whose priorities and clock readings are numbers keeps the queue's
    invariant: the list is a binary heap in the item order, every pending id
    maps to an item of that id in the heap, every cancelled id is pending and
    the wait-time log holds at most 10000 entries. *)
Theorem queue_invariant (os : list op) rs q :
  Forall valid_op os -> run os new_queue = (rs, q) -> queue_inv q.
Proof. intros Hv. apply run_inv; [done|apply new_queue_inv]. Qed.

(** [a] is served before [b], or they tie: lower priority value first, then
    earlier enqueue time. *)
Definition served_first (a b : PrioritizedItem T) : Prop :=
  (a.(priority) < b.(priority))%float \/
  (a.(priority) = b.(priority) /\ (a.(enqueue_time) <= b.(enqueue_time))%float).

Lemma above_served a b :
  valid_item a -> valid_item b -> above item_lt a b -> served_first a b.
Proof.
  intros [Ha Ha'] [Hb Hb']. unfold above, item_lt, served_first.
  destruct (feqb (priority b) (priority a)) eqn:E.
  - apply feqb_eq in E. rewrite E. right. split; [done|]. by apply fltb_false.
  - intros H. apply fltb_false in H; [|done..]. left. apply fle_lt; [done|].
    intros Heq. rewrite Heq, feqb_refl in E; done.
Qed.

(** C2.  Shortest job first: the item a dequeue returns was in the heap, is
    not cancelled, and is served first with respect to every item it leaves
    behind: none has a smaller priority value, and of those with the same
    priority none was enqueued earlier. *)
Theorem dequeue_shortest_first now q it q' x :
  queue_inv q -> pop_live now q = (Some it, q') -> x ∈ q'.(_heap) ->
  (it ∈ q.(_heap)) /\ (it.(request_id) ∉ q'.(_cancelled)) /\ served_first it x.
Proof.
  intros Hi H Hx. pose proof Hi as [_ HV _ _ _].
  apply pop_live_spec in H as [[sk [Hperm _ _ _ _ Hs Hm _ _ _ _]] Hi']; [|done].
  rewrite Hperm in HV. apply Forall_app in HV as [_ HV]. simpl in HV.
  apply Forall_cons in HV as [Hv HV]. rewrite Forall_forall in HV.
  split; [rewrite Hperm; set_solver|]. split; [by apply Hs|].
  apply above_served; auto.
Qed.

(** ** Refinement: a bag served in order

    The contract clients of the queue rely on: a bag of live items.  Enqueue
    adds an item, cancel removes the items of an id, dequeue removes an item
    no other precedes and returns nothing only from an empty bag.  Cancelling
    an id of the bag answers True. *)
Inductive bag_step : list (PrioritizedItem T) -> op -> out -> list (PrioritizedItem T) -> Prop :=
| bag_enqueue b b' now rid prio p :
    b' ≡ₚ mkItem prio now rid p :: b -> bag_step b (Enqueue now rid prio p) Done b'
| bag_cancel b b' rid f :
    b' ≡ₚ filter (fun it => it.(request_id) <> rid) b ->
    (rid ∈ ids b -> f = true) -> bag_step b (Cancel rid) (Flag f) b'
| bag_dequeue b b' now it :
    b ≡ₚ it :: b' -> (forall x, x ∈ b' -> above item_lt it x) ->
    bag_step b (Dequeue now) (Popped (Some it)) b'
| bag_dequeue_empty now : bag_step [] (Dequeue now) (Popped None) [].

Inductive bag_run : list (PrioritizedItem T) -> list op -> list out -> list (PrioritizedItem T) -> Prop :=
| bag_done b : bag_run b [] [] b
| bag_more b o r b1 os rs b2 :
    bag_step b o r b1 -> bag_run b1 os rs b2 -> bag_run b (o :: os) (r :: rs) b2.

(** The bag a queue stands for. *)
Definition live q : list (PrioritizedItem T) :=
  filter (fun it => it.(request_id) ∉ q.(_cancelled)) q.(_heap).

(** Ids are unique in the heap, and the pending ids are those of the heap:
    true as long as ids are fresh and no priority is updated. *)
Record unique_ids q : Prop := {
  ui_nodup : NoDup (ids q.(_heap));
  ui_dom rid : rid ∈ ids q.(_heap) -> is_Some (q.(_pending) !! rid);
}.

Lemma ids_elem it (l : list (PrioritizedItem T)) : it ∈ l -> it.(request_id) ∈ ids l.
Proof. apply list_elem_of_fmap_2. Qed.

Lemma enqueue_refines now rid prio p q :
  rid ∉ ids q.(_heap) -> queue_inv q -> unique_ids q ->
  unique_ids (enqueue now rid prio p q) /\
  bag_step (live q) (Enqueue now rid prio p) Done (live (enqueue now rid prio p q)).
Proof.
  intros Hf [_ _ Hpd Hc _] [Hnd Hdom].
  assert (Hnc : rid ∉ q.(_cancelled)).
  { intros Hin. apply Hc, elem_of_dom in Hin as [it Hit]. apply Hpd in Hit as [Hin <-].
    by apply Hf, ids_elem. }
  split; [split|].
  - simpl. rewrite heappush_perm. simpl. by constructor.
  - intros rid'. simpl. rewrite heappush_perm. simpl. rewrite elem_of_cons, lookup_insert.
    intros [->|Hin]; case_decide; eauto; congruence.
  - constructor. unfold live. simpl. rewrite heappush_perm.
    rewrite filter_cons_True by done. done.
Qed.

Lemma cancel_refines rid q b q' :
  queue_inv q -> unique_ids q -> cancel rid q = (b, q') ->
  unique_ids q' /\ bag_step (live q) (Cancel rid) (Flag b) (live q').
Proof.
  intros [_ _ Hpd _ _] [Hnd Hdom] H. unfold cancel in H.
  case_bool_decide as E; simplify_eq; (split; [by split|]).
  - constructor; [|done]. unfold live. simpl. rewrite list_filter_filter.
    erewrite list_filter_iff; [done|]. set_solver.
  - assert (Hni : rid ∉ ids q'.(_heap)) by (intros Hin; by apply E, Hdom).
    constructor.
    + unfold live. rewrite list_filter_filter. erewrite list_filter_ext_in; [done|].
      intros it Hit. split; [|tauto]. intros Hc. split; [|done].
      intros <-. by apply Hni, ids_elem.
    + intros Hin. destruct Hni. apply list_elem_of_fmap in Hin as (it & -> & Hin).
      apply ids_elem. by apply list_elem_of_filter in Hin as [_ ?].
Qed.

Lemma pop_refines now q r q' :
  queue_inv q -> unique_ids q -> pop_live now q = (r, q') ->
  unique_ids q' /\ bag_step (live q) (Dequeue now) (Popped r) (live q').
Proof.
  intros Hi [Hnd Hdom] H.
  apply pop_live_spec in H as [[sk [Hperm Hcc Hsk Hskn Hpd Hs Hm Hn _ _ _]] Hi']; [|done].
  rewrite Hperm, map_app in Hnd. apply NoDup_app in Hnd as (_ & Hdisj & Hnd).
  assert (Hsk' : filter (fun it => it.(request_id) ∉ q.(_cancelled)) sk = []).
  { apply list_filter_none. intros it Hin Hc.
    rewrite Forall_forall in Hsk. by apply Hc, Hsk. }
  assert (Hrest : forall it, it ∈ option_list r ++ q'.(_heap) ->
            it.(request_id) ∉ q.(_cancelled) <-> it.(request_id) ∉ q'.(_cancelled)).
  { intros it Hin. rewrite Hcc. pose proof (ids_elem _ _ Hin). set_solver. }
  assert (Hlive : live q ≡ₚ filter (fun it => it.(request_id) ∉ q'.(_cancelled))
                              (option_list r ++ q'.(_heap))).
  { unfold live. rewrite Hperm, filter_app, Hsk'. simpl.
    by erewrite list_filter_ext_in; [done|]. }
  rewrite map_app in Hnd. pose proof Hnd as Hnd'. apply NoDup_app in Hnd' as (_ & Hdis & Hnd2).
  split; [split; [done|]|].
  - intros rid Hin. rewrite Hpd. case_bool_decide as E.
    + rewrite map_app, elem_of_app in E. destruct E as [E|E].
      * destruct (Hdisj _ E). rewrite map_app, elem_of_app. auto.
      * by destruct (Hdis _ E).
    + apply Hdom. rewrite Hperm, !map_app, !elem_of_app. auto.
  - destruct r as [it|]; simpl in *.
    + constructor.
      * rewrite Hlive. by rewrite filter_cons_True by (by apply Hs).
      * intros x [_ Hx]%list_elem_of_filter. by apply Hm.
    + rewrite Hn in Hlive by done. simpl in Hlive. apply Permutation_nil_r in Hlive.
      unfold live at 2. rewrite Hlive, Hn by done. constructor.
Qed.

Definition enqueue_ids (os : list op) : list string :=
  omap (fun o => match o with Enqueue _ rid _ _ => Some rid | _ => None end) os.

Definition is_update (o : op) : bool := match o with Update _ _ => true | _ => false end.

(** One step of the queue is one step of the bag, and only an enqueue brings
    an id into the heap. *)
Lemma step_refines o q r q' :
  valid_op o -> is_update o = false -> Forall (fun rid => rid ∉ ids q.(_heap)) (enqueue_ids [o]) ->
  queue_inv q -> unique_ids q -> step o q = (r, q') ->
  unique_ids q' /\ bag_step (live q) o r (live q') /\
  (forall rid, rid ∈ ids q'.(_heap) -> rid ∈ ids q.(_heap) \/ rid ∈ enqueue_ids [o]).
Proof.
  intros Hv Hu Hf Hi Hq H. destruct o as [now rid prio p|now|rid|rid prio]; simpl in *; [..|done].
  - simplify_eq. apply Forall_cons in Hf as [Hf _].
    destruct (enqueue_refines now rid prio p q) as [? ?]; [done..|].
    split; [done|split; [done|]]. intros rid'. simpl. rewrite heappush_perm. simpl.
    rewrite elem_of_cons, list_elem_of_singleton. tauto.
  - destruct (pop_live now q) as [r' q''] eqn:E. simplify_eq.
    destruct (pop_refines _ _ _ _ Hi Hq E) as [? ?]. split; [done|split; [done|]].
    apply pop_live_spec in E as [[sk [Hperm _ _ _ _ _ _ _ _ _ _]] _]; [|done].
    intros rid Hin. left. rewrite Hperm, !map_app, !elem_of_app. auto.
  - destruct (cancel rid q) as [b q''] eqn:E. simplify_eq.
    destruct (cancel_refines _ _ _ _ Hi Hq E) as [? ?]. split; [done|split; [done|]].
    unfold cancel in E. case_bool_decide; simplify_eq; auto.
Qed.

Lemma run_refines os q rs q' :
  Forall valid_op os -> Forall (fun o => is_update o = false) os ->
  NoDup (enqueue_ids os) -> (forall rid, rid ∈ enqueue_ids os -> rid ∉ ids q.(_heap)) ->
  queue_inv q -> unique_ids q -> run os q = (rs, q') -> bag_run (live q) os rs (live q').
Proof.
  revert q rs. induction os as [|o os IH]; intros q rs Hv Hu Hnd Hd Hi Hq H; simpl in H.
  { simplify_eq. constructor. }
  destruct (step o q) as [r q1] eqn:Es. destruct (run os q1) as [rs' q2] eqn:Er. simplify_eq.
  apply Forall_cons in Hv as [Hv Hvs]. apply Forall_cons in Hu as [Hu Hus].
  change (o :: os) with ([o] ++ os) in Hnd, Hd. unfold enqueue_ids in Hnd, Hd.
  rewrite omap_app in Hnd, Hd. apply NoDup_app in Hnd as (_ & Hdis & Hnd).
  destruct (step_refines o q r q1) as (Hq1 & Hstep & Hids); auto.
  { apply Forall_forall. intros rid Hr. apply Hd. rewrite elem_of_app. auto. }
  econstructor; [exact Hstep|]. apply IH; auto; [|by eapply step_inv].
  intros rid Hr Hin. apply Hids in Hin as [Hin|Hin].
  - revert Hin. apply Hd. rewrite elem_of_app. auto.
  - by apply (Hdis rid).
Qed.

(** C1.  Refinement: with fresh request ids and no update_priority, every
    sequence of enqueue, dequeue and cancel calls answers as the bag served in
    order does, and the bag it ends with is the heap without the cancelled
    ids.  In particular a cancelled request is never returned, and a dequeue
    finds nothing only when no live item is left. *)
Theorem queue_refines_bag (os : list op) rs q :
  Forall valid_op os -> Forall (fun o => is_update o = false) os ->
  NoDup (enqueue_ids os) -> run os new_queue = (rs, q) -> bag_run [] os rs (live q).
Proof.
  intros Hv Hu Hnd H. apply (run_refines os new_queue); auto using new_queue_inv.
  - intros rid _ Hin. by apply elem_of_nil in Hin.
  - split; [constructor|]. intros rid Hin. by apply elem_of_nil in Hin.
Qed.

(** ** Accounting *)

(** Successful priority updates of a run. *)
Fixpoint updates (os : list op) (rs : list out) : nat :=
  match os, rs with
  | Update _ _ :: os', Flag true :: rs' => S (updates os' rs')
  | _ :: os', _ :: rs' => updates os' rs'
  | _, _ => 0
  end.

Definition popped_count (rs : list out) : nat :=
  length (filter (fun r => match r with Popped (Some _) => true | _ => false end = true) rs).

Lemma popped_count_cons r rs :
  popped_count (r :: rs) =
  (match r with Popped (Some _) => 1 | _ => 0 end) + popped_count rs.
Proof. unfold popped_count. by destruct r as [|[]|]. Qed.

Lemma step_accounting o q r q' :
  queue_inv q -> step o q = (r, q') ->
  q'.(_total_enqueued) = q.(_total_enqueued) + length (enqueue_ids [o]) /\
  q'.(_total_dequeued) = q.(_total_dequeued) + popped_count [r] /\
  q'.(_total_dequeued) + q'.(_total_cancelled) + length q'.(_heap) +
    q.(_total_enqueued) =
  q.(_total_dequeued) + q.(_total_cancelled) + length q.(_heap) +
    q'.(_total_enqueued) + updates [o] [r].
Proof.
  intros Hi H. destruct o as [now rid prio p|now|rid|rid prio]; simpl in *.
  - simplify_eq. simpl. rewrite heappush_perm. simpl. unfold popped_count. simpl. lia.
  - destruct (pop_live now q) as [r' q''] eqn:E. simplify_eq.
    apply pop_live_spec in E as [[sk [Hperm _ _ _ _ _ _ _ He Hd Hc]] _]; [|done].
    rewrite Hperm, !length_app, He, Hd, Hc. destruct r'; unfold popped_count; simpl; lia.
  - unfold cancel in H. case_bool_decide; simplify_eq; unfold popped_count; simpl; lia.
  - unfold update_priority in H. destruct (q.(_pending) !! rid); simplify_eq;
      unfold popped_count; simpl; rewrite ?heappush_perm; simpl; lia.
Qed.

Lemma updates_cons o os r rs : updates (o :: os) (r :: rs) = updates [o] [r] + updates os rs.
Proof. destruct o; try done. by destruct r as [| |[]]. Qed.

Lemma run_accounting os q rs q' :
  Forall valid_op os -> queue_inv q -> run os q = (rs, q') ->
  q'.(_total_enqueued) = q.(_total_enqueued) + length (enqueue_ids os) /\
  q'.(_total_dequeued) = q.(_total_dequeued) + popped_count rs /\
  q'.(_total_dequeued) + q'.(_total_cancelled) + length q'.(_heap) +
    q.(_total_enqueued) =
  q.(_total_dequeued) + q.(_total_cancelled) + length q.(_heap) +
    q'.(_total_enqueued) + updates os rs.
Proof.
  intros Hv. revert q rs. induction Hv as [|o os Ho Hos IH]; intros q rs Hi H; simpl in H.
  { simplify_eq. simpl. unfold popped_count. simpl. lia. }
  destruct (step o q) as [r q1] eqn:Es. destruct (run os q1) as [rs' q2] eqn:Er. simplify_eq.
  pose proof (step_inv _ _ _ _ Ho Hi Es) as Hi1.
  apply step_accounting in Es as (He & Hd & Hc); [|done].
  apply IH in Er as (He' & Hd' & Hc'); [|done].
  change (o :: os) with ([o] ++ os). unfold enqueue_ids in *. rewrite omap_app, length_app.
  change ([o] ++ os) with (o :: os). rewrite updates_cons, popped_count_cons.
  rewrite popped_count_cons in Hd. unfold popped_count in Hd at 1. simpl in Hd. lia.
Qed.

(** Accounting: after any sequence of calls, total_enqueued and
    total_dequeued count the enqueues and the items returned, and every item
    pushed is accounted for: enqueued + successful updates = dequeued +
    cancelled + depth. *)
Theorem queue_accounting (os : list op) rs q :
  Forall valid_op os -> run os new_queue = (rs, q) ->
  q.(_total_enqueued) = length (enqueue_ids os) /\
  q.(_total_dequeued) = popped_count rs /\
  q.(_total_enqueued) + updates os rs =
    q.(_total_dequeued) + q.(_total_cancelled) + queue_depth q.
Proof.
  intros Hv H. apply run_accounting in H as (He & Hd & Hc); auto using new_queue_inv.
  simpl in *. unfold queue_depth. lia.
Qed.

(** ** Priority updates leave a stale item behind *)

(** update_priority does not replace an item: the item it supersedes stays
    in the heap and stays live, next to the new one, so the heap grows by one
    while the set of pending requests does not, and a pending cancellation of
    the request is lifted. *)
Theorem update_priority_keeps_stale_item rid prio q it :
  queue_inv q -> q.(_pending) !! rid = Some it ->
  exists q' new,
    update_priority rid prio q = (true, q') /\
    new = mkItem prio it.(enqueue_time) rid it.(payload) /\
    q'.(_heap) ≡ₚ new :: q.(_heap) /\
    (it ∈ live q') /\ (new ∈ live q') /\
    queue_depth q' = S (queue_depth q) /\
    dom q'.(_pending) = dom q.(_pending) /\ (rid ∉ q'.(_cancelled)).
Proof.
  intros [_ _ Hpd _ _] Hit. destruct (Hpd _ _ Hit) as [Hin Hid].
  unfold update_priority. rewrite Hit. eexists _, _. split; [done|]. split; [done|].
  unfold live, queue_depth. cbn [_heap _pending _cancelled].
  split; [apply heappush_perm|]. rewrite !list_elem_of_filter, !heappush_elem, heappush_perm.
  assert (rid ∈ dom q.(_pending)) by (apply elem_of_dom; eauto).
  split_and!; [rewrite Hid; set_solver|by right|simpl; set_solver|by left|done| |set_solver].
  rewrite dom_insert_L. set_solver.
Qed.

(** ** One turn of dequeue *)

(** What a turn of the dequeue loop does on an empty-handed heap: without
    a deadline it waits unbounded; with one it waits for the positive time
    that remains, and raises TimeoutError only when the deadline is reached at
    one of its two clock readings.  A zero timeout is no deadline. *)
Theorem dequeue_turn_deadline (timeout : option float) t0 t_pop t_check t_rem q r q' :
  fst (pop_live t_pop q) = None ->
  dequeue_turn (dequeue_deadline timeout t0) t_pop t_check t_rem q = (r, q') ->
  match timeout with
  | None => r = Waits None
  | Some t =>
      if ftruthy t then
        match r with
        | Returned _ => False
        | TimedOut => fleb (fadd t0 t) t_check = true \/ fleb (fsub (fadd t0 t) t_rem) f0 = true
        | Waits None => False
        | Waits (Some rem) => rem = fsub (fadd t0 t) t_rem /\ fleb rem f0 = false
        end
      else r = Waits None
  end.
Proof.
  intros Hp H. unfold dequeue_turn in H. destruct (pop_live t_pop q) as [[it|] q1]; [done|].
  unfold dequeue_deadline in H. destruct timeout as [t|]; [|by simplify_eq].
  destruct (ftruthy t); [|by simplify_eq].
  destruct (ftruthy (fadd t0 t) && fleb (fadd t0 t) t_check) eqn:E1.
  - simplify_eq. bool_to_prop. auto.
  - destruct (fleb (fsub (fadd t0 t) t_rem) f0) eqn:E2; simplify_eq; auto.
Qed.

(** The statistics snapshot never raises (the division is guarded by the
    log being nonempty) and reports the heap's length and the counters. *)
Theorem stats_total q :
  exists s, stats q = Ok s /\ s.(depth) = queue_depth q /\
    s.(total_enqueued) = q.(_total_enqueued) /\
    s.(total_dequeued) = q.(_total_dequeued) /\
    s.(total_cancelled) = q.(_total_cancelled) /\
    (q.(_wait_times) = [] -> s.(avg_wait_ms) = f0 /\ s.(max_wait_ms) = f0).
Proof.
  unfold stats. destruct q.(_wait_times) as [|w ws] eqn:E.
  { eexists. split; [done|]. done. }
  destruct (fdiv_of_int_Ok (fsum (w :: ws)) (Z.of_nat (length (w :: ws)))) as [a Ha]; [simpl; lia|].
  rewrite Ha. eexists. split; [done|]. done.
Qed.
End Queue.

Arguments op : clear implicits.
Arguments out : clear implicits.

(** ** Witnesses and a counterexample run *)

Definition demo_ops : list (op string) :=
  [Enqueue (of_int 1) "a" (of_int 100) "long";
   Enqueue (of_int 2) "b" (of_int 10) "short";
   Enqueue (of_int 3) "c" (of_int 10) "later";
   Cancel "b"; Dequeue (of_int 4); Dequeue (of_int 5); Dequeue (of_int 6)].

Lemma demo_ops_valid : Forall valid_op demo_ops.
Proof.
  unfold demo_ops. repeat (apply Forall_cons; split); try apply Forall_nil; try exact I;
    split; fcompute.
Qed.

Lemma queue_invariant_witness : queue_inv (snd (run demo_ops new_queue)).
Proof.
  apply (queue_invariant demo_ops (fst (run demo_ops new_queue))).
  - exact demo_ops_valid.
  - apply surjective_pairing.
Defined.

Lemma queue_refines_bag_witness :
  bag_run [] demo_ops (fst (run demo_ops new_queue)) (live (snd (run demo_ops new_queue))).
Proof.
  apply (queue_refines_bag demo_ops).
  - exact demo_ops_valid.
  - unfold demo_ops. repeat (apply Forall_cons; split); try apply Forall_nil; reflexivity.
  - apply (bool_decide_unpack _). vm_compute. exact I.
  - apply surjective_pairing.
Defined.

Lemma queue_accounting_witness :
  _total_dequeued (snd (run demo_ops new_queue)) = popped_count (fst (run demo_ops new_queue)).
Proof.
  exact (proj1 (proj2 (queue_accounting demo_ops _ _ demo_ops_valid (surjective_pairing _)))).
Defined.

(** The queue after the three enqueues of [demo_ops]. *)
Definition demo_queue : PriorityQueue string := snd (run (take 3 demo_ops) new_queue).

Lemma demo_queue_inv : queue_inv demo_queue.
Proof.
  apply (run_inv (take 3 demo_ops) new_queue (fst (run (take 3 demo_ops) new_queue))).
  - apply Forall_take, demo_ops_valid.
  - apply new_queue_inv.
  - apply surjective_pairing.
Qed.

Definition item_a : PrioritizedItem string := mkItem (of_int 100) (of_int 1) "a" "long".
Definition item_b : PrioritizedItem string := mkItem (of_int 10) (of_int 2) "b" "short".

Lemma dequeue_shortest_first_witness :
  (item_b ∈ demo_queue.(_heap)) /\
  (request_id item_b ∉ (snd (pop_live (of_int 4) demo_queue)).(_cancelled)) /\
  served_first item_b item_a.
Proof.
  apply (dequeue_shortest_first (of_int 4) demo_queue item_b
           (snd (pop_live (of_int 4) demo_queue)) item_a).
  - exact demo_queue_inv.
  - vm_compute. reflexivity.
  - vm_compute. right. left.
Defined.

Lemma update_priority_keeps_stale_item_witness :
  exists q' new,
    update_priority "a" (of_int 5) demo_queue = (true, q') /\
    new = mkItem (of_int 5) (of_int 1) "a" "long"%string /\
    q'.(_heap) ≡ₚ new :: demo_queue.(_heap) /\
    (item_a ∈ live q') /\ (new ∈ live q') /\
    queue_depth q' = S (queue_depth demo_queue) /\
    dom q'.(_pending) = dom demo_queue.(_pending) /\ ("a"%string ∉ q'.(_cancelled)).
Proof.
  apply (update_priority_keeps_stale_item "a" (of_int 5) demo_queue item_a).
  - exact demo_queue_inv.
  - vm_compute. reflexivity.
Defined.

Lemma dequeue_turn_deadline_witness :
  fleb (fadd (of_int 1) (of_int 2)) (of_int 3) = true \/
  fleb (fsub (fadd (of_int 1) (of_int 2)) (of_int 3)) f0 = true.
Proof.
  apply (dequeue_turn_deadline (T := string) (Some (of_int 2)) (of_int 1) (of_int 3)
           (of_int 3) (of_int 3) new_queue TimedOut new_queue).
  - reflexivity.
  - vm_compute. reflexivity.
Defined.

(** A request whose priority was updated once is delivered twice, first
    at the new and then at the old priority; and cancelling it after the
    update does not stop the second delivery: the cancellation is used up by
    the newer item. *)
Theorem updated_request_delivered_twice (p : string) :
  fst (run [Enqueue (of_int 1) "x" (of_int 10) p; Update "x" (of_int 5);
            Dequeue (of_int 2); Dequeue (of_int 3)] new_queue) =
  [Done; Flag true;
   Popped (Some (mkItem (of_int 5) (of_int 1) "x" p));
   Popped (Some (mkItem (of_int 10) (of_int 1) "x" p))] /\
  fst (run [Enqueue (of_int 1) "x" (of_int 10) p; Update "x" (of_int 5);
            Cancel "x"; Dequeue (of_int 2)] new_queue) =
  [Done; Flag true; Flag true;
   Popped (Some (mkItem (of_int 10) (of_int 1) "x" p))].
Proof. split; vm_compute; reflexivity. Qed.
