(* ===== verification/BaseScheduler.v ===== *)
(** * Scheduler interface and shared state (python/scheduler/base_scheduler.py)

    A [ScheduledRequest] is one mutable object that the gateway, the
    scheduler's dictionaries and the queue's items all refer to.  Requests
    therefore live in a store: a scheduler holds locations, and a field
    assignment is an update of the store, visible through every alias.

    [SchedulerOps] is the abstract class [BaseScheduler] as the gateway uses
    it; [SchedulerLaws] states what each scheduler promises about its
    counters and about the store. *)
From Stdlib Require Import ZArith Lia.
From stdpp Require Import base option list strings gmap.
From S2P Require Import Prelude PyFloat.
Local Open Scope string_scope.
Local Open Scope list_scope.
Local Open Scope nat_scope.

Inductive SchedulerType := FCFS | SJF | ORACLE_SJF.

#[global] Instance scheduler_type_eq_dec : EqDecision SchedulerType.
Proof. solve_decision. Defined.

Definition scheduler_value (t : SchedulerType) : string :=
  match t with FCFS => "fcfs" | SJF => "sjf" | ORACLE_SJF => "oracle_sjf" end.

(** [SchedulerType(value)] *)
Definition scheduler_type_of (v : string) : result SchedulerType :=
  if bool_decide (v = scheduler_value FCFS) then Ok FCFS
  else if bool_decide (v = scheduler_value SJF) then Ok SJF
  else if bool_decide (v = scheduler_value ORACLE_SJF) then Ok ORACLE_SJF
  else Raise (ValueError v).

(** A chat message and a request body, as decoded JSON: the keys the program
    reads, absent when the client did not send them. *)
Record Message := { role : option string; content : option string }.

Record Body := mkBody {
  body_messages : option (list Message);
  body_max_tokens : option Z;
  body_stream : option bool;
  body_model : option string;
}.

(** The keys of [metadata] the program uses; futures and stream queues are
    objects of the event loop, named by number. *)
Record Metadata := mkMeta {
  md_body : option Body;
  md_future : option nat;
  md_stream_queue : option nat;
  md_schedule_ms : option float;
}.

Definition empty_metadata : Metadata := mkMeta None None None None.

Record ScheduledRequest := mkRequest {
  r_request_id : string;
  r_prompt : string;
  r_messages : list Message;
  r_max_tokens : Z;
  r_predicted_tokens : float;
  r_priority : float;
  r_enqueue_time : float;
  r_metadata : Metadata;
}.

Definition wait_time_sec (now : float) (r : ScheduledRequest) : float :=
  fsub now r.(r_enqueue_time).

Definition set_predicted (p : float) (r : ScheduledRequest) : ScheduledRequest :=
  mkRequest r.(r_request_id) r.(r_prompt) r.(r_messages) r.(r_max_tokens) p
    r.(r_priority) r.(r_enqueue_time) r.(r_metadata).

Definition set_priority (p : float) (r : ScheduledRequest) : ScheduledRequest :=
  mkRequest r.(r_request_id) r.(r_prompt) r.(r_messages) r.(r_max_tokens)
    r.(r_predicted_tokens) p r.(r_enqueue_time) r.(r_metadata).

Definition set_schedule_ms (ms : float) (r : ScheduledRequest) : ScheduledRequest :=
  mkRequest r.(r_request_id) r.(r_prompt) r.(r_messages) r.(r_max_tokens)
    r.(r_predicted_tokens) r.(r_priority) r.(r_enqueue_time)
    (mkMeta r.(r_metadata).(md_body) r.(r_metadata).(md_future)
       r.(r_metadata).(md_stream_queue) (Some ms)).

(** The heap of request objects. *)
Abbreviation loc := nat.
Abbreviation store := (gmap nat ScheduledRequest).

(** [float(n)] for an integer raises once the value leaves the float range. *)
Definition float_of_int (n : Z) : result float :=
  match of_int n with
  | Inf _ => Raise OverflowError
  | x => Ok x
  end.

(** ** State and methods of the base class *)

Record Base := mkBase {
  name : string;
  _total_scheduled : nat;
  _total_completed : nat;
  _total_errors : nat;
  _feature_latencies : list float;
  _predict_latencies : list float;
  _schedule_latencies : list float;
}.

Definition base_init (n : string) : Base := mkBase n 0 0 0 [] [] [].

Definition record_timing (feature_ms predict_ms schedule_ms : float) (b : Base) : Base :=
  mkBase b.(name) b.(_total_scheduled) b.(_total_completed) b.(_total_errors)
    (b.(_feature_latencies) ++ [feature_ms]) (b.(_predict_latencies) ++ [predict_ms])
    (b.(_schedule_latencies) ++ [schedule_ms]).

(** [self._total_scheduled += 1], and the two branches every [complete] ends
    with. *)
Definition inc_scheduled (b : Base) : Base :=
  mkBase b.(name) (b.(_total_scheduled) + 1) b.(_total_completed) b.(_total_errors)
    b.(_feature_latencies) b.(_predict_latencies) b.(_schedule_latencies).

Definition count_completion (success : bool) (b : Base) : Base :=
  if success then
    mkBase b.(name) b.(_total_scheduled) (b.(_total_completed) + 1) b.(_total_errors)
      b.(_feature_latencies) b.(_predict_latencies) b.(_schedule_latencies)
  else
    mkBase b.(name) b.(_total_scheduled) b.(_total_completed) (b.(_total_errors) + 1)
      b.(_feature_latencies) b.(_predict_latencies) b.(_schedule_latencies).

Record SchedulerStats := {
  scheduler_type : string;
  stats_queue_depth : nat;
  total_scheduled : nat;
  total_completed : nat;
  total_errors : nat;
  avg_feature_ms : float;
  avg_predict_ms : float;
  avg_schedule_ms : float;
}.

(** [sum(xs) / len(xs) if xs else 0.0] *)
Definition _avg (xs : list float) : result float :=
  match xs with
  | [] => Ok f0
  | _ => fdiv (fsum xs) (of_int (Z.of_nat (length xs)))
  end.

Definition scheduler_stats (queue_depth : nat) (b : Base) : result SchedulerStats :=
  rbind (_avg b.(_feature_latencies)) (fun f =>
  rbind (_avg b.(_predict_latencies)) (fun p =>
  rbind (_avg b.(_schedule_latencies)) (fun s =>
  Ok {| scheduler_type := b.(name);
        stats_queue_depth := queue_depth;
        total_scheduled := b.(_total_scheduled);
        total_completed := b.(_total_completed);
        total_errors := b.(_total_errors);
        avg_feature_ms := f; avg_predict_ms := p; avg_schedule_ms := s |}))).

Lemma _avg_total xs : exists a, _avg xs = Ok a.
Proof.
  destruct xs as [|x xs]; [by eexists|]. apply fdiv_of_int_Ok. simpl. lia.
Qed.

(** The statistics of a scheduler never raise, and report its name, its
    depth and its counters unchanged. *)
Theorem scheduler_stats_total depth (b : Base) :
  exists s, scheduler_stats depth b = Ok s /\ s.(scheduler_type) = b.(name) /\
    s.(stats_queue_depth) = depth /\
    s.(total_scheduled) = b.(_total_scheduled) /\
    s.(total_completed) = b.(_total_completed) /\
    s.(total_errors) = b.(_total_errors).
Proof.
  unfold scheduler_stats.
  destruct (_avg_total b.(_feature_latencies)) as [f ->].
  destruct (_avg_total b.(_predict_latencies)) as [p ->].
  destruct (_avg_total b.(_schedule_latencies)) as [s ->].
  simpl. eexists. split; [done|]. done.
Qed.

(** ** The interface *)

(** Clock readings of one call: [perf_counter] at entry and before the
    bookkeeping, [monotonic] in the queue. *)
Record submit_clock := { sc_t0 : float; sc_t1 : float; sc_now : float }.
Record acquire_clock := { ac_t0 : float; ac_pop : float; ac_check : float; ac_rem : float }.

(** How a call of [acquire] stands after its first turn. *)
Inductive acquire_outcome :=
| Acquired (l : loc)
| AcquireTimeout
| AcquireWaits (remaining : option float).

Class SchedulerOps (S : Type) := {
  submit : submit_clock -> loc -> store -> S -> store * S * result unit;
  acquire : acquire_clock -> option float -> S -> acquire_outcome * S;
  complete : string -> bool -> S -> S;
  cancel_request : string -> S -> bool * S;
  queue_depth : S -> nat;
  base : S -> Base;
}.

(** Same counters. *)
Definition same_totals (b b' : Base) : Prop :=
  b'.(_total_scheduled) = b.(_total_scheduled) /\
  b'.(_total_completed) = b.(_total_completed) /\
  b'.(_total_errors) = b.(_total_errors).

(** What the gateway may rely on, whichever scheduler was built: a submission
    that returns counts one request, one that raises none; it touches no other
    request object and
    keeps the id, the body and the future of the submitted one; an acquire or
    a cancel leaves the counters alone; a completion counts once. *)
Class SchedulerLaws (S : Type) `{SchedulerOps S} : Prop := {
  submit_counts c l st s st' s' :
    submit c l st s = (st', s', Ok tt) ->
    _total_scheduled (base s') = _total_scheduled (base s) + 1 /\
    _total_completed (base s') = _total_completed (base s) /\
    _total_errors (base s') = _total_errors (base s);
  submit_raises c l st s st' s' e :
    submit c l st s = (st', s', Raise e) -> same_totals (base s) (base s');
  submit_frame c l st s st' s' r l' :
    submit c l st s = (st', s', r) -> l' <> l -> st' !! l' = st !! l';
  submit_keeps c l st s st' s' r req :
    submit c l st s = (st', s', r) -> st !! l = Some req ->
    exists req', st' !! l = Some req' /\ r_request_id req' = r_request_id req /\
      md_body (r_metadata req') = md_body (r_metadata req) /\
      md_future (r_metadata req') = md_future (r_metadata req) /\
      md_stream_queue (r_metadata req') = md_stream_queue (r_metadata req);
  acquire_counts c t s o s' : acquire c t s = (o, s') -> same_totals (base s) (base s');
  cancel_counts rid s b s' : cancel_request rid s = (b, s') -> same_totals (base s) (base s');
  complete_counts rid ok s :
    base (complete rid ok s) = count_completion ok (base s);
}.
