(* ===== verification/Fcfs.v ===== *)
(** * First-come-first-served scheduler (python/scheduler/fcfs_scheduler.py)

    [asyncio.Queue()] is unbounded here: [put] never waits, [get] waits only
    on an empty queue.  [asyncio.wait_for] raises TimeoutError at once for a
    timeout that is not positive, before its coroutine has run. *)
From Stdlib Require Import ZArith Lia.
From stdpp Require Import base option list strings gmap.
From S2P Require Import Prelude PyFloat BaseScheduler.
Local Open Scope string_scope.
Local Open Scope list_scope.
Local Open Scope nat_scope.

(** [f_total_cancelled] is the attribute the first [cancel] creates. *)
Record FCFSScheduler := mkFcfs {
  f_base : Base;
  f_queue : list loc;
  f_pending : gmap string loc;
  f_total_cancelled : option nat;
}.

Definition fcfs_init : FCFSScheduler := mkFcfs (base_init "fcfs") [] ∅ None.

Definition fcfs_submit (rid : string) (l : loc) (s : FCFSScheduler) : FCFSScheduler :=
  mkFcfs (inc_scheduled s.(f_base)) (s.(f_queue) ++ [l]) (<[rid := l]> s.(f_pending))
    s.(f_total_cancelled).

Definition fcfs_get (bound : option float) (s : FCFSScheduler) : acquire_outcome * FCFSScheduler :=
  match s.(f_queue) with
  | l :: q => (Acquired l, mkFcfs s.(f_base) q s.(f_pending) s.(f_total_cancelled))
  | [] => (AcquireWaits bound, s)
  end.

Definition fcfs_acquire (timeout : option float) (s : FCFSScheduler)
    : acquire_outcome * FCFSScheduler :=
  match timeout with
  | Some t =>
      if ftruthy t then
        if fleb t f0 then (AcquireTimeout, s) else fcfs_get (Some t) s
      else fcfs_get None s
  | None => fcfs_get None s
  end.

Definition fcfs_complete (rid : string) (success : bool) (s : FCFSScheduler) : FCFSScheduler :=
  mkFcfs (count_completion success s.(f_base)) s.(f_queue) (delete rid s.(f_pending))
    s.(f_total_cancelled).

Definition fcfs_cancel (rid : string) (s : FCFSScheduler) : bool * FCFSScheduler :=
  if bool_decide (is_Some (s.(f_pending) !! rid)) then
    (true, mkFcfs s.(f_base) s.(f_queue) (delete rid s.(f_pending))
             (Some (default 0 s.(f_total_cancelled) + 1)))
  else (false, s).

Definition fcfs_queue_depth (s : FCFSScheduler) : nat := length s.(f_queue).

(** ** The scheduler as an instance of the interface *)

#[global] Instance fcfs_ops : SchedulerOps FCFSScheduler := {
  submit c l st s :=
    match st !! l with
    | Some req => (st, fcfs_submit req.(r_request_id) l s, Ok tt)
    | None => (st, s, Raise (OtherError "no such request object"))
    end;
  acquire c timeout s := fcfs_acquire timeout s;
  complete := fcfs_complete;
  cancel_request := fcfs_cancel;
  queue_depth := fcfs_queue_depth;
  base := f_base;
}.

Lemma fcfs_acquire_base timeout s o s' :
  fcfs_acquire timeout s = (o, s') -> s'.(f_base) = s.(f_base).
Proof.
  unfold fcfs_acquire, fcfs_get. intros H.
  repeat (split_opt || split_if || case_match); by simplify_eq.
Qed.

Lemma fcfs_cancel_base rid s b s' : fcfs_cancel rid s = (b, s') -> s'.(f_base) = s.(f_base).
Proof. unfold fcfs_cancel. case_bool_decide; intros; by simplify_eq. Qed.

#[global] Instance fcfs_laws : SchedulerLaws FCFSScheduler.
Proof.
  split; simpl.
  - intros c l st s st' s' H. destruct (st !! l); simplify_eq. done.
  - intros c l st s st' s' e H. by destruct (st !! l); simplify_eq.
  - intros c l st s st' s' r l' H _. by destruct (st !! l); simplify_eq.
  - intros c l st s st' s' r req H Hl. rewrite Hl in H. simplify_eq. eauto 10.
  - intros c t s o s' H. unfold same_totals. by rewrite (fcfs_acquire_base _ _ _ _ H).
  - intros rid s b s' H. unfold same_totals. by rewrite (fcfs_cancel_base _ _ _ _ H).
  - done.
Qed.

(** ** First in, first out *)

Inductive fcfs_op :=
| FSubmit (rid : string) (l : loc)
| FAcquire (timeout : option float)
| FComplete (rid : string) (success : bool)
| FCancel (rid : string).

Definition fcfs_step (o : fcfs_op) (s : FCFSScheduler) : option loc * FCFSScheduler :=
  match o with
  | FSubmit rid l => (None, fcfs_submit rid l s)
  | FAcquire t =>
      let '(r, s') := fcfs_acquire t s in
      (match r with Acquired l => Some l | _ => None end, s')
  | FComplete rid ok => (None, fcfs_complete rid ok s)
  | FCancel rid => (None, snd (fcfs_cancel rid s))
  end.

(** The requests acquired along a run, in order. *)
Fixpoint fcfs_run (os : list fcfs_op) (s : FCFSScheduler) : list loc * FCFSScheduler :=
  match os with
  | [] => ([], s)
  | o :: os' =>
      let '(r, s1) := fcfs_step o s in
      let '(rs, s2) := fcfs_run os' s1 in (option_list r ++ rs, s2)
  end.

Definition fcfs_submitted (os : list fcfs_op) : list loc :=
  omap (fun o => match o with FSubmit _ l => Some l | _ => None end) os.

Lemma fcfs_step_fifo o s r s' :
  fcfs_step o s = (r, s') ->
  option_list r ++ s'.(f_queue) = s.(f_queue) ++ fcfs_submitted [o].
Proof.
  destruct o; simpl; intros H.
  - by simplify_eq.
  - unfold fcfs_acquire, fcfs_get in H. rewrite app_nil_r.
    repeat (split_opt || split_if || case_match); by simplify_eq.
  - simplify_eq. by rewrite app_nil_r.
  - unfold fcfs_cancel in H. rewrite app_nil_r. case_bool_decide; by simplify_eq.
Qed.

Lemma fcfs_run_fifo os s rs s' :
  fcfs_run os s = (rs, s') -> rs ++ s'.(f_queue) = s.(f_queue) ++ fcfs_submitted os.
Proof.
  revert s rs. induction os as [|o os IH]; intros s rs H; simpl in H.
  { simplify_eq. by rewrite app_nil_r. }
  destruct (fcfs_step o s) as [r s1] eqn:Es. destruct (fcfs_run os s1) as [rs' s2] eqn:Er.
  simplify_eq. apply IH in Er. apply fcfs_step_fifo in Es.
  rewrite <- app_assoc, Er, app_assoc, Es, <- app_assoc. f_equal.
  change (o :: os) with ([o] ++ os). unfold fcfs_submitted. by rewrite omap_app.
Qed.

(** First come, first served: along any interleaving of submit, acquire,
    complete and cancel calls, the requests acquired so far followed by the
    requests still queued are the requests submitted, in submission order.
    A cancelled request keeps its place: it is still acquired in its turn. *)
Theorem fcfs_serves_in_order (os : list fcfs_op) rs s :
  fcfs_run os fcfs_init = (rs, s) -> rs ++ s.(f_queue) = fcfs_submitted os.
Proof. intros H. by apply fcfs_run_fifo in H. Qed.

(** Cancelling answers True exactly once for a pending request, counts
    it, and forgets it, but the queue that acquire reads is left as it is. *)
Theorem fcfs_cancel_spec rid s :
  let '(b, s') := fcfs_cancel rid s in
  (b = true <-> is_Some (s.(f_pending) !! rid)) /\
  s'.(f_queue) = s.(f_queue) /\
  s'.(f_pending) !! rid = None /\
  default 0 s'.(f_total_cancelled) =
    default 0 s.(f_total_cancelled) + (if b then 1 else 0) /\
  fst (fcfs_cancel rid s') = false.
Proof.
  unfold fcfs_cancel. case_bool_decide as E; cbn [f_pending f_queue f_total_cancelled].
  - rewrite lookup_delete_eq. rewrite bool_decide_eq_false_2 by (by intros [? ?]). done.
  - rewrite bool_decide_eq_false_2 by done. split; [done|].
    split; [done|]. split; [by apply eq_None_not_Some|]. simpl. split; [lia|done].
Qed.

Lemma fcfs_serves_in_order_witness :
  [7] ++ [9] = fcfs_submitted [FSubmit "a" 7; FSubmit "b" 9; FCancel "a"; FAcquire None].
Proof.
  apply (fcfs_serves_in_order
           [FSubmit "a" 7; FSubmit "b" 9; FCancel "a"; FAcquire None] [7]
           (snd (fcfs_run [FSubmit "a" 7; FSubmit "b" 9; FCancel "a"; FAcquire None] fcfs_init))).
  vm_compute. reflexivity.
Defined.
