(* ===== verification/Sjf.v ===== *)
(** * Shortest-job-first schedulers (python/scheduler/sjf_scheduler.py)

    [SJFScheduler] with its prediction, aging loop and FCFS fallback,
    [OracleSJFScheduler], and [build_scheduler].  The predictor object is a
    parameter: any function from a prompt to a prediction or an exception
    (the predictor of Predictor.v is one). *)
From Stdlib Require Import ZArith Lia.
From stdpp Require Import base option list strings gmap.
From S2P Require Import Prelude PyFloat Heapq Features Predictor Aging.
From S2P Require Import PriorityQueue BaseScheduler Fcfs.
Local Open Scope string_scope.
Local Open Scope list_scope.
Local Open Scope nat_scope.
Local Open Scope py_scope.

(** Names both files define: the queue's own are qualified. *)
Abbreviation pq := (PriorityQueue.PriorityQueue loc).

Record SJFScheduler := mkSjf {
  s_base : Base;
  s_queue : pq;
  s_aging : AgingFunction;
  s_aging_config : AgingConfig;
  s_fallback_to_fcfs : bool;
  s_fcfs_fallback : option FCFSScheduler;
  s_aging_interval : float;
  s_max_retries : Z;
  s_timeout : float;
  s_pending : odict loc;
  s_use_fallback : bool;
  s_aging_task : bool;
  s_dispatcher_ready : bool;
}.

Definition set_base (b : Base) (s : SJFScheduler) : SJFScheduler :=
  mkSjf b s.(s_queue) s.(s_aging) s.(s_aging_config) s.(s_fallback_to_fcfs)
    s.(s_fcfs_fallback) s.(s_aging_interval) s.(s_max_retries) s.(s_timeout) s.(s_pending)
    s.(s_use_fallback) s.(s_aging_task) s.(s_dispatcher_ready).

Definition set_queue (q : pq) (s : SJFScheduler) : SJFScheduler :=
  mkSjf s.(s_base) q s.(s_aging) s.(s_aging_config) s.(s_fallback_to_fcfs)
    s.(s_fcfs_fallback) s.(s_aging_interval) s.(s_max_retries) s.(s_timeout) s.(s_pending)
    s.(s_use_fallback) s.(s_aging_task) s.(s_dispatcher_ready).

Definition set_pending (p : odict loc) (s : SJFScheduler) : SJFScheduler :=
  mkSjf s.(s_base) s.(s_queue) s.(s_aging) s.(s_aging_config) s.(s_fallback_to_fcfs)
    s.(s_fcfs_fallback) s.(s_aging_interval) s.(s_max_retries) s.(s_timeout) p
    s.(s_use_fallback) s.(s_aging_task) s.(s_dispatcher_ready).

Definition set_fallback (use : bool) (f : option FCFSScheduler) (s : SJFScheduler) : SJFScheduler :=
  mkSjf s.(s_base) s.(s_queue) s.(s_aging) s.(s_aging_config) s.(s_fallback_to_fcfs)
    f s.(s_aging_interval) s.(s_max_retries) s.(s_timeout) s.(s_pending)
    use s.(s_aging_task) s.(s_dispatcher_ready).

Definition set_aging (a : AgingFunction) (c : AgingConfig) (s : SJFScheduler) : SJFScheduler :=
  mkSjf s.(s_base) s.(s_queue) a c s.(s_fallback_to_fcfs)
    s.(s_fcfs_fallback) s.(s_aging_interval) s.(s_max_retries) s.(s_timeout) s.(s_pending)
    s.(s_use_fallback) s.(s_aging_task) s.(s_dispatcher_ready).

Definition set_fallback_flag (b : bool) (s : SJFScheduler) : SJFScheduler :=
  mkSjf s.(s_base) s.(s_queue) s.(s_aging) s.(s_aging_config) b
    s.(s_fcfs_fallback) s.(s_aging_interval) s.(s_max_retries) s.(s_timeout) s.(s_pending)
    s.(s_use_fallback) s.(s_aging_task) s.(s_dispatcher_ready).

Definition set_task (task ready : bool) (s : SJFScheduler) : SJFScheduler :=
  mkSjf s.(s_base) s.(s_queue) s.(s_aging) s.(s_aging_config) s.(s_fallback_to_fcfs)
    s.(s_fcfs_fallback) s.(s_aging_interval) s.(s_max_retries) s.(s_timeout) s.(s_pending)
    s.(s_use_fallback) task ready.

Definition sjf_init (aging_config : option AgingConfig) (fallback_to_fcfs : bool)
    (aging_interval_sec : float) (max_retries : Z) (request_timeout_sec : float)
    : result SJFScheduler :=
  let cfg := default default_aging_config aging_config in
  let? a := create_aging cfg in
  Ok (mkSjf (base_init "sjf") new_queue a cfg fallback_to_fcfs
        (if fallback_to_fcfs then Some fcfs_init else None)
        aging_interval_sec max_retries request_timeout_sec [] false false false).

Definition sjf_start (s : SJFScheduler) : SJFScheduler :=
  if s.(s_aging_task) then s else set_task true true s.

Definition sjf_stop (s : SJFScheduler) : SJFScheduler :=
  if s.(s_aging_task) then set_task false s.(s_dispatcher_ready) s else s.

Section Submit.
Context (predictor : string -> result PredictionResult).

(** [self._use_fallback and self._fcfs_fallback]: a scheduler object is true. *)
Definition fallback_active (s : SJFScheduler) : option FCFSScheduler :=
  if s.(s_use_fallback) then s.(s_fcfs_fallback) else None.

(** The try block of [submit]: the request's new prediction and the scheduler
    after it, or the exception of the handler's own [float(max_tokens)]. *)
Definition sjf_predict (req : ScheduledRequest) (s : SJFScheduler) : result (float * SJFScheduler) :=
  if ftruthy req.(r_predicted_tokens) then Ok (req.(r_predicted_tokens), s)
  else
    match predictor req.(r_prompt) with
    | Ok pred =>
        Ok (pred.(predicted_tokens),
            set_base (record_timing pred.(feature_latency_ms) pred.(predict_latency_ms) f0
                        s.(s_base)) s)
    | Raise _ =>
        let? p := float_of_int req.(r_max_tokens) in
        Ok (p, match s.(s_fcfs_fallback) with
               | Some f => set_fallback true (Some f) s
               | None => s
               end)
    end.

Definition sjf_submit (c : submit_clock) (l : loc) (st : store) (s : SJFScheduler)
    : store * SJFScheduler * result unit :=
  match st !! l with
  | None => (st, s, Raise (OtherError "no such request object"))
  | Some req =>
      match sjf_predict req s with
      | Raise e => (st, s, Raise e)
      | Ok (p, s1) =>
          let schedule_ms := ms_between c.(sc_t0) c.(sc_t1) in
          let req' := set_schedule_ms schedule_ms (set_priority p (set_predicted p req)) in
          let st' := <[l := req']> st in
          let s2 :=
            match fallback_active s1 with
            | Some f => set_fallback s1.(s_use_fallback) (Some (fcfs_submit req.(r_request_id) l f)) s1
            | None =>
                set_queue (enqueue c.(sc_now) req.(r_request_id) p l s1.(s_queue))
                  (set_pending (od_set req.(r_request_id) l s1.(s_pending)) s1)
            end in
          (st', set_base (inc_scheduled s2.(s_base)) s2, Ok tt)
      end
  end.
End Submit.

Definition of_outcome (o : @dequeue_outcome loc) : acquire_outcome :=
  match o with
  | Returned item => Acquired item.(payload)
  | TimedOut => AcquireTimeout
  | Waits r => AcquireWaits r
  end.

Definition sjf_acquire (c : acquire_clock) (timeout : option float) (s : SJFScheduler)
    : acquire_outcome * SJFScheduler :=
  match fallback_active s with
  | Some f =>
      let '(o, f') := fcfs_acquire timeout f in (o, set_fallback s.(s_use_fallback) (Some f') s)
  | None =>
      let '(o, q) := dequeue_turn (dequeue_deadline timeout c.(ac_t0)) c.(ac_pop) c.(ac_check)
                       c.(ac_rem) s.(s_queue) in
      (of_outcome o, set_queue q s)
  end.

Definition sjf_complete (rid : string) (success : bool) (s : SJFScheduler) : SJFScheduler :=
  let s1 := set_pending (od_pop rid s.(s_pending)) s in
  let s2 := set_fallback s1.(s_use_fallback) (fcfs_complete rid success <$> s1.(s_fcfs_fallback)) s1 in
  set_base (count_completion success s2.(s_base)) s2.

Definition sjf_cancel (rid : string) (s : SJFScheduler) : bool * SJFScheduler :=
  let s1 := set_pending (od_pop rid s.(s_pending)) s in
  let s2 := set_fallback s1.(s_use_fallback)
              ((fun f => snd (fcfs_cancel rid f)) <$> s1.(s_fcfs_fallback)) s1 in
  let '(b, q) := PriorityQueue.cancel rid s2.(s_queue) in
  (b, set_queue q s2).

Definition sjf_queue_depth (s : SJFScheduler) : nat :=
  match fallback_active s with
  | Some f => fcfs_queue_depth f
  | None => PriorityQueue.queue_depth s.(s_queue)
  end.

(** ** Configuration *)

(** The keyword dictionary of [AgingConfig( **config["aging"] )]; [kw_extra]
    holds keys that are no fields. *)
Record AgingKw := {
  kw_policy : option string;
  kw_factor : option float;
  kw_max_boost : option float;
  kw_base_priority : option float;
  kw_extra : list string;
}.

Definition aging_config_kw (kw : AgingKw) : result AgingConfig :=
  match kw.(kw_extra) with
  | k :: _ => Raise (TypeError k)
  | [] =>
      Ok {| policy := default default_aging_config.(policy) kw.(kw_policy);
            factor := default default_aging_config.(factor) kw.(kw_factor);
            max_boost := default default_aging_config.(max_boost) kw.(kw_max_boost);
            base_priority := default default_aging_config.(base_priority) kw.(kw_base_priority) |}
  end.

Record SchedulerConfig := {
  cfg_aging : option AgingKw;
  cfg_fallback_to_fcfs : option bool;
  cfg_aging_interval_sec : option float;
  cfg_request_timeout_sec : option float;
}.

(** [on_reload]: the new aging configuration is stored before the new aging
    object is created, so a bad policy name leaves the old object in place. *)
Definition sjf_on_reload (config : SchedulerConfig) (s : SJFScheduler) : SJFScheduler * result unit :=
  let step1 :=
    match config.(cfg_aging) with
    | None => (s, Ok tt)
    | Some kw =>
        match aging_config_kw kw with
        | Raise e => (s, Raise e)
        | Ok cfg =>
            match create_aging cfg with
            | Raise e => (set_aging s.(s_aging) cfg s, Raise e)
            | Ok a => (set_aging a cfg s, Ok tt)
            end
        end
    end in
  match step1 with
  | (s1, Raise e) => (s1, Raise e)
  | (s1, Ok _) =>
      (match config.(cfg_fallback_to_fcfs) with
       | Some b => set_fallback_flag b s1
       | None => s1
       end, Ok tt)
  end.

(** ** The aging loop *)

Section AgingLoop.
Context (log1p exp : float -> result float).

(** The threshold below which a boost is not worth a push. *)
Definition min_gain : float := flit 1 100.

(** One request of a pass.  The exception of [boost] leaves [_aging_loop]
    with the updates made so far in place. *)
Definition age_one (now : float) (rid : string) (l : loc) (st : store) (s : SJFScheduler)
    : store * SJFScheduler * result unit :=
  match st !! l with
  | None => (st, s, Raise (OtherError "no such request object"))
  | Some req =>
      let wait := fsub now req.(r_enqueue_time) in
      if fltb s.(s_timeout) wait then (st, snd (sjf_cancel rid s), Ok tt)
      else
        match boost log1p exp s.(s_aging) wait req.(r_priority) with
        | Raise e => (st, s, Raise e)
        | Ok new_priority =>
            if fltb new_priority (fsub req.(r_priority) min_gain) then
              (<[l := set_priority new_priority req]> st,
               set_queue (snd (update_priority rid new_priority s.(s_queue))) s, Ok tt)
            else (st, s, Ok tt)
        end
  end.

Fixpoint age_all (now : float) (items : odict loc) (st : store) (s : SJFScheduler)
    : store * SJFScheduler * result unit :=
  match items with
  | [] => (st, s, Ok tt)
  | (rid, l) :: items' =>
      match age_one now rid l st s with
      | (st', s', Ok _) => age_all now items' st' s'
      | (st', s', Raise e) => (st', s', Raise e)
      end
  end.

(** The body of [_aging_loop] after its sleep: the dictionary is copied first. *)
Definition aging_pass (now : float) (st : store) (s : SJFScheduler)
    : store * SJFScheduler * result unit :=
  age_all now s.(s_pending) st s.
End AgingLoop.

(** ** The oracle scheduler *)

Record OracleSJFScheduler := mkOracle { o_base : Base; o_queue : pq }.

Definition oracle_init : OracleSJFScheduler := mkOracle (base_init "oracle_sjf") new_queue.

Definition oracle_submit (c : submit_clock) (l : loc) (st : store) (s : OracleSJFScheduler)
    : store * OracleSJFScheduler * result unit :=
  match st !! l with
  | None => (st, s, Raise (OtherError "no such request object"))
  | Some req =>
      match float_of_int req.(r_max_tokens) with
      | Raise e => (st, s, Raise e)
      | Ok p =>
          (<[l := set_priority p (set_predicted p req)]> st,
           mkOracle (inc_scheduled s.(o_base)) (enqueue c.(sc_now) req.(r_request_id) p l s.(o_queue)),
           Ok tt)
      end
  end.

Definition oracle_acquire (c : acquire_clock) (timeout : option float) (s : OracleSJFScheduler)
    : acquire_outcome * OracleSJFScheduler :=
  let '(o, q) := dequeue_turn (dequeue_deadline timeout c.(ac_t0)) c.(ac_pop) c.(ac_check)
                   c.(ac_rem) s.(o_queue) in
  (of_outcome o, mkOracle s.(o_base) q).

Definition oracle_complete (rid : string) (success : bool) (s : OracleSJFScheduler)
    : OracleSJFScheduler := mkOracle (count_completion success s.(o_base)) s.(o_queue).

Definition oracle_cancel (rid : string) (s : OracleSJFScheduler) : bool * OracleSJFScheduler :=
  let '(b, q) := PriorityQueue.cancel rid s.(o_queue) in (b, mkOracle s.(o_base) q).

Definition oracle_queue_depth (s : OracleSJFScheduler) : nat :=
  PriorityQueue.queue_depth s.(o_queue).

(** ** Building a scheduler *)

Inductive AnyScheduler :=
| AnyFcfs (s : FCFSScheduler)
| AnySjf (s : SJFScheduler)
| AnyOracle (s : OracleSJFScheduler).

Definition no_kw : AgingKw :=
  {| kw_policy := None; kw_factor := None; kw_max_boost := None; kw_base_priority := None;
     kw_extra := [] |}.

Definition build_scheduler (t : SchedulerType) (has_predictor : bool) (config : SchedulerConfig)
    : result AnyScheduler :=
  match t with
  | FCFS => Ok (AnyFcfs fcfs_init)
  | ORACLE_SJF => Ok (AnyOracle oracle_init)
  | SJF =>
      if has_predictor then
        let? cfg := aging_config_kw (default no_kw config.(cfg_aging)) in
        let? s := sjf_init (Some cfg) (default true config.(cfg_fallback_to_fcfs))
                    (default (flit 1 2) config.(cfg_aging_interval_sec)) 3
                    (default (of_int 300) config.(cfg_request_timeout_sec)) in
        Ok (AnySjf s)
      else Raise (ValueError "SJF scheduler requires a predictor")
  end.

(** ** The interface *)

Lemma record_timing_totals f p m b : same_totals b (record_timing f p m b).
Proof. done. Qed.

Lemma sjf_predict_spec predictor req s p s1 :
  sjf_predict predictor req s = Ok (p, s1) ->
  same_totals s.(s_base) s1.(s_base) /\ s1.(s_queue) = s.(s_queue) /\
  s1.(s_pending) = s.(s_pending) /\ s1.(s_fcfs_fallback) = s.(s_fcfs_fallback).
Proof.
  unfold sjf_predict. destruct (ftruthy _); [by intros; simplify_eq|].
  destruct (predictor _); intros H; [by simplify_eq|].
  apply rbind_Ok in H as (p' & _ & ?); simplify_eq.
  destruct (s_fcfs_fallback s) eqn:E; simpl; rewrite ?E; done.
Qed.

Section SjfInstance.
Context (predictor : string -> result PredictionResult).

#[local] Instance sjf_ops : SchedulerOps SJFScheduler := {
  submit := sjf_submit predictor;
  acquire := sjf_acquire;
  complete := sjf_complete;
  cancel_request := sjf_cancel;
  queue_depth := sjf_queue_depth;
  base := s_base;
}.

Lemma sjf_acquire_base c t s o s' : sjf_acquire c t s = (o, s') -> s'.(s_base) = s.(s_base).
Proof. unfold sjf_acquire. intros H. repeat case_match; by simplify_eq. Qed.

Lemma sjf_cancel_base rid s b s' : sjf_cancel rid s = (b, s') -> s'.(s_base) = s.(s_base).
Proof. unfold sjf_cancel. intros H. repeat case_match; by simplify_eq. Qed.

#[local] Instance sjf_laws : SchedulerLaws SJFScheduler.
Proof.
  split; simpl.
  - intros c l st s st' s' H. unfold sjf_submit in H.
    destruct (st !! l) as [req|]; [|done].
    destruct (sjf_predict predictor req s) as [[p s1]|] eqn:Ep; simplify_eq.
    apply sjf_predict_spec in Ep as ((? & ? & ?) & _). simpl.
    destruct (fallback_active s1); simpl; auto.
  - intros c l st s st' s' e H. unfold sjf_submit in H.
    destruct (st !! l) as [req|]; [|by simplify_eq].
    by destruct (sjf_predict predictor req s) as [[p s1]|]; simplify_eq.
  - intros c l st s st' s' r l' H Hne. unfold sjf_submit in H.
    destruct (st !! l) as [req|]; [|by simplify_eq].
    destruct (sjf_predict predictor req s) as [[p s1]|]; simplify_eq; [|done].
    by rewrite lookup_insert_ne.
  - intros c l st s st' s' r req H Hl. unfold sjf_submit in H. rewrite Hl in H.
    destruct (sjf_predict predictor req s) as [[p s1]|]; simplify_eq; [|eauto 10].
    rewrite lookup_insert_eq. eauto 10.
  - intros c t s o s' H. unfold same_totals. by rewrite (sjf_acquire_base _ _ _ _ _ H).
  - intros rid s b s' H. unfold same_totals. by rewrite (sjf_cancel_base _ _ _ _ H).
  - done.
Qed.
End SjfInstance.

#[global] Instance oracle_ops : SchedulerOps OracleSJFScheduler := {
  submit := oracle_submit;
  acquire := oracle_acquire;
  complete := oracle_complete;
  cancel_request := oracle_cancel;
  queue_depth := oracle_queue_depth;
  base := o_base;
}.

#[global] Instance oracle_laws : SchedulerLaws OracleSJFScheduler.
Proof.
  split; simpl.
  - intros c l st s st' s' H. unfold oracle_submit in H.
    repeat case_match; simplify_eq. done.
  - intros c l st s st' s' e H. unfold oracle_submit in H. repeat case_match; by simplify_eq.
  - intros c l st s st' s' r l' H Hne. unfold oracle_submit in H.
    repeat case_match; simplify_eq; [|done..]. by rewrite lookup_insert_ne.
  - intros c l st s st' s' r req H Hl. unfold oracle_submit in H. rewrite Hl in H.
    destruct (float_of_int _); simplify_eq; [|eauto 10]. rewrite lookup_insert_eq. eauto 10.
  - intros c t s o s' H. unfold oracle_acquire in H. destruct (dequeue_turn _ _ _ _ _).
    by simplify_eq.
  - intros rid s b s' H. unfold oracle_cancel in H. destruct (PriorityQueue.cancel _ _).
    by simplify_eq.
  - done.
Qed.

(** ** Submission *)

(** The value [submit] schedules by: a prediction the caller already made,
    else the predictor's, else [float(max_tokens)]. *)
Definition submit_priority (predictor : string -> result PredictionResult)
    (req : ScheduledRequest) : result float :=
  if ftruthy req.(r_predicted_tokens) then Ok req.(r_predicted_tokens)
  else match predictor req.(r_prompt) with
       | Ok pred => Ok pred.(predicted_tokens)
       | Raise _ => float_of_int req.(r_max_tokens)
       end.

(** The prediction is needed and fails. *)
Definition prediction_fails (predictor : string -> result PredictionResult)
    (req : ScheduledRequest) : bool :=
  negb (ftruthy req.(r_predicted_tokens)) &&
  match predictor req.(r_prompt) with Ok _ => false | Raise _ => true end.


(** C14.  What submitting a request does, on every path.  It raises only when
    the prediction fails and max_tokens is no float, and then changes nothing.
    Otherwise prediction and priority of the request become the scheduling
    value, the request is counted, and it goes to the priority queue unless
    the fallback is active or the prediction just failed with a fallback
    scheduler present; then it goes to the end of the fallback's queue and the
    scheduler stays in fallback mode. *)
Theorem sjf_submit_spec predictor c l st s req :
  st !! l = Some req ->
  match submit_priority predictor req with
  | Raise e => sjf_submit predictor c l st s = (st, s, Raise e)
  | Ok p =>
      exists st' s', sjf_submit predictor c l st s = (st', s', Ok tt) /\
        st' = <[l := set_schedule_ms (ms_between c.(sc_t0) c.(sc_t1))
                       (set_priority p (set_predicted p req))]> st /\
        _total_scheduled s'.(s_base) = _total_scheduled s.(s_base) + 1 /\
        s'.(s_use_fallback) =
          (s.(s_use_fallback) ||
           (prediction_fails predictor req && bool_decide (is_Some s.(s_fcfs_fallback)))) /\
        match s.(s_fcfs_fallback), s'.(s_use_fallback) with
        | Some f, true =>
            s'.(s_fcfs_fallback) = Some (fcfs_submit req.(r_request_id) l f) /\
            s'.(s_queue) = s.(s_queue) /\ s'.(s_pending) = s.(s_pending)
        | _, _ =>
            s'.(s_fcfs_fallback) = s.(s_fcfs_fallback) /\
            s'.(s_queue) = enqueue c.(sc_now) req.(r_request_id) p l s.(s_queue) /\
            s'.(s_pending) = od_set req.(r_request_id) l s.(s_pending)
        end
  end.
Proof.
  intros Hl. unfold submit_priority, prediction_fails, sjf_submit, sjf_predict, fallback_active.
  rewrite Hl. destruct (ftruthy (r_predicted_tokens req)); simpl.
  2: destruct (predictor (r_prompt req)) as [pred|e]; simpl.
  3: destruct (float_of_int (r_max_tokens req)) as [p|e']; simpl; [|done].
  all: eexists _, _; split; [done|].
  all: destruct s as [b q a ac fb ff ai mr to pe uf at_ dr]; destruct ff as [f|], uf; done.
Qed.

(** ** Aging *)

Section AgingProperties.
Context (log1p exp : float -> result float) `{!Libm log1p exp}.

(** A request the aging loop can work on: it has waited a finite, nonnegative
    time and its priority is a number. *)
Record ageable (now : float) (req : ScheduledRequest) : Prop := {
  ag_wait_fin : is_fin (fsub now req.(r_enqueue_time)) = true;
  ag_wait_nonneg : (f0 <= fsub now req.(r_enqueue_time))%float;
  ag_prio_fin : is_fin req.(r_priority) = true;
  ag_prio_wf : wf_float req.(r_priority) = true;
}.

(** The request after its turn, and whether it was dropped. *)
Definition aged_request (a : AgingFunction) (timeout now : float) (req req' : ScheduledRequest)
    (dropped : bool) : Prop :=
  let wait := fsub now req.(r_enqueue_time) in
  dropped = fltb timeout wait /\
  if dropped then req' = req
  else exists p, boost log1p exp a wait req.(r_priority) = Ok p /\
    (fsub req.(r_priority) (max_boost (aging_config_of a)) <= p)%float /\
    (p <= req.(r_priority))%float /\
    req' = if fltb p (fsub req.(r_priority) min_gain) then set_priority p req else req.

(** Parts of the scheduler a pass leaves alone. *)
Definition same_aging (s s' : SJFScheduler) : Prop :=
  s'.(s_aging) = s.(s_aging) /\ s'.(s_timeout) = s.(s_timeout) /\
  s'.(s_base) = s.(s_base) /\ s'.(s_use_fallback) = s.(s_use_fallback).

Lemma sjf_cancel_parts rid s :
  let s' := snd (sjf_cancel rid s) in
  same_aging s s' /\ s'.(s_pending) = od_pop rid s.(s_pending) /\
  s'.(s_queue) = snd (PriorityQueue.cancel rid s.(s_queue)) /\
  s'.(s_fcfs_fallback) = (fun f => snd (fcfs_cancel rid f)) <$> s.(s_fcfs_fallback).
Proof. unfold sjf_cancel. simpl. by destruct (PriorityQueue.cancel _ _). Qed.

Lemma age_one_spec now rid l st s req :
  aging_ok (aging_config_of s.(s_aging)) -> st !! l = Some req -> ageable now req ->
  exists st' s' req' dropped, age_one log1p exp now rid l st s = (st', s', Ok tt) /\
    aged_request s.(s_aging) s.(s_timeout) now req req' dropped /\
    st' = <[l := req']> st /\ same_aging s s' /\
    s'.(s_pending) = if dropped then od_pop rid s.(s_pending) else s.(s_pending).
Proof.
  intros Hok Hl [Hwf Hw Hpf Hpw]. unfold age_one, aged_request. rewrite Hl.
  destruct (fltb (s_timeout s) (fsub now (r_enqueue_time req))) eqn:Et.
  { eexists _, _, req, true. split; [done|]. split; [done|].
    split; [by rewrite insert_id|]. destruct (sjf_cancel_parts rid s) as (? & ? & _). done. }
  destruct (boost_capped log1p exp (s_aging s) (fsub now (r_enqueue_time req)) (r_priority req) Hok Hwf Hw)
    as (b & Hb & Hb0).
  destruct Hok as [_ _ Hmf Hm0].
  destruct (capped_sub_bounds b _ (r_priority req) Hb0 Hmf Hm0 Hpf Hpw) as [Hlo Hhi].
  set (p := fsub (r_priority req) (fmin b _)) in *.
  rewrite Hb. destruct (fltb p _) eqn:Eg.
  - eexists _, _, _, false. split; [done|]. split; [|done].
    split; [done|]. exists p. by rewrite Eg.
  - eexists _, _, req, false. split; [done|]. split; [|by rewrite insert_id].
    split; [done|]. exists p. by rewrite Eg.
Qed.

(** What is known of each entry [(rid, l)] of the pass's list afterwards. *)
Definition entry_aged (a : AgingFunction) (timeout now : float) (st st' : store)
    (pending' : odict loc) (e : string * loc) : Prop :=
  exists req req' dropped, st !! e.2 = Some req /\ st' !! e.2 = Some req' /\
    aged_request a timeout now req req' dropped /\
    (dropped = true -> od_get e.1 pending' = None).

Lemma od_pop_None {A} k k' (d : odict A) : od_get k d = None -> od_get k (od_pop k' d) = None.
Proof. rewrite !od_get_None. intros H Hin. by apply H, (od_pop_sub k'). Qed.

Lemma age_all_spec now items st s :
  aging_ok (aging_config_of s.(s_aging)) -> NoDup (map snd items) ->
  NoDup (od_keys s.(s_pending)) ->
  Forall (fun e => exists req, st !! e.2 = Some req /\ ageable now req) items ->
  exists st' s', age_all log1p exp now items st s = (st', s', Ok tt) /\ same_aging s s' /\
    (forall l, l ∉ map snd items -> st' !! l = st !! l) /\
    (forall rid, od_get rid s.(s_pending) = None -> od_get rid s'.(s_pending) = None) /\
    Forall (entry_aged s.(s_aging) s.(s_timeout) now st st' s'.(s_pending)) items.
Proof.
  revert st s. induction items as [|[rid l] items IH]; intros st s Hok Hnd Hkd Hall; simpl.
  { exists st, s. done. }
  apply NoDup_cons in Hnd as [Hni Hnd]. apply Forall_cons in Hall as [(req & Hl & Hag) Hall].
  simpl in *. destruct (age_one_spec now rid l st s req Hok Hl Hag)
    as (st1 & s1 & req' & dr & E1 & Har & -> & (Ha & Ht & Hb & Hu) & Hp).
  rewrite E1. destruct (IH (<[l := req']> st) s1) as (st' & s' & E2 & (Ha' & Ht' & Hb' & Hu') & Hf & Hn & Hen).
  - by rewrite Ha.
  - done.
  - rewrite Hp. destruct dr; [by apply od_pop_nodup|done].
  - rewrite Forall_forall in Hall |- *. intros [rid' l'] Hin. simpl.
    destruct (Hall _ Hin) as (r & Hr & ?). exists r. split; [|done].
    rewrite lookup_insert_ne; [done|]. intros <-. by apply Hni, (list_elem_of_fmap_2 snd _ _ Hin).
  - rewrite E2. exists st', s'. rewrite Ha, Ht in Hen. split; [done|].
    split; [unfold same_aging; by rewrite Ha', Ht', Hb', Hu'|]. split; [|split].
    + intros l' [? ?]%not_elem_of_cons. rewrite Hf by done. by rewrite lookup_insert_ne.
    + intros rid' Hr. apply Hn. rewrite Hp. destruct dr; [by apply od_pop_None|done].
    + constructor.
      * exists req, req', dr. simpl. rewrite Hf, lookup_insert_eq by done. split_and!; try done.
        intros ->. apply Hn. rewrite Hp. by apply od_get_pop_eq.
      * rewrite Forall_forall in Hen |- *. intros e Hin. destruct (Hen e Hin) as (r & r' & d & Hr & ?).
        exists r, r', d. split; [|done]. rewrite lookup_insert_ne in Hr; [done|].
        intros ->. by apply Hni, (list_elem_of_fmap_2 snd _ _ Hin).
Qed.

(** What a pass decides about an entry: drop it, lower its priority, or leave it. *)
Inductive aging_decision := DropEntry | LowerTo (p : float) | LeaveEntry.

Definition decision (now : float) (st : store) (s : SJFScheduler) (e : string * loc) : aging_decision :=
  match st !! e.2 with
  | None => LeaveEntry
  | Some req =>
      let wait := fsub now req.(r_enqueue_time) in
      if fltb s.(s_timeout) wait then DropEntry
      else match boost log1p exp s.(s_aging) wait req.(r_priority) with
           | Ok p => if fltb p (fsub req.(r_priority) min_gain) then LowerTo p else LeaveEntry
           | Raise _ => LeaveEntry
           end
  end.

Definition is_drop (d : aging_decision) : bool := match d with DropEntry => true | _ => false end.

(** The queue, the fallback and the dictionary after the decision about an entry. *)
Definition queue_after (d : string * loc -> aging_decision) (q : pq) (e : string * loc) : pq :=
  match d e with
  | DropEntry => snd (PriorityQueue.cancel e.1 q)
  | LowerTo p => snd (update_priority e.1 p q)
  | LeaveEntry => q
  end.

Definition fallback_after (d : string * loc -> aging_decision) (f : option FCFSScheduler) (e : string * loc)
    : option FCFSScheduler :=
  if is_drop (d e) then (fun f => snd (fcfs_cancel e.1 f)) <$> f else f.

Definition pending_after (d : string * loc -> aging_decision) (pending : odict loc) (e : string * loc) : odict loc :=
  if is_drop (d e) then od_pop e.1 pending else pending.

(** [s] with another queue, fallback and dictionary; everything else is its own. *)
Definition with_parts (q : pq) (f : option FCFSScheduler) (p : odict loc) (s : SJFScheduler) : SJFScheduler :=
  mkSjf s.(s_base) q s.(s_aging) s.(s_aging_config) s.(s_fallback_to_fcfs) f s.(s_aging_interval) s.(s_max_retries)
    s.(s_timeout) p s.(s_use_fallback) s.(s_aging_task) s.(s_dispatcher_ready).

Lemma age_one_effect now rid l st s st' s' :
  age_one log1p exp now rid l st s = (st', s', Ok tt) ->
  s' = with_parts (queue_after (decision now st s) s.(s_queue) (rid, l))
         (fallback_after (decision now st s) s.(s_fcfs_fallback) (rid, l))
         (pending_after (decision now st s) s.(s_pending) (rid, l)) s.
Proof.
  unfold age_one, queue_after, fallback_after, pending_after, decision. cbn [fst snd].
  destruct s as [b q a ac fb f iv mr to pe uf at_ rd]. cbn [s_timeout s_aging].
  destruct (st !! l) as [req|]; [|discriminate 1]. destruct (fltb _ _).
  - intros [= _ <-]. unfold sjf_cancel. cbn. by destruct f, (PriorityQueue.cancel rid q).
  - destruct (boost _ _ _ _ _) as [p|]; [|discriminate 1]. by destruct (fltb _ _); intros [= _ <-].
Qed.

(** Decisions look at one object and at the policy. *)
Lemma decision_same now st st' s s' e :
  st' !! e.2 = st !! e.2 -> s'.(s_aging) = s.(s_aging) -> s'.(s_timeout) = s.(s_timeout) ->
  decision now st' s' e = decision now st s e.
Proof. unfold decision. by intros -> -> ->. Qed.

Lemma age_all_effect now d items st s st' s' :
  NoDup (map snd items) -> (forall e, e ∈ items -> decision now st s e = d e) ->
  age_all log1p exp now items st s = (st', s', Ok tt) ->
  s' = with_parts (fold_left (queue_after d) items s.(s_queue)) (fold_left (fallback_after d) items s.(s_fcfs_fallback))
         (fold_left (pending_after d) items s.(s_pending)) s.
Proof.
  revert st s. induction items as [|[rid l] items IH]; intros st s Hnd Hd E; cbn [age_all] in E.
  { injection E as _ <-. by destruct s. }
  cbn [map snd] in Hnd. apply NoDup_cons in Hnd as [Hni Hnd].
  destruct (age_one _ _ now rid l st s) as [[st1 s1] [[]|x]] eqn:E1; [|discriminate E].
  assert (Hsame : forall l', l' <> l -> st1 !! l' = st !! l').
  { intros l' Hne. clear E. unfold age_one in E1. destruct (st !! l) as [req|]; [|discriminate E1].
    destruct (fltb _ _); [by injection E1 as <- _|]. destruct (boost _ _ _ _ _); [|discriminate E1].
    destruct (fltb _ _); injection E1 as <- _; [by rewrite lookup_insert_ne|done]. }
  apply age_one_effect in E1. rewrite (IH st1 s1 Hnd) with (2 := E).
  - subst s1. cbn [with_parts s_queue s_fcfs_fallback s_pending fold_left].
    unfold queue_after at 2, fallback_after at 2, pending_after at 2. rewrite Hd by (by left). done.
  - intros e He. rewrite <- Hd by (by right). apply decision_same; [|by subst s1..].
    apply Hsame. intros Heq. apply Hni. rewrite <- Heq. by apply (list_elem_of_fmap_2 snd).
Qed.

(** Popping the dropped keys one after the other leaves the entries that were not dropped. *)
Lemma pending_after_all d (items pre : odict loc) :
  NoDup (od_keys (pre ++ items)) ->
  fold_left (pending_after d) items (pre ++ items) = pre ++ filter (fun e => is_drop (d e) = false) items.
Proof.
  revert pre. induction items as [|[rid l] items IH]; intros pre Hnd; [done|]. cbn [fold_left].
  unfold pending_after at 2. cbn [fst]. destruct (is_drop (d (rid, l))) eqn:Ed.
  - rewrite filter_cons_False by congruence. rewrite od_pop_middle by done.
    apply IH. unfold od_keys in *. rewrite map_app in *. cbn [map] in Hnd.
    rewrite <- Permutation_middle in Hnd. by apply NoDup_cons in Hnd as [_ Hnd].
  - rewrite filter_cons_True by done. change (pre ++ (rid, l) :: items) with (pre ++ [(rid, l)] ++ items) in *.
    rewrite app_assoc in *. rewrite IH by done. by rewrite <- app_assoc.
Qed.

(** C15.  A pass of the aging loop over pending requests that wait a
    nonnegative time does not raise.  Each of them is dropped from the pending
    dictionary, its priority untouched, when it waited longer than the request
    timeout; otherwise its priority becomes its boosted priority when that is
    more than 0.01 lower, and stays as it is if not: no priority grows, and
    none falls by more than max_boost in one pass.  No other request object is
    touched.  Of the scheduler only three parts change: the dictionary keeps
    exactly the entries that are not dropped, the queue gets one cancellation
    per dropped entry and one update per lowered one, in the order of the
    dictionary, and the fallback one cancellation per dropped entry. *)
Theorem aging_pass_spec now st s :
  aging_ok (aging_config_of s.(s_aging)) ->
  NoDup (map snd s.(s_pending)) -> NoDup (od_keys s.(s_pending)) ->
  Forall (fun e => exists req, st !! e.2 = Some req /\ ageable now req) s.(s_pending) ->
  let d := decision now st s in
  exists st' s', aging_pass log1p exp now st s = (st', s', Ok tt) /\
    Forall (entry_aged s.(s_aging) s.(s_timeout) now st st' s'.(s_pending)) s.(s_pending) /\
    (forall l, l ∉ map snd s.(s_pending) -> st' !! l = st !! l) /\
    s' = with_parts (fold_left (queue_after d) s.(s_pending) s.(s_queue))
           (fold_left (fallback_after d) s.(s_pending) s.(s_fcfs_fallback))
           (filter (fun e => is_drop (d e) = false) s.(s_pending)) s.
Proof.
  intros Hok Hnd Hkd Hall d. destruct (age_all_spec now s.(s_pending) st s)
    as (st' & s' & E & _ & Hf & _ & Hen); [done..|]. exists st', s'. split; [exact E|]. split; [exact Hen|].
  split; [exact Hf|]. rewrite (age_all_effect now d _ _ _ _ _ Hnd (fun _ _ => eq_refl) E).
  f_equal. exact (pending_after_all d (s_pending s) [] Hkd).
Qed.
End AgingProperties.

(** ** Runs of the scheduler *)

Inductive sjf_op :=
| SSubmit (c : submit_clock) (l : loc)
| SAcquire (c : acquire_clock) (timeout : option float)
| SComplete (rid : string) (success : bool)
| SCancel (rid : string)
| SAging (now : float)
| SReload (config : SchedulerConfig)
| SStart
| SStop.

Inductive sjf_event :=
| Accepted (l : loc)
| Delivered (l : loc)
| Quiet.

Section Runs.
Context (predictor : string -> result PredictionResult).
Context (log1p exp : float -> result float).

Definition sjf_step (o : sjf_op) (st : store) (s : SJFScheduler)
    : sjf_event * (store * SJFScheduler) :=
  match o with
  | SSubmit c l =>
      match sjf_submit predictor c l st s with
      | (st', s', Ok _) => (Accepted l, (st', s'))
      | (st', s', Raise _) => (Quiet, (st', s'))
      end
  | SAcquire c t =>
      match sjf_acquire c t s with
      | (Acquired l, s') => (Delivered l, (st, s'))
      | (_, s') => (Quiet, (st, s'))
      end
  | SComplete rid ok => (Quiet, (st, sjf_complete rid ok s))
  | SCancel rid => (Quiet, (st, snd (sjf_cancel rid s)))
  | SAging now => (Quiet, fst (aging_pass log1p exp now st s))
  | SReload config => (Quiet, (st, fst (sjf_on_reload config s)))
  | SStart => (Quiet, (st, sjf_start s))
  | SStop => (Quiet, (st, sjf_stop s))
  end.

Fixpoint sjf_run (os : list sjf_op) (st : store) (s : SJFScheduler)
    : list sjf_event * (store * SJFScheduler) :=
  match os with
  | [] => ([], (st, s))
  | o :: os' =>
      let '(e, (st1, s1)) := sjf_step o st s in
      let '(es, z) := sjf_run os' st1 s1 in (e :: es, z)
  end.

Definition delivered (es : list sjf_event) : list loc :=
  omap (fun e => match e with Delivered l => Some l | _ => None end) es.
Definition accepted (es : list sjf_event) : list loc :=
  omap (fun e => match e with Accepted l => Some l | _ => None end) es.


Lemma cancel_heap rid (q : pq) : _heap (snd (PriorityQueue.cancel rid q)) = _heap q.
Proof. unfold PriorityQueue.cancel. by case_bool_decide. Qed.





Lemma on_reload_parts config s :
  let s' := fst (sjf_on_reload config s) in
  s'.(s_use_fallback) = s.(s_use_fallback) /\ s'.(s_fcfs_fallback) = s.(s_fcfs_fallback) /\
  s'.(s_queue) = s.(s_queue) /\ s'.(s_pending) = s.(s_pending) /\ s'.(s_base) = s.(s_base).
Proof.
  unfold sjf_on_reload. destruct (cfg_aging config) as [kw|].
  1: destruct (aging_config_kw kw) as [cfg|]; simpl; [destruct (create_aging cfg); simpl|].
  all: by destruct (cfg_fallback_to_fcfs config).
Qed.



End Runs.

(** ** Reload *)

(** A reload changes the aging policy and one flag, nothing else: the two
    queues, the pending requests, the counters and above all the fallback in
    use are those from before, whatever the new value of fallback_to_fcfs.  A
    policy name that is no policy raises KeyError after the configuration was
    stored: the scheduler then holds the new configuration and the old aging
    function. *)
Theorem reload_effect config s :
  let s' := fst (sjf_on_reload config s) in
  fallback_active s' = fallback_active s /\ s'.(s_queue) = s.(s_queue) /\
  s'.(s_pending) = s.(s_pending) /\ s'.(s_base) = s.(s_base) /\
  match config.(cfg_aging) with
  | None => s'.(s_aging) = s.(s_aging) /\ snd (sjf_on_reload config s) = Ok tt
  | Some kw =>
      forall cfg, aging_config_kw kw = Ok cfg ->
        s'.(s_aging_config) = cfg /\
        match create_aging cfg with
        | Ok a => s'.(s_aging) = a /\ snd (sjf_on_reload config s) = Ok tt
        | Raise e => s'.(s_aging) = s.(s_aging) /\ snd (sjf_on_reload config s) = Raise e
        end
  end.
Proof.
  destruct (on_reload_parts config s) as (Hu & Hf & Hq & Hp & Hb). simpl in *.
  unfold fallback_active. rewrite Hu, Hf. split_and!; try done.
  unfold sjf_on_reload. destruct (cfg_aging config) as [kw|]; [|by destruct (cfg_fallback_to_fcfs config)].
  intros cfg ->. destruct (create_aging cfg); [|done]. by destruct (cfg_fallback_to_fcfs config).
Qed.

(** ** The oracle serves the smallest budget first *)

(** The states of an oracle scheduler next to the request objects, while
    clients allocate and submit requests and the dispatcher takes them. *)
Inductive oracle_reach : store -> OracleSJFScheduler -> Prop :=
| or_init st : oracle_reach st oracle_init
| or_alloc st s l req : oracle_reach st s -> st !! l = None -> oracle_reach (<[l := req]> st) s
| or_submit st s c l st' s' r :
    oracle_reach st s -> is_nan c.(sc_now) = false ->
    oracle_submit c l st s = (st', s', r) -> oracle_reach st' s'
| or_acquire st s c t o s' : oracle_reach st s -> oracle_acquire c t s = (o, s') -> oracle_reach st s'
| or_cancel st s rid b s' : oracle_reach st s -> oracle_cancel rid s = (b, s') -> oracle_reach st s'
| or_complete st s rid ok : oracle_reach st s -> oracle_reach st (oracle_complete rid ok s).

(** An item's priority is its request's budget. *)
Definition item_budget (st : store) (it : PrioritizedItem loc) : Prop :=
  exists req, st !! it.(payload) = Some req /\ it.(priority) = of_int req.(r_max_tokens).

Definition oracle_inv (st : store) (s : OracleSJFScheduler) : Prop :=
  queue_inv s.(o_queue) /\ Forall (item_budget st) s.(o_queue).(_heap).

Lemma of_int_not_nan n : is_nan (of_int n) = false.
Proof.
  rewrite of_int_def.
  exact (proj1 (fle_not_nan _ _ (round_ratio_mono _ 1 _ 1 eq_refl eq_refl (Z.le_refl _)))).
Qed.

Lemma float_of_int_Ok n p : float_of_int n = Ok p -> p = of_int n.
Proof. unfold float_of_int. destruct (of_int n); congruence. Qed.

Lemma float_of_int_number n p : float_of_int n = Ok p -> is_nan p = false.
Proof. intros ->%float_of_int_Ok. apply of_int_not_nan. Qed.

Lemma item_budget_frame st st' it :
  (forall l req, st !! l = Some req ->
     exists req', st' !! l = Some req' /\ r_max_tokens req' = r_max_tokens req) ->
  item_budget st it -> item_budget st' it.
Proof.
  intros Hf (r & Hr & Hp). destruct (Hf _ _ Hr) as (r' & Hr' & Hm).
  exists r'. by rewrite Hp, Hm.
Qed.

Lemma dequeue_turn_pop d t1 t2 t3 (q : pq) o q' :
  dequeue_turn d t1 t2 t3 q = (o, q') ->
  exists r, pop_live t1 q = (r, q') /\ (forall it, r = Some it -> o = Returned it) /\
    (r = None -> forall it, o <> Returned it).
Proof.
  unfold dequeue_turn. destruct (pop_live t1 q) as [r q1]. intros H. exists r.
  destruct r as [it|]; [simplify_eq; split_and!; [done|by intros ? [= <-]|done]|].
  destruct d as [d|]; [repeat split_if|]; by simplify_eq.
Qed.

Lemma dequeue_turn_inv d a b e (q : pq) o q' :
  queue_inv q -> dequeue_turn d a b e q = (o, q') ->
  exists r sk, pop_spec q sk r q' /\ queue_inv q' /\
    forall it, o = Returned it -> r = Some it.
Proof.
  intros Hi H. unfold dequeue_turn in H. destruct (pop_live a q) as [r q1] eqn:E.
  apply pop_live_spec in E as [[sk Hsp] Hi']; [|done]. exists r, sk.
  destruct r as [it|]; [simplify_eq|].
  - split; [done|]. split; [done|]. intros ? [= <-]. done.
  - destruct d as [d|]; [repeat split_if|]; simplify_eq; done.
Qed.

Lemma oracle_reach_inv st s : oracle_reach st s -> oracle_inv st s.
Proof.
  induction 1 as [st|st s l req _ [Hi Hb] Hl|st s c l st' s' r _ [Hi Hb] Hn E
    |st s c t o s' _ [Hi Hb] E|st s rid b s' _ [Hi Hb] E|st s rid ok _ IH].
  - split; [apply new_queue_inv|constructor].
  - split; [done|]. eapply Forall_impl; [done|]. intros it. apply item_budget_frame.
    intros l' r Hr. exists r. rewrite lookup_insert_ne; [done|]. congruence.
  - unfold oracle_submit in E. destruct (st !! l) as [req|] eqn:Hl; [|by simplify_eq].
    destruct (float_of_int _) as [p|] eqn:Ep; simplify_eq; [|done].
    apply float_of_int_Ok in Ep as ->. split; simpl.
    + apply enqueue_inv; [done|apply of_int_not_nan|done].
    + apply heappush_Forall; [eapply Forall_impl; [done|]; intros it|].
      2: { eexists. simpl. by rewrite lookup_insert_eq. }
      * apply item_budget_frame. intros l' r Hr. destruct (decide (l' = l)) as [->|?].
        -- rewrite lookup_insert_eq. simplify_eq. eauto.
        -- rewrite lookup_insert_ne by done. eauto.
  - unfold oracle_acquire in E. destruct (dequeue_turn _ _ _ _ _) as [o' q'] eqn:Ed.
    simplify_eq. apply dequeue_turn_inv in Ed as (r & sk & [Hperm _ _ _ _ _ _ _ _ _ _] & Hi' & _); [|done].
    split; [done|]. simpl. rewrite Hperm in Hb. rewrite !Forall_app in Hb. tauto.
  - unfold oracle_cancel in E. destruct (PriorityQueue.cancel rid (o_queue s)) as [b' q'] eqn:Ec.
    simplify_eq. split; [by eapply cancel_inv|]. simpl.
    pose proof (cancel_heap rid (o_queue s)) as Hh. rewrite Ec in Hh. simpl in Hh. by rewrite Hh.
  - done.
Qed.

(** The oracle is shortest-job-first with the true budgets: in any
    reachable state, the request an acquire returns has the smallest
    max_tokens of all requests that stay queued. *)
Theorem oracle_shortest_first st s c t l s' :
  oracle_reach st s -> oracle_acquire c t s = (Acquired l, s') ->
  exists req, st !! l = Some req /\
    Forall (fun it => exists req', st !! it.(payload) = Some req' /\
              (of_int req.(r_max_tokens) <= of_int req'.(r_max_tokens))%float)
      s'.(o_queue).(_heap).
Proof.
  intros Hr E. apply oracle_reach_inv in Hr as [Hi Hb]. unfold oracle_acquire in E.
  destruct (dequeue_turn _ _ _ _ _) as [o q'] eqn:Ed. simplify_eq.
  destruct o as [it| |]; simpl in *; simplify_eq.
  apply dequeue_turn_inv in Ed as (r & sk & Hsp & Hi' & Hret); [|done].
  rewrite (Hret it) in Hsp by done. destruct Hsp as [Hperm _ _ _ _ _ Hmin _ _ _ _].
  pose proof (inv_valid _ Hi) as HV. rewrite Hperm in HV, Hb. rewrite !Forall_app in HV, Hb.
  destruct Hb as (_ & Hb & Hbs), HV as (_ & HV & HVs). simpl in *.
  apply Forall_cons in Hb as [(req & Hreq & Hp) _]. apply Forall_cons in HV as [HV _].
  exists req. split; [done|]. apply Forall_forall. intros x Hx.
  rewrite Forall_forall in Hbs, HVs. destruct (Hbs x Hx) as (req' & Hreq' & Hp').
  exists req'. split; [done|]. rewrite <- Hp, <- Hp'.
  destruct (above_served it x HV (HVs x Hx) (Hmin it x eq_refl Hx)) as [Hlt|[-> _]].
  - by apply flt_le.
  - apply fle_refl, (HVs x Hx).
Qed.

(** ** Building *)

(** Building a scheduler fails only for SJF, without a predictor, with an
    unknown aging keyword or with a policy name that is none of the three; the
    scheduler built is empty, of the requested kind, and an SJF one starts
    with its fallback present (unless configured away) and inactive. *)
Theorem build_scheduler_spec t has_predictor config :
  match build_scheduler t has_predictor config with
  | Ok (AnyFcfs s) => t = FCFS /\ s = fcfs_init
  | Ok (AnyOracle s) => t = ORACLE_SJF /\ s = oracle_init
  | Ok (AnySjf s) =>
      t = SJF /\ has_predictor = true /\ s.(s_base) = base_init "sjf" /\
      s.(s_queue) = new_queue /\ s.(s_pending) = [] /\ fallback_active s = None /\
      s.(s_fcfs_fallback) =
        (if default true config.(cfg_fallback_to_fcfs) then Some fcfs_init else None) /\
      aging_config_of s.(s_aging) = s.(s_aging_config)
  | Raise e =>
      t = SJF /\
      ((has_predictor = false /\ e = ValueError "SJF scheduler requires a predictor") \/
       (exists k ks, kw_extra (default no_kw config.(cfg_aging)) = k :: ks /\ e = TypeError k) \/
       (exists p, e = KeyError p /\ forall pol, p <> policy_value pol))
  end.
Proof.
  destruct t; simpl; [done| |done]. destruct has_predictor; [|by eauto].
  destruct (aging_config_kw _) as [cfg|e] eqn:Ek; simpl; unfold aging_config_kw in Ek.
  2: { destruct (kw_extra _) eqn:Ex; simplify_eq. eauto 10. }
  unfold sjf_init. simpl. destruct (create_aging cfg) as [a|e] eqn:Ea; simpl.
  - split_and!; try done. by apply create_aging_config.
  - split; [done|]. right; right. unfold create_aging in Ea.
    repeat case_bool_decide; simplify_eq. eexists. split; [done|]. by intros [].
Qed.

(** ** Witnesses and runs *)

Definition demo_request (rid : string) (predicted : Z) (max_tokens : Z) : ScheduledRequest :=
  mkRequest rid "hello" [] max_tokens (of_int predicted) f0 f0 empty_metadata.

Definition demo_store : store :=
  <[1 := demo_request "a" 1000 64]> (<[2 := demo_request "b" 0 32]> ∅).

Definition demo_aging : AgingConfig :=
  {| policy := "linear"; factor := of_int 10; max_boost := of_int 100; base_priority := f0 |}.

Definition demo_sjf : SJFScheduler :=
  mkSjf (base_init "sjf") new_queue (LinearAging demo_aging) demo_aging true (Some fcfs_init)
    (flit 1 2) 3 (of_int 300) [] false false false.

Definition demo_clock : submit_clock := {| sc_t0 := f0; sc_t1 := f0; sc_now := f0 |}.
Definition demo_aclock : acquire_clock := {| ac_t0 := f0; ac_pop := f0; ac_check := f0; ac_rem := f0 |}.

Definition broken_predictor (_ : string) : result PredictionResult := Raise (ValueError "no model").

Lemma demo_sjf_built :
  sjf_init (Some demo_aging) true (flit 1 2) 3 (of_int 300) = Ok demo_sjf.
Proof. reflexivity. Qed.

Lemma sjf_submit_spec_witness :
  exists st' s', sjf_submit broken_predictor demo_clock 2 demo_store demo_sjf = (st', s', Ok tt) /\
    s'.(s_use_fallback) = true.
Proof.
  pose proof (sjf_submit_spec broken_predictor demo_clock 2 demo_store demo_sjf
                (demo_request "b" 0 32)) as H.
  specialize (H ltac:(vm_compute; reflexivity)).
  replace (submit_priority broken_predictor (demo_request "b" 0 32)) with (Ok (of_int 32)) in H
    by (vm_compute; reflexivity).
  destruct H as (st' & s' & E & _ & _ & Hu & _). exists st', s'. split; [exact E|].
  rewrite Hu. vm_compute. reflexivity.
Defined.

(** The store and the scheduler once request [a] is queued. *)
Definition demo_queued : list sjf_event * (store * SJFScheduler) :=
  sjf_run broken_predictor toy_log1p toy_exp [SSubmit demo_clock 1] demo_store demo_sjf.

Lemma aging_pass_spec_witness :
  exists st' s', aging_pass toy_log1p toy_exp (of_int 20) (fst (snd demo_queued)) (snd (snd demo_queued))
      = (st', s', Ok tt) /\
    st' !! 2 = fst (snd demo_queued) !! 2.
Proof.
  destruct (aging_pass_spec toy_log1p toy_exp (of_int 20) (fst (snd demo_queued)) (snd (snd demo_queued)))
    as (st' & s' & E & _ & Hf & _).
  - split; fcompute.
  - apply (bool_decide_unpack _). vm_compute. exact I.
  - apply (bool_decide_unpack _). vm_compute. exact I.
  - replace (s_pending (snd (snd demo_queued))) with [("a", 1)] by (vm_compute; reflexivity).
    apply Forall_cons. split; [|apply Forall_nil; exact I]. eexists.
    split; [vm_compute; reflexivity|]. split; fcompute.
  - exists st', s'. split; [exact E|]. apply Hf.
    replace (s_pending (snd (snd demo_queued))) with [("a", 1)] by (vm_compute; reflexivity).
    apply (bool_decide_unpack _). vm_compute. exact I.
Defined.


(** Two submissions, one after the other. *)
Definition oracle_two (c : submit_clock) (l1 l2 : loc) (st : store)
    : store * OracleSJFScheduler * result unit :=
  let z := oracle_submit c l1 st oracle_init in
  oracle_submit c l2 (fst (fst z)) (snd (fst z)).

Lemma oracle_two_reach c l1 l2 st :
  is_nan c.(sc_now) = false ->
  oracle_reach (fst (fst (oracle_two c l1 l2 st))) (snd (fst (oracle_two c l1 l2 st))).
Proof.
  intros Hn. unfold oracle_two. simpl.
  destruct (oracle_submit c l1 st oracle_init) as [[st1 s1] r1] eqn:E1. simpl.
  destruct (oracle_submit c l2 st1 s1) as [[st2 s2] r2] eqn:E2. simpl.
  eapply or_submit; [|exact Hn|exact E2]. eapply or_submit; [apply or_init|exact Hn|exact E1].
Qed.

Definition demo_oracle_store : store := fst (fst (oracle_two demo_clock 1 2 demo_store)).
Definition demo_oracle : OracleSJFScheduler := snd (fst (oracle_two demo_clock 1 2 demo_store)).

Lemma oracle_shortest_first_witness :
  exists req : ScheduledRequest, demo_oracle_store !! 2 = Some req /\
    Forall (fun it => exists req' : ScheduledRequest, demo_oracle_store !! it.(payload) = Some req' /\
              (of_int req.(r_max_tokens) <= of_int req'.(r_max_tokens))%float)
      (snd (oracle_acquire demo_aclock None demo_oracle)).(o_queue).(_heap).
Proof.
  apply (oracle_shortest_first demo_oracle_store demo_oracle demo_aclock None 2).
  - exact (oracle_two_reach demo_clock 1 2 demo_store eq_refl).
  - vm_compute. reflexivity.
Defined.

(** Boosts compound and multiply deliveries: with a cap of 100, two
    passes of the aging loop take 200 off the priority of a request that never
    left the queue, because each pass starts from the boosted priority; and
    the request, submitted once, is then delivered three times. *)
Theorem aging_compounds_and_duplicates :
  let '(es, (st, s)) := sjf_run broken_predictor toy_log1p toy_exp
    [SSubmit demo_clock 1; SAging (of_int 20); SAging (of_int 21);
     SAcquire demo_aclock None; SAcquire demo_aclock None; SAcquire demo_aclock None]
    demo_store demo_sjf in
  (r_priority <$> st !! 1) = Some (of_int 800) /\
  accepted es = [1] /\ delivered es = [1; 1; 1].
Proof. vm_compute. done. Qed.
