(* ===== verification/Gateway.v ===== *)
(** * The scheduling gateway (python/scheduler/gateway.py)

    The gateway is a set of coroutines on one event loop.  A coroutine runs
    undisturbed between two points where it really suspends, so each stretch
    between two such points is one definition here, and a run of the gateway
    is a sequence of them in any order:
    - [submit_chat] and [submit_chat_stream] up to the wait for the answer;
    - one turn of [_dispatch_loop];
    - [_forward_request] up to the call of the backend, each chunk of a
      streamed answer, and everything after the backend's answer;
    - the expiry of [wait_for] in [submit_chat].
    The scheduler is any instance of [SchedulerOps]; the backend and the HTTP
    client are not modelled, their answers are arguments. *)
From Stdlib Require Import ZArith Lia.
From stdpp Require Import base option list strings gmap.
From S2P Require Import Prelude PyFloat Heapq Features Predictor Aging.
From S2P Require Import PriorityQueue BaseScheduler Fcfs Sjf.
Local Open Scope string_scope.
Local Open Scope list_scope.
Local Open Scope nat_scope.

(** A decoded JSON object: keys with their values as text. *)
Abbreviation reply := (odict string).

Inductive future_state :=
| FPending
| FResult (r : reply)
| FCancelled.

(** The HTTP client: handed in by the caller, or created by [startup]. *)
Inductive http_client :=
| GivenClient
| OwnClient (base_url : string) (connect read : float).

(** A [_forward_request] task: created, or waiting for the backend. *)
Inductive task :=
| Starting (l : loc)
| Sent (l : loc) (t0 : float) (sent_body : Body).

Record GatewayConfig := {
  c_base_url : option string;
  c_model : option string;
  c_type : option string;
  c_max_workers : option Z;
  c_connect_timeout : option float;
  c_scheduler : SchedulerConfig;
}.

Record Settings := mkSettings {
  config : GatewayConfig;
  vllm_url : string;
  model : string;
  g_scheduler_type : SchedulerType;
  max_workers : Z;
  request_timeout : float;
  connect_timeout : float;
}.

(** The Prometheus series; all of one gateway carry its scheduler label. *)
Record Metrics := mkMetrics {
  requests_success : nat;
  requests_error : nat;
  requests_timeout : nat;
  requests_dropped : nat;
  queue_depth_gauge : option nat;
  predicted_tokens_observed : list float;
  e2e_observed : list float;
}.

Record Gateway (S : Type) := mkGateway {
  settings : Settings;
  _scheduler : option S;
  _client : option http_client;
  _owns_client : bool;
  _workers : list bool;
  _running : bool;
  g_store : store;
  g_next : nat;
  futures : gmap nat future_state;
  streams : gmap nat (list (option string));
  tasks : list task;
  gw_metrics : Metrics;
}.
Arguments mkGateway {S}.
Arguments settings {S}.
Arguments _scheduler {S}.
Arguments _client {S}.
Arguments _owns_client {S}.
Arguments _workers {S}.
Arguments _running {S}.
Arguments g_store {S}.
Arguments g_next {S}.
Arguments futures {S}.
Arguments streams {S}.
Arguments tasks {S}.
Arguments gw_metrics {S}.

(** ** Construction *)

Definition gateway_init {S} (config : GatewayConfig) (client : option http_client)
    : result (Gateway S) :=
  rbind (scheduler_type_of (default "sjf" config.(c_type))) (fun t =>
  Ok (mkGateway
        (mkSettings config (default "http://localhost:8000" config.(c_base_url))
           (default "HuggingFaceTB/SmolLM3-3B" config.(c_model)) t
           (default 32%Z config.(c_max_workers))
           (default (of_int 300) config.(c_scheduler).(cfg_request_timeout_sec))
           (default (of_int 5) config.(c_connect_timeout)))
        None client (bool_decide (client = None)) [] false
        ∅ 0 ∅ ∅ [] (mkMetrics 0 0 0 0 None [] []))).

(** ** Requests *)

(** ["\n".join(f"{m.get('role', 'user')}: {m.get('content', '')}" for m in messages)] *)
Definition message_line (m : Message) : string :=
  default "user" m.(role) +:+ ": " +:+ default "" m.(content).

Definition build_prompt (messages : list Message) : string :=
  join newline (map message_line messages).

(** The request object both entry points build. *)
Definition make_request (rid : string) (now : float) (body : Body) (md : Metadata)
    : ScheduledRequest :=
  let messages := default [] body.(body_messages) in
  mkRequest rid (build_prompt messages) messages (default 128%Z body.(body_max_tokens))
    f0 f0 now md.

Section Handlers.
Context {S : Type} `{SchedulerOps S}.
Implicit Types (g : Gateway S).

Definition set_depth_gauge (d : nat) (m : Metrics) : Metrics :=
  mkMetrics m.(requests_success) m.(requests_error) m.(requests_timeout) m.(requests_dropped)
    (Some d) m.(predicted_tokens_observed) m.(e2e_observed).

Definition observe_predicted (p : float) (m : Metrics) : Metrics :=
  mkMetrics m.(requests_success) m.(requests_error) m.(requests_timeout) m.(requests_dropped)
    m.(queue_depth_gauge) (m.(predicted_tokens_observed) ++ [p]) m.(e2e_observed).

(** [submit_chat] up to its [wait_for]: the location of the request, or the
    exception the caller gets. *)
Definition submit_chat (rid : string) (now : float) (c : submit_clock) (body : Body) g
    : Gateway S * result loc :=
  let l := g.(g_next) in
  let req := make_request rid now body (mkMeta (Some body) (Some l) None None) in
  let st := <[l := req]> g.(g_store) in
  let futs := <[l := FPending]> g.(futures) in
  match g.(_scheduler) with
  | None =>
      (mkGateway g.(settings) None g.(_client) g.(_owns_client) g.(_workers) g.(_running)
         st (l + 1) futs g.(streams) g.(tasks) g.(gw_metrics),
       Raise (OtherError "'NoneType' object has no attribute 'submit'"))
  | Some s =>
      let '(st', s', r) := submit c l st s in
      let put m := mkGateway g.(settings) (Some s') g.(_client) g.(_owns_client) g.(_workers)
                     g.(_running) st' (l + 1) futs g.(streams) g.(tasks) m in
      match r with
      | Raise e => (put g.(gw_metrics), Raise e)
      | Ok _ =>
          let m1 := set_depth_gauge (queue_depth s') g.(gw_metrics) in
          let p := from_option r_predicted_tokens f0 (st' !! l) in
          (put (if fltb f0 p then observe_predicted p m1 else m1), Ok l)
      end
  end.

(** [submit_chat_stream] up to its first [get]. *)
Definition submit_chat_stream (rid : string) (now : float) (c : submit_clock) (body : Body) g
    : Gateway S * result loc :=
  let l := g.(g_next) in
  let req := make_request rid now body (mkMeta (Some body) None (Some l) None) in
  let st := <[l := req]> g.(g_store) in
  let strs := <[l := []]> g.(streams) in
  match g.(_scheduler) with
  | None =>
      (mkGateway g.(settings) None g.(_client) g.(_owns_client) g.(_workers) g.(_running)
         st (l + 1) g.(futures) strs g.(tasks) g.(gw_metrics),
       Raise (OtherError "'NoneType' object has no attribute 'submit'"))
  | Some s =>
      let '(st', s', r) := submit c l st s in
      (mkGateway g.(settings) (Some s') g.(_client) g.(_owns_client) g.(_workers)
         g.(_running) st' (l + 1) g.(futures) strs g.(tasks) g.(gw_metrics),
       match r with Ok _ => Ok l | Raise e => Raise e end)
  end.

(** What the consumer of a stream sees next. *)
Inductive stream_read := Chunk (c : string) | EndOfStream | Blocked.

Definition stream_next (q : nat) g : stream_read * Gateway S :=
  match g.(streams) !! q with
  | Some (x :: xs) =>
      (match x with Some c => Chunk c | None => EndOfStream end,
       mkGateway g.(settings) g.(_scheduler) g.(_client) g.(_owns_client) g.(_workers)
         g.(_running) g.(g_store) g.(g_next) g.(futures) (<[q := xs]> g.(streams)) g.(tasks)
         g.(gw_metrics))
  | _ => (Blocked, g)
  end.

(** The expiry of [wait_for(future, ...)]: the future is cancelled by
    [wait_for] itself, unless it is done. *)
Definition cancel_future (f : nat) (fs : gmap nat future_state) : gmap nat future_state :=
  match fs !! f with
  | Some FPending => <[f := FCancelled]> fs
  | _ => fs
  end.

Definition inc_timeout (m : Metrics) : Metrics :=
  mkMetrics m.(requests_success) m.(requests_error) (m.(requests_timeout) + 1)
    (m.(requests_dropped) + 1) m.(queue_depth_gauge) m.(predicted_tokens_observed)
    m.(e2e_observed).

(** The [except asyncio.TimeoutError] branch of [submit_chat]. *)
Definition submit_timeout (l : loc) g : Gateway S :=
  match g.(_scheduler), g.(g_store) !! l with
  | Some s, Some req =>
      mkGateway g.(settings) (Some (snd (cancel_request req.(r_request_id) s))) g.(_client)
        g.(_owns_client) g.(_workers) g.(_running) g.(g_store) g.(g_next)
        (from_option (fun f => cancel_future f g.(futures)) g.(futures)
           req.(r_metadata).(md_future))
        g.(streams) g.(tasks) (inc_timeout g.(gw_metrics))
  | _, _ => g
  end.

(** One turn of [_dispatch_loop]: acquire, and start a task for what it
    returned. *)
Definition dispatch_turn (c : acquire_clock) g : Gateway S :=
  if g.(_running) then
    match g.(_scheduler) with
    | None => g
    | Some s =>
        let '(o, s') := acquire c (Some f1) s in
        mkGateway g.(settings) (Some s') g.(_client) g.(_owns_client) g.(_workers) g.(_running)
          g.(g_store) g.(g_next) g.(futures) g.(streams)
          (g.(tasks) ++ match o with Acquired l => [Starting l] | _ => [] end) g.(gw_metrics)
    end
  else g.

(** ** Forwarding *)

Definition empty_body : Body := mkBody None None None None.

(** The body sent to the backend. *)
Definition forward_body (default_model : string) (md : Metadata) : Body :=
  let body := default empty_body md.(md_body) in
  let stream := default false body.(body_stream) in
  mkBody body.(body_messages) body.(body_max_tokens)
    (if stream then Some true else body.(body_stream))
    (Some (default default_model body.(body_model))).

Definition set_tasks (ts : list task) g : Gateway S :=
  mkGateway g.(settings) g.(_scheduler) g.(_client) g.(_owns_client) g.(_workers) g.(_running)
    g.(g_store) g.(g_next) g.(futures) g.(streams) ts g.(gw_metrics).

(** [_forward_request] up to the call of the backend.  Without a client the
    assertion, which is outside the try block, ends the task. *)
Definition forward_begin (i : nat) (t0 : float) g : option (Gateway S) :=
  match g.(tasks) !! i with
  | Some (Starting l) =>
      match g.(g_store) !! l with
      | None => None
      | Some req =>
          match g.(_client) with
          | None => Some (set_tasks (delete i g.(tasks)) g)
          | Some _ =>
              Some (set_tasks (<[i := Sent l t0 (forward_body g.(settings).(model) req.(r_metadata))]>
                                 g.(tasks)) g)
          end
      end
  | _ => None
  end.

Definition is_stream (b : Body) : bool := default false b.(body_stream).

Definition put_stream (q : nat) (x : option string) (ss : gmap nat (list (option string))) :=
  <[q := default [] (ss !! q) ++ [x]]> ss.

(** A chunk of a streamed answer arrives. *)
Definition forward_chunk (i : nat) (chunk : string) g : option (Gateway S) :=
  match g.(tasks) !! i with
  | Some (Sent l _ body) =>
      match is_stream body, g.(g_store) !! l with
      | true, Some req =>
          match req.(r_metadata).(md_stream_queue) with
          | Some q =>
              Some (mkGateway g.(settings) g.(_scheduler) g.(_client) g.(_owns_client) g.(_workers)
                      g.(_running) g.(g_store) g.(g_next) g.(futures)
                      (put_stream q (Some chunk) g.(streams)) g.(tasks) g.(gw_metrics))
          | None => None
          end
      | _, _ => None
      end
  | _ => None
  end.

(** [if not future.done(): future.set_result(r)] *)
Definition set_result (f : nat) (r : reply) (fs : gmap nat future_state)
    : gmap nat future_state :=
  match fs !! f with
  | Some FPending => <[f := FResult r]> fs
  | _ => fs
  end.

(** How the backend call ended: a response with its status, its body decoded
    (or the decoder's message) and its text; or an exception's message.  For a
    stream: the end of the chunks, or an exception. *)
Inductive backend_answer :=
| Responded (status : Z) (json : string + reply) (text : string)
| StreamEnded
| Failed (msg : string).

(** A call of [post] responds or fails; a stream ends or fails. *)
Definition answer_fits (stream : bool) (a : backend_answer) : bool :=
  match a with
  | Responded _ _ _ => negb stream
  | StreamEnded => stream
  | Failed _ => true
  end.

(** The value of [result], or the message of the exception raised. *)
Definition post_result (a : backend_answer) : string + reply :=
  match a with
  | Responded status json text => if (status =? 200)%Z then json else inr [("error", text)]
  | StreamEnded => inr []
  | Failed msg => inl msg
  end.

Definition count_forward (ok : bool) (m : Metrics) : Metrics :=
  mkMetrics (m.(requests_success) + (if ok then 1 else 0))
    (m.(requests_error) + (if ok then 0 else 1)) m.(requests_timeout) m.(requests_dropped)
    m.(queue_depth_gauge) m.(predicted_tokens_observed) m.(e2e_observed).

Definition observe_e2e (ms : float) (m : Metrics) : Metrics :=
  mkMetrics m.(requests_success) m.(requests_error) m.(requests_timeout) m.(requests_dropped)
    m.(queue_depth_gauge) m.(predicted_tokens_observed) (m.(e2e_observed) ++ [ms]).

(** The try block of [_forward_request] after the answer: futures and stream
    queues as it leaves them, and the message of the exception it raised. *)
Definition forward_try (body : Body) (md : Metadata) (a : backend_answer)
    (fs : gmap nat future_state) (ss : gmap nat (list (option string)))
    : gmap nat future_state * gmap nat (list (option string)) * option string :=
  if is_stream body then
    match md.(md_stream_queue) with
    | None => (fs, ss, Some "'stream_queue'")
    | Some q =>
        match a with
        | Failed msg => (fs, ss, Some msg)
        | _ => (fs, put_stream q None ss, None)
        end
    end
  else
    match post_result a with
    | inl msg => (fs, ss, Some msg)
    | inr r =>
        match md.(md_future) with
        | None => (fs, ss, Some "'future'")
        | Some f => (set_result f r fs, ss, None)
        end
    end.

(** [_forward_request] from the backend's answer to its end: the try block,
    the handler, and the finally block. *)
Definition forward_finish (i : nat) (now : float) (a : backend_answer) g : option (Gateway S) :=
  match g.(tasks) !! i, g.(_scheduler) with
  | Some (Sent l t0 body), Some s =>
      match g.(g_store) !! l, answer_fits (is_stream body) a with
      | Some req, true =>
          let md := req.(r_metadata) in
          let '(fs, ss, failure) := forward_try body md a g.(futures) g.(streams) in
          let ok := bool_decide (failure = None) in
          let fs' :=
            match failure, md.(md_future) with
            | Some msg, Some f => set_result f [("error", msg)] fs
            | _, _ => fs
            end in
          let s' := complete req.(r_request_id) ok s in
          let m' := set_depth_gauge (queue_depth s')
                      (observe_e2e (ms_between t0 now) (count_forward ok g.(gw_metrics))) in
          Some (mkGateway g.(settings) (Some s') g.(_client) g.(_owns_client) g.(_workers)
                  g.(_running) g.(g_store) g.(g_next) fs' ss (delete i g.(tasks)) m')
      | _, _ => None
      end
  | _, _ => None
  end.

(** ** HTTP *)

Inductive http_response :=
| Json200 (r : reply)
| Error502 (detail : string)
| Error504
| Error500.

(** [chat_completions] once [submit_chat] is over: the state of its future,
    or [None] when its wait expired. *)
Definition chat_response (f : option future_state) : option http_response :=
  match f with
  | None => Some Error504
  | Some FPending => None
  | Some FCancelled => Some Error500
  | Some (FResult r) =>
      Some (match od_get "error" r with Some d => Error502 d | None => Json200 r end)
  end.

(** [ready]: the status of the health probe, if it answered. *)
Record ReadyReport := {
  ready_status : string;
  ready_scheduler : string;
  ready_queue_depth : nat;
  vllm_backend : string;
}.

Definition ready (probe : option Z) g : ReadyReport :=
  let backend_ok :=
    match g.(_client), probe with
    | Some _, Some status => (status <? 500)%Z
    | _, _ => false
    end in
  {| ready_status :=
       if g.(_running) && bool_decide (is_Some g.(_scheduler)) then "ready" else "starting";
     ready_scheduler := scheduler_value g.(settings).(g_scheduler_type);
     ready_queue_depth := from_option queue_depth 0 g.(_scheduler);
     vllm_backend := if backend_ok then "ok" else "unavailable" |}.

Definition gateway_stats g : result (option SchedulerStats * nat) :=
  match g.(_scheduler) with
  | None => Ok (None, 0)
  | Some s =>
      rbind (scheduler_stats (queue_depth s) (base s)) (fun st => Ok (Some st, queue_depth s))
  end.
End Handlers.

(** ** Start and stop *)

Section Lifecycle.
Context (predictor : string -> result PredictionResult).

(** Any scheduler [build_scheduler] returns, as an instance of the interface. *)
#[global] Instance any_ops : SchedulerOps AnyScheduler := {
  submit c l st s :=
    match s with
    | AnyFcfs f => let '(st', f', r) := submit c l st f in (st', AnyFcfs f', r)
    | AnySjf f => let '(st', f', r) := sjf_submit predictor c l st f in (st', AnySjf f', r)
    | AnyOracle f => let '(st', f', r) := submit c l st f in (st', AnyOracle f', r)
    end;
  acquire c t s :=
    match s with
    | AnyFcfs f => let '(o, f') := acquire c t f in (o, AnyFcfs f')
    | AnySjf f => let '(o, f') := sjf_acquire c t f in (o, AnySjf f')
    | AnyOracle f => let '(o, f') := acquire c t f in (o, AnyOracle f')
    end;
  complete rid ok s :=
    match s with
    | AnyFcfs f => AnyFcfs (complete rid ok f)
    | AnySjf f => AnySjf (sjf_complete rid ok f)
    | AnyOracle f => AnyOracle (complete rid ok f)
    end;
  cancel_request rid s :=
    match s with
    | AnyFcfs f => let '(b, f') := cancel_request rid f in (b, AnyFcfs f')
    | AnySjf f => let '(b, f') := sjf_cancel rid f in (b, AnySjf f')
    | AnyOracle f => let '(b, f') := cancel_request rid f in (b, AnyOracle f')
    end;
  queue_depth s :=
    match s with
    | AnyFcfs f => queue_depth f
    | AnySjf f => sjf_queue_depth f
    | AnyOracle f => queue_depth f
    end;
  base s :=
    match s with
    | AnyFcfs f => base f
    | AnySjf f => s_base f
    | AnyOracle f => base f
    end;
}.

(** Names the triple or pair a dispatched call returned. *)
Local Ltac open_call E :=
  match goal with
  | H : context [match ?t with pair _ _ => _ end] |- _ =>
      destruct t as [? ?] eqn:E; simpl in H;
      try match type of H with context [match ?p with pair _ _ => _ end] => destruct p as [? ?] end;
      simplify_eq
  end.

#[global] Instance any_laws : SchedulerLaws AnyScheduler.
Proof.
  pose proof (sjf_laws predictor) as HS. split; simpl.
  - intros c l st [f|f|f] st' s' H; open_call E.
    + exact (submit_counts (S := FCFSScheduler) c l st f _ _ E).
    + exact (submit_counts (S := SJFScheduler) (H := sjf_ops predictor) c l st f _ _ E).
    + exact (submit_counts (S := OracleSJFScheduler) c l st f _ _ E).
  - intros c l st [f|f|f] st' s' e H; open_call E.
    + exact (submit_raises (S := FCFSScheduler) c l st f _ _ _ E).
    + exact (submit_raises (S := SJFScheduler) (H := sjf_ops predictor) c l st f _ _ _ E).
    + exact (submit_raises (S := OracleSJFScheduler) c l st f _ _ _ E).
  - intros c l st [f|f|f] st' s' r l' H Hne; open_call E.
    + exact (submit_frame (S := FCFSScheduler) c l st f _ _ _ _ E Hne).
    + exact (submit_frame (S := SJFScheduler) (H := sjf_ops predictor) c l st f _ _ _ _ E Hne).
    + exact (submit_frame (S := OracleSJFScheduler) c l st f _ _ _ _ E Hne).
  - intros c l st [f|f|f] st' s' r req H Hl; open_call E.
    + exact (submit_keeps (S := FCFSScheduler) c l st f _ _ _ _ E Hl).
    + exact (submit_keeps (S := SJFScheduler) (H := sjf_ops predictor) c l st f _ _ _ _ E Hl).
    + exact (submit_keeps (S := OracleSJFScheduler) c l st f _ _ _ _ E Hl).
  - intros c t [f|f|f] o s' H; open_call E.
    + exact (acquire_counts (S := FCFSScheduler) c t f _ _ E).
    + exact (acquire_counts (S := SJFScheduler) (H := sjf_ops predictor) c t f _ _ E).
    + exact (acquire_counts (S := OracleSJFScheduler) c t f _ _ E).
  - intros rid [f|f|f] b s' H; open_call E.
    + exact (cancel_counts (S := FCFSScheduler) rid f _ _ E).
    + exact (cancel_counts (S := SJFScheduler) (H := sjf_ops predictor) rid f _ _ E).
    + exact (cancel_counts (S := OracleSJFScheduler) rid f _ _ E).
  - by intros rid ok [f|f|f].
Qed.
End Lifecycle.

(** [isinstance(self._scheduler, SJFScheduler)] guards both. *)
Definition start_scheduler (s : AnyScheduler) : AnyScheduler :=
  match s with AnySjf f => AnySjf (sjf_start f) | _ => s end.
Definition stop_scheduler (s : AnyScheduler) : AnyScheduler :=
  match s with AnySjf f => AnySjf (sjf_stop f) | _ => s end.

(** [load] is the outcome of making the predictor: [from_checkpoint] when the
    file exists, else the untrained model, which cannot fail. *)
Definition startup (load : result unit) (g : Gateway AnyScheduler)
    : Gateway AnyScheduler * result unit :=
  if g.(_running) then (g, Ok tt)
  else
    match load with
    | Raise e => (g, Raise e)
    | Ok _ =>
        let cfg := g.(settings) in
        match build_scheduler cfg.(g_scheduler_type) true cfg.(config).(c_scheduler) with
        | Raise e => (g, Raise e)
        | Ok s =>
            (mkGateway cfg (Some (start_scheduler s))
               (Some (default (OwnClient cfg.(vllm_url) cfg.(connect_timeout) cfg.(request_timeout))
                        g.(_client)))
               (match g.(_client) with None => true | Some _ => g.(_owns_client) end)
               (g.(_workers) ++ replicate (Z.to_nat cfg.(max_workers)) true) true
               g.(g_store) g.(g_next) g.(futures) g.(streams) g.(tasks) g.(gw_metrics), Ok tt)
        end
    end.

Definition shutdown (g : Gateway AnyScheduler) : Gateway AnyScheduler :=
  mkGateway g.(settings) (stop_scheduler <$> g.(_scheduler))
    (if g.(_owns_client) then None else g.(_client)) g.(_owns_client)
    (map (fun _ => false) g.(_workers)) false
    g.(g_store) g.(g_next) g.(futures) g.(streams) g.(tasks) g.(gw_metrics).

Definition live_workers {S} (g : Gateway S) : nat := length (filter (fun b => b = true) g.(_workers)).

Lemma live_workers_false (ws : list bool) : filter (fun b => b = true) (map (fun _ => false) ws) = [].
Proof. by induction ws. Qed.

Lemma live_replicate n : length (filter (fun b => b = true) (replicate n true)) = n.
Proof. induction n as [|n IH]; [done|]. simpl. by rewrite IH. Qed.

Lemma startup_stopped load (g : Gateway AnyScheduler) :
  g.(_running) = false ->
  let '(g1, r) := startup load g in
  (r <> Ok tt -> g1 = g) /\
  (r = Ok tt ->
     g1.(settings) = g.(settings) /\ g1.(_running) = true /\ is_Some g1.(_client) /\
     live_workers g1 = live_workers g + Z.to_nat g.(settings).(max_workers) /\
     exists s, build_scheduler g.(settings).(g_scheduler_type) true
                 g.(settings).(config).(c_scheduler) = Ok s /\
       g1.(_scheduler) = Some (start_scheduler s)).
Proof.
  intros Hr. unfold startup. rewrite Hr. destruct load as [[]|e]; [|done].
  destruct (build_scheduler _ _ _) as [s|e]; [|done]. split; [done|]. intros _.
  unfold live_workers. simpl. rewrite filter_app, length_app, live_replicate. eauto 10.
Qed.

(** Start and stop: starting a running gateway changes nothing, and so
    does a start that fails; a start that succeeds leaves it running, with a
    client, the scheduler of its configuration and max_workers more live
    dispatchers.  Shutting down stops every dispatcher and drops the client
    exactly when the gateway created it; a later start that succeeds brings
    back max_workers live dispatchers and a new, empty scheduler: requests the
    old one still held are gone. *)
Theorem lifecycle (load : result unit) (g : Gateway AnyScheduler) :
  let '(g1, r) := startup load g in
  (g.(_running) = true -> g1 = g /\ r = Ok tt) /\
  (r <> Ok tt -> g1 = g) /\
  (g.(_running) = false -> r = Ok tt ->
     g1.(_running) = true /\ is_Some g1.(_client) /\ is_Some g1.(_scheduler) /\
     live_workers g1 = live_workers g + Z.to_nat g.(settings).(max_workers)) /\
  let g2 := shutdown g1 in
  g2.(_running) = false /\ live_workers g2 = 0 /\
  g2.(_client) = (if g1.(_owns_client) then None else g1.(_client)) /\
  let '(g3, r3) := startup load g2 in
  r3 = Ok tt -> live_workers g3 = Z.to_nat g.(settings).(max_workers) /\
    exists s, build_scheduler g.(settings).(g_scheduler_type) true
                g.(settings).(config).(c_scheduler) = Ok s /\
      g3.(_scheduler) = Some (start_scheduler s).
Proof.
  destruct (startup load g) as [g1 r] eqn:E.
  assert (Hs : g1.(settings) = g.(settings)).
  { unfold startup in E. repeat case_match; by simplify_eq. }
  split; [intros Hr; unfold startup in E; rewrite Hr in E; by simplify_eq|].
  assert (Hst := startup_stopped load g). rewrite E in Hst.
  split; [|split].
  - destruct (g.(_running)) eqn:Hr; [unfold startup in E; rewrite Hr in E; by simplify_eq|].
    by apply Hst.
  - intros Hr Hok. destruct (Hst Hr) as [_ H]. destruct (H Hok) as (_ & ? & ? & ? & s & _ & ->).
    eauto.
  - assert (Hl : live_workers (shutdown g1) = 0).
    { unfold live_workers. simpl. by rewrite live_workers_false. }
    split; [done|]. split; [done|]. split; [done|].
    assert (Hst2 := startup_stopped load (shutdown g1) eq_refl).
    destruct (startup load (shutdown g1)) as [g3 r3]. intros ->.
    destruct Hst2 as [_ H]. destruct (H eq_refl) as (_ & _ & _ & Hw & Hsch).
    rewrite Hl in Hw. simpl in *. rewrite Hs in *. eauto.
Qed.

(** ** Runs *)

Inductive gw_op :=
| OSubmit (rid : string) (now : float) (c : submit_clock) (body : Body)
| OSubmitStream (rid : string) (now : float) (c : submit_clock) (body : Body)
| OTimeout (l : loc)
| ODispatch (c : acquire_clock)
| OBegin (i : nat) (t0 : float)
| OChunk (i : nat) (chunk : string)
| OFinish (i : nat) (now : float) (a : backend_answer)
| ORead (q : nat).

Section Runs.
Context {S : Type} `{SchedulerOps S}.

(** A step whose task is not in the state it needs does not happen. *)
Definition gw_step (o : gw_op) (g : Gateway S) : Gateway S :=
  match o with
  | OSubmit rid now c body => fst (submit_chat rid now c body g)
  | OSubmitStream rid now c body => fst (submit_chat_stream rid now c body g)
  | OTimeout l => submit_timeout l g
  | ODispatch c => dispatch_turn c g
  | OBegin i t0 => default g (forward_begin i t0 g)
  | OChunk i chunk => default g (forward_chunk i chunk g)
  | OFinish i now a => default g (forward_finish i now a g)
  | ORead q => snd (stream_next q g)
  end.

Definition gw_run (os : list gw_op) (g : Gateway S) : Gateway S := fold_left (fun g o => gw_step o g) os g.

(** Futures are numbered below [g_next]. *)
Definition futures_ok (g : Gateway S) : Prop :=
  forall f, g.(g_next) <= f -> g.(futures) !! f = None.

Lemma set_result_done f r fs f' x :
  fs !! f' = Some x -> x <> FPending -> set_result f r fs !! f' = Some x.
Proof.
  intros Hx Hp. unfold set_result. destruct (fs !! f) as [[]|] eqn:E; try done.
  destruct (decide (f = f')) as [->|Hne]; [congruence|]. by rewrite lookup_insert_ne.
Qed.

Lemma cancel_future_done f fs f' x :
  fs !! f' = Some x -> x <> FPending -> cancel_future f fs !! f' = Some x.
Proof.
  intros Hx Hp. unfold cancel_future. destruct (fs !! f) as [[]|] eqn:E; try done.
  destruct (decide (f = f')) as [->|Hne]; [congruence|]. by rewrite lookup_insert_ne.
Qed.

Lemma forward_try_done body md a fs ss fs' ss' e f x :
  forward_try body md a fs ss = (fs', ss', e) -> fs !! f = Some x -> x <> FPending ->
  fs' !! f = Some x.
Proof.
  unfold forward_try. intros E Hx Hp. repeat case_match; simplify_eq; auto using set_result_done.
Qed.

(** How a step may change the futures: those that are done stay, those that
    did not exist appear only under the next number. *)
Record futures_step (n : nat) (fs : gmap nat future_state) (n' : nat)
    (fs' : gmap nat future_state) : Prop := {
  fu_done f x : fs !! f = Some x -> x <> FPending -> fs' !! f = Some x;
  fu_new f : fs !! f = None -> is_Some (fs' !! f) -> f = n /\ n < n';
  fu_next : n <= n';
}.

Lemma futures_step_refl n fs : futures_step n fs n fs.
Proof. split; try done. intros f -> [? ?]. done. Qed.

Lemma futures_step_set_result n f r fs : futures_step n fs n (set_result f r fs).
Proof.
  split; [intros; by apply set_result_done| |done]. intros f'. unfold set_result.
  destruct (fs !! f) as [[]|] eqn:E; try (by intros -> [? ?]).
  rewrite lookup_insert. case_decide; subst; [congruence|]. by intros -> [? ?].
Qed.

Lemma futures_step_cancel n f fs : futures_step n fs n (cancel_future f fs).
Proof.
  split; [intros; by apply cancel_future_done| |done]. intros f'. unfold cancel_future.
  destruct (fs !! f) as [[]|] eqn:E; try (by intros -> [? ?]).
  rewrite lookup_insert. case_decide; subst; [congruence|]. by intros -> [? ?].
Qed.

Lemma futures_step_new n fs : fs !! n = None -> futures_step n fs (n + 1) (<[n := FPending]> fs).
Proof.
  intros Hn. split; [| |lia].
  - intros f x Hf _. rewrite lookup_insert_ne; [done|]. congruence.
  - intros f Hf. rewrite lookup_insert. case_decide; [intros; lia|]. rewrite Hf. by intros [? ?].
Qed.

Lemma futures_step_trans n fs n1 fs1 fs2 :
  futures_step n fs n1 fs1 -> futures_step n1 fs1 n1 fs2 -> futures_step n fs n1 fs2.
Proof.
  intros [Hd Hn Hl] [Hd' Hn' Hl']. split; [auto| |done]. intros f Hf Hs.
  destruct (fs1 !! f) eqn:E; [apply Hn; eauto|]. destruct (Hn' f E Hs). lia.
Qed.

Lemma forward_try_futures n body md a fs ss fs' ss' e :
  forward_try body md a fs ss = (fs', ss', e) -> futures_step n fs n fs'.
Proof.
  unfold forward_try. intros E.
  repeat case_match; simplify_eq; auto using futures_step_refl, futures_step_set_result.
Qed.

Lemma gw_step_futures o (g : Gateway S) :
  futures_ok g -> futures_step g.(g_next) g.(futures) (gw_step o g).(g_next) (gw_step o g).(futures).
Proof.
  intros Hok. pose proof (Hok (g_next g) (le_n _)) as Hn.
  destruct o as [rid now c body|rid now c body|l|c|i t0|i ch|i now a|q]; simpl.
  - unfold submit_chat. repeat case_match; simpl; by apply futures_step_new.
  - unfold submit_chat_stream. repeat case_match; simpl; (split; [auto| |lia]); by intros f -> [? ?].
  - unfold submit_timeout. repeat case_match; simpl; try apply futures_step_refl.
    destruct (md_future _); simpl; auto using futures_step_refl, futures_step_cancel.
  - unfold dispatch_turn. repeat case_match; apply futures_step_refl.
  - unfold forward_begin. repeat case_match; apply futures_step_refl.
  - unfold forward_chunk. repeat case_match; apply futures_step_refl.
  - unfold forward_finish. destruct (tasks g !! i) as [[l|l t0 body]|]; try apply futures_step_refl.
    destruct (_scheduler g) as [s|]; [|apply futures_step_refl].
    destruct (g_store g !! l) as [req|]; [|apply futures_step_refl].
    destruct (answer_fits _ _); [|apply futures_step_refl].
    destruct (forward_try _ _ _ _ _) as [[fs ss] e] eqn:E. simpl.
    apply forward_try_futures with (n := g_next g) in E.
    destruct e as [msg|], (md_future (r_metadata req)) as [f|]; try done.
    eapply futures_step_trans; [done|]. apply futures_step_set_result.
  - unfold stream_next. repeat case_match; apply futures_step_refl.
Qed.

Lemma gw_step_ok o (g : Gateway S) : futures_ok g -> futures_ok (gw_step o g).
Proof.
  intros Hok. destruct (gw_step_futures o g Hok) as [_ Hn Hl]. intros f Hf.
  destruct (futures (gw_step o g) !! f) eqn:E; [|done].
  destruct (Hn f) as [-> ?]; [|by rewrite E|lia]. apply Hok. lia.
Qed.

Lemma gw_run_ok os (g : Gateway S) : futures_ok g -> futures_ok (gw_run os g).
Proof.
  unfold gw_run. revert g. induction os as [|o os IH]; intros g Hok; simpl; [done|].
  by apply IH, gw_step_ok.
Qed.

(** C4.  A client's future is settled once: whatever requests are submitted,
    dispatched, answered or time out afterwards, and however often the same
    request is forwarded, a future that holds a result or is cancelled never
    changes again. *)
Theorem future_settles_once (os : list gw_op) (g : Gateway S) f x :
  futures_ok g -> g.(futures) !! f = Some x -> x <> FPending ->
  (gw_run os g).(futures) !! f = Some x.
Proof.
  unfold gw_run. revert g. induction os as [|o os IH]; intros g Hok Hf Hx; simpl; [done|].
  apply IH; [by apply gw_step_ok| |done].
  by apply (fu_done _ _ _ _ (gw_step_futures o g Hok)).
Qed.
End Runs.

(** ** Answers *)

(** What the client gets for each way the backend call can end. *)
Definition expected_response (a : backend_answer) : http_response :=
  match a with
  | Responded status json text =>
      if (status =? 200)%Z then
        match json with
        | inr r => match od_get "error" r with Some d => Error502 d | None => Json200 r end
        | inl msg => Error502 msg
        end
      else Error502 text
  | Failed msg => Error502 msg
  | StreamEnded => Json200 []
  end.

(** The answers the gateway counts as successes: all but an exception. *)
Definition counts_as_success (a : backend_answer) : bool :=
  match post_result a with inl _ => false | inr _ => true end.

Section Answers.
Context {S : Type} `{SchedulerOps S}.

Lemma set_result_pending f r fs : fs !! f = Some FPending -> set_result f r fs !! f = Some (FResult r).
Proof. intros E. unfold set_result. by rewrite E, lookup_insert_eq. Qed.

(** C3.  Every way a backend call can end reaches the waiting client: when the
    answer to a non-streaming request comes in, its future is settled, the
    task is gone and the client's response is determined: the JSON of a 200
    answer, and 502 with the backend's text, the decoder's message or the
    connection's exception otherwise.  The request is counted as an error only
    when an exception was raised: a backend that answers with an error status
    counts as a success. *)
Theorem forward_reaches_client (g : Gateway S) i l t0 body req f s now a :
  g.(tasks) !! i = Some (Sent l t0 body) -> is_stream body = false ->
  g.(_scheduler) = Some s -> g.(g_store) !! l = Some req ->
  req.(r_metadata).(md_future) = Some f -> g.(futures) !! f = Some FPending ->
  answer_fits false a = true ->
  exists g', forward_finish i now a g = Some g' /\
    chat_response (g'.(futures) !! f) = Some (expected_response a) /\
    g'.(tasks) = delete i g.(tasks) /\
    g'.(_scheduler) = Some (complete req.(r_request_id) (counts_as_success a) s) /\
    requests_success g'.(gw_metrics) =
      requests_success g.(gw_metrics) + (if counts_as_success a then 1 else 0) /\
    requests_error g'.(gw_metrics) =
      requests_error g.(gw_metrics) + (if counts_as_success a then 0 else 1).
Proof.
  intros Ht Hstr Hs Hl Hf Hp Ha. unfold forward_finish, forward_try, counts_as_success.
  rewrite Ht, Hs, Hl, Hstr, Ha, Hf.
  destruct a as [status [msg|r] text| |msg]; simpl in *; try done.
  1,2: destruct (status =? 200)%Z; simpl.
  all: eexists; split; [done|]; simpl; by rewrite set_result_pending.
Qed.

(** C32.  A stream's consumer is released only by a stream that ends: the end
    of the backend's chunks puts the closing None on the consumer's queue,
    while a failure counts the request as an error and leaves the queue
    without one, so that after the chunks already there the consumer blocks;
    no future exists to carry the error either. *)
Theorem stream_failure_blocks_consumer (g : Gateway S) i l t0 body req q xs s now a :
  g.(tasks) !! i = Some (Sent l t0 body) -> is_stream body = true ->
  g.(_scheduler) = Some s -> g.(g_store) !! l = Some req ->
  req.(r_metadata).(md_stream_queue) = Some q -> req.(r_metadata).(md_future) = None ->
  g.(streams) !! q = Some xs -> answer_fits true a = true ->
  exists g', forward_finish i now a g = Some g' /\
    g'.(tasks) = delete i g.(tasks) /\ g'.(futures) = g.(futures) /\
    match a with
    | Failed _ =>
        g'.(streams) !! q = Some xs /\
        requests_error g'.(gw_metrics) = requests_error g.(gw_metrics) + 1 /\
        (xs = [] -> fst (stream_next q g') = Blocked)
    | _ =>
        g'.(streams) !! q = Some (xs ++ [None]) /\
        requests_success g'.(gw_metrics) = requests_success g.(gw_metrics) + 1 /\
        (xs = [] -> fst (stream_next q g') = EndOfStream)
    end.
Proof.
  intros Ht Hstr Hs Hl Hq Hf Hx Ha. unfold forward_finish, forward_try.
  rewrite Ht, Hs, Hl, Hstr, Ha, Hq, Hf.
  destruct a as [status json text| |msg]; simpl in *; try done.
  all: eexists; split; [done|]; unfold stream_next, put_stream; simpl.
  all: rewrite ?lookup_insert_eq, Hx; simpl; split_and!; try done; try lia; by intros ->.
Qed.
End Answers.

(** ** Accounting *)

Section Accounting.
Context {S : Type} `{SchedulerLaws S}.

(** Submissions that were accepted along a run. *)
Definition accepts (o : gw_op) (g : Gateway S) : nat :=
  match o with
  | OSubmit rid now c body =>
      match snd (submit_chat rid now c body g) with Ok _ => 1 | Raise _ => 0 end
  | OSubmitStream rid now c body =>
      match snd (submit_chat_stream rid now c body g) with Ok _ => 1 | Raise _ => 0 end
  | _ => 0
  end.

Fixpoint gw_accepted (os : list gw_op) (g : Gateway S) : nat :=
  match os with
  | [] => 0
  | o :: os' => accepts o g + gw_accepted os' (gw_step o g)
  end.

(** The counters of scheduler and gateway that move together. *)
Definition agree (g : Gateway S) (s : S) (g' : Gateway S) (s' : S) (accepted : nat) : Prop :=
  _total_scheduled (base s') = _total_scheduled (base s) + accepted /\
  _total_completed (base s') + requests_success g.(gw_metrics) =
    _total_completed (base s) + requests_success g'.(gw_metrics) /\
  _total_errors (base s') + requests_error g.(gw_metrics) =
    _total_errors (base s) + requests_error g'.(gw_metrics).

Lemma submit_agree c l st (s : S) st' s' r :
  submit c l st s = (st', s', r) ->
  _total_scheduled (base s') =
    _total_scheduled (base s) + match r with Ok _ => 1 | Raise _ => 0 end /\
  _total_completed (base s') = _total_completed (base s) /\
  _total_errors (base s') = _total_errors (base s).
Proof.
  intros E. destruct r as [[]|e].
  - by apply submit_counts in E.
  - apply submit_raises in E as (? & ? & ?). split_and!; try done. lia.
Qed.

Lemma gw_step_agree o (g : Gateway S) s :
  g.(_scheduler) = Some s ->
  exists s', (gw_step o g).(_scheduler) = Some s' /\ agree g s (gw_step o g) s' (accepts o g).
Proof.
  intros Hs. unfold agree.
  assert (Hsame : exists s', _scheduler g = Some s' /\
    _total_scheduled (base s') = _total_scheduled (base s) + 0 /\
    _total_completed (base s') + requests_success g.(gw_metrics) =
      _total_completed (base s) + requests_success g.(gw_metrics) /\
    _total_errors (base s') + requests_error g.(gw_metrics) =
      _total_errors (base s) + requests_error g.(gw_metrics)) by (exists s; split_and!; [done|lia..]).
  destruct o as [rid now c body|rid now c body|l|c|i t0|i ch|i now a|q]; simpl.
  - unfold submit_chat. rewrite Hs. destruct (submit _ _ _ _) as [[st' s'] r] eqn:E.
    apply submit_agree in E as (? & ? & ?). destruct r as [u|e]; cbn [fst snd].
    + exists s'. split; [done|]. cbn [gw_metrics]. destruct (fltb _ _); simpl; lia.
    + exists s'. split; [done|]. simpl; lia.
  - unfold submit_chat_stream. rewrite Hs. destruct (submit _ _ _ _) as [[st' s'] r] eqn:E.
    apply submit_agree in E as (? & ? & ?). exists s'. split; [done|]. destruct r; simpl; lia.
  - unfold submit_timeout. rewrite Hs. destruct (g_store g !! l) as [req|]; [|done]. simpl.
    destruct (cancel_request _ s) as [b s'] eqn:E. apply cancel_counts in E as (? & ? & ?).
    exists s'. split; [done|]. simpl. lia.
  - unfold dispatch_turn. rewrite Hs. destruct (_running g); [|done].
    destruct (acquire _ _ s) as [o s'] eqn:E. apply acquire_counts in E as (? & ? & ?).
    exists s'. split; [done|]. simpl. lia.
  - unfold forward_begin. repeat case_match; simpl; done.
  - unfold forward_chunk. repeat case_match; simpl; done.
  - unfold forward_finish. rewrite Hs. destruct (tasks g !! i) as [[|l t0 body]|]; try done.
    destruct (g_store g !! l) as [req|]; [|done]. destruct (answer_fits _ _); [|done].
    destruct (forward_try _ _ _ _ _) as [[fs ss] e]. simpl.
    eexists. split; [done|]. rewrite complete_counts.
    case_bool_decide; simpl; lia.
  - unfold stream_next. repeat case_match; simpl; done.
Qed.

(** C9.  Accounting, for every scheduler that keeps the interface's laws:
    along any run of the gateway the scheduler's total_scheduled grows by the
    submissions accepted, and its completed and error counters grow exactly
    with the gateway's success and error metrics. *)
Theorem gateway_accounting (os : list gw_op) (g : Gateway S) s :
  g.(_scheduler) = Some s ->
  exists s', (gw_run os g).(_scheduler) = Some s' /\ agree g s (gw_run os g) s' (gw_accepted os g).
Proof.
  unfold gw_run. revert g s. induction os as [|o os IH]; intros g s Hs; simpl.
  { exists s. unfold agree. split; [done|lia]. }
  destruct (gw_step_agree o g s Hs) as (s1 & Hs1 & ? & ? & ?).
  destruct (IH _ _ Hs1) as (s2 & Hs2 & ? & ? & ?).
  exists s2. unfold agree in *. split; [done|]. lia.
Qed.
End Accounting.

(** ** End to end *)

Section RoundTrip.
Implicit Types (g : Gateway FCFSScheduler) (s : FCFSScheduler).

Lemma submit_chat_fcfs g s rid now c body :
  g.(_scheduler) = Some s ->
  let l := g.(g_next) in
  let g' := fst (submit_chat rid now c body g) in
  g'.(_scheduler) = Some (fcfs_submit rid l s) /\
  g'.(g_store) = <[l := make_request rid now body (mkMeta (Some body) (Some l) None None)]> g.(g_store) /\
  g'.(futures) = <[l := FPending]> g.(futures) /\
  g'.(tasks) = g.(tasks) /\ g'.(_running) = g.(_running) /\ g'.(_client) = g.(_client) /\
  g'.(settings) = g.(settings).
Proof.
  intros Hs l. unfold submit_chat. rewrite Hs. cbn [submit fcfs_ops].
  by rewrite lookup_insert_eq.
Qed.

Lemma dispatch_fcfs g s c l q :
  g.(_running) = true -> g.(_scheduler) = Some s -> s.(f_queue) = l :: q ->
  let g' := dispatch_turn c g in
  is_Some g'.(_scheduler) /\ g'.(g_store) = g.(g_store) /\ g'.(futures) = g.(futures) /\
  g'.(tasks) = g.(tasks) ++ [Starting l] /\ g'.(_client) = g.(_client) /\
  g'.(settings) = g.(settings).
Proof.
  intros Hr Hs Hq. unfold dispatch_turn. rewrite Hr, Hs. cbn [acquire fcfs_ops].
  unfold fcfs_acquire. replace (ftruthy f1) with true by fcompute.
  replace (fleb f1 f0) with false by fcompute.
  unfold fcfs_get. rewrite Hq. by eauto 10.
Qed.
End RoundTrip.

(** C10.  A request makes the round trip: on a running gateway with an idle
    FCFS scheduler, a non-streaming request that is submitted is the one the
    next dispatch takes; it is forwarded with the client's messages and token
    limit and with the client's model, or the configured one when it named
    none; and whatever the backend answers becomes the client's response. *)
Theorem fcfs_round_trip (g : Gateway FCFSScheduler) s rid now c body ac t0 t1 a :
  g.(_scheduler) = Some s -> s.(f_queue) = [] -> g.(tasks) = [] ->
  g.(_running) = true -> is_Some g.(_client) ->
  default false body.(body_stream) = false -> answer_fits false a = true ->
  let l := g.(g_next) in
  let sent := mkBody body.(body_messages) body.(body_max_tokens) body.(body_stream)
                (Some (default g.(settings).(model) body.(body_model))) in
  let g1 := gw_run [OSubmit rid now c body; ODispatch ac; OBegin 0 t0] g in
  let g2 := gw_step (OFinish 0 t1 a) g1 in
  g1.(tasks) = [Sent l t0 sent] /\
  chat_response (g2.(futures) !! l) = Some (expected_response a) /\ g2.(tasks) = [].
Proof.
  intros Hs Hq Ht Hr [cl Hc] Hstr Ha l sent g1 g2. subst g2.
  destruct (submit_chat_fcfs g s rid now c body Hs) as (Es & Est & Ef & Et & Er & Ec & Eset).
  set (ga := fst (submit_chat rid now c body g)) in *.
  destruct (dispatch_fcfs ga (fcfs_submit rid l s) ac l []) as ([s' Ds] & Dst & Df & Dt & Dc & Dset);
    [congruence|done|simpl; by rewrite Hq|].
  assert (H1 : g1 = set_tasks [Sent l t0 sent] (dispatch_turn ac ga)).
  { subst g1. unfold gw_run. cbn [fold_left gw_step]. fold ga. unfold forward_begin.
    rewrite Dt, Et, Ht, Dst, Est, Dc, Ec, Hc, Dset, Eset. simpl. rewrite lookup_insert_eq. simpl.
    unfold forward_body. simpl. by rewrite Hstr. }
  rewrite H1. split; [done|]. simpl.
  unfold forward_finish. simpl. rewrite Ds, Dst, Est, Df, Ef.
  unfold is_stream. simpl. rewrite lookup_insert_eq, Hstr, Ha. simpl.
  unfold forward_try, is_stream. simpl. rewrite Hstr.
  destruct a as [status [msg|r] text| |msg]; simpl in *; try done.
  1,2: destruct (status =? 200)%Z; simpl.
  all: by rewrite (set_result_pending _ _ _ (lookup_insert_eq _ _ _)).
Qed.

(** ** Witnesses *)

Definition no_config : GatewayConfig :=
  {| c_base_url := None; c_model := None; c_type := Some "fcfs"; c_max_workers := Some 1%Z;
     c_connect_timeout := None;
     c_scheduler := {| cfg_aging := None; cfg_fallback_to_fcfs := None;
                       cfg_aging_interval_sec := None; cfg_request_timeout_sec := None |} |}.

(** A gateway with an idle FCFS scheduler. *)
Definition idle_gateway : Gateway FCFSScheduler :=
  mkGateway (mkSettings no_config "http://localhost:8000" "m" FCFS 1 (of_int 300) (of_int 5))
    (Some fcfs_init) (Some GivenClient) false [true] true ∅ 0 ∅ ∅ []
    (mkMetrics 0 0 0 0 None [] []).

Definition demo_body (stream : bool) : Body :=
  mkBody (Some [{| role := Some "user"; content := Some "hi" |}]) None (Some stream) None.

(** Up to the call of the backend, for a plain and for a streaming request. *)
Definition waiting_gateway : Gateway FCFSScheduler :=
  gw_run [OSubmit "r1" f0 demo_clock (demo_body false); ODispatch demo_aclock; OBegin 0 f0] idle_gateway.
Definition streaming_gateway : Gateway FCFSScheduler :=
  gw_run [OSubmitStream "r2" f0 demo_clock (demo_body true); ODispatch demo_aclock; OBegin 0 f0] idle_gateway.

(** The request of [waiting_gateway] timed out before the answer came. *)
Definition timed_out_gateway : Gateway FCFSScheduler :=
  gw_run [OSubmit "r1" f0 demo_clock (demo_body false); ODispatch demo_aclock; OBegin 0 f0; OTimeout 0]
    idle_gateway.

Lemma idle_futures_ok : futures_ok idle_gateway.
Proof. intros f _. simpl. apply lookup_empty. Qed.

Lemma future_settles_once_witness :
  (gw_run [OFinish 0 f0 (Failed "late")] timed_out_gateway).(futures) !! 0 = Some FCancelled.
Proof.
  apply (future_settles_once [OFinish 0 f0 (Failed "late")] timed_out_gateway 0).
  - exact (gw_run_ok _ _ idle_futures_ok).
  - vm_compute. reflexivity.
  - discriminate.
Defined.

Lemma forward_reaches_client_witness :
  exists g', forward_finish 0 f0 (Responded 500 (inl "no json") "overloaded") waiting_gateway = Some g' /\
    chat_response (g'.(futures) !! 0) = Some (Error502 "overloaded") /\
    requests_success g'.(gw_metrics) = 1.
Proof.
  destruct (forward_reaches_client waiting_gateway 0 0 f0 (mkBody (body_messages (demo_body false)) None (Some false) (Some "m"))
              (make_request "r1" f0 (demo_body false) (mkMeta (Some (demo_body false)) (Some 0) None None))
              0 (default fcfs_init waiting_gateway.(_scheduler)) f0
              (Responded 500 (inl "no json") "overloaded"))
    as (g' & E & Hr & _ & _ & Hn & _).
  - vm_compute. reflexivity.
  - vm_compute. reflexivity.
  - vm_compute. reflexivity.
  - vm_compute. reflexivity.
  - reflexivity.
  - vm_compute. reflexivity.
  - reflexivity.
  - exists g'. split; [exact E|]. split; [exact Hr|]. rewrite Hn. vm_compute. reflexivity.
Defined.

Lemma stream_failure_blocks_consumer_witness :
  exists g', forward_finish 0 f0 (Failed "reset") streaming_gateway = Some g' /\
    fst (stream_next 0 g') = Blocked.
Proof.
  destruct (stream_failure_blocks_consumer streaming_gateway 0 0 f0
              (mkBody (body_messages (demo_body true)) None (Some true) (Some "m"))
              (make_request "r2" f0 (demo_body true) (mkMeta (Some (demo_body true)) None (Some 0) None))
              0 [] (default fcfs_init streaming_gateway.(_scheduler)) f0 (Failed "reset"))
    as (g' & E & _ & _ & _ & _ & Hb).
  - vm_compute. reflexivity.
  - vm_compute. reflexivity.
  - vm_compute. reflexivity.
  - vm_compute. reflexivity.
  - reflexivity.
  - reflexivity.
  - vm_compute. reflexivity.
  - reflexivity.
  - exists g'. split; [exact E|]. exact (Hb eq_refl).
Defined.

Lemma gateway_accounting_witness :
  exists s', (gw_run [OFinish 0 f0 StreamEnded] streaming_gateway).(_scheduler) = Some s' /\
    _total_completed (base s') + 0 = 0 + 1.
Proof.
  destruct (gateway_accounting [OFinish 0 f0 StreamEnded] streaming_gateway
              (default fcfs_init streaming_gateway.(_scheduler))) as (s' & E & _ & Hc & _).
  - vm_compute. reflexivity.
  - exists s'. split; [exact E|]. vm_compute in Hc. vm_compute. exact Hc.
Defined.

Lemma fcfs_round_trip_witness :
  chat_response ((gw_step (OFinish 0 f0 (Failed "down")) waiting_gateway).(futures) !! 0)
  = Some (Error502 "down").
Proof.
  destruct (fcfs_round_trip idle_gateway fcfs_init "r1" f0 demo_clock (demo_body false) demo_aclock
              f0 f0 (Failed "down")) as (_ & H & _).
  - reflexivity.
  - reflexivity.
  - reflexivity.
  - reflexivity.
  - exists GivenClient. reflexivity.
  - reflexivity.
  - reflexivity.
  - exact H.
Defined.
