(* ===== verification/Dataset.v ===== *)
(** * Training data (python/predictor/dataset.py)

    Building samples from records, JSONL, CSV and Hugging Face rows, synthetic
    generation, deduplication, splitting and the conversion to arrays.  The
    hash, the JSON codec, the random generators, the feature extractor and
    numpy's column statistics are parameters.  Strings hold ASCII text: the
    white space of [str.split] and [str.strip] is the ASCII one. *)
From Stdlib Require Import ZArith Lia Ascii.
From stdpp Require Import base option list strings gmap pretty.
From S2P Require Import Prelude PyFloat Features Predictor.
Local Open Scope string_scope.
Local Open Scope list_scope.
Local Open Scope nat_scope.
Local Open Scope py_scope.

(** A decoded JSON object or CSV row whose values are strings. *)
Abbreviation rec := (odict string).

Record Sample := mkSample {
  prompt : string;
  s_features : list float;
  actual_output_tokens : float;
  s_metadata : rec;
}.

Record DatasetSplits := mkSplits {
  train : list Sample;
  val : list Sample;
  test : list Sample;
  feature_mean : list float;
  feature_std : list float;
}.

(** ** Text *)

Definition is_space (c : ascii) : bool :=
  let n := nat_of_ascii c in (n =? 32) || ((9 <=? n) && (n <=? 13)) || ((28 <=? n) && (n <=? 31)).

(** [text.split()]: the maximal runs of characters that are no white space;
    [word] is the run being read. *)
Fixpoint split_loop (word text : string) : list string :=
  let flush := match word with EmptyString => [] | _ => [word] end in
  match text with
  | EmptyString => flush
  | String c text' =>
      if is_space c then flush ++ split_loop "" text'
      else split_loop (word +:+ String c "") text'
  end.

Definition split_words (text : string) : list string := split_loop "" text.

Fixpoint lstrip (s : string) : string :=
  match s with
  | String c s' => if is_space c then lstrip s' else s
  | EmptyString => EmptyString
  end.

(** Drops the trailing white space. *)
Fixpoint rstrip (s : string) : string :=
  match s with
  | EmptyString => EmptyString
  | String c s' =>
      match rstrip s' with
      | EmptyString => if is_space c then EmptyString else String c EmptyString
      | s'' => String c s''
      end
  end.

Definition strip (s : string) : string := rstrip (lstrip s).

(** The lines of a text file, without their ends. *)
Fixpoint lines_loop (line text : string) : list string :=
  match text with
  | EmptyString => match line with EmptyString => [] | _ => [line] end
  | String c text' =>
      if (c =? "010")%char then line :: lines_loop "" text'
      else lines_loop (line +:+ String c "") text'
  end.

Definition file_lines (text : string) : list string := lines_loop "" text.

(** [max(1, int(len(words) * 1.3))]; a word count is far below the float
    range, so [int] does not raise. *)
Definition estimate_count (n : nat) : Z :=
  match to_int (fmul (of_int (Z.of_nat n)) (flit 13 10)) with
  | Ok k => Z.max 1 k
  | Raise _ => 1%Z
  end.

Definition _estimate_tokens (text : string) : Z := estimate_count (length (split_words text)).

(** ** Samples from records *)

Section Builder.
(** [self.extractor.extract(prompt).features.as_list()] *)
Context (extract : string -> result (list float)).

Definition make_sample (p output : string) (meta : rec) : result Sample :=
  let? fs := extract p in
  Ok (mkSample p fs (of_int (_estimate_tokens output)) meta).

(** The loop over [zip(prompts, outputs, meta_list, strict=True)]: the lengths
    are found to differ when the shortest list ends. *)
Fixpoint prompts_loop (prompts outputs : list string) (metas : list rec) : result (list Sample) :=
  match prompts, outputs, metas with
  | p :: ps, o :: os, m :: ms =>
      let? s := make_sample p o m in
      let? ss := prompts_loop ps os ms in
      Ok (s :: ss)
  | [], [], [] => Ok []
  | _, _, _ => Raise (ValueError "zip() arguments have different lengths")
  end.

Definition from_prompts (prompts outputs : list string) (metadata : option (list rec))
    : result (list Sample) :=
  let meta_list :=
    match metadata with
    | Some (m :: ms) => m :: ms
    | _ => replicate (length prompts) []
    end in
  prompts_loop prompts outputs meta_list.

(** The first of three keys that is present. *)
Definition get3 (k1 k2 k3 : string) (r : rec) : string :=
  match od_get k1 r with
  | Some v => v
  | None => match od_get k2 r with Some v => v | None => default "" (od_get k3 r) end
  end.

Definition rec_prompt (r : rec) : string := get3 "prompt" "instruction" "input" r.
Definition rec_output (r : rec) : string := get3 "output" "response" "completion" r.

Definition rec_meta (r : rec) : rec :=
  filter (fun kv => kv.1 <> "prompt" /\ kv.1 <> "output") r.

Fixpoint records_loop (records : list rec) (prompts outputs : list string) (metas : list rec)
    : list string * list string * list rec :=
  match records with
  | [] => (prompts, outputs, metas)
  | r :: rs =>
      if bool_decide (rec_prompt r = "") then records_loop rs prompts outputs metas
      else records_loop rs (prompts ++ [rec_prompt r]) (outputs ++ [rec_output r])
             (metas ++ [rec_meta r])
  end.

Definition _from_records (records : list rec) : result (list Sample) :=
  let '(prompts, outputs, metas) := records_loop records [] [] [] in
  from_prompts prompts outputs (Some metas).

(** ** Files and presets *)

Context (loads : string -> result rec) (dumps : rec -> string).

Definition parse_jsonl (text : string) : result (list rec) :=
  rmap loads (filter (fun l => l <> "") (map strip (file_lines text))).

Definition from_jsonl (text : string) : result (list Sample) :=
  let? records := parse_jsonl text in _from_records records.

Definition _write_jsonl (records : list rec) : string :=
  foldr (fun r acc => dumps r +:+ newline +:+ acc) "" records.

(** [rows] are those of [csv.DictReader]. *)
Definition from_csv (rows : list rec) (prompt_col output_col : string) : result (list Sample) :=
  let? records := rmap (fun row =>
    match od_get prompt_col row with
    | None => Raise (KeyError prompt_col)
    | Some p => Ok [("prompt", p); ("output", default "" (od_get output_col row))]
    end) rows in
  _from_records records.

(** The rows of a Hugging Face split, up to [max_samples] of them. *)
Definition hf_records (rows : list rec) (max_samples : nat) (prompt_key output_key : string)
    : list rec :=
  omap (fun row =>
    let p := default (default "" (od_get "text" row)) (od_get prompt_key row) in
    let o := default (default "" (od_get "response" row)) (od_get output_key row) in
    if bool_decide (p = "") then None else Some [("prompt", p); ("output", o)])
  (take max_samples rows).

Definition replace_slash (s : string) : string :=
  String.string_of_list_ascii
    (map (fun c => if (c =? "/")%char then "_"%char else c) (String.list_ascii_of_string s)).

Definition cache_key (name split : string) (max_samples : nat) : string :=
  replace_slash (name +:+ "_" +:+ split +:+ "_" +:+ pretty max_samples) +:+ ".jsonl".

(** [from_huggingface]: the cache directory maps file names to their text;
    [load] is [load_dataset]. *)
Definition from_huggingface (load : string -> string -> result (list rec))
    (name split : string) (max_samples : nat) (prompt_key output_key : string)
    (cache : gmap string string) : result (list Sample) * gmap string string :=
  let path := cache_key name split max_samples in
  match cache !! path with
  | Some text => (from_jsonl text, cache)
  | None =>
      match load name split with
      | Raise e => (Raise e, cache)
      | Ok rows =>
          let records := hf_records rows max_samples prompt_key output_key in
          (_from_records records, <[path := _write_jsonl records]> cache)
      end
  end.
End Builder.

(** ** Deduplication and splitting *)

Section Dedup.
Context (_hash_prompt : string -> string).

Fixpoint dedup_loop (seen : gset string) (samples : list Sample) : list Sample :=
  match samples with
  | [] => []
  | s :: ss =>
      let h := _hash_prompt s.(prompt) in
      if bool_decide (h ∈ seen) then dedup_loop seen ss
      else s :: dedup_loop ({[h]} ∪ seen) ss
  end.

Definition deduplicate (samples : list Sample) : list Sample := dedup_loop ∅ samples.
End Dedup.

(** A slice bound: a negative one counts from the end. *)
Definition slice_bound (n : nat) (i : Z) : nat :=
  if (i <? 0)%Z then Z.to_nat (Z.of_nat n + i) else Z.to_nat i.

Definition py_slice {A} (lo hi : option Z) (l : list A) : list A :=
  let b := default (length l) (slice_bound (length l) <$> hi) in
  drop (default 0 (slice_bound (length l) <$> lo)) (take b l).

(** [[samples[i] for i in idx]] *)
Definition pick {A} (samples : list A) (idx : list nat) : result (list A) :=
  rmap (fun i => match samples !! i with Some s => Ok s | None => Raise IndexError end) idx.

(** Rows of one length; NumPy makes a matrix of nothing else. *)
Definition same_length (rows : list (list float)) : bool :=
  match rows with
  | [] => true
  | r :: rs => forallb (fun r' => length r' =? length r) rs
  end.

(** [np.array(rows, dtype=np.float32)] *)
Definition np_rows (rows : list (list float)) : result (list (list float)) :=
  if same_length rows then Ok (map np_float32 rows)
  else Raise (ValueError "setting an array element with a sequence").

(** A statistic along the first axis.  Of no rows at all NumPy makes the empty
    one-dimensional array, whose statistics are the scalar nan; it is written
    as one entry, which broadcasts alike. *)
Definition along_axis0 (stat : list (list float) -> list float) (rows : list (list float)) : list float :=
  match rows with [] => [NaN] | _ => stat rows end.

Section Split.
(** [default_rng(seed).permutation(n)], and the column statistics of a matrix
    with rows. *)
Context (permutation : Z -> nat -> list nat).
Context (col_mean col_std : list (list float) -> list float).

Definition split (samples : list Sample) (train_ratio val_ratio : float) (seed : Z)
    : result DatasetSplits :=
  let indices := permutation seed (length samples) in
  let n := of_int (Z.of_nat (length samples)) in
  let? n_train := to_int (fmul n train_ratio) in
  let? n_val := to_int (fmul n val_ratio) in
  let? tr := pick samples (py_slice None (Some n_train) indices) in
  let? va := pick samples (py_slice (Some n_train) (Some (n_train + n_val)%Z) indices) in
  let? te := pick samples (py_slice (Some (n_train + n_val)%Z) None indices) in
  let? all_features := np_rows (map s_features tr) in
  Ok (mkSplits tr va te (along_axis0 col_mean all_features) (along_axis0 col_std all_features)).
End Split.

(** The rows of [x] and the targets [y].  Without samples [x] is the empty
    one-dimensional array, and the arithmetic broadcasts that. *)
Definition to_tensors (samples : list Sample) (mean std : list float)
    : result (list (list float) * list float) :=
  match samples with
  | [] => let? x := normalize [] mean std in Ok ([], [])
  | _ =>
      let? x := rmap (fun s => normalize (np_float32 s.(s_features)) mean std) samples in
      Ok (x, np_float32 (map actual_output_tokens samples))
  end.

(** ** Synthetic data *)

(** A format string: literal text and replacement fields. *)
Inductive piece := Lit (s : string) | Field (name : string).

Definition format (tmpl : list piece) (args : rec) : string :=
  foldr (fun p acc =>
    match p with
    | Lit s => s +:+ acc
    | Field k => default "" (od_get k args) +:+ acc
    end) "" tmpl.

Record template := mkTemplate { t_pieces : list piece; t_kind : string; t_lo : Z; t_hi : Z }.

Definition templates : list template :=
  [mkTemplate [Lit "What is "; Field "topic"; Lit "?"] "short" 20 80;
   mkTemplate [Lit "Explain "; Field "topic"; Lit " in detail."] "medium" 80 200;
   mkTemplate [Lit "Write a Python function to "; Field "task"; Lit "."] "code" 100 350;
   mkTemplate [Lit "Compare and contrast "; Field "a"; Lit " and "; Field "b"; Lit "."]
     "reasoning" 150 400;
   mkTemplate [Lit "List 10 facts about "; Field "topic"; Lit "."] "list" 60 180;
   mkTemplate [Lit "Translate to French: "; Field "sentence"] "short" 15 60;
   mkTemplate [Lit ("Debug this code:" +:+ newline +:+ "```python" +:+ newline); Field "code";
               Lit (newline +:+ "```")] "code" 120 500;
   mkTemplate [Lit "Summarize: "; Field "paragraph"] "medium" 40 150].

Definition topics : list string :=
  ["AI"; "physics"; "history"; "Python"; "databases"; "Kubernetes"].

Definition lower_char (c : ascii) : ascii :=
  let n := nat_of_ascii c in
  if (65 <=? n) && (n <=? 90) then ascii_of_nat (n + 32) else c.

Definition lower (s : string) : string :=
  String.string_of_list_ascii (map lower_char (String.list_ascii_of_string s)).

(** What the generator draws in one iteration: a template, a topic, the two
    topics compared, the sentences of the paragraph and, for a new prompt, the
    target. *)
Record draw := mkDraw {
  d_template : template;
  d_topic : string;
  d_a : string;
  d_b : string;
  d_sentences : nat;
  d_target : Z;
}.

(** What [choice] and [randint] guarantee. *)
Record draw_ok (d : draw) : Prop := {
  dr_template : d.(d_template) ∈ templates;
  dr_topic : d.(d_topic) ∈ topics;
  dr_a : d.(d_a) ∈ topics;
  dr_b : d.(d_b) ∈ topics;
  dr_sentences : 3 <= d.(d_sentences) <= 8;
  dr_target : (d.(d_template).(t_lo) <= d.(d_target) <= d.(d_template).(t_hi))%Z;
}.

Definition synth_prompt (i : nat) (d : draw) : string :=
  let n := pretty i in
  let topic := d.(d_topic) in
  format d.(d_template).(t_pieces)
    [("topic", topic +:+ "-" +:+ n);
     ("task", "process " +:+ lower topic +:+ "-" +:+ n);
     ("a", d.(d_a)); ("b", d.(d_b));
     ("sentence", "The " +:+ lower topic +:+ " is important number " +:+ n +:+ ".");
     ("code", "def f_" +:+ n +:+ "(x):" +:+ newline +:+ "    return x + " +:+ n);
     ("paragraph",
      join " " (map (fun j => "Sentence " +:+ pretty j +:+ " about " +:+ topic +:+ " item " +:+ n +:+ ".")
                  (seq 0 d.(d_sentences))))].

(** [max(5.0, target + feat_boost * 0.1)] with
    [feat_boost = sum(features[:5]) * 0.5] *)
Definition synth_target (d : draw) (fs : list float) : float :=
  let feat_boost := fmul (fsum (take 5 fs)) (flit 1 2) in
  fmax (of_int 5) (fadd (of_int d.(d_target)) (fmul feat_boost (flit 1 10))).

Section Synthetic.
Context (_hash_prompt : string -> string) (extract : string -> result (list float)).
Context (draws : nat -> draw).

(** The loop from iteration [i] on, with [todo] iterations left and [count]
    samples so far. *)
Fixpoint synth_loop (todo i : nat) (n count : nat) (seen : gset string) : result (list Sample) :=
  match todo with
  | 0 => Ok []
  | S todo' =>
      if n <=? count then Ok []
      else
        let d := draws i in
        let p := synth_prompt i d in
        let h := _hash_prompt p in
        if bool_decide (h ∈ seen) then synth_loop todo' (i + 1) n count seen
        else
          let? fs := extract p in
          let? rest := synth_loop todo' (i + 1) n (count + 1) ({[h]} ∪ seen) in
          Ok (mkSample p fs (synth_target d fs) [("source", "synthetic")] :: rest)
  end.

Definition generate_synthetic (n : nat) : result (list Sample) := synth_loop (n * 3) 0 n 0 ∅.
End Synthetic.

(** [load_preset]: the samples and the cache directory afterwards. *)
Definition load_preset (extract : string -> result (list float)) (loads : string -> result rec)
    (dumps : rec -> string) (load : string -> string -> result (list rec))
    (_hash_prompt : string -> string) (draws : nat -> draw)
    (name : string) (max_samples : nat) (cache : gmap string string)
    : result (list Sample) * gmap string string :=
  if bool_decide (name = "alpaca") then
    from_huggingface extract loads dumps load "yahma/alpaca-cleaned" "train" max_samples
      "instruction" "output" cache
  else if bool_decide (name = "dolly") then
    from_huggingface extract loads dumps load "databricks/databricks-dolly-15k" "train" max_samples
      "instruction" "response" cache
  else if bool_decide (name = "synthetic") then
    (generate_synthetic _hash_prompt extract draws max_samples, cache)
  else (Raise (ValueError ("Unknown preset: " +:+ name)), cache).

(** ** Splitting *)

Lemma pick_Ok {A} (samples : list A) idx :
  Forall (fun i => i < length samples) idx ->
  exists l, pick samples idx = Ok l /\ Forall2 (fun i s => samples !! i = Some s) idx l.
Proof.
  induction 1 as [|i idx Hi _ (l & El & Hl)]; [exists []; split; [done|constructor]|].
  destruct (lookup_lt_is_Some_2 samples i Hi) as [s Hs]. exists (s :: l).
  unfold pick in *. simpl. rewrite Hs. simpl. rewrite El. split; [done|by constructor].
Qed.

Lemma pick_all {A} (samples : list A) idx l :
  Forall2 (fun i s => samples !! i = Some s) idx l -> l = omap (fun i => samples !! i) idx.
Proof. induction 1 as [|i s idx l Hi _ IH]; [done|]. simpl. rewrite Hi. by f_equal. Qed.

Lemma omap_fmap {A B C} (f : B -> option C) (g : A -> B) (l : list A) : omap f (g <$> l) = omap (f ∘ g) l.
Proof. induction l as [|x l IH]; [done|]. csimpl. destruct (f (g x)); congruence. Qed.

Lemma omap_lookup_seq {A} (l : list A) : omap (fun i => l !! i) (seq 0 (length l)) = l.
Proof.
  induction l as [|x l IH]; [done|]. simpl. f_equal. rewrite <- fmap_S_seq.
  by rewrite omap_fmap.
Qed.

(** The three slices, in order, are the whole list. *)
Lemma py_slices {A} (a b : Z) (l : list A) :
  (0 <= a)%Z -> (0 <= b)%Z ->
  py_slice None (Some a) l ++ py_slice (Some a) (Some (a + b)%Z) l ++
    py_slice (Some (a + b)%Z) None l = l.
Proof.
  intros Ha Hb. unfold py_slice, slice_bound. simpl.
  rewrite (proj2 (Z.ltb_ge a 0)), (proj2 (Z.ltb_ge (a + b) 0)) by lia.
  rewrite drop_0, (take_ge l (length l)) by done.
  rewrite Z2Nat.inj_add by lia. rewrite skipn_firstn_comm.
  replace (Z.to_nat a + Z.to_nat b - Z.to_nat a) with (Z.to_nat b) by lia.
  rewrite <- drop_drop, take_drop. apply take_drop.
Qed.

Section SplitProperties.
Context (permutation : Z -> nat -> list nat).
Context (col_mean col_std : list (list float) -> list float).
Hypothesis permutation_spec : forall seed n, permutation seed n ≡ₚ seq 0 n.

(** What a split makes of the three parts it picked. *)
Definition splits_of (tr va te : list Sample) : result DatasetSplits :=
  rbind (np_rows (map s_features tr)) (fun rows =>
  Ok (mkSplits tr va te (along_axis0 col_mean rows) (along_axis0 col_std rows))).

Lemma split_spec (samples : list Sample) train_ratio val_ratio seed :
  (Z.of_nat (length samples) <= 2 ^ 53)%Z ->
  (f0 <= train_ratio)%float -> (train_ratio <= f1)%float ->
  (f0 <= val_ratio)%float -> (val_ratio <= f1)%float ->
  exists tr va te, tr ++ va ++ te ≡ₚ samples /\
    split permutation col_mean col_std samples train_ratio val_ratio seed = splits_of tr va te.
Proof.
  intros Hn Ht0 Ht1 Hv0 Hv1. unfold split.
  destruct (count_part (Z.of_nat (length samples)) train_ratio) as (a & -> & Ha); [lia|done..|].
  destruct (count_part (Z.of_nat (length samples)) val_ratio) as (b & -> & Hb); [lia|done..|].
  cbn [rbind]. set (idx := permutation seed (length samples)).
  pose proof (py_slices a b idx Ha Hb) as Hsl.
  assert (Hin : Forall (fun i => i < length samples) idx).
  { subst idx. rewrite permutation_spec. apply Forall_seq. lia. }
  rewrite <- Hsl, !Forall_app in Hin. destruct Hin as (H1 & H2 & H3).
  destruct (pick_Ok samples _ H1) as (tr & -> & E1).
  destruct (pick_Ok samples _ H2) as (va & -> & E2).
  destruct (pick_Ok samples _ H3) as (te & -> & E3).
  cbn [rbind]. exists tr, va, te. split; [|done].
  rewrite (pick_all samples _ _ (Forall2_app E1 (Forall2_app E2 E3))), Hsl.
  subst idx. rewrite permutation_spec. by rewrite omap_lookup_seq.
Qed.

Lemma same_length_width w rows : Forall (fun r => length r = w) rows -> same_length rows = true.
Proof.
  intros H. destruct H as [|r rs Hr Hrs]; [done|]. apply forallb_forall. intros r' Hin.
  rewrite Forall_forall in Hrs. apply Nat.eqb_eq. rewrite Hr. by apply Hrs, list_elem_of_In.
Qed.

Lemma splits_of_width w (samples tr va te : list Sample) :
  Forall (fun s => length s.(s_features) = w) samples -> tr ++ va ++ te ≡ₚ samples ->
  same_length (map s_features tr) = true.
Proof.
  intros Hw Hp. rewrite <- Hp, Forall_app in Hw. apply (same_length_width w), Forall_map, Hw.
Qed.

(** C26.  A split loses and duplicates nothing: with ratios between 0 and 1 any
    list of at most 2^53 samples falls into a train, a validation and a test
    part that together are a rearrangement of the samples.  It raises exactly
    when two samples of the training part have different numbers of features,
    which samples with one number of features never do; otherwise it returns
    the three parts with the statistics of the training samples alone (not a
    number, if there is none).  Samples with pairwise distinct prompt hashes
    never share a hash across two of the three parts. *)
Theorem split_partitions (samples : list Sample) train_ratio val_ratio seed :
  (Z.of_nat (length samples) <= 2 ^ 53)%Z ->
  (f0 <= train_ratio)%float -> (train_ratio <= f1)%float ->
  (f0 <= val_ratio)%float -> (val_ratio <= f1)%float ->
  exists tr va te, tr ++ va ++ te ≡ₚ samples /\
    match split permutation col_mean col_std samples train_ratio val_ratio seed with
    | Ok sp =>
        let rows := map (fun s => np_float32 s.(s_features)) tr in
        same_length (map s_features tr) = true /\
        sp = mkSplits tr va te (along_axis0 col_mean rows) (along_axis0 col_std rows)
    | Raise e => same_length (map s_features tr) = false /\ exists msg, e = ValueError msg
    end /\
    (forall w, Forall (fun s => length s.(s_features) = w) samples -> same_length (map s_features tr) = true) /\
    forall h : string -> string, NoDup (map (fun s => h s.(prompt)) samples) ->
      (forall x y, x ∈ tr -> y ∈ va ++ te -> h x.(prompt) <> h y.(prompt)) /\
      (forall x y, x ∈ va -> y ∈ te -> h x.(prompt) <> h y.(prompt)).
Proof.
  intros Hn Ht0 Ht1 Hv0 Hv1.
  destruct (split_spec samples train_ratio val_ratio seed Hn Ht0 Ht1 Hv0 Hv1) as (tr & va & te & Hperm & ->).
  exists tr, va, te. split; [done|]. split; [|split].
  { unfold splits_of, np_rows. destruct (same_length _); [|split; [done|by eexists]].
    cbn [rbind]. by rewrite map_map. }
  { intros w Hw. by apply (splits_of_width w samples tr va te). }
  intros h Hnd. rewrite <- Hperm, fmap_app, fmap_app in Hnd.
  apply NoDup_app in Hnd as (_ & Hd & Hnd). apply NoDup_app in Hnd as (_ & Hd' & _).
  pose proof (list_elem_of_fmap_2 (fun s => h (prompt s))) as Hmap.
  split; intros x y Hx Hy Heq.
  - apply (Hd (h (prompt x))); [by apply Hmap|]. rewrite Heq, <- fmap_app. by apply Hmap.
  - apply (Hd' (h (prompt x))); [by apply Hmap|]. rewrite Heq. by apply Hmap.
Qed.
End SplitProperties.

(** ** Deduplication *)

Section DedupProperties.
Context (h : string -> string).
Abbreviation hashes := (map (fun s => h (prompt s))).

Lemma dedup_loop_app seen l1 l2 :
  dedup_loop h seen (l1 ++ l2) =
  dedup_loop h seen l1 ++ dedup_loop h (list_to_set (hashes l1) ∪ seen) l2.
Proof.
  revert seen. induction l1 as [|s l1 IH]; intros seen; simpl.
  { f_equal. apply set_eq. set_solver. }
  assert (Hu : forall A B : gset string, A = B -> dedup_loop h A l2 = dedup_loop h B l2)
    by congruence.
  case_bool_decide as Hs; rewrite IH; simpl; [|f_equal]; f_equal; apply Hu, set_eq; set_solver.
Qed.

Lemma dedup_loop_fresh seen l :
  NoDup (hashes (dedup_loop h seen l)) /\
  Forall (fun s => h (prompt s) ∉ seen) (dedup_loop h seen l).
Proof.
  revert seen. induction l as [|s l IH]; intros seen; simpl; [by split; constructor|].
  case_bool_decide as Hs; [apply IH|]. destruct (IH ({[h (prompt s)]} ∪ seen)) as [Hn Hf].
  rewrite Forall_forall in Hf. split; simpl.
  - constructor; [|done]. intros (x & Hx & Hin)%list_elem_of_fmap. apply Hf in Hin. set_solver.
  - constructor; [done|]. apply Forall_forall. intros x Hx. apply Hf in Hx. set_solver.
Qed.

Lemma dedup_loop_id seen l :
  NoDup (hashes l) -> Forall (fun s => h (prompt s) ∉ seen) l -> dedup_loop h seen l = l.
Proof.
  revert seen. induction l as [|s l IH]; intros seen Hn Hf; simpl; [done|].
  apply NoDup_cons in Hn as [Hni Hn]. apply Forall_cons in Hf as [Hs Hf].
  rewrite bool_decide_eq_false_2 by done. f_equal. apply IH; [done|].
  rewrite Forall_forall in Hf |- *. intros x Hx. specialize (Hf x Hx).
  apply not_elem_of_union. split; [|done]. intros Heq%elem_of_singleton.
  apply Hni. rewrite <- Heq. by apply (list_elem_of_fmap_2 (fun s => h (prompt s))).
Qed.

Lemma dedup_elem seen l x : x ∈ dedup_loop h seen l -> x ∈ l.
Proof.
  revert seen. induction l as [|s l IH]; intros seen Hx; cbn in Hx; [done|].
  case_bool_decide; [right; by eapply IH|]. apply elem_of_cons in Hx as [->|Hx]; [by left|]. right. by eapply IH.
Qed.

(** Deduplication keeps exactly the first sample of each prompt hash, in
    order: hashes of the result are pairwise distinct; appending a sample adds
    it to the result when its hash is new and changes nothing when it is not;
    and deduplicating again changes nothing. *)
Theorem deduplicate_spec (samples : list Sample) :
  NoDup (hashes (deduplicate h samples)) /\
  (forall s, deduplicate h (samples ++ [s]) =
     deduplicate h samples ++ (if bool_decide (h s.(prompt) ∈ hashes samples) then [] else [s])) /\
  (forall x, x ∈ hashes samples <-> x ∈ hashes (deduplicate h samples)) /\
  deduplicate h (deduplicate h samples) = deduplicate h samples.
Proof.
  unfold deduplicate.
  assert (Hsnoc : forall l s, dedup_loop h ∅ (l ++ [s]) =
     dedup_loop h ∅ l ++ (if bool_decide (h s.(prompt) ∈ hashes l) then [] else [s])).
  { intros l s. rewrite dedup_loop_app. f_equal. simpl.
    repeat case_bool_decide; set_solver. }
  split; [apply dedup_loop_fresh|]. split; [done|]. split.
  - induction samples as [|s l IH] using rev_ind; intros x; [done|].
    rewrite Hsnoc, !map_app, !elem_of_app. simpl.
    rewrite <- IH. case_bool_decide as E; [|done]. split; [|intros [?|?%elem_of_nil]; [by left|done]].
    intros [?|Hx]; [by left|]. apply list_elem_of_singleton in Hx as ->. by left.
  - destruct (dedup_loop_fresh ∅ samples). by apply dedup_loop_id.
Qed.
End DedupProperties.

(** ** Records and files *)

Section RecordProperties.
Context (extract : string -> result (list float)).

Definition rec_sample (r : rec) : result Sample :=
  make_sample extract (rec_prompt r) (rec_output r) (rec_meta r).

Definition kept (records : list rec) : list rec := filter (fun r => rec_prompt r <> "") records.

Lemma records_loop_spec records ps os ms :
  records_loop records ps os ms =
  (ps ++ map rec_prompt (kept records), os ++ map rec_output (kept records),
   ms ++ map rec_meta (kept records)).
Proof.
  unfold kept. revert ps os ms. induction records as [|r rs IH]; intros ps os ms; simpl.
  { by rewrite !app_nil_r. }
  case_bool_decide as E; rewrite IH.
  - by rewrite filter_cons_False by (by intros []).
  - rewrite filter_cons_True by done. simpl. by rewrite <- !app_assoc.
Qed.

Lemma prompts_loop_map (rs : list rec) :
  prompts_loop extract (map rec_prompt rs) (map rec_output rs) (map rec_meta rs) = rmap rec_sample rs.
Proof. induction rs as [|r rs IH]; simpl; [done|]. by rewrite IH. Qed.

(** Records become samples one by one: the records with a nonempty
    prompt, in order, each with the prompt, the output estimate and the
    remaining keys as metadata; the three lists built on the way always have
    the same length, so the strict zip never raises. *)
Theorem from_records_spec (records : list rec) :
  _from_records extract records = rmap rec_sample (kept records).
Proof.
  unfold _from_records. rewrite records_loop_spec. simpl. unfold from_prompts.
  destruct (kept records) as [|r rs]; [done|]. simpl. by rewrite prompts_loop_map.
Qed.
End RecordProperties.

(** Text on one line. *)
Fixpoint one_line (s : string) : bool :=
  match s with
  | EmptyString => true
  | String c s' => negb (c =? "010")%char && one_line s'
  end.

Lemma lines_loop_line line s t :
  one_line s = true -> lines_loop line (s +:+ newline +:+ t) = (line +:+ s) :: lines_loop "" t.
Proof.
  revert line. induction s as [|c s IH]; intros line Hs; simpl in *.
  { by rewrite append_nil. }
  apply andb_prop in Hs as [Hc Hs]. apply negb_true_iff in Hc. rewrite Hc, IH by done.
  by rewrite append_assoc.
Qed.

(** What the JSON codec is documented to do with an object: one line of text
    without white space around it, which decodes to the object. *)
Record json_ok (loads : string -> result rec) (dumps : rec -> string) (r : rec) : Prop := {
  js_loads : loads (dumps r) = Ok r;
  js_line : one_line (dumps r) = true;
  js_strip : strip (dumps r) = dumps r;
  js_nonempty : dumps r <> "";
}.

Section Codec.
Context (loads : string -> result rec) (dumps : rec -> string).

Lemma parse_write_jsonl (records : list rec) :
  Forall (json_ok loads dumps) records ->
  parse_jsonl loads (_write_jsonl dumps records) = Ok records.
Proof.
  unfold parse_jsonl, file_lines.
  induction 1 as [|r rs [Hl Ho Hs Hn] _ IH]; [done|].
  change (_write_jsonl dumps (r :: rs)) with (dumps r +:+ newline +:+ _write_jsonl dumps rs).
  rewrite lines_loop_line by done. change ("" +:+ dumps r) with (dumps r). cbn [map]. rewrite Hs.
  rewrite filter_cons_True by done. cbn [rmap]. rewrite Hl. cbn [rbind]. by rewrite IH.
Qed.

(** The dataset cache is transparent: a load that found nothing in the
    cache writes a file from which every later load of the same name, split
    and size returns the same samples, without touching the cache again.  The
    column names are not part of the cache key: a later load that asks for
    other columns gets the cached ones. *)
Theorem huggingface_cache (extract : string -> result (list float))
    (load load' : string -> string -> result (list rec)) name sp n pk ok pk' ok' rows cache :
  let file := cache_key name sp n in
  let records := hf_records rows n pk ok in
  cache !! file = None -> load name sp = Ok rows -> Forall (json_ok loads dumps) records ->
  exists cache',
    from_huggingface extract loads dumps load name sp n pk ok cache =
      (_from_records extract records, cache') /\
    (forall k, k <> file -> cache' !! k = cache !! k) /\
    from_huggingface extract loads dumps load' name sp n pk' ok' cache' =
      (_from_records extract records, cache').
Proof.
  intros file records Hc Hl Hj. unfold from_huggingface. fold file. rewrite Hc, Hl.
  eexists. split; [done|]. split; [intros k Hk; by rewrite lookup_insert_ne|].
  rewrite lookup_insert_eq. unfold from_jsonl. fold records. by rewrite parse_write_jsonl.
Qed.
End Codec.

(** ** Synthetic data *)

Lemma fmax_ge_l x y : is_nan x = false -> (x <= fmax x y)%float.
Proof.
  intros Hx. unfold fmax. destruct (fltb x y) eqn:E; [|by apply fle_refl].
  by apply flt_le.
Qed.

Section SyntheticProperties.
Context (h : string -> string) (extract : string -> result (list float)) (draws : nat -> draw).
Hypothesis extract_total : forall p, exists fs, extract p = Ok fs.

Lemma synth_loop_spec todo i n count seen :
  exists samples, synth_loop h extract draws todo i n count seen = Ok samples /\
    count + length samples <= max count n /\
    NoDup (map (fun s => h (prompt s)) samples) /\
    Forall (fun s => (h (prompt s) ∉ seen) /\ (of_int 5 <= actual_output_tokens s)%float /\
                     extract (prompt s) = Ok (s_features s) /\
                     exists j, prompt s = synth_prompt j (draws j)) samples.
Proof.
  revert i count seen. induction todo as [|todo IH]; intros i count seen; cbn [synth_loop].
  { exists []. cbn. split; [done|]. split; [lia|]. split; constructor. }
  destruct (n <=? count) eqn:En.
  { exists []. cbn. split; [done|]. split; [lia|]. split; constructor. }
  apply Nat.leb_gt in En. case_bool_decide as Hs; [apply IH|].
  destruct (extract_total (synth_prompt i (draws i))) as [fs Hfs]. rewrite Hfs. cbn [rbind].
  destruct (IH (i + 1) (count + 1) ({[h (synth_prompt i (draws i))]} ∪ seen))
    as (rest & -> & Hlen & Hnd & Hall).
  cbn [rbind]. eexists. split; [done|]. cbn [length map prompt].
  split; [lia|]. rewrite Forall_forall in Hall. split.
  - constructor; [|done]. intros (x & Hx & Hin)%list_elem_of_fmap.
    destruct (Hall x Hin) as [Hx' _]. set_solver.
  - constructor.
    + cbn [prompt actual_output_tokens s_features]. split_and!; [done| |done|eauto].
      apply fmax_ge_l. fcompute.
    + apply Forall_forall. intros x Hx. destruct (Hall x Hx) as (? & ? & ? & ?).
      split_and!; try assumption. set_solver.
Qed.

(** Synthetic generation ends after at most [3 * n] draws and yields at
    most [n] samples, whatever the generator draws: their prompts have
    pairwise distinct hashes and come from the templates, their features are
    the extractor's, and every target is at least 5 tokens. *)
Theorem generate_synthetic_spec n :
  exists samples, generate_synthetic h extract draws n = Ok samples /\
    length samples <= n /\
    NoDup (map (fun s => h (prompt s)) samples) /\
    Forall (fun s => (of_int 5 <= actual_output_tokens s)%float /\
                     extract (prompt s) = Ok (s_features s) /\
                     exists j, prompt s = synth_prompt j (draws j)) samples.
Proof.
  destruct (synth_loop_spec (n * 3) 0 n 0 ∅) as (samples & E & Hlen & Hnd & Hall).
  exists samples. split; [done|]. split; [lia|]. split; [done|].
  eapply Forall_impl; [exact Hall|]. intros s (_ & ? & ? & ?). auto.
Qed.
End SyntheticProperties.

(** ** Normalisation *)

(** Training and serving see the same numbers: for samples whose features
    are feature vectors, the rows the trainer gets are, one by one, the
    tensors the predictor computes from the same vectors with the same
    statistics. *)
Theorem training_matches_serving samples vs mean std :
  samples <> [] -> Forall2 (fun s v => s_features s = as_list v) samples vs ->
  to_tensors samples (np_float32 mean) (np_float32 std) =
  rbind (rmap (_to_tensor (Some (np_float32 mean)) (Some (np_float32 std))) vs)
    (fun x => Ok (x, np_float32 (map actual_output_tokens samples))).
Proof.
  intros Hne Hf. unfold to_tensors. destruct samples as [|s0 ss]; [done|].
  set (l := s0 :: ss) in *. clearbody l. clear Hne. f_equal.
  induction Hf as [|s v ss' vs' Hs _ IH]; [done|]. simpl. rewrite IH, Hs.
  unfold _to_tensor. by rewrite !np_float32_idem.
Qed.

Lemma small_val_part n b :
  n < 10 -> to_int (fmul (of_int (Z.of_nat n)) (flit 1 10)) = Ok b -> b = 0%Z.
Proof.
  intros Hn Hb.
  assert (H : forallb (fun n => match to_int (fmul (of_int (Z.of_nat n)) (flit 1 10)) with
                                | Ok k => (k =? 0)%Z | Raise _ => false end) (seq 0 10) = true)
    by (vm_compute; reflexivity).
  rewrite forallb_forall in H. specialize (H n). rewrite Hb in H. apply Z.eqb_eq, H.
  apply in_seq. lia.
Qed.

Lemma py_slice_empty {A} a (l : list A) : (0 <= a)%Z -> py_slice (Some a) (Some (a + 0)%Z) l = [].
Proof.
  intros Ha. unfold py_slice, slice_bound. simpl. rewrite Z.add_0_r.
  rewrite (proj2 (Z.ltb_ge a 0)) by lia. apply drop_ge. rewrite length_take. lia.
Qed.

(** A data set of fewer than ten samples cannot be trained on: with the
    default ratios its validation part is empty, and converting an empty part
    raises as soon as there are two or more features. *)
Theorem small_dataset_raises permutation col_mean col_std samples seed sp :
  length samples < 10 ->
  split permutation col_mean col_std samples (flit 8 10) (flit 1 10) seed = Ok sp ->
  sp.(val) = [] /\
  forall m1 m2 mean std, exists msg,
    to_tensors sp.(val) (m1 :: m2 :: mean) std = Raise (ValueError msg).
Proof.
  intros Hn H. unfold split in H.
  apply rbind_Ok in H as (a & Ha & H). apply rbind_Ok in H as (b & Hb & H).
  apply rbind_Ok in H as (tr & _ & H). apply rbind_Ok in H as (va & Hva & H).
  apply rbind_Ok in H as (te & _ & H). apply rbind_Ok in H as (rows & _ & H). injection H as <-. cbn [val].
  apply small_val_part in Hb as ->; [|done].
  assert (Hv : va = []).
  { destruct (count_part (Z.of_nat (length samples)) (flit 8 10)) as (a' & Ha' & Hpos).
    - lia.
    - fcompute.
    - fcompute.
    - rewrite Ha in Ha'. injection Ha' as <-. rewrite py_slice_empty in Hva by exact Hpos.
      by injection Hva as <-. }
  subst va. split; [done|]. intros m1 m2 mean std. eexists. done.
Qed.

(** ** Witnesses *)

Definition demo_sample (p : string) : Sample := mkSample p [f0; f1] (of_int 7) [].
Definition demo_samples : list Sample := map demo_sample ["a"; "b"; "c"].
Definition in_order (_ : Z) (n : nat) : list nat := seq 0 n.
Definition first_row (xs : list (list float)) : list float := default [] (head xs).

Lemma split_partitions_witness :
  exists sp, split in_order first_row first_row demo_samples (flit 8 10) (flit 1 10) 42 = Ok sp /\
    sp.(train) ++ sp.(val) ++ sp.(test) ≡ₚ demo_samples.
Proof.
  assert (Hok : is_ok (split in_order first_row first_row demo_samples (flit 8 10) (flit 1 10) 42) = true)
    by (vm_compute; reflexivity).
  destruct (split_partitions in_order first_row first_row (fun _ _ => Permutation_refl _)
              demo_samples (flit 8 10) (flit 1 10) 42) as (tr & va & te & Hp & E & _).
  - vm_compute. discriminate.
  - fcompute.
  - fcompute.
  - fcompute.
  - fcompute.
  - destruct (split _ _ _ demo_samples _ _ _) as [sp|]; [|discriminate Hok].
    destruct E as [_ ->]. eexists. split; [reflexivity|exact Hp].
Defined.

Definition demo_row : rec := [("instruction", "hi"); ("output", "hello there")].
Definition toy_text : string := "{hi|hello there}".
Definition toy_loads (s : string) : result rec :=
  if bool_decide (s = toy_text) then Ok [("prompt", "hi"); ("output", "hello there")]
  else Raise (ValueError s).
Definition toy_dumps (r : rec) : string := toy_text.
Definition toy_extract (p : string) : result (list float) := Ok [of_int (Z.of_nat (String.length p))].
Definition toy_load (name split : string) : result (list rec) := Ok [demo_row].

Lemma huggingface_cache_witness :
  exists cache',
    from_huggingface toy_extract toy_loads toy_dumps toy_load "org/d" "train" 5 "instruction" "output" ∅ =
      (_from_records toy_extract [[("prompt", "hi"); ("output", "hello there")]], cache') /\
    from_huggingface toy_extract toy_loads toy_dumps (fun _ _ => Raise IndexError) "org/d" "train" 5
      "other" "columns" cache' =
      (_from_records toy_extract [[("prompt", "hi"); ("output", "hello there")]], cache').
Proof.
  destruct (huggingface_cache toy_loads toy_dumps toy_extract toy_load (fun _ _ => Raise IndexError)
              "org/d" "train" 5 "instruction" "output" "other" "columns" [demo_row] ∅)
    as (cache' & E & _ & E').
  - apply lookup_empty.
  - reflexivity.
  - apply Forall_cons. split; [|apply Forall_nil; exact I].
    split; vm_compute; try reflexivity. discriminate.
  - exists cache'. split; [exact E|exact E'].
Defined.

Definition demo_draw (i : nat) : draw :=
  mkDraw (mkTemplate [Lit "What is "; Field "topic"; Lit "?"] "short" 20 80) "AI" "AI" "physics" 3 20.

Lemma generate_synthetic_spec_witness :
  exists samples, generate_synthetic (fun p => p) toy_extract demo_draw 2 = Ok samples /\
    length samples <= 2.
Proof.
  destruct (generate_synthetic_spec (fun p => p) toy_extract demo_draw (fun p => ex_intro _ _ eq_refl) 2)
    as (samples & E & Hl & _).
  exists samples. split; [exact E|exact Hl].
Defined.

Lemma training_matches_serving_witness :
  to_tensors [mkSample "a" (as_list (mkFeatures [f1])) f1 []] (np_float32 [f1]) (np_float32 [f1]) =
  rbind (rmap (_to_tensor (Some (np_float32 [f1])) (Some (np_float32 [f1]))) [(mkFeatures [f1])])
    (fun x => Ok (x, np_float32 [f1])).
Proof.
  apply (training_matches_serving [mkSample "a" (as_list (mkFeatures [f1])) f1 []] [(mkFeatures [f1])]
           [f1] [f1]).
  - discriminate.
  - apply Forall2_cons. split; [reflexivity|apply Forall2_nil; exact I].
Defined.

Lemma small_dataset_raises_witness :
  exists sp, split in_order first_row first_row demo_samples (flit 8 10) (flit 1 10) 42 = Ok sp /\
    exists msg, to_tensors sp.(val) [f1; f1] [f1; f1] = Raise (ValueError msg).
Proof.
  set (sp := mkSplits (take 2 demo_samples) [] (drop 2 demo_samples)
               (first_row (map (fun s => np_float32 s.(s_features)) (take 2 demo_samples)))
               (first_row (map (fun s => np_float32 s.(s_features)) (take 2 demo_samples)))).
  exists sp. assert (E : split in_order first_row first_row demo_samples (flit 8 10) (flit 1 10) 42 = Ok sp)
    by (vm_compute; reflexivity).
  split; [exact E|].
  exact (proj2 (small_dataset_raises in_order first_row first_row demo_samples 42 sp
                  ltac:(vm_compute; lia) E) f1 f1 [] [f1; f1]).
Defined.
