(* ===== verification/Trainer.v ===== *)
(** * Training (python/predictor/trainer.py)

    The loop of [Trainer.train] with early stopping and checkpointing, the two
    epoch functions, the loaders and the regression metrics.  The state of
    torch (weights, optimiser, learning-rate schedule, gradient scaler) is one
    abstract value; an optimisation step, the model's output and the loss are
    parameters, as are numpy's reductions. *)
From Stdlib Require Import ZArith Lia.
From stdpp Require Import base option list strings gmap pretty.
From S2P Require Import Prelude PyFloat Features Predictor Dataset.
Local Open Scope string_scope.
Local Open Scope list_scope.
Local Open Scope nat_scope.
Local Open Scope py_scope.

Record TrainConfig := mkTrainConfig {
  t_hidden_dim : Z;
  t_dropout : float;
  lr : float;
  weight_decay : float;
  batch_size : nat;
  epochs : nat;
  patience : Z;
  grad_clip : float;
  seed : Z;
  use_amp : bool;
  use_compile : bool;
  checkpoint_dir : string;
  log_dir : string;
  device : string;
}.

Definition default_train_config : TrainConfig :=
  mkTrainConfig 128 (flit 1 10) (flit 1 1000) (flit 1 10000) 256 50 8 f1 42 true false
    "models/checkpoints" "models/logs" "auto".

Record TrainMetrics := mkTrainMetrics {
  epoch : nat;
  train_loss : float;
  val_loss : float;
  val_mae : float;
  val_rmse : float;
  val_r2 : float;
  m_lr : float;
}.

Record TrainResult := mkTrainResult {
  best_epoch : nat;
  best_val_loss : float;
  metrics_history : list TrainMetrics;
  checkpoint_path : string;
  r_feature_mean : list float;
  r_feature_std : list float;
}.

(** [_resolve_device] *)
Definition _resolve_device (dev : string) (cuda_available : bool) : string :=
  if bool_decide (dev = "auto") then (if cuda_available then "cuda" else "cpu") else dev.

(** ** Construction: the generators that are seeded, in order *)

Inductive seeding :=
| SeedRandom (n : Z)
| SeedNumpy (n : Z)
| SeedTorch (n : Z)
| SeedCuda (n : Z)
| HashSeedVar (s : string).

(** numpy takes seeds of 32 bits only. *)
Definition numpy_seed (n : Z) : result unit :=
  if bool_decide (0 <= n < 2 ^ 32)%Z then Ok tt else Raise (ValueError "Seed must be between 0 and 2**32 - 1").

Definition _setup_seed (cuda_available : bool) (n : Z) : list seeding * result unit :=
  match numpy_seed n with
  | Raise e => ([SeedRandom n], Raise e)
  | Ok _ =>
      ([SeedRandom n; SeedNumpy n; SeedTorch n] ++ (if cuda_available then [SeedCuda n] else []) ++
       [HashSeedVar (pretty n)], Ok tt)
  end.

(** [Trainer.__init__]: what is seeded, then the configuration and the device. *)
Definition trainer_init (config : option TrainConfig) (cuda_available : bool)
    : list seeding * result (TrainConfig * string) :=
  let cfg := default default_train_config config in
  let '(seeded, r) := _setup_seed cuda_available cfg.(seed) in
  (seeded, let? _ := r in Ok (cfg, _resolve_device cfg.(device) cuda_available)).

(** Every generator the training draws from gets the seed of the configuration, or the
    construction raises; it raises exactly for seeds that numpy rejects. *)
Lemma trainer_init_seeds config cuda_available :
  let cfg := default default_train_config config in
  match trainer_init config cuda_available with
  | (seeded, Ok (cfg', dev)) =>
      cfg' = cfg /\ (0 <= cfg.(seed) < 2 ^ 32)%Z /\
      SeedRandom cfg.(seed) ∈ seeded /\ SeedNumpy cfg.(seed) ∈ seeded /\ SeedTorch cfg.(seed) ∈ seeded /\
      (dev = "cuda" -> cuda_available = true \/ cfg.(device) = "cuda")
  | (seeded, Raise e) => seeded = [SeedRandom cfg.(seed)] /\ ~ (0 <= cfg.(seed) < 2 ^ 32)%Z
  end.
Proof.
  unfold trainer_init, _setup_seed, numpy_seed. set (c := default _ _). cbv zeta.
  case_bool_decide as Hs; cbn [rbind]; [|done]. split_and!; try done; try tauto; try (cbn; rewrite !elem_of_cons; by auto).
  unfold _resolve_device. case_bool_decide; [destruct cuda_available; auto; discriminate|auto].
Qed.

(** ** Metrics *)

Section Metrics.
(** [np.mean], [np.sum] and [np.sqrt] on single-precision arrays. *)
Context (np_mean np_sum : list float -> float) (np_sqrt : float -> float).

(** The square of a single-precision number. *)
Definition sq32 (x : float) : float := to_f32 (fmul x x).

Definition _regression_metrics (y_true y_pred : list float) : result (float * float * float) :=
  let? d := broadcast fsub32 y_true y_pred in
  let mae := np_mean (map fabs d) in
  let rmse := np_sqrt (np_mean (map sq32 d)) in
  let ss_res := np_sum (map sq32 d) in
  let ss_tot := np_sum (map (fun y => sq32 (fsub32 y (np_mean y_true))) y_true) in
  let? r2 := if fltb f0 ss_tot
             then (let? q := fdiv ss_res ss_tot in Ok (fsub f1 q)) else Ok f0 in
  Ok (mae, rmse, r2).
End Metrics.

(** ** Loaders *)

(** The batches of a [DataLoader]: [batch_size] items each, the last one
    possibly shorter.  A batch takes at least one item, so the length of the
    list is enough fuel. *)
Fixpoint batches_loop {A} (fuel bs : nat) (l : list A) : list (list A) :=
  match fuel with
  | 0 => []
  | S fuel' =>
      match l with
      | [] => []
      | _ => take bs l :: batches_loop fuel' bs (drop bs l)
      end
  end.

Definition batches {A} (bs : nat) (l : list A) : list (list A) := batches_loop (length l) bs l.

(** A row of features with its target. *)
Abbreviation example := (list float * float)%type.

Definition examples (samples : list Sample) (mean std : list float) : result (list example) :=
  let? xy := to_tensors samples mean std in Ok (zip (fst xy) (snd xy)).

(** The examples behind the two loaders.  A [DataLoader] refuses a batch size
    that is not positive, and one that shuffles refuses an empty data set. *)
Definition _make_loaders (cfg : TrainConfig) (splits : DatasetSplits)
    : result (list example * list example) :=
  let? tr := examples splits.(train) splits.(feature_mean) splits.(feature_std) in
  let? va := examples splits.(val) splits.(feature_mean) splits.(feature_std) in
  match cfg.(batch_size), tr with
  | 0, _ => Raise (ValueError "batch_size should be a positive integer value")
  | _, [] => Raise (ValueError "num_samples should be a positive integer value")
  | _, _ => Ok (tr, va)
  end.

Section Training.
(** The state of torch, one optimisation step on a batch with the loss it
    reports, the model's predictions, the loss, the learning-rate step. *)
Context {M : Type}.
Context (opt_step : M -> list example -> M * float).
Context (predict_batch : M -> list (list float) -> list float).
Context (huber_loss : list float -> list float -> float).
Context (lr_step : M -> M * float).
(** The shuffle of the training loader in a given epoch. *)
Context (shuffle : nat -> list example -> list example).
Context (np_mean np_sum : list float -> float) (np_sqrt : float -> float).

(** [total_loss / max(n, 1)] *)
Definition mean_loss (total : float) (n : nat) : result float :=
  fdiv total (of_int (Z.max (Z.of_nat n) 1)).

Fixpoint train_batches (bs : list (list example)) (m : M) (total : float) (n : nat)
    : M * float * nat :=
  match bs with
  | [] => (m, total, n)
  | b :: bs' =>
      let '(m', loss) := opt_step m b in
      train_batches bs' m' (fadd total (fmul loss (of_int (Z.of_nat (length b))))) (n + length b)
  end.

Definition _train_epoch (loader : list (list example)) (m : M) : result (M * float) :=
  let '(m', total, n) := train_batches loader m f0 0 in
  let? loss := mean_loss total n in Ok (m', loss).

Fixpoint eval_batches (bs : list (list example)) (m : M) (total : float) (n : nat)
    (preds targets : list float) : float * nat * list float * list float :=
  match bs with
  | [] => (total, n, preds, targets)
  | b :: bs' =>
      let pred := predict_batch m (map fst b) in
      let loss := huber_loss pred (map snd b) in
      eval_batches bs' m (fadd total (fmul loss (of_int (Z.of_nat (length b))))) (n + length b)
        (preds ++ pred) (targets ++ map snd b)
  end.

Definition _eval_epoch (loader : list (list example)) (m : M)
    : result (float * float * float * float) :=
  let '(total, n, preds, targets) := eval_batches loader m f0 0 [] [] in
  let? (mae, rmse, r2) := _regression_metrics np_mean np_sum np_sqrt targets preds in
  let? loss := mean_loss total n in
  Ok (loss, mae, rmse, r2).

(** One epoch: train, evaluate, step the schedule. *)
Definition run_epoch (cfg : TrainConfig) (tr va : list example) (e : nat) (m : M)
    : result (M * TrainMetrics) :=
  let? (m1, tl) := _train_epoch (batches cfg.(batch_size) (shuffle e tr)) m in
  let? (vl, mae, rmse, r2) := _eval_epoch (batches cfg.(batch_size) va) m1 in
  let '(m2, rate) := lr_step m1 in
  Ok (m2, mkTrainMetrics e tl vl mae rmse r2 rate).

(** The variables of the loop, with the checkpoint file. *)
Record loop_state := mkLoop {
  ls_model : M;
  ls_best : float;
  ls_best_epoch : nat;
  ls_patience : Z;
  ls_history : list TrainMetrics;
  ls_checkpoint : option M;
}.

(** The end of the loop's body: the state, and whether it breaks. *)
Definition after_epoch (cfg : TrainConfig) (mt : TrainMetrics) (m : M) (s : loop_state)
    : loop_state * bool :=
  let h := s.(ls_history) ++ [mt] in
  if fltb mt.(val_loss) s.(ls_best) then
    (mkLoop m mt.(val_loss) mt.(epoch) 0 h (Some m), false)
  else
    let p := (s.(ls_patience) + 1)%Z in
    (mkLoop m s.(ls_best) s.(ls_best_epoch) p h s.(ls_checkpoint), (cfg.(patience) <=? p)%Z).

Fixpoint train_loop (cfg : TrainConfig) (tr va : list example) (todo e : nat) (s : loop_state)
    : result loop_state :=
  match todo with
  | 0 => Ok s
  | S todo' =>
      let? (m, mt) := run_epoch cfg tr va e s.(ls_model) in
      let '(s', stop) := after_epoch cfg mt m s in
      if stop then Ok s' else train_loop cfg tr va todo' (e + 1) s'
  end.

Definition init_loop (m : M) (checkpoint : option M) : loop_state :=
  mkLoop m (Inf false) 0 0 [] checkpoint.

(** [train]: the result, and the content of best.pt ([old] before the run).
    [fresh] is the new model with its optimiser. *)
Definition train (cfg : TrainConfig) (fresh : M) (splits : DatasetSplits) (old : option M)
    : result (TrainResult * option M) :=
  let? (tr, va) := _make_loaders cfg splits in
  let? s := train_loop cfg tr va cfg.(epochs) 1 (init_loop fresh old) in
  Ok (mkTrainResult s.(ls_best_epoch) s.(ls_best) s.(ls_history)
        (cfg.(checkpoint_dir) +:+ "/best.pt") splits.(feature_mean) splits.(feature_std),
      s.(ls_checkpoint)).

(** [resume]: the checkpoint's parameters (here their shapes) must fit the
    default model; the loaded model is not used further. *)
Definition resume (cfg : TrainConfig) (fresh : M) (splits : DatasetSplits) (old : option M)
    (state : list (string * list Z)) : result (TrainResult * option M) :=
  let? _ := load_state_dict default_model_config state in
  train cfg fresh splits old.

(** A run whose validation loss is never a number leaves the checkpoint file as it was. *)
Lemma train_loop_unimproved cfg tr va todo e s s' :
  (forall e m m' mt, run_epoch cfg tr va e m = Ok (m', mt) -> is_nan mt.(val_loss) = true) ->
  train_loop cfg tr va todo e s = Ok s' -> s'.(ls_checkpoint) = s.(ls_checkpoint).
Proof.
  intros Hn. revert e s. induction todo as [|todo IH]; intros e s E; cbn [train_loop] in E; [by injection E as <-|].
  apply rbind_Ok in E as ([m mt] & Hr & E). apply Hn in Hr. unfold after_epoch in E.
  assert (Hlt : fltb (val_loss mt) (ls_best s) = false) by (by destruct (val_loss mt)).
  rewrite Hlt in E. destruct (_ <=? _)%Z; [by injection E as <-|]. by rewrite (IH _ _ E).
Qed.

Lemma unimproved_training cfg fresh splits old r ck :
  (forall tr va e m m' mt, run_epoch cfg tr va e m = Ok (m', mt) -> is_nan mt.(val_loss) = true) ->
  train cfg fresh splits old = Ok (r, ck) -> ck = old.
Proof.
  intros Hn E. unfold train in E. apply rbind_Ok in E as ([tr va] & _ & E). apply rbind_Ok in E as (s & Hs & E).
  injection E as _ <-. exact (train_loop_unimproved cfg tr va _ _ _ _ (Hn tr va) Hs).
Qed.

(** ** Early stopping *)

Section EarlyStopping.
Hypothesis predict_batch_length : forall m rows, length (predict_batch m rows) = length rows.
Context (cfg : TrainConfig) (tr va : list example).

Lemma _regression_metrics_total y_true y_pred :
  length y_true = length y_pred ->
  exists r, _regression_metrics np_mean np_sum np_sqrt y_true y_pred = Ok r.
Proof.
  intros Hl. unfold _regression_metrics, broadcast. rewrite bool_decide_eq_true_2 by done.
  cbn [rbind]. destruct (fltb f0 _) eqn:E; [|by eexists].
  edestruct fdiv_pos_Ok as [q ->]; [exact E|]. by eexists.
Qed.

Lemma mean_loss_total total n : exists l, mean_loss total n = Ok l.
Proof. apply fdiv_of_int_Ok. lia. Qed.

Lemma eval_batches_lengths bs m total n preds targets :
  length preds = length targets ->
  let '(_, _, ps, ts) := eval_batches bs m total n preds targets in length ts = length ps.
Proof.
  revert total n preds targets. induction bs as [|b bs IH]; intros total n preds targets Hl; simpl; [done|].
  apply IH. by rewrite !length_app, predict_batch_length, !length_map, Hl.
Qed.

Lemma run_epoch_total e m :
  exists m' mt, run_epoch cfg tr va e m = Ok (m', mt) /\ mt.(epoch) = e.
Proof.
  unfold run_epoch, _train_epoch, _eval_epoch.
  destruct (train_batches _ _ _ _) as [[m1 tt1] n1]. destruct (mean_loss_total tt1 n1) as [l1 ->]. cbn [rbind].
  pose proof (eval_batches_lengths (batches cfg.(batch_size) va) m1 f0 0 [] [] eq_refl) as Hl.
  destruct (eval_batches _ _ _ _ _ _) as [[[tt2 n2] ps] ts].
  destruct (_regression_metrics_total ts ps Hl) as [[[mae rmse] r2] ->]. cbn [rbind].
  destruct (mean_loss_total tt2 n2) as [l2 ->]. cbn [rbind].
  destruct (lr_step m1) as [m2 rate]. eauto.
Qed.

(** The model after [k] epochs. *)
Fixpoint weights_after (fresh : M) (k : nat) : result M :=
  match k with
  | 0 => Ok fresh
  | S k' =>
      let? m := weights_after fresh k' in
      let? (m', _) := run_epoch cfg tr va (S k') m in Ok m'
  end.

(** What holds before and after every epoch. *)
Record loop_inv (fresh : M) (old : option M) (s : loop_state) : Prop := {
  li_epochs : map epoch s.(ls_history) = seq 1 (length s.(ls_history));
  li_model : weights_after fresh (length s.(ls_history)) = Ok s.(ls_model);
  li_min : Forall (fun mt => fltb mt.(val_loss) s.(ls_best) = false) s.(ls_history);
  li_patience : s.(ls_patience) = (Z.of_nat (length s.(ls_history)) - Z.of_nat s.(ls_best_epoch))%Z;
  li_best :
    match s.(ls_best_epoch) with
    | 0 => s.(ls_best) = Inf false /\ s.(ls_checkpoint) = old
    | S k =>
        exists mt m, s.(ls_history) !! k = Some mt /\ mt.(val_loss) = s.(ls_best) /\
          Forall (fun mt' => mt'.(val_loss) <> s.(ls_best)) (take k s.(ls_history)) /\
          weights_after fresh (S k) = Ok m /\ s.(ls_checkpoint) = Some m
    end;
}.

Lemma init_loop_inv fresh old : loop_inv fresh old (init_loop fresh old).
Proof. by split. Qed.

Lemma fltb_trans_false v b b' : fltb b' b = true -> fltb v b = false -> fltb v b' = false /\ v <> b'.
Proof.
  intros Hb Hv. split; [|congruence]. destruct (fltb v b') eqn:E; [|done].
  by rewrite (flt_trans _ _ _ E Hb) in Hv.
Qed.

Lemma after_epoch_inv fresh old s m mt :
  loop_inv fresh old s -> run_epoch cfg tr va (S (length s.(ls_history))) s.(ls_model) = Ok (m, mt) ->
  mt.(epoch) = S (length s.(ls_history)) ->
  let '(s', stop) := after_epoch cfg mt m s in
  loop_inv fresh old s' /\ length s'.(ls_history) = S (length s.(ls_history)) /\
  (s'.(ls_patience) <= Z.max 0 (s.(ls_patience) + 1))%Z /\
  stop = ((0 <? s'.(ls_patience))%Z && (cfg.(patience) <=? s'.(ls_patience))%Z).
Proof.
  intros [He Hm Hmin Hp Hb] Hr Hep. unfold after_epoch.
  assert (Hw : weights_after fresh (S (length s.(ls_history))) = Ok m).
  { cbn [weights_after]. rewrite Hm. cbn [rbind]. by rewrite Hr. }
  assert (He' : map epoch (s.(ls_history) ++ [mt]) = seq 1 (S (length s.(ls_history)))).
  { rewrite map_app, He, seq_S. simpl. by rewrite Hep. }
  assert (Hlen : length (s.(ls_history) ++ [mt]) = S (length s.(ls_history)))
    by (rewrite length_app; simpl; lia).
  destruct (fltb mt.(val_loss) s.(ls_best)) eqn:E.
  - split; [|cbn [ls_history ls_patience]; split_and!; [done|lia|done]].
    split; cbn [ls_history ls_model ls_best ls_patience ls_best_epoch ls_checkpoint];
      rewrite ?Hlen; try done.
    + apply Forall_app. split; [|constructor; [apply fltb_irrefl|done]].
      eapply Forall_impl; [exact Hmin|]. intros x Hx. by apply (fltb_trans_false _ _ _ E).
    + rewrite Hep. lia.
    + rewrite Hep. exists mt, m. split; [by rewrite lookup_app_r, Nat.sub_diag by done|].
      split; [done|]. split; [|done]. rewrite take_app_length.
      eapply Forall_impl; [exact Hmin|]. intros x Hx. by apply (fltb_trans_false _ _ _ E).
  - assert (Hpos : (0 <? s.(ls_patience) + 1)%Z = true).
    { apply Z.ltb_lt. rewrite Hp. destruct (ls_best_epoch s) as [|k]; [lia|].
      destruct Hb as (? & ? & Hk & _). apply lookup_lt_Some in Hk. lia. }
    split; [|cbn [ls_history ls_patience]; rewrite Hpos; split_and!; [done|lia|done]].
    split; cbn [ls_history ls_model ls_best ls_patience ls_best_epoch ls_checkpoint];
      rewrite ?Hlen; try done.
    + apply Forall_app. split; [done|]. by constructor.
    + rewrite Hp. lia.
    + destruct (ls_best_epoch s) as [|k]; [done|]. destruct Hb as (mt' & m' & Hk & ? & Hf & ?).
      exists mt', m'. pose proof (lookup_lt_Some _ _ _ Hk).
      split; [by apply lookup_app_l_Some|]. split; [done|]. rewrite take_app_le by lia. done.
Qed.

(** How far the loop got: it used up its epochs, or it stopped because the
    best epoch was [patience] epochs ago. *)
Lemma train_loop_spec fresh old todo s :
  loop_inv fresh old s -> (s.(ls_patience) < Z.max 1 cfg.(patience))%Z ->
  exists s', train_loop cfg tr va todo (S (length s.(ls_history))) s = Ok s' /\
    loop_inv fresh old s' /\
    length s'.(ls_history) <= length s.(ls_history) + todo /\
    (s'.(ls_patience) <= Z.max 1 cfg.(patience))%Z /\
    (length s'.(ls_history) < length s.(ls_history) + todo -> (cfg.(patience) <= s'.(ls_patience))%Z).
Proof.
  revert s. induction todo as [|todo IH]; intros s Hi Hp; cbn [train_loop].
  { exists s. split_and!; [done|done|lia|lia|lia]. }
  destruct (run_epoch_total (S (length (ls_history s))) (ls_model s)) as (m & mt & Hr & Hep).
  rewrite Hr. cbn [rbind]. pose proof (after_epoch_inv fresh old s m mt Hi Hr Hep) as Ha.
  destruct (after_epoch cfg mt m s) as [s1 stop]. destruct Ha as (Hi1 & Hl1 & Hp1 & ->).
  destruct ((0 <? ls_patience s1)%Z && (patience cfg <=? ls_patience s1)%Z) eqn:Es.
  - apply andb_prop in Es as [E1 E2]. apply Z.ltb_lt in E1. apply Z.leb_le in E2.
    exists s1. split_and!; [done|done|lia|lia|lia].
  - apply andb_false_iff in Es.
    destruct (IH s1 Hi1) as (s' & E & Hi' & Hle & Hpa & Hst).
    { destruct Es as [Es|Es]; [apply Z.ltb_ge in Es|apply Z.leb_gt in Es]; lia. }
    exists s'. rewrite Nat.add_1_r, <- Hl1, E. split_and!; [done|done|lia|done|]. intros Hlt. apply Hst. lia.
Qed.

(** C21.  Training ends, within its epochs, and returns the best epoch: the
    history numbers the epochs from 1; no recorded validation loss is below
    best_val_loss; best_epoch is the first epoch that reached it and the
    checkpoint holds the model of that epoch; the run stops early only when
    the best epoch is at least [patience] epochs ago, and never goes on for
    more than [patience] epochs (one, if that is smaller) after the best one.
    If no validation loss was ever below infinity (all NaN, say), best_epoch
    is 0 and the checkpoint file is what it was before the run. *)
Theorem early_stopping fresh old splits :
  _make_loaders cfg splits = Ok (tr, va) ->
  exists r ck, train cfg fresh splits old = Ok (r, ck) /\
    let h := r.(metrics_history) in
    let since := (Z.of_nat (length h) - Z.of_nat r.(best_epoch))%Z in
    length h <= cfg.(epochs) /\ map epoch h = seq 1 (length h) /\
    Forall (fun mt => fltb mt.(val_loss) r.(best_val_loss) = false) h /\
    (since <= Z.max 1 cfg.(patience))%Z /\
    (length h < cfg.(epochs) -> (cfg.(patience) <= since)%Z) /\
    match r.(best_epoch) with
    | 0 => r.(best_val_loss) = Inf false /\ ck = old
    | S k =>
        exists mt m, h !! k = Some mt /\ mt.(val_loss) = r.(best_val_loss) /\
          Forall (fun mt' => mt'.(val_loss) <> r.(best_val_loss)) (take k h) /\
          weights_after fresh (S k) = Ok m /\ ck = Some m
    end.
Proof.
  intros Hl. unfold train. rewrite Hl. cbn [rbind].
  destruct (train_loop_spec fresh old cfg.(epochs) (init_loop fresh old))
    as (s & E & [He Hm Hmin Hp Hb] & Hlen & Hpa & Hst); [apply init_loop_inv|simpl; lia|].
  change (S (length (ls_history (init_loop fresh old)))) with 1 in E. rewrite E. cbn [rbind].
  eexists _, _. split; [done|].
  cbn [metrics_history best_epoch best_val_loss]. rewrite <- Hp. simpl in Hlen, Hst.
  split_and!; done.
Qed.
End EarlyStopping.
End Training.

(** ** Witness: three epochs whose losses fall once and then stay *)

Definition demo_splits : DatasetSplits :=
  mkSplits [mkSample "a" [f1] f1 []] [mkSample "b" [f1] f1 []] [] [f1] [f1].

Definition demo_config : TrainConfig :=
  mkTrainConfig 128 f0 f0 f0 4 5 1 f1 42 false false "ck" "log" "cpu".

Lemma early_stopping_witness :
  exists r ck,
    train (M := Z) (fun m _ => ((m + 1)%Z, f0)) (fun m rows => map (fun _ => of_int m) rows)
      (fun p _ => default f0 (head p)) (fun m => (m, f0)) (fun _ l => l)
      (fun _ => f0) (fun _ => f0) (fun x => x) demo_config 0%Z demo_splits None = Ok (r, ck) /\
    length r.(metrics_history) <= 5.
Proof.
  destruct (early_stopping (M := Z) (fun m _ => ((m + 1)%Z, f0)) (fun m rows => map (fun _ => of_int m) rows)
      (fun p _ => default f0 (head p)) (fun m => (m, f0)) (fun _ l => l)
      (fun _ => f0) (fun _ => f0) (fun x => x)
      (fun m rows => length_map _ rows) demo_config [([f0], f1)] [([f0], f1)] 0%Z None demo_splits)
    as (r & ck & E & Hlen & _).
  - vm_compute. reflexivity.
  - exists r, ck. split; [exact E|exact Hlen].
Defined.
