(* ===== verification/Loggers.v ===== *)
(** * Experiment trackers of the trainer (python/predictor/trainer.py)

    [_init_loggers], [_log_metrics] and [_close_loggers]: three optional trackers, each
    switched on by an environment variable and present only if its library is.  What the
    libraries do is an argument (success or an exception); what the trainer sends them is
    the list of calls it makes. *)
From Stdlib Require Import ZArith Lia.
From stdpp Require Import base option list strings.
From S2P Require Import Prelude PyFloat Features Predictor Dataset Trainer.
Local Open Scope string_scope.
Local Open Scope list_scope.
Local Open Scope nat_scope.

(** The environment variables; [None] is unset. *)
Record TrackerEnv := mkEnv {
  USE_TENSORBOARD : option string;
  WANDB_PROJECT : option string;
  MLFLOW_TRACKING_URI : option string;
  MLFLOW_EXPERIMENT : option string;
}.

(** How the libraries answer: creating the TensorBoard writer (import included), importing
    and initialising wandb, importing mlflow and its three calls. *)
Record Libraries := mkLibraries {
  lib_tensorboard : result unit;
  lib_wandb : result unit;
  lib_mlflow_start : result unit;
  lib_mlflow_params : result unit;
}.

Definition ImportError : exn := OtherError "ImportError".

Inductive call :=
| TbOpen (log_dir : string)
| TbScalar (tag : string) (value : float) (step : nat)
| TbClose
| WandbInit (project : string)
| WandbLog (m : TrainMetrics)
| WandbFinish
| MlflowStart (experiment : string)
| MlflowParams
| MlflowMetrics (train_loss val_loss val_mae : float) (step : nat)
| MlflowEnd.

(** [self._tb_writer], [self._wandb] and [self._mlflow]: set or [None]. *)
Record Trackers := mkTrackers { t_tb : bool; t_wandb : bool; t_mlflow : bool }.

Definition no_trackers : Trackers := mkTrackers false false false.

(** [os.getenv("USE_TENSORBOARD", "").lower() in ("1", "true")] on ASCII text. *)
Definition lower_ascii (c : Ascii.ascii) : Ascii.ascii :=
  let n := Ascii.nat_of_ascii c in
  if (65 <=? n) && (n <=? 90) then Ascii.ascii_of_nat (n + 32) else c.
Fixpoint lower_string (s : string) : string :=
  match s with
  | EmptyString => EmptyString
  | String c s' => String (lower_ascii c) (lower_string s')
  end.
Definition tb_wanted (e : TrackerEnv) : bool :=
  let v := lower_string (default "" e.(USE_TENSORBOARD)) in
  bool_decide (v = "1") || bool_decide (v = "true").

(** [os.getenv(name)] as a condition. *)
Definition env_set (v : option string) : bool := negb (bool_decide (default "" v = "")).

Section Trackers.
Context (e : TrackerEnv) (libs : Libraries) (log_dir : string).

Definition init_tensorboard (t : Trackers) : list call * Trackers :=
  if tb_wanted e then
    match libs.(lib_tensorboard) with
    | Ok _ => ([TbOpen log_dir], mkTrackers true t.(t_wandb) t.(t_mlflow))
    | Raise _ => ([], t)
    end
  else ([], t).

Definition init_wandb (t : Trackers) : list call * Trackers * result unit :=
  if env_set e.(WANDB_PROJECT) then
    match libs.(lib_wandb) with
    | Ok _ => ([WandbInit (default "" e.(WANDB_PROJECT))], mkTrackers t.(t_tb) true t.(t_mlflow), Ok tt)
    | Raise ex => if bool_decide (ex = ImportError) then ([], t, Ok tt) else ([], t, Raise ex)
    end
  else ([], t, Ok tt).

(** The run is recorded before the parameters are logged. *)
Definition init_mlflow (t : Trackers) : list call * Trackers * result unit :=
  if env_set e.(MLFLOW_TRACKING_URI) then
    match libs.(lib_mlflow_start) with
    | Ok _ =>
        let start := MlflowStart (default "output-length" e.(MLFLOW_EXPERIMENT)) in
        let t' := mkTrackers t.(t_tb) t.(t_wandb) true in
        match libs.(lib_mlflow_params) with
        | Ok _ => ([start; MlflowParams], t', Ok tt)
        | Raise ex => ([start], t', if bool_decide (ex = ImportError) then Ok tt else Raise ex)
        end
    | Raise ex => if bool_decide (ex = ImportError) then ([], t, Ok tt) else ([], t, Raise ex)
    end
  else ([], t, Ok tt).

Definition _init_loggers (t : Trackers) : list call * Trackers * result unit :=
  let '(c1, t1) := init_tensorboard t in
  let '(c2, t2, r2) := init_wandb t1 in
  match r2 with
  | Raise ex => (c1 ++ c2, t2, Raise ex)
  | Ok _ => let '(c3, t3, r3) := init_mlflow t2 in (c1 ++ c2 ++ c3, t3, r3)
  end.

Definition _log_metrics (t : Trackers) (m : TrainMetrics) : list call :=
  (if t.(t_tb) then
     [TbScalar "loss/train" m.(train_loss) m.(epoch); TbScalar "loss/val" m.(val_loss) m.(epoch);
      TbScalar "mae/val" m.(val_mae) m.(epoch)]
   else []) ++
  (if t.(t_wandb) then [WandbLog m] else []) ++
  (if t.(t_mlflow) then [MlflowMetrics m.(train_loss) m.(val_loss) m.(val_mae) m.(epoch)] else []).

Definition _close_loggers (t : Trackers) : list call :=
  (if t.(t_tb) then [TbClose] else []) ++ (if t.(t_wandb) then [WandbFinish] else []) ++
  (if t.(t_mlflow) then [MlflowEnd] else []).

(** A training run as the trackers see it: [history] are the epochs that were measured,
    [outcome] how the loop ended.  The attributes are not reset at the end. *)
Definition tracked_run {A} (t : Trackers) (history : list TrainMetrics) (outcome : result A)
    : list call * Trackers * result A :=
  match _init_loggers t with
  | (c0, t', Raise ex) => (c0, t', Raise ex)
  | (c0, t', Ok _) =>
      let c1 := c0 ++ mjoin (map (_log_metrics t') history) in
      match outcome with
      | Raise ex => (c1, t', Raise ex)
      | Ok a => (c1 ++ _close_loggers t', t', Ok a)
      end
  end.
End Trackers.

(** ** Properties *)

Definition is_tb (c : call) : bool :=
  match c with TbOpen _ | TbScalar _ _ _ | TbClose => true | _ => false end.
Definition is_wandb (c : call) : bool :=
  match c with WandbInit _ | WandbLog _ | WandbFinish => true | _ => false end.
Definition is_mlflow (c : call) : bool :=
  match c with MlflowStart _ | MlflowParams | MlflowMetrics _ _ _ _ | MlflowEnd => true | _ => false end.

Definition tb_epoch (m : TrainMetrics) : list call :=
  [TbScalar "loss/train" m.(train_loss) m.(epoch); TbScalar "loss/val" m.(val_loss) m.(epoch);
   TbScalar "mae/val" m.(val_mae) m.(epoch)].
Definition mlflow_epoch (m : TrainMetrics) : call :=
  MlflowMetrics m.(train_loss) m.(val_loss) m.(val_mae) m.(epoch).

Lemma filter_epochs (p : call -> bool) (f g : TrainMetrics -> list call) h :
  (forall m, List.filter p (f m) = g m) -> List.filter p (mjoin (map f h)) = mjoin (map g h).
Proof.
  intros Hf. induction h as [|m h IH]; [done|].
  change (mjoin (map f (m :: h))) with (f m ++ mjoin (map f h)).
  change (mjoin (map g (m :: h))) with (g m ++ mjoin (map g h)). by rewrite List.filter_app, Hf, IH.
Qed.

Lemma epochs_none {A B} (h : list A) : mjoin (map (fun _ => @nil B) h) = [].
Proof. by induction h. Qed.

Lemma epochs_one {A B} (f : A -> B) (h : list A) : mjoin (map (fun m => [f m]) h) = map f h.
Proof.
  induction h as [|m h IH]; [done|].
  change (mjoin (map (fun m => [f m]) (m :: h))) with (f m :: mjoin (map (fun m => [f m]) h)). by rewrite IH.
Qed.

(** What each tracker receives for the epochs of a run. *)
Lemma epoch_calls t h :
  let cs := mjoin (map (_log_metrics t) h) in
  List.filter is_tb cs = (if t.(t_tb) then mjoin (map tb_epoch h) else []) /\
  List.filter is_wandb cs = (if t.(t_wandb) then map WandbLog h else []) /\
  List.filter is_mlflow cs = (if t.(t_mlflow) then map mlflow_epoch h else []).
Proof.
  destruct t as [tb wb mf]. cbv zeta. cbn [t_tb t_wandb t_mlflow]. split_and!.
  - rewrite (filter_epochs _ _ (fun m => if tb then tb_epoch m else [])) by (intros m; by destruct tb, wb, mf).
    destruct tb; [done|apply epochs_none].
  - rewrite (filter_epochs _ _ (fun m => if wb then [WandbLog m] else [])) by (intros m; by destruct tb, wb, mf).
    destruct wb; [apply epochs_one|apply epochs_none].
  - rewrite (filter_epochs _ _ (fun m => if mf then [mlflow_epoch m] else [])) by (intros m; by destruct tb, wb, mf).
    destruct mf; [apply epochs_one|apply epochs_none].
Qed.

Section TrackerProperties.
Context (e : TrackerEnv) (libs : Libraries) (log_dir : string).

(** A tracker that was asked for and whose library works. *)
Definition active (wanted : bool) (lib : result unit) : bool :=
  wanted && match lib with Ok _ => true | Raise _ => false end.

Definition tb_active : bool := active (tb_wanted e) libs.(lib_tensorboard).
Definition wandb_active : bool := active (env_set e.(WANDB_PROJECT)) libs.(lib_wandb).
Definition mlflow_active : bool := active (env_set e.(MLFLOW_TRACKING_URI)) libs.(lib_mlflow_start).

Lemma init_loggers_ok c t :
  _init_loggers e libs log_dir no_trackers = (c, t, Ok tt) ->
  t = mkTrackers tb_active wandb_active mlflow_active /\
  List.filter is_tb c = (if tb_active then [TbOpen log_dir] else []) /\
  List.filter is_wandb c = (if wandb_active then [WandbInit (default "" e.(WANDB_PROJECT))] else []) /\
  (if mlflow_active
   then exists rest, List.filter is_mlflow c = MlflowStart (default "output-length" e.(MLFLOW_EXPERIMENT)) :: rest /\
          (rest = [MlflowParams] \/ rest = [])
   else List.filter is_mlflow c = []).
Proof.
  unfold _init_loggers, init_tensorboard, init_wandb, init_mlflow, tb_active, wandb_active, mlflow_active, active.
  destruct (tb_wanted e), (env_set (WANDB_PROJECT e)), (env_set (MLFLOW_TRACKING_URI e)); cbn [andb];
    destruct (lib_tensorboard libs) as [[]|e1], (lib_wandb libs) as [[]|e2], (lib_mlflow_start libs) as [[]|e3];
    try case_bool_decide; cbn; try done;
    try (destruct (lib_mlflow_params libs) as [[]|e4]); try case_bool_decide; cbn; try done;
    intros [= <- <-]; cbn; split_and!; eauto.
Qed.

(** Each tracker sees a well-formed run: from a new trainer, when a run ends normally, a tracker
    that was asked for and whose library works is opened once, receives every epoch
    exactly once and in order, and is closed once, last; the others receive nothing. *)
Theorem trackers_see_every_epoch {A} history (a : A) calls t :
  tracked_run e libs log_dir no_trackers history (Ok a) = (calls, t, Ok a) ->
  List.filter is_tb calls =
    (if tb_active then TbOpen log_dir :: mjoin (map tb_epoch history) ++ [TbClose] else []) /\
  List.filter is_wandb calls =
    (if wandb_active then WandbInit (default "" e.(WANDB_PROJECT)) :: map WandbLog history ++ [WandbFinish] else []) /\
  (if mlflow_active
   then exists params, (params = [MlflowParams] \/ params = []) /\
     List.filter is_mlflow calls =
       MlflowStart (default "output-length" e.(MLFLOW_EXPERIMENT)) :: params ++ map mlflow_epoch history ++ [MlflowEnd]
   else List.filter is_mlflow calls = []).
Proof.
  unfold tracked_run. destruct (_init_loggers e libs log_dir no_trackers) as [[c0 t'] [[]|ex]] eqn:E; [|done].
  intros [= <- _]. apply init_loggers_ok in E as (-> & H1 & H2 & H3).
  rewrite !List.filter_app, H1, H2. destruct (epoch_calls (mkTrackers tb_active wandb_active mlflow_active) history)
    as (E1 & E2 & E3). rewrite E1, E2, E3. cbn [t_tb t_wandb t_mlflow].
  destruct tb_active, wandb_active, mlflow_active; cbn; split_and!; try done;
    try (by rewrite <- app_assoc); try (by rewrite H3);
    destruct H3 as (rest & -> & Hr); exists rest; (split; [done|]); cbn; by rewrite <- !app_assoc.
Qed.

(** Trackers change the outcome of training only through an exception of wandb or mlflow other
    than a missing library; TensorBoard never does. *)
Lemma tracking_is_harmless {A} t history (outcome : result A) :
  (forall ex, libs.(lib_wandb) = Raise ex -> ex = ImportError) ->
  (forall ex, libs.(lib_mlflow_start) = Raise ex -> ex = ImportError) ->
  (forall ex, libs.(lib_mlflow_params) = Raise ex -> ex = ImportError) ->
  (tracked_run e libs log_dir t history outcome).2 = outcome.
Proof.
  intros Hw Hs Hp.
  assert (H : (_init_loggers e libs log_dir t).2 = Ok tt).
  { unfold _init_loggers, init_wandb, init_mlflow. destruct (init_tensorboard e libs log_dir t) as [c1 t1].
    destruct (env_set (WANDB_PROJECT e)), (lib_wandb libs) as [[]|e2] eqn:E2; try rewrite (Hw _ eq_refl);
      destruct (env_set (MLFLOW_TRACKING_URI e)), (lib_mlflow_start libs) as [[]|e3] eqn:E3; try rewrite (Hs _ eq_refl);
      try (destruct (lib_mlflow_params libs) as [[]|e4] eqn:E4; try rewrite (Hp _ eq_refl)); reflexivity. }
  unfold tracked_run. destruct (_init_loggers e libs log_dir t) as [[c0 t'] r]. cbn in H. subst r.
  by destruct outcome.
Qed.

(** When the loop raises, no tracker is closed. *)
Lemma failed_run_stays_open {A} t history ex :
  List.Forall (fun c => c <> TbClose /\ c <> WandbFinish /\ c <> MlflowEnd)
    (tracked_run e libs log_dir t history (Raise (A := A) ex)).1.1.
Proof.
  unfold tracked_run.
  assert (H : List.Forall (fun c => c <> TbClose /\ c <> WandbFinish /\ c <> MlflowEnd)
                (_init_loggers e libs log_dir t).1.1).
  { unfold _init_loggers, init_tensorboard, init_wandb, init_mlflow.
    repeat case_match; simplify_eq; cbn; repeat constructor; done. }
  destruct (_init_loggers e libs log_dir t) as [[c0 t'] [[]|ex']]; [|exact H]. cbn in *.
  apply Forall_app. split; [exact H|]. clear. induction history as [|m h IH]; cbn; [constructor|].
  apply Forall_app. split; [|exact IH]. unfold _log_metrics.
  destruct (t_tb t'), (t_wandb t'), (t_mlflow t'); cbn; repeat constructor; done.
Qed.
End TrackerProperties.

(** ** Witness *)

Definition demo_env : TrackerEnv := mkEnv (Some "True") None (Some "http://mlflow") None.
Definition demo_libs : Libraries := mkLibraries (Ok tt) (Raise ImportError) (Ok tt) (Ok tt).
Definition demo_epoch (n : nat) : TrainMetrics := mkTrainMetrics n f1 f1 f1 f1 f1 f1.

Lemma trackers_see_every_epoch_witness :
  List.filter is_mlflow (tracked_run demo_env demo_libs "logs" no_trackers [demo_epoch 1; demo_epoch 2] (Ok tt)).1.1 =
  [MlflowStart "output-length"; MlflowParams; MlflowMetrics f1 f1 f1 1; MlflowMetrics f1 f1 f1 2; MlflowEnd].
Proof.
  destruct (trackers_see_every_epoch demo_env demo_libs "logs" [demo_epoch 1; demo_epoch 2] tt
              (tracked_run demo_env demo_libs "logs" no_trackers [demo_epoch 1; demo_epoch 2] (Ok tt)).1.1
              (mkTrackers true false true) eq_refl) as (_ & _ & H).
  destruct H as (params & [->| ->] & H); [exact H|]. discriminate H.
Defined.
