(* ===== verification/Pipeline.v ===== *)
(** * Training, evaluation and export scripts (python/predictor/export.py,
      python/training/train.py, evaluate.py, prepare_dataset.py)

    The three scripts as compositions of the data set, trainer and predictor
    operations.  Files are values: a checkpoint is a model state with its
    parameter shapes, metadata.json a record, the processed data set a list of
    lines.  Torch, numpy and scipy reductions are parameters. *)
From Stdlib Require Import ZArith Lia.
From stdpp Require Import base option list strings gmap.
From S2P Require Import Prelude PyFloat Features Predictor Dataset Trainer.
Local Open Scope string_scope.
Local Open Scope list_scope.
Local Open Scope nat_scope.
Local Open Scope py_scope.

(** The "dataset" and "model" sections of the configuration file. *)
Record DatasetCfg := mkDatasetCfg {
  dc_train_ratio : float;
  dc_val_ratio : float;
  dc_seed : option Z;
}.

(** ** Export *)

Record ExportMetadata := mkExport {
  model_version : string;
  feature_names : list string;
  num_features : nat;
  ex_feature_mean : list float;
  ex_feature_std : list float;
  ex_hidden_dim : Z;
  ex_dropout : float;
  training_date : string;
  git_sha : string;
  ex_metrics : odict float;
}.

(** [_git_sha]: twelve characters of the hash, or "unknown" when git fails. *)
Definition _git_sha (rev_parse : result string) : string :=
  match rev_parse with
  | Ok out => String.substring 0 12 (strip out)
  | Raise _ => "unknown"
  end.

(** [export_model]: the shapes of output_length_mlp.pt and the metadata. *)
Definition export_model (state : list (string * list Z)) (mean std : list float)
    (metrics : option (odict float)) (version : string) (hidden : Z) (drop_p : float)
    (date : string) (rev_parse : result string)
    : result (list (string * list Z) * ExportMetadata) :=
  let? _ := load_state_dict (mkModelConfig (Z.of_nat NUM_FEATURES) hidden drop_p (of_int 1) (of_int 4096))
              state in
  Ok (state, mkExport version FEATURE_NAMES NUM_FEATURES mean std hidden drop_p date
               (_git_sha rev_parse) (default [] metrics)).

(** What the loaders read back from metadata.json. *)
Definition exported_meta (m : ExportMetadata) : ModelMeta :=
  {| meta_mean := Some m.(ex_feature_mean); meta_std := Some m.(ex_feature_std) |}.

(** ** Scripts *)

Section Scripts.
Context (_hash_prompt : string -> string).
Context (permutation : Z -> nat -> list nat) (col_mean col_std : list (list float) -> list float).
Context (np_mean np_sum : list float -> float) (np_sqrt : float -> float).
Context (pearson spearman : list float -> list float -> float).

Definition default_seed (c : DatasetCfg) : Z := default 42%Z c.(dc_seed).

(** The data part of train.py and prepare_dataset.py. *)
Definition prepare_splits (c : DatasetCfg) (preset : result (list Sample)) : result DatasetSplits :=
  let? samples := preset in
  split permutation col_mean col_std (deduplicate _hash_prompt samples) c.(dc_train_ratio)
    c.(dc_val_ratio) (default_seed c).

(** The data part of evaluate.py: no deduplication, the default ratios. *)
Definition evaluate_splits (c : DatasetCfg) (preset : result (list Sample)) : result DatasetSplits :=
  let? samples := preset in
  split permutation col_mean col_std samples (flit 8 10) (flit 1 10) (default_seed c).

(** The lines prepare_dataset.py writes, and the counts of splits_meta.json. *)
Definition prepare_dataset (encode : Sample -> string) (c : DatasetCfg) (preset : result (list Sample))
    : result (list string * (nat * nat * nat)) :=
  let? sp := prepare_splits c preset in
  Ok (map encode (sp.(Dataset.train) ++ sp.(val) ++ sp.(test)),
      (length sp.(Dataset.train), length sp.(val), length sp.(test))).

(** The metrics of evaluate.py: mae, rmse, r2, pearson, spearman, n_test. *)
Definition evaluate_metrics (y preds : list float)
    : result (float * float * float * float * float * nat) :=
  let? (mae, rmse, r2) := _regression_metrics np_mean np_sum np_sqrt y preds in
  Ok (mae, rmse, r2, pearson y preds, spearman y preds, length y).

Context {M : Type} (shapes : M -> list (string * list Z)).
Context (net : M -> list float -> float).

(** evaluate.py: the checkpoint must fit the default model; its predictions on
    the test part are clamped. *)
Definition evaluate_main (c : DatasetCfg) (preset : result (list Sample)) (checkpoint : M)
    : result (float * float * float * float * float * nat) :=
  let? sp := evaluate_splits c preset in
  let? _ := load_state_dict default_model_config (shapes checkpoint) in
  let? (x, y) := to_tensors sp.(test) sp.(feature_mean) sp.(feature_std) in
  evaluate_metrics y (map (forward default_model_config (net checkpoint)) x).

(** train.py from the splits on.  [run] is [Trainer.train]: the result and the
    checkpoint file it leaves. *)
Definition train_main (run : DatasetSplits -> result (TrainResult * option M))
    (c : DatasetCfg) (preset : result (list Sample)) (hidden : Z) (drop_p : float)
    (version : option string) (date : string) (rev_parse : result string)
    : result (list (string * list Z) * ExportMetadata) :=
  let? sp := prepare_splits c preset in
  let? (res, ck) := run sp in
  match ck with
  | None => Raise (OtherError "FileNotFoundError")
  | Some m =>
      let? _ := load_state_dict default_model_config (shapes m) in
      let? (x, y) := to_tensors sp.(test) sp.(feature_mean) sp.(feature_std) in
      let preds := map (forward default_model_config (net m)) x in
      let? d := broadcast fsub32 y preds in
      let metrics :=
        [("test_mae", np_mean (map fabs d)); ("test_rmse", np_sqrt (np_mean (map sq32 d)));
         ("test_pearson", pearson y preds); ("test_spearman", spearman y preds);
         ("best_val_loss", res.(best_val_loss)); ("best_epoch", of_int (Z.of_nat res.(best_epoch)))] in
      export_model (shapes m) sp.(feature_mean) sp.(feature_std) (Some metrics)
        (default "1.0.0" version) hidden drop_p date rev_parse
  end.
End Scripts.

(** ** Properties *)

Section ScriptProperties.
Context (h : string -> string).
Context (permutation : Z -> nat -> list nat) (col_mean col_std : list (list float) -> list float).
Hypothesis permutation_spec : forall seed n, permutation seed n ≡ₚ seq 0 n.

(** Preparing a data set of samples with one number of features writes every
    distinct prompt once: the lines are those of the deduplicated samples,
    rearranged, and the three counts add up to their number. *)
Theorem prepare_dataset_complete encode c samples w :
  Forall (fun s => length s.(s_features) = w) samples ->
  (Z.of_nat (length (deduplicate h samples)) <= 2 ^ 53)%Z ->
  (f0 <= c.(dc_train_ratio))%float -> (c.(dc_train_ratio) <= f1)%float ->
  (f0 <= c.(dc_val_ratio))%float -> (c.(dc_val_ratio) <= f1)%float ->
  exists lines a b t,
    prepare_dataset h permutation col_mean col_std encode c (Ok samples) = Ok (lines, (a, b, t)) /\
    lines ≡ₚ map encode (deduplicate h samples) /\
    a + b + t = length (deduplicate h samples).
Proof.
  intros Hw Hn H1 H2 H3 H4. unfold prepare_dataset, prepare_splits. cbn [rbind].
  destruct (split_spec permutation col_mean col_std permutation_spec (deduplicate h samples)
              _ _ (default_seed c) Hn H1 H2 H3 H4) as (tr & va & te & Hp & ->).
  unfold splits_of, np_rows. rewrite (splits_of_width w (deduplicate h samples) tr va te); [|clear Hp|exact Hp].
  2: { rewrite Forall_forall in Hw |- *. intros s Hs. by apply Hw, (dedup_elem h ∅). }
  cbn [rbind Dataset.train val test]. eexists _, _, _, _. split; [reflexivity|]. split; [by rewrite Hp|].
  rewrite <- Hp, !length_app. lia.
Qed.

(** evaluate.py tests on the split train.py held out, when the preset has
    no duplicate prompts and the configured ratios are the defaults: both
    scripts then compute the same three parts. *)
Theorem evaluation_is_held_out c samples :
  NoDup (map (fun s => h (prompt s)) samples) ->
  c.(dc_train_ratio) = flit 8 10 -> c.(dc_val_ratio) = flit 1 10 ->
  evaluate_splits permutation col_mean col_std c (Ok samples) =
  prepare_splits h permutation col_mean col_std c (Ok samples).
Proof.
  intros Hnd Ht Hv. unfold evaluate_splits, prepare_splits. cbn [rbind]. rewrite Ht, Hv.
  unfold deduplicate. rewrite dedup_loop_id; [reflexivity|done|].
  apply Forall_forall. intros x _. apply not_elem_of_empty.
Qed.
End ScriptProperties.

(** Two configurations of the model with the same shapes have the same hidden
    size. *)
Lemma load_state_dict_shapes cfg state : load_state_dict cfg state = Ok tt <-> state = param_shapes cfg.
Proof. unfold load_state_dict. by case_bool_decide. Qed.

Section ExportProperties.
Context (h : string -> string).
Context (permutation : Z -> nat -> list nat) (col_mean col_std : list (list float) -> list float).
Context (np_mean : list float -> float) (np_sqrt : float -> float).
Context (pearson spearman : list float -> list float -> float).
Context {M : Type} (shapes : M -> list (string * list Z)) (net : M -> list float -> float).

(** What train.py exports is what the predictors load: when the script
    succeeds, the exported parameters fit the default model, which forces the
    configured hidden size to be 128 (with any other the script raises, after
    training), and the normalisation arrays read back from the metadata are
    the single-precision statistics of the training split. *)
Theorem exported_model_loads run c preset hidden drop_p version date rev state meta :
  train_main h permutation col_mean col_std np_mean np_sqrt pearson spearman shapes net run
    c preset hidden drop_p version date rev = Ok (state, meta) ->
  load_state_dict default_model_config state = Ok tt /\ hidden = 128%Z /\
  exists sp, prepare_splits h permutation col_mean col_std c preset = Ok sp /\
    (sp.(feature_mean) <> [] ->
     checkpoint_norm (Some (exported_meta meta)) =
       (Some (np_float32 sp.(feature_mean)), Some (np_float32 sp.(feature_std))) /\
     _load_norm_arrays (Some (exported_meta meta)) = checkpoint_norm (Some (exported_meta meta))).
Proof.
  unfold train_main. intros H. apply rbind_Ok in H as (sp & Hsp & H).
  apply rbind_Ok in H as ([res ck] & _ & H). destruct ck as [m|]; [|done].
  apply rbind_Ok in H as ([] & Hl & H). apply rbind_Ok in H as ([x y] & _ & H).
  apply rbind_Ok in H as (d & _ & H). unfold export_model in H.
  apply rbind_Ok in H as ([] & Hl' & H). injection H as <- <-.
  split; [done|]. apply load_state_dict_shapes in Hl, Hl'. rewrite Hl in Hl'.
  split; [unfold param_shapes in Hl'; simpl in Hl'; by simplify_eq|].
  exists sp. split; [done|]. intros Hne. unfold checkpoint_norm, _load_norm_arrays. simpl.
  destruct (feature_mean sp); done.
Qed.
End ExportProperties.

(** ** Witnesses, and a leak *)

Definition default_cfg : DatasetCfg := mkDatasetCfg (flit 8 10) (flit 1 10) None.

Lemma prepare_dataset_complete_witness :
  exists lines a b t,
    prepare_dataset (fun p => p) in_order first_row first_row prompt default_cfg (Ok demo_samples)
      = Ok (lines, (a, b, t)) /\ a + b + t = 3.
Proof.
  destruct (prepare_dataset_complete (fun p => p) in_order first_row first_row
              (fun _ _ => Permutation_refl _) prompt default_cfg demo_samples 2)
    as (lines & a & b & t & E & _ & Hn).
  - repeat constructor.
  - vm_compute. discriminate.
  - fcompute.
  - fcompute.
  - fcompute.
  - fcompute.
  - exists lines, a, b, t. split; [exact E|]. rewrite Hn. vm_compute. reflexivity.
Defined.

Lemma evaluation_is_held_out_witness :
  evaluate_splits in_order first_row first_row default_cfg (Ok demo_samples) =
  prepare_splits (fun p => p) in_order first_row first_row default_cfg (Ok demo_samples).
Proof.
  apply (evaluation_is_held_out (fun p => p) in_order first_row first_row default_cfg demo_samples).
  - apply (bool_decide_unpack _). vm_compute. exact I.
  - reflexivity.
  - reflexivity.
Defined.

(** Ten samples, the last a copy of the first. *)
Definition repeated_samples : list Sample :=
  map demo_sample ["a"; "b"; "c"; "d"; "e"; "f"; "g"; "h"; "i"; "a"].

Definition part_prompts (part : DatasetSplits -> list Sample) (r : result DatasetSplits) : list string :=
  match r with Ok sp => map prompt (part sp) | Raise _ => [] end.

Definition leak_evaluated : list string :=
  part_prompts test (evaluate_splits in_order first_row first_row default_cfg (Ok repeated_samples)).
Definition leak_trained : list string :=
  part_prompts Dataset.train
    (prepare_splits (fun p => p) in_order first_row first_row default_cfg (Ok repeated_samples)).

(** With a duplicate prompt, evaluate.py tests on a prompt train.py trained on. *)
Example evaluation_leaks_duplicates :
  leak_evaluated = ["a"] /\ leak_trained = ["a"; "b"; "c"; "d"; "e"; "f"; "g"].
Proof. split; vm_compute; reflexivity. Qed.

Definition wide_sample (p : string) : Sample := mkSample p [f1] (of_int 7) [].
Definition demo_run (sp : DatasetSplits) : result (TrainResult * option Z) :=
  Ok (mkTrainResult 1 f0 [] "best.pt" sp.(feature_mean) sp.(feature_std), Some 0%Z).

Definition demo_meta : ExportMetadata :=
  mkExport "1.0.0" FEATURE_NAMES NUM_FEATURES [f1] [f1] 128 f0 "today" "unknown"
    [("test_mae", f0); ("test_rmse", f0); ("test_pearson", f0); ("test_spearman", f0);
     ("best_val_loss", f0); ("best_epoch", of_int 1)].

Lemma exported_model_loads_witness :
  load_state_dict default_model_config (param_shapes default_model_config) = Ok tt.
Proof.
  apply (exported_model_loads (fun p => p) in_order (fun _ => [f1]) (fun _ => [f1])
      (fun _ => f0) (fun x => x) (fun _ _ => f0) (fun _ _ => f0)
      (fun _ : Z => param_shapes default_model_config) (fun _ _ => f1) demo_run default_cfg
      (Ok (map wide_sample ["a"; "b"])) 128 f0 None "today" (Raise IndexError)
      (param_shapes default_model_config) demo_meta).
  vm_compute. reflexivity.
Defined.
