(* ===== verification/Serving.v ===== *)
(** * Predictor objects and their artifacts (python/predictor/predictor.py,
      inference.py, export.py)

    The files an export leaves in a directory, the constructors that read them
    back, and the three kinds of predictor objects.  A path is its list of
    components; a file is what its reader makes of it.  Reading a file that is
    missing, or of another kind than the reader expects, raises. *)
From Stdlib Require Import ZArith Lia.
From stdpp Require Import base option list strings gmap.
From S2P Require Import Prelude PyFloat Features Predictor Dataset Trainer Pipeline.
Local Open Scope string_scope.
Local Open Scope list_scope.
Local Open Scope nat_scope.
Local Open Scope py_scope.

Abbreviation path := (list string).
Abbreviation network := (list float -> float).

(** Contents of a file: a state dictionary (parameter names and shapes, and the
    network its values make), a traced model, an ONNX graph with the names of
    its inputs, or JSON metadata. *)
Inductive file :=
| StateFile (shapes : list (string * list Z)) (net : network)
| TracedFile (run : network)
| OnnxGraph (inputs : list string) (run : network)
| MetaFile (m : ModelMeta).

Abbreviation files := (gmap path file).

(** [path.parent] and [path / name]; the parent of a bare name is ["."]. *)
Definition parent (p : path) : path := removelast p.
Definition slash (p : path) (name : string) : path := p ++ [name].

Definition missing {A} (p : path) : result A := Raise (OtherError ("FileNotFoundError: " +:+ join "/" p)).
Definition unreadable {A} (p : path) : result A := Raise (OtherError ("cannot read " +:+ join "/" p)).

(** [torch.load], [torch.jit.load], [ort.InferenceSession] and [json.load]. *)
Definition torch_load (fs : files) (p : path) : result (list (string * list Z) * network) :=
  match fs !! p with
  | Some (StateFile shapes net) => Ok (shapes, net)
  | Some _ => unreadable p
  | None => missing p
  end.

Definition jit_load (fs : files) (p : path) : result network :=
  match fs !! p with Some (TracedFile run) => Ok run | Some _ => unreadable p | None => missing p end.

Definition inference_session (fs : files) (p : path) : result (list string * network) :=
  match fs !! p with
  | Some (OnnxGraph inputs run) => Ok (inputs, run)
  | Some _ => unreadable p
  | None => missing p
  end.

(** [json.load] when the file exists. *)
Definition read_meta (fs : files) (p : path) : result (option ModelMeta) :=
  match fs !! p with
  | Some (MetaFile m) => Ok (Some m)
  | Some _ => unreadable p
  | None => Ok None
  end.

(** ** The checkpoint predictor *)

Record OutputLengthPredictor := mkPredictor {
  p_net : network;
  p_config : ModelConfig;
  p_device : string;
  p_training : bool;
  p_mean : option (list float);
  p_std : option (list float);
}.

(** [OutputLengthPredictor.__init__]: [cuda] is [torch.cuda.is_available()]. *)
Definition predictor_init (cuda : bool) (cfg : ModelConfig) (net : network) (device : option string)
    (mean std : option (list float)) : OutputLengthPredictor :=
  mkPredictor net cfg
    (match device with
     | Some d => if bool_decide (d = "") then (if cuda then "cuda" else "cpu") else d
     | None => if cuda then "cuda" else "cpu"
     end) false mean std.

(** [OutputLengthPredictor.from_checkpoint] *)
Definition from_checkpoint (cuda : bool) (fs : files) (p : path) (metadata_path : option path)
    (device : option string) : result OutputLengthPredictor :=
  let meta_path := default (slash (parent p) "metadata.json") metadata_path in
  let? meta := read_meta fs meta_path in
  let '(mean, std) := checkpoint_norm meta in
  let? (shapes, net) := torch_load fs p in
  let? _ := load_state_dict default_model_config shapes in
  Ok (predictor_init cuda default_model_config net device mean std).

(** ** The exported predictors *)

Record ONNXPredictor := mkOnnx {
  x_run : network;
  x_input_name : string;
  x_mean : option (list float);
  x_std : option (list float);
}.

(** [ONNXPredictor.__init__]: the first input's name is kept. *)
Definition onnx_init (fs : files) (onnx_path : path) (metadata_path : option path) : result ONNXPredictor :=
  let? (inputs, run) := inference_session fs onnx_path in
  match inputs with
  | [] => Raise IndexError
  | name :: _ =>
      let? meta := match metadata_path with Some p => read_meta fs p | None => Ok None end in
      let '(mean, std) := _load_norm_arrays meta in
      Ok (mkOnnx run name mean std)
  end.

Record TorchScriptPredictor := mkTorchScript {
  t_run : network;
  t_training : bool;
  t_mean : option (list float);
  t_std : option (list float);
}.

(** [TorchScriptPredictor.__init__] *)
Definition torchscript_init (fs : files) (ts_path : path) (metadata_path : option path)
    : result TorchScriptPredictor :=
  let? run := jit_load fs ts_path in
  let? meta := match metadata_path with Some p => read_meta fs p | None => Ok None end in
  let '(mean, std) := _load_norm_arrays meta in
  Ok (mkTorchScript run false mean std).

Inductive AnyPredictor :=
| PyTorch (p : OutputLengthPredictor)
| Onnx (p : ONNXPredictor)
| TorchScript (p : TorchScriptPredictor).

(** [load_predictor(models_dir, backend)] *)
Definition load_any (cuda : bool) (fs : files) (models_dir : path) (backend : string) : result AnyPredictor :=
  let meta := slash models_dir "metadata.json" in
  match load_predictor backend with
  | OnnxBackend =>
      let? p := onnx_init fs (slash models_dir "output_length.onnx") (Some meta) in Ok (Onnx p)
  | TorchScriptBackend =>
      let? p := torchscript_init fs (slash models_dir "output_length.ts") (Some meta) in Ok (TorchScript p)
  | PyTorchBackend =>
      let? p := from_checkpoint cuda fs (slash models_dir "output_length_mlp.pt") (Some meta) None in
      Ok (PyTorch p)
  end.

(** The predictor [SchedulerGateway.startup] makes: the checkpoint of the
    models directory when there is one, else an untrained model. *)
Definition gateway_predictor (cuda : bool) (fs : files) (models_dir : path) (untrained : network)
    : result OutputLengthPredictor :=
  let pt_path := slash models_dir "output_length_mlp.pt" in
  if bool_decide (is_Some (fs !! pt_path)) then from_checkpoint cuda fs pt_path None None
  else Ok (predictor_init cuda default_model_config untrained None None None).

(** The token count an object predicts for extracted features. *)
Definition predict_features (p : AnyPredictor) (v : FeatureVector) : result float :=
  match p with
  | PyTorch p =>
      let? row := _to_tensor p.(p_mean) p.(p_std) v in Ok (forward p.(p_config) p.(p_net) row)
  | Onnx p => let? (y, _) := onnx_predict p.(x_run) p.(x_mean) p.(x_std) f0 f0 v in Ok y
  | TorchScript p => let? (y, _) := torchscript_predict p.(t_run) p.(t_mean) p.(t_std) f0 f0 v in Ok y
  end.

(** ** Export *)

(** The files [export_model] leaves in [output_dir]: the state dictionary, the
    model traced in evaluation mode, its ONNX graph, and the metadata. *)
Definition export_files (fs : files) (checkpoint_path output_dir : path) (mean std : list float)
    (metrics : option (odict float)) (version : string) (hidden : Z) (drop_p : float) (date : string)
    (rev_parse : result string) : result (files * ExportMetadata) :=
  let? (state, net) := torch_load fs checkpoint_path in
  let? (shapes, meta) := export_model state mean std metrics version hidden drop_p date rev_parse in
  let cfg := mkModelConfig (Z.of_nat NUM_FEATURES) hidden drop_p (of_int 1) (of_int 4096) in
  Ok (<[slash output_dir "metadata.json" := MetaFile (exported_meta meta)]>
      (<[slash output_dir "output_length.onnx" := OnnxGraph ["features"] (forward cfg net)]>
      (<[slash output_dir "output_length.ts" := TracedFile (forward cfg net)]>
      (<[slash output_dir "output_length_mlp.pt" := StateFile shapes net]> fs))), meta).

(** ** Properties *)

Lemma slash_inj p a b : slash p a = slash p b -> a = b.
Proof. unfold slash. intros H. apply app_inj_2 in H as [_ H]; [congruence|done]. Qed.

(** Looking up one of the exported files. *)
Lemma lookup_slash_ne (fs : files) p a b f : a <> b -> <[slash p a := f]> fs !! slash p b = fs !! slash p b.
Proof. intros H. apply lookup_insert_ne. intros E. by apply H, (slash_inj p). Qed.

Lemma parent_slash p name : parent (slash p name) = p.
Proof. unfold parent, slash. apply removelast_last. Qed.

Lemma exported_norm mean std :
  mean <> [] ->
  checkpoint_norm (Some {| meta_mean := Some mean; meta_std := Some std |}) =
    (Some (np_float32 mean), Some (np_float32 std)).
Proof. by destruct mean. Qed.

(** The files of an export, and the metadata as they are read back. *)
Lemma exported_files fs ck dir mean std metrics version hidden drop_p date rev fs' meta shapes net :
  fs !! ck = Some (StateFile shapes net) ->
  export_files fs ck dir mean std metrics version hidden drop_p date rev = Ok (fs', meta) ->
  let run := forward default_model_config net in
  fs' !! slash dir "metadata.json" = Some (MetaFile {| meta_mean := Some mean; meta_std := Some std |}) /\
  fs' !! slash dir "output_length.onnx" = Some (OnnxGraph ["features"] run) /\
  fs' !! slash dir "output_length.ts" = Some (TracedFile run) /\
  fs' !! slash dir "output_length_mlp.pt" = Some (StateFile shapes net).
Proof.
  intros Hck E run. unfold export_files, torch_load in E. rewrite Hck in E. cbn [rbind] in E.
  apply rbind_Ok in E as ([sh meta'] & Hex & E). unfold export_model in Hex.
  apply rbind_Ok in Hex as ([] & _ & Hex). injection Hex as <- <-. injection E as <- <-.
  split; [apply lookup_insert_eq|].
  split; [rewrite lookup_slash_ne by done; apply lookup_insert_eq|].
  split; rewrite !lookup_slash_ne by done; apply lookup_insert_eq.
Qed.

(** The checkpoint of an export loads with the exported statistics. *)
Lemma exported_checkpoint cuda fs dir mp mean std shapes net :
  default (slash dir "metadata.json") mp = slash dir "metadata.json" -> mean <> [] ->
  shapes = param_shapes default_model_config ->
  fs !! slash dir "metadata.json" = Some (MetaFile {| meta_mean := Some mean; meta_std := Some std |}) ->
  fs !! slash dir "output_length_mlp.pt" = Some (StateFile shapes net) ->
  from_checkpoint cuda fs (slash dir "output_length_mlp.pt") mp None =
    Ok (predictor_init cuda default_model_config net None (Some (np_float32 mean)) (Some (np_float32 std))).
Proof.
  intros Hmp Hne -> Hm Hp. unfold from_checkpoint. rewrite parent_slash, Hmp. unfold read_meta. rewrite Hm. cbn [rbind].
  rewrite exported_norm by done. unfold torch_load. rewrite Hp. cbn [rbind].
  by rewrite (proj2 (load_state_dict_shapes _ _) eq_refl).
Qed.

Lemma exported_gateway cuda fs dir mean std shapes net untrained :
  mean <> [] -> shapes = param_shapes default_model_config ->
  fs !! slash dir "metadata.json" = Some (MetaFile {| meta_mean := Some mean; meta_std := Some std |}) ->
  fs !! slash dir "output_length_mlp.pt" = Some (StateFile shapes net) ->
  gateway_predictor cuda fs dir untrained =
    Ok (predictor_init cuda default_model_config net None (Some (np_float32 mean)) (Some (np_float32 std))).
Proof.
  intros Hne Hsh Hm Hp. unfold gateway_predictor. rewrite bool_decide_eq_true_2 by (rewrite Hp; eauto).
  by eapply exported_checkpoint.
Qed.

(** A checkpoint of another architecture does not load. *)
Lemma other_checkpoint cuda fs dir mp shapes net :
  shapes <> param_shapes default_model_config ->
  fs !! slash dir "output_length_mlp.pt" = Some (StateFile shapes net) ->
  exists e, from_checkpoint cuda fs (slash dir "output_length_mlp.pt") mp None = Raise e.
Proof.
  intros Hne Hp. unfold from_checkpoint. destruct (read_meta _ _) as [meta|e]; [cbn [rbind]|by eexists].
  destruct (checkpoint_norm meta) as [m s]. unfold torch_load. rewrite Hp. cbn [rbind].
  destruct (load_state_dict default_model_config shapes) as [[]|e] eqn:E; [|by eexists].
  by apply load_state_dict_shapes in E.
Qed.

(** C38.  Export and serve: once a checkpoint has been exported with nonempty normalisation
    arrays, the ONNX and the TorchScript backend load from the output directory, and what they
    predict for a feature vector is the clamped network on that vector normalised with the exported
    arrays.  If the checkpoint has the shapes of the default architecture, the checkpoint backend
    and the gateway load the same predictor; with any other hidden size the export succeeds just as
    well, but both of them raise. *)
Theorem export_then_serve cuda fs ck dir mean std metrics version hidden drop_p date rev fs' meta shapes net
    untrained v :
  fs !! ck = Some (StateFile shapes net) -> mean <> [] ->
  export_files fs ck dir mean std metrics version hidden drop_p date rev = Ok (fs', meta) ->
  let expected := rbind (_to_tensor (Some mean) (Some std) v) (fun row => Ok (forward default_model_config net row)) in
  (forall backend, load_predictor backend <> PyTorchBackend \/ shapes = param_shapes default_model_config ->
     exists p, load_any cuda fs' dir backend = Ok p /\ predict_features p v = expected) /\
  (shapes = param_shapes default_model_config ->
     exists p, gateway_predictor cuda fs' dir untrained = Ok p /\ predict_features (PyTorch p) v = expected) /\
  (shapes <> param_shapes default_model_config ->
     (forall backend, load_predictor backend = PyTorchBackend -> exists e, load_any cuda fs' dir backend = Raise e) /\
     exists e, gateway_predictor cuda fs' dir untrained = Raise e).
Proof.
  intros Hck Hne E expected. destruct (exported_files _ _ _ _ _ _ _ _ _ _ _ _ _ _ _ Hck E) as (Hm & Hx & Ht & Hp).
  assert (Hpred : predict_features (PyTorch (predictor_init cuda default_model_config net None
      (Some (np_float32 mean)) (Some (np_float32 std)))) v = expected).
  { unfold expected. cbn [predict_features predictor_init p_mean p_std p_config p_net]. unfold _to_tensor.
    by rewrite !np_float32_idem. }
  split; [intros backend Hb; unfold load_any; destruct (load_predictor backend)|split].
  - unfold onnx_init, inference_session. rewrite Hx. cbn [rbind]. unfold read_meta. rewrite Hm. cbn.
    eexists. split; [reflexivity|]. cbn. unfold onnx_predict, expected, _to_tensor. cbn. by destruct (normalize _ _ _).
  - unfold torchscript_init, jit_load. rewrite Ht. cbn [rbind]. unfold read_meta. rewrite Hm. cbn.
    eexists. split; [reflexivity|]. cbn. unfold torchscript_predict, expected, _to_tensor. cbn. by destruct (normalize _ _ _).
  - destruct Hb as [Hb|Hsh]; [done|]. erewrite exported_checkpoint by done. eexists. split; [reflexivity|exact Hpred].
  - intros Hsh. erewrite exported_gateway by done. eexists. split; [reflexivity|exact Hpred].
  - intros Hsh. split.
    + intros backend Hb. unfold load_any. rewrite Hb.
      destruct (other_checkpoint cuda fs' dir (Some (slash dir "metadata.json")) shapes net Hsh Hp) as [e ->]. by eexists.
    + unfold gateway_predictor. rewrite bool_decide_eq_true_2 by (rewrite Hp; eauto). by eapply other_checkpoint.
Qed.

(** The file of a backend in the models directory. *)
Definition model_file (dir : path) (b : Backend) : path :=
  slash dir (match b with
             | OnnxBackend => "output_length.onnx"
             | TorchScriptBackend => "output_length.ts"
             | PyTorchBackend => "output_length_mlp.pt"
             end).

(** The network of an object, as it is called on a row. *)
Definition row_network (p : AnyPredictor) : network :=
  match p with
  | PyTorch p => forward p.(p_config) p.(p_net)
  | Onnx p => p.(x_run)
  | TorchScript p => p.(t_run)
  end.

Lemma from_checkpoint_missing cuda fs p mp device :
  fs !! p = None -> exists e, from_checkpoint cuda fs p mp device = Raise e.
Proof.
  intros H. unfold from_checkpoint. destruct (read_meta _ _) as [meta|e]; cbn [rbind]; [|by eexists].
  destruct (checkpoint_norm meta). unfold torch_load. rewrite H. by eexists.
Qed.

(** What is missing when a predictor is loaded: without the backend's model
    file loading raises; without metadata it does not, and every backend then
    runs the network on the raw, unnormalised features. *)
Theorem loading_without_files cuda fs dir backend :
  (fs !! model_file dir (load_predictor backend) = None -> exists e, load_any cuda fs dir backend = Raise e) /\
  (fs !! slash dir "metadata.json" = None ->
   forall p v, load_any cuda fs dir backend = Ok p ->
     predict_features p v = Ok (row_network p (np_float32 (as_list v)))).
Proof.
  unfold load_any, model_file. split.
  - destruct (load_predictor backend); intros H.
    + unfold onnx_init, inference_session. rewrite H. by eexists.
    + unfold torchscript_init, jit_load. rewrite H. by eexists.
    + destruct (from_checkpoint_missing cuda fs _ (Some (slash dir "metadata.json")) None H) as [e ->]. by eexists.
  - intros Hm p v. unfold onnx_init, torchscript_init, from_checkpoint, read_meta. cbn [default from_option].
    rewrite Hm. destruct (load_predictor backend); intros H; apply rbind_Ok in H as (q & E & H); injection H as <-.
    + apply rbind_Ok in E as ([inputs run] & _ & E). destruct inputs; [done|]. by injection E as <-.
    + apply rbind_Ok in E as (r & _ & E). by injection E as <-.
    + unfold id in E. rewrite Hm in E. cbn [rbind checkpoint_norm] in E.
      destruct (torch_load _ _) as [[sh net]|]; [|discriminate E]. cbn [rbind] in E.
      destruct (load_state_dict _ _); [|discriminate E]. by injection E as <-.
Qed.

(** ** Witnesses *)

Definition demo_files : files :=
  {[ ["best.pt"] := StateFile (param_shapes default_model_config) (fun row => default f0 (head row)) ]}.

Definition demo_export : files :=
  match export_files demo_files ["best.pt"] ["models"] [f1] [of_int 2] None "1.0.0" 128 f0 "today" (Raise IndexError) with
  | Ok (fs, _) => fs
  | Raise _ => ∅
  end.

Lemma export_then_serve_witness :
  exists p, load_any false demo_export ["models"] "onnx" = Ok p /\
    predict_features p (mkFeatures [of_int 9]) =
    rbind (_to_tensor (Some [f1]) (Some [of_int 2]) (mkFeatures [of_int 9]))
      (fun row => Ok (forward default_model_config (fun row => default f0 (head row)) row)).
Proof.
  destruct (export_then_serve false demo_files ["best.pt"] ["models"] [f1] [of_int 2] None "1.0.0" 128 f0 "today"
    (Raise IndexError) demo_export
    (mkExport "1.0.0" FEATURE_NAMES NUM_FEATURES [f1] [of_int 2] 128 f0 "today" "unknown" [])
    (param_shapes default_model_config) (fun row => default f0 (head row)) (fun _ => f0)
    (mkFeatures [of_int 9])) as [H _].
  - reflexivity.
  - discriminate.
  - reflexivity.
  - apply (H "onnx"). left. discriminate.
Defined.

Lemma loading_without_files_witness :
  exists e, load_any false ∅ ["models"] "torchscript" = Raise e.
Proof. apply (loading_without_files false ∅ ["models"] "torchscript"). reflexivity. Defined.
