(* ===== verification/SmolLM3.v ===== *)
(** * The SmolLM3 port for vLLM (vllm_port/smollm3.py)

    The layers of torch and vLLM (projections, rotary embedding, attention
    kernel, norms, activation) are parameters on an abstract type of tensors;
    what the source adds is modelled: which layers rotate, the attention and
    MLP data flow, the residual stream of the decoder layer in both of its
    modes, the decoder stack, the shapes, and the loading of a checkpoint.
    [vllm] is the flag [_VLLM_AVAILABLE]. *)
From Stdlib Require Import ZArith Lia Ascii.
From stdpp Require Import base option list strings gmap pretty.
From S2P Require Import Prelude.
Local Open Scope string_scope.
Local Open Scope list_scope.
Local Open Scope nat_scope.
Local Open Scope py_scope.

(** ** Configuration: [_cfg(config, key, default)] on the keys that are read *)

Record SmolConfig := mkSmolConfig {
  hidden_size : option Z;
  num_attention_heads : option Z;
  num_key_value_heads : option Z;
  head_dim : option Z;
  nope_layer_interval : option Z;
  intermediate_size : option Z;
  vocab_size : option Z;
  num_hidden_layers : option Z;
  tie_word_embeddings : option bool;
}.

Definition no_smol_config : SmolConfig :=
  mkSmolConfig None None None None None None None None None.

(** [a // b] *)
Definition floordiv (a b : Z) : result Z :=
  if (b =? 0)%Z then Raise ZeroDivisionError else Ok (a / b)%Z.

(** ** Rotation: which layers use RoPE *)

(** [(layer_idx % nope_interval) != (nope_interval - 1)] *)
Definition use_rope (nope_interval layer_idx : Z) : result bool :=
  if (nope_interval =? 0)%Z then Raise ZeroDivisionError
  else Ok (negb (layer_idx mod nope_interval =? nope_interval - 1)%Z).

(** The sizes an attention layer works with; [tp] is the tensor-parallel
    world size, absent in the standalone mode. *)
Record AttnDims := mkAttnDims {
  a_hidden : Z;
  a_heads : Z;
  a_kv_heads : Z;
  a_head_dim : Z;
  a_use_rope : bool;
  a_total_heads : Z;
  a_total_kv_heads : Z;
}.

Definition attention_dims (cfg : SmolConfig) (tp : option Z) (layer_idx : Z) : result AttnDims :=
  let hidden := default 2048%Z cfg.(hidden_size) in
  let heads := default 32%Z cfg.(num_attention_heads) in
  let kv := default 8%Z cfg.(num_key_value_heads) in
  let? d := floordiv hidden heads in
  let dim := default d cfg.(head_dim) in
  let? rope := use_rope (default 2%Z cfg.(nope_layer_interval)) layer_idx in
  match tp with
  | None => Ok (mkAttnDims hidden heads kv dim rope heads kv)
  | Some n =>
      let? heads' := floordiv heads n in
      let? kv' := floordiv kv n in
      Ok (mkAttnDims hidden heads' (Z.max 1 kv') dim rope heads kv)
  end.

(** The sizes [qkv.split] asks for. *)
Definition qkv_split_sizes (d : AttnDims) : list Z :=
  [d.(a_heads) * d.(a_head_dim); d.(a_kv_heads) * d.(a_head_dim); d.(a_kv_heads) * d.(a_head_dim)]%Z.

(** [k.repeat_interleave(repeat, dim=1)], on the list of heads. *)
Definition repeat_interleave {A} (n : nat) (l : list A) : list A :=
  mjoin (map (replicate n) l).

(** ** Data flow *)

Section Flow.
Context {T P : Type}.

(** The modules of one decoder layer. *)
Record layer := mkLayer {
  l_rope : bool;
  input_layernorm : T -> T;
  post_attention_layernorm : T -> T;
  qkv_proj : T -> T * T * T;
  rotary_emb : P -> T -> T -> T * T;
  attn : T -> T -> T -> T;
  o_proj : T -> T;
  gate_up_proj : T -> T * T;
  silu : T -> T;
  mul : T -> T -> T;
  down_proj : T -> T;
}.

(** [SmolLM3MLP.forward]: [SiluAndMul] is the activated gate times the rest,
    which the standalone mode writes out. *)
Definition mlp_forward (L : layer) (x : T) : T :=
  let '(gate, up) := L.(gate_up_proj) x in L.(down_proj) (L.(mul) (L.(silu) gate) up).

(** [SmolLM3Attention.forward]: inside vLLM the layers that use RoPE rotate
    queries and keys; the standalone mode never does, and its attention is the
    naive one on expanded key and value heads. *)
Definition attention_forward (vllm : bool) (L : layer) (positions : P) (x : T) : T :=
  let '(q, k, v) := L.(qkv_proj) x in
  let '(q', k') := if vllm && L.(l_rope) then L.(rotary_emb) positions q k else (q, k) in
  L.(o_proj) (L.(attn) q' k' v).

Context (add : T -> T -> T).

(** vLLM's RMSNorm with a residual: adds, and returns the norm and the sum. *)
Definition fused_norm (norm : T -> T) (x residual : T) : T * T :=
  let s := add x residual in (norm s, s).

(** [SmolLM3DecoderLayer.forward], in both modes. *)
Definition decoder_forward (vllm : bool) (L : layer) (positions : P) (hidden_states : T)
    (residual : option T) : T * T :=
  let '(h1, r1) :=
    if vllm then
      match residual with
      | None => (L.(input_layernorm) hidden_states, hidden_states)
      | Some r => fused_norm L.(input_layernorm) hidden_states r
      end
    else
      match residual with
      | None => (L.(input_layernorm) hidden_states, hidden_states)
      | Some r => let h := add hidden_states r in (L.(input_layernorm) h, h)
      end in
  let h2 := attention_forward vllm L positions h1 in
  let '(h3, r3) :=
    if vllm then fused_norm L.(post_attention_layernorm) h2 r1
    else let h := add h2 r1 in (L.(post_attention_layernorm) h, h) in
  (mlp_forward L h3, r3).

(** The loop of [SmolLM3Model.forward]. *)
Fixpoint layers_forward (vllm : bool) (layers : list layer) (positions : P) (h : T)
    (residual : option T) : T * option T :=
  match layers with
  | [] => (h, residual)
  | L :: Ls =>
      let '(h', r') := decoder_forward vllm L positions h residual in
      layers_forward vllm Ls positions h' (Some r')
  end.

(** [SmolLM3Model.forward] on the embedded input.  Inside vLLM the final norm
    without a residual returns one tensor, which is not a pair (that Python would unpack one of
    exactly two rows is not modelled). *)
Definition model_forward (vllm : bool) (layers : list layer) (norm : T -> T) (positions : P)
    (embedded : T) : result T :=
  let '(h, residual) := layers_forward vllm layers positions embedded None in
  if vllm then
    match residual with
    | Some r => Ok (fst (fused_norm norm h r))
    | None => Raise (ValueError "cannot unpack the norm of a model without layers")
    end
  else Ok (norm (match residual with Some r => add h r | None => h end)).

(** [kv_caches[i] if kv_caches else None] *)
Definition kv_cache_for {C} (kv_caches : option (list C)) (i : nat) : result (option C) :=
  match kv_caches with
  | None | Some [] => Ok None
  | Some cs => match cs !! i with Some c => Ok (Some c) | None => Raise IndexError end
  end.

(** [SmolLM3ForCausalLM.forward]: given embeddings win over token ids, and each layer looks
    up its cache before it runs. *)
Definition causal_forward {C I} (vllm : bool) (layers : list layer) (norm : T -> T) (embed : I -> T)
    (input_ids : I) (inputs_embeds : option T) (kv_caches : option (list C)) (positions : P) : result T :=
  let embedded := match inputs_embeds with Some h => h | None => embed input_ids end in
  let? _ := rmap (kv_cache_for kv_caches) (seq 0 (length layers)) in
  model_forward vllm layers norm positions embedded.

(** [compute_logits] and [sample]: the standalone model has no sampler. *)
Definition compute_logits {L Md} (vllm : bool) (processor : T -> Md -> L) (lm_head : T -> L)
    (hidden : T) (sampling_metadata : Md) : L :=
  if vllm then processor hidden sampling_metadata else lm_head hidden.

Definition sample {L Md Out} (vllm : bool) (sampler : L -> Md -> Out) (logits : L) (sampling_metadata : Md)
    : option Out :=
  if vllm then Some (sampler logits sampling_metadata) else None.

(** The reference: the pre-norm block of the class's documentation, and a
    stack of them. *)
Definition prenorm_block (vllm : bool) (L : layer) (positions : P) (x : T) : T :=
  let y := add x (attention_forward vllm L positions (L.(input_layernorm) x)) in
  add y (mlp_forward L (L.(post_attention_layernorm) y)).

Definition reference_forward (vllm : bool) (layers : list layer) (norm : T -> T) (positions : P) (x : T) : T :=
  norm (fold_left (fun x L => prenorm_block vllm L positions x) layers x).
End Flow.
Arguments layer : clear implicits.

(** ** Checkpoints *)

Abbreviation chars := String.list_ascii_of_string.

Definition ends_with (s suf : string) : bool := bool_decide (chars suf `suffix_of` chars s).

(** [s.replace(old, new)] for a nonempty [old]: every occurrence, left to
    right; a step consumes a character, so the length is enough fuel. *)
Fixpoint replace_loop (fuel : nat) (old new s : list ascii) : list ascii :=
  match fuel with
  | 0 => s
  | S fuel' =>
      match s with
      | [] => []
      | c :: s' =>
          if bool_decide (old `prefix_of` s)
          then new ++ replace_loop fuel' old new (drop (length old) s)
          else c :: replace_loop fuel' old new s'
      end
  end.

Definition replace (s old new : string) : string :=
  String.string_of_list_ascii
    (replace_loop (String.length s) (chars old) (chars new) (chars s)).

(** Where a shard goes within a merged parameter. *)
Inductive shard := ShardQ | ShardK | ShardV | Shard0 | Shard1.

Definition stacked_params_mapping : list (string * string * shard) :=
  [("q_proj", "qkv_proj", ShardQ); ("k_proj", "qkv_proj", ShardK); ("v_proj", "qkv_proj", ShardV);
   ("gate_proj", "gate_up_proj", Shard0); ("up_proj", "gate_up_proj", Shard1)].

(** The class attribute vLLM reads for packed modules. *)
Definition packed_modules_mapping : list (string * list string) :=
  [("qkv_proj", ["q_proj"; "k_proj"; "v_proj"]); ("gate_up_proj", ["gate_proj"; "up_proj"])].

(** The two descriptions of what is packed into what agree, in the same order. *)
Lemma packed_matches_stacked :
  map (fun '(part, whole, _) => (whole, part)) stacked_params_mapping =
  mjoin (map (fun '(whole, parts) => map (pair whole) parts) packed_modules_mapping).
Proof. reflexivity. Qed.

Section Load.
Context {W : Type}.

(** What was loaded into each parameter, latest last: a tensor as a whole or
    as a shard.  The keys are those of [params_dict]. *)
Abbreviation params := (gmap string (list (option shard * W))).

Definition push (key : string) (x : option shard * W) (ps : params) : params :=
  <[key := default [] (ps !! key) ++ [x]]> ps.

(** The loop over the mapping: the first suffix that fits decides; a key that
    is no parameter breaks with [is_stacked] false. *)
Fixpoint try_stacked (vllm : bool) (mapping : list (string * string * shard)) (name : string)
    (w : W) (ps : params) : bool * params :=
  match mapping with
  | [] => (false, ps)
  | (hf_suffix, vllm_name, shard_id) :: rest =>
      if ends_with name hf_suffix then
        let vllm_key := replace name hf_suffix vllm_name in
        if bool_decide (is_Some (ps !! vllm_key)) then
          (true, if vllm then push vllm_key (Some shard_id, w) ps else ps)
        else (false, ps)
      else try_stacked vllm rest name w ps
  end.

Definition load_one (vllm tied : bool) (name : string) (w : W) (ps : params) : params :=
  if bool_decide (name = "lm_head.weight") && tied then ps
  else
    match try_stacked vllm stacked_params_mapping name w ps with
    | (true, ps') => ps'
    | (false, ps') =>
        if bool_decide (is_Some (ps' !! name)) then push name (None, w) ps' else ps'
    end.

(** [load_weights]: the parameters, and the name of the parameter [lm_head]
    uses afterwards. *)
Definition load_weights (vllm tied : bool) (weights : list (string * W)) (ps : params)
    : params * string :=
  (fold_left (fun ps nw => load_one vllm tied nw.1 nw.2 ps) weights ps,
   if tied then "model.embed_tokens.weight" else "lm_head.weight").
End Load.

(** The parameters of the model, by the modules its constructors create. *)
Definition layer_params (vllm : bool) (i : nat) : list string :=
  map (fun s => "model.layers." +:+ pretty i +:+ "." +:+ s)
    (if vllm then
       ["self_attn.qkv_proj.weight"; "self_attn.o_proj.weight"; "mlp.gate_up_proj.weight";
        "mlp.down_proj.weight"; "input_layernorm.weight"; "post_attention_layernorm.weight"]
     else
       ["self_attn.q_proj.weight"; "self_attn.k_proj.weight"; "self_attn.v_proj.weight";
        "self_attn.o_proj.weight"; "mlp.gate_up_proj.weight"; "mlp.down_proj.weight";
        "input_layernorm.weight"; "input_layernorm.bias";
        "post_attention_layernorm.weight"; "post_attention_layernorm.bias"]).

Definition named_parameters (vllm : bool) (num_layers : nat) : list string :=
  "model.embed_tokens.weight" :: mjoin (map (layer_params vllm) (seq 0 num_layers)) ++
  (if vllm then ["model.norm.weight"; "lm_head.weight"]
   else ["model.norm.weight"; "model.norm.bias"; "lm_head.weight"]).

Definition params_dict {W} (vllm : bool) (num_layers : nat) : gmap string (list (option shard * W)) :=
  list_to_map (map (fun n => (n, [])) (named_parameters vllm num_layers)).

(** ** Properties: rotation *)

Lemma use_rope_nope k i :
  (0 < k)%Z -> use_rope k i = Ok (negb (bool_decide ((i + 1) mod k = 0)%Z)).
Proof.
  intros Hk. unfold use_rope. destruct (k =? 0)%Z eqn:E; [lia|]. f_equal. f_equal.
  pose proof (Z.mod_pos_bound i k Hk). rewrite <- (Zplus_mod_idemp_l i 1 k).
  case_bool_decide as Hb.
  - apply Z.eqb_eq. destruct (decide (i mod k + 1 < k)%Z) as [Hlt|]; [|lia].
    rewrite Z.mod_small in Hb by lia. lia.
  - apply Z.eqb_neq. intros Heq. apply Hb. rewrite Heq.
    replace (k - 1 + 1)%Z with k by lia. apply Z.mod_same. lia.
Qed.

(** Whether layer [i] skips the rotation. *)
Definition is_nope (k : Z) (i : nat) : bool :=
  match use_rope k (Z.of_nat i) with Ok b => negb b | Raise _ => false end.

Lemma is_nope_iff k i : (0 < k)%Z -> is_nope k i = true <-> ((Z.of_nat i + 1) mod k = 0)%Z.
Proof.
  intros Hk. unfold is_nope. rewrite use_rope_nope, negb_involutive by done. apply bool_decide_eq_true.
Qed.

Lemma nope_count k n :
  (0 < k)%Z -> Z.of_nat (length (filter (fun i => is_nope k i = true) (seq 0 n))) = (Z.of_nat n / k)%Z.
Proof.
  intros Hk. induction n as [|n IH]; [by rewrite Zdiv_0_l|].
  rewrite seq_S, filter_app, length_app, Nat2Z.inj_add, IH. simpl.
  replace (Z.of_nat (S n)) with (Z.of_nat n + 1)%Z by lia.
  pose proof (Z.div_mod (Z.of_nat n + 1) k ltac:(lia)) as Hd.
  pose proof (Z.div_mod (Z.of_nat n) k ltac:(lia)) as Hd'.
  pose proof (Z.mod_pos_bound (Z.of_nat n) k Hk). pose proof (Z.mod_pos_bound (Z.of_nat n + 1) k Hk).
  destruct (decide (is_nope k n = true)) as [E|E].
  - rewrite filter_cons_True by done. apply is_nope_iff in E; [|done]. simpl. nia.
  - rewrite filter_cons_False by done. simpl.
    assert ((Z.of_nat n + 1) mod k <> 0)%Z by (intros Heq; by apply E, is_nope_iff). nia.
Qed.

(** With a positive interval [k], layer [i] skips the rotary embedding
    exactly when [k] divides [i + 1]: of [n] layers, [n / k] do.  Inside vLLM
    such a layer's attention is the same for all positions. *)
Theorem nope_layers {T P : Type} (k : Z) (n : nat) :
  (0 < k)%Z ->
  (forall i, is_nope k i = true <-> ((Z.of_nat i + 1) mod k = 0)%Z) /\
  Z.of_nat (length (filter (fun i => is_nope k i = true) (seq 0 n))) = (Z.of_nat n / k)%Z /\
  (forall i (L : layer T P) p p' x, is_nope k i = true -> use_rope k (Z.of_nat i) = Ok L.(l_rope) ->
     attention_forward true L p x = attention_forward true L p' x).
Proof.
  intros Hk. split; [intros i; by apply is_nope_iff|]. split; [by apply nope_count|].
  intros i L p p' x Hn Hr. unfold is_nope in Hn. rewrite Hr in Hn. apply negb_true_iff in Hn.
  unfold attention_forward. by rewrite Hn.
Qed.

Lemma nope_layers_witness :
  Z.of_nat (length (filter (fun i => is_nope 2 i = true) (seq 0 32))) = (32 / 2)%Z.
Proof. exact (proj1 (proj2 (nope_layers (T := nat) (P := nat) 2 32 ltac:(lia)))). Defined.

(** ** Properties: the residual stream *)

Section Residual.
Context {T P : Type} (add : T -> T -> T).
Hypothesis add_comm : forall x y, add x y = add y x.

(** The value a pair of hidden state and residual stands for. *)
Definition stream (h : T) (residual : option T) : T :=
  match residual with None => h | Some r => add h r end.

Lemma decoder_forward_block vllm (L : layer T P) p h residual :
  let '(h', r') := decoder_forward add vllm L p h residual in
  add h' r' = prenorm_block add vllm L p (stream h residual).
Proof.
  unfold decoder_forward, prenorm_block, stream, fused_norm.
  destruct vllm, residual as [r|]; simpl.
  all: rewrite (add_comm (mlp_forward _ _)); f_equal; [apply add_comm|];
    f_equal; f_equal; apply add_comm.
Qed.

Lemma layers_forward_stream vllm (Ls : list (layer T P)) p h residual :
  let '(h', r') := layers_forward add vllm Ls p h residual in
  stream h' r' = fold_left (fun x L => prenorm_block add vllm L p x) Ls (stream h residual) /\
  (r' = None -> Ls = [] /\ residual = None).
Proof.
  revert h residual. induction Ls as [|L Ls IH]; intros h residual; simpl; [done|].
  pose proof (decoder_forward_block vllm L p h residual) as Hb.
  destruct (decoder_forward add vllm L p h residual) as [h1 r1]. specialize (IH h1 (Some r1)).
  destruct (layers_forward add vllm Ls p h1 (Some r1)) as [h' r']. destruct IH as [IH1 IH2].
  simpl in IH1. rewrite Hb in IH1. split; [done|]. intros Hr. by apply IH2 in Hr as [_ ?].
Qed.

(** C22.  The decoder computes the pre-norm transformer it documents: threading
    hidden state and residual through the layers, with vLLM's fused
    add-and-norm or without it, gives the final norm of the stack of blocks
    [x + Attention(norm x)], [x + MLP(norm x)].  Inside vLLM a model without
    layers cannot be run. *)
Theorem decoder_is_prenorm vllm (Ls : list (layer T P)) norm p x :
  model_forward add vllm Ls norm p x =
  if vllm && bool_decide (Ls = [])
  then Raise (ValueError "cannot unpack the norm of a model without layers")
  else Ok (reference_forward add vllm Ls norm p x).
Proof.
  unfold model_forward, reference_forward.
  pose proof (layers_forward_stream vllm Ls p x None) as Hs.
  destruct (layers_forward add vllm Ls p x None) as [h [r|]] eqn:E; destruct Hs as [Hs Hn]; simpl in Hs.
  - rewrite <- Hs. destruct vllm; [|done]. destruct Ls; [done|]. done.
  - destruct Hn as [-> _]; [done|]. simpl in E. simplify_eq. by destruct vllm.
Qed.
End Residual.

Lemma rmap_kv_caches {C} (cs : list C) c a n :
  rmap (kv_cache_for (Some (c :: cs))) (seq a n) =
  if (n =? 0) || (a + n <=? length (c :: cs)) then Ok (map Some (take n (drop a (c :: cs)))) else Raise IndexError.
Proof.
  revert a. induction n as [|n IH]; intros a; [done|]. cbn [seq rmap]. unfold kv_cache_for at 1.
  destruct ((c :: cs) !! a) as [x|] eqn:E; cbn [rbind].
  - rewrite IH, (drop_S _ _ _ E). pose proof (lookup_lt_Some _ _ _ E) as Hl. set (l := c :: cs) in *.
    replace (a + S n <=? length l) with (S a + n <=? length l) by (f_equal; lia).
    destruct (Nat.eqb_spec n 0) as [->|]; cbn [Nat.eqb orb].
    + rewrite (proj2 (Nat.leb_le _ _)) by lia. reflexivity.
    + by destruct (S a + n <=? length l).
  - apply lookup_ge_None in E. cbn [Nat.eqb orb]. by rewrite (proj2 (Nat.leb_gt _ _)) by lia.
Qed.

(** The model runs with no caches at all or with a cache for every layer; a nonempty list with
    fewer caches raises instead of computing with a wrong one. *)
Lemma causal_forward_caches {T P C I} (add : T -> T -> T) vllm (Ls : list (layer T P)) norm (embed : I -> T) ids
    embeds (kv : option (list C)) p :
  causal_forward add vllm Ls norm embed ids embeds kv p =
  match kv with
  | Some (c :: cs) =>
      if length Ls <=? length (c :: cs)
      then model_forward add vllm Ls norm p (default (embed ids) embeds) else Raise IndexError
  | _ => model_forward add vllm Ls norm p (default (embed ids) embeds)
  end.
Proof.
  unfold causal_forward.
  assert (Hd : forall n, rmap (@kv_cache_for C (Some [])) n = Ok (map (fun _ => None) n) /\
                         rmap (@kv_cache_for C None) n = Ok (map (fun _ => None) n)).
  { induction n as [|x n [IH1 IH2]]; [done|]. cbn [rmap kv_cache_for rbind]. by rewrite IH1, IH2. }
  destruct kv as [[|c cs]|]; [by rewrite (proj1 (Hd _)); destruct embeds| |by rewrite (proj2 (Hd _)); destruct embeds].
  rewrite rmap_kv_caches. cbn [Nat.add]. destruct (Nat.eqb_spec (length Ls) 0) as [->|].
  - cbn. by destruct embeds.
  - cbn [orb]. destruct (length Ls <=? length (c :: cs)); [by destruct embeds|done].
Qed.

Lemma decoder_is_prenorm_witness :
  model_forward Z.add true
    [mkLayer (T := Z) (P := nat) false (fun x => x) (fun x => x) (fun x => (x, x, x)) (fun _ q k => (q, k))
       (fun q k v => v) (fun x => x) (fun x => (x, x)) (fun x => x) Z.mul (fun x => x)]
    (fun x => x) 0 3%Z = Ok 42%Z.
Proof.
  rewrite (decoder_is_prenorm Z.add Z.add_comm). vm_compute. reflexivity.
Defined.

(** ** Properties: loading a checkpoint *)

Lemma ends_with_app (k s suf : string) :
  String.length suf <= String.length s -> ends_with (k +:+ s) suf = ends_with s suf.
Proof.
  intros Hl. unfold ends_with. apply bool_decide_ext.
  assert (Hc : chars (k +:+ s) = chars k ++ chars s).
  { clear. induction k as [|c k IH]; [done|]. exact (f_equal (cons c) IH). }
  assert (Hlen : forall x : string, length (chars x) = String.length x).
  { clear. induction x as [|c x IH]; [done|]. exact (f_equal S IH). }
  rewrite Hc. split; [|intros H; by apply suffix_app_r].
  intros [z Hz]. rewrite <- !Hlen in Hl.
  exists (drop (length (chars k)) z).
  assert (Hk : length (chars k) <= length z).
  { apply (f_equal length) in Hz. rewrite !length_app in Hz. lia. }
  rewrite <- drop_app_le, <- Hz by done. by rewrite drop_app_length.
Qed.

(** A name that ends in [.weight] ends in none of the suffixes of the mapping:
    their last letters differ. *)
Lemma weight_not_stacked {W} vllm name (w : W) ps :
  ends_with name ".weight" = true -> try_stacked vllm stacked_params_mapping name w ps = (false, ps).
Proof.
  intros Hw. apply bool_decide_eq_true in Hw as [k Hk].
  assert (Hno : forall suf l, chars suf = l ++ ["j"%char] -> ends_with name suf = false).
  { intros suf l Hs. apply bool_decide_eq_false. rewrite Hk, Hs.
    change (chars ".weight") with (chars ".weigh" ++ ["t"%char]). rewrite app_assoc.
    intros H. by apply suffix_snoc_inv_1 in H. }
  unfold stacked_params_mapping. cbn [try_stacked].
  rewrite (Hno "q_proj" (chars "q_pro")), (Hno "k_proj" (chars "k_pro")), (Hno "v_proj" (chars "v_pro")),
    (Hno "gate_proj" (chars "gate_pro")), (Hno "up_proj" (chars "up_pro")) by reflexivity.
  done.
Qed.

(** The weights of a checkpoint that [load_weights] puts under a name. *)
Definition loads_for {W} (tied : bool) (key : string) (weights : list (string * W))
    : list (option shard * W) :=
  map (fun nw => (None, nw.2))
    (filter (fun nw => nw.1 = key /\ ~ (key = "lm_head.weight" /\ tied = true)) weights).

Lemma load_one_lookup {W} vllm tied name (w : W) ps key :
  ends_with name ".weight" = true ->
  load_one vllm tied name w ps !! key = (fun old => old ++ loads_for tied key [(name, w)]) <$> ps !! key.
Proof.
  intros Hw. unfold load_one, loads_for.
  assert (Hskip : forall f, f = @nil (option shard * W) -> ps !! key = (fun old => old ++ f) <$> ps !! key).
  { intros f ->. destruct (ps !! key); simpl; [by rewrite app_nil_r|done]. }
  destruct (bool_decide (name = "lm_head.weight") && tied) eqn:Et.
  { apply andb_prop in Et as [->%bool_decide_eq_true ->]. apply Hskip.
    rewrite filter_cons_False; [done|]. naive_solver. }
  assert (Hnt : ~ (name = "lm_head.weight" /\ tied = true)).
  { intros [-> ->]. by rewrite bool_decide_eq_true_2 in Et. }
  clear Et. rewrite weight_not_stacked by done. cbv beta iota.
  case_bool_decide as Hp.
  - unfold push. rewrite lookup_insert. case_decide as E.
    + subst key. destruct Hp as [old Ho]. by rewrite Ho, filter_cons_True.
    + apply Hskip. rewrite filter_cons_False; [done|]. naive_solver.
  - destruct (decide (name = key)) as [->|E].
    + destruct (ps !! key); [by destruct Hp|done].
    + apply Hskip. rewrite filter_cons_False; [done|]. naive_solver.
Qed.

Lemma load_weights_lookup {W} vllm tied (weights : list (string * W)) ps key :
  Forall (fun nw => ends_with nw.1 ".weight" = true) weights ->
  fst (load_weights vllm tied weights ps) !! key =
  (fun old => old ++ loads_for tied key weights) <$> ps !! key.
Proof.
  unfold load_weights. cbn [fst]. intros Hall. revert ps.
  induction Hall as [|[name w] weights Hw _ IH]; intros ps; cbn [fold_left].
  { destruct (ps !! key); simpl; [by rewrite app_nil_r|done]. }
  rewrite IH, load_one_lookup by done. destruct (ps !! key) as [old|]; [|done]. simpl. f_equal.
  rewrite <- app_assoc. f_equal. unfold loads_for. rewrite <- map_app.
  by rewrite <- (filter_app _ [(name, w)] weights).
Qed.

(** The names of a SmolLM3 checkpoint with [n] layers. *)
Definition hf_layer_suffixes : list string :=
  [".self_attn.q_proj.weight"; ".self_attn.k_proj.weight"; ".self_attn.v_proj.weight";
   ".self_attn.o_proj.weight"; ".mlp.gate_proj.weight"; ".mlp.up_proj.weight";
   ".mlp.down_proj.weight"; ".input_layernorm.weight"; ".post_attention_layernorm.weight"].

Definition hf_names (n : nat) : list string :=
  ["model.embed_tokens.weight"; "model.norm.weight"; "lm_head.weight"] ++
  mjoin (map (fun i => map (fun s => ("model.layers." +:+ pretty i) +:+ s) hf_layer_suffixes) (seq 0 n)).

(** A property of suffixes, up to 19 characters long, that holds of every
    checkpoint name as soon as it holds of the closed ones. *)
Lemma hf_names_ends_with (n : nat) (suf : string) (b : bool) name :
  String.length suf <= 19 ->
  forallb (fun s => eqb (ends_with s suf) b)
    (["model.embed_tokens.weight"; "model.norm.weight"; "lm_head.weight"] ++ hf_layer_suffixes) = true ->
  name ∈ hf_names n -> ends_with name suf = b.
Proof.
  intros Hl Hall Hin. rewrite forallb_forall in Hall.
  assert (Hc : forall s, s ∈ ["model.embed_tokens.weight"; "model.norm.weight"; "lm_head.weight"] ++
                          hf_layer_suffixes -> ends_with s suf = b).
  { intros s Hs. by apply eqb_true_iff, Hall, list_elem_of_In. }
  apply elem_of_app in Hin as [Hin|Hin]; [apply Hc; by apply elem_of_app; left|].
  apply list_elem_of_join in Hin as (l & Hin & Hl').
  apply list_elem_of_fmap in Hl' as (i & -> & _). apply list_elem_of_fmap in Hin as (s & -> & Hs).
  rewrite ends_with_app; [apply Hc; by apply elem_of_app; right|].
  assert (Hlen : Forall (fun s => 19 <= String.length s) hf_layer_suffixes).
  { repeat (apply Forall_cons; split; [vm_compute; lia|]). by apply Forall_nil. }
  rewrite Forall_forall in Hlen. specialize (Hlen s Hs). lia.
Qed.

Lemma params_dict_lookup {W} vllm n key :
  key ∈ named_parameters vllm n -> params_dict (W := W) vllm n !! key = Some [].
Proof.
  unfold params_dict. induction (named_parameters vllm n) as [|k l IH]; [by intros ?%elem_of_nil|].
  intros [->|Hin]%elem_of_cons; simpl; [by rewrite lookup_insert_eq|].
  rewrite lookup_insert. case_decide; [done|]. by apply IH.
Qed.

Lemma layer_param_named vllm n i s :
  i < n -> s ∈ layer_params vllm i -> s ∈ named_parameters vllm n.
Proof.
  intros Hi Hs. unfold named_parameters. apply elem_of_cons. right. apply elem_of_app. left.
  apply list_elem_of_join. exists (layer_params vllm i). split; [done|].
  apply list_elem_of_fmap_2. apply elem_of_seq. lia.
Qed.

Lemma loads_for_absent {W} tied key (weights : list (string * W)) :
  key ∉ map fst weights -> loads_for tied key weights = [].
Proof.
  intros Hk. unfold loads_for. rewrite list_filter_none; [done|].
  intros nw Hin [<- _]. apply Hk. by apply (list_elem_of_fmap_2 fst).
Qed.

(** C23.  Loading a SmolLM3 checkpoint goes by name alone: a parameter gets
    exactly the tensors of its own name, in order (none for a tied lm_head).
    The stacked branch is never taken, because every checkpoint name ends in
    [.weight] and the suffixes it looks for do not.  Inside vLLM, where query,
    key and value (and gate and up) are one parameter, the merged parameters
    of every layer receive nothing, while those with a checkpoint name of
    their own are loaded. *)
Theorem merged_weights_never_loaded {W} tied n (weights : list (string * W)) i :
  i < n -> Forall (fun nw => nw.1 ∈ hf_names n) weights ->
  let layer s := "model.layers." +:+ pretty i +:+ "." +:+ s in
  let loaded := fst (load_weights true tied weights (params_dict true n)) in
  loaded !! layer "self_attn.qkv_proj.weight" = Some [] /\
  loaded !! layer "mlp.gate_up_proj.weight" = Some [] /\
  (forall s, s ∈ ["self_attn.o_proj.weight"; "mlp.down_proj.weight"; "input_layernorm.weight";
                  "post_attention_layernorm.weight"] ->
     loaded !! layer s = Some (loads_for tied (layer s) weights)) /\
  loaded !! "model.embed_tokens.weight" = Some (loads_for tied "model.embed_tokens.weight" weights).
Proof.
  intros Hi Hall layer loaded. rewrite Forall_forall in Hall.
  assert (Hload : forall key, key ∈ named_parameters true n ->
            loaded !! key = Some (loads_for tied key weights)).
  { intros key Hk. subst loaded. rewrite load_weights_lookup, params_dict_lookup; [done|done|].
    apply Forall_forall. intros nw Hin. apply (hf_names_ends_with n _ true); [simpl; lia|done|auto]. }
  assert (Hlayer : forall s, layer s ∈ layer_params true i -> loaded !! layer s = Some (loads_for tied (layer s) weights)).
  { intros s Hs. by apply Hload, (layer_param_named true n i). }
  assert (Hnone : forall s, String.length s <= 19 -> 
            forallb (fun x => eqb (ends_with x s) false)
              (["model.embed_tokens.weight"; "model.norm.weight"; "lm_head.weight"] ++ hf_layer_suffixes) = true ->
            forall p, ends_with (layer p) s = true -> loads_for tied (layer p) weights = []).
  { intros s Hl Hc p Hp. apply loads_for_absent. intros (nw & Heq & Hin)%list_elem_of_fmap.
    apply Hall in Hin. rewrite <- Heq in Hin. by rewrite (hf_names_ends_with n s false) in Hp. }
  assert (Hend : forall p s, String.length s <= String.length p -> ends_with p s = true -> ends_with (layer p) s = true).
  { intros p s Hl Hp. subst layer. cbv beta. rewrite <- !append_assoc. by rewrite ends_with_app. }
  split_and!.
  - rewrite Hlayer by (left). f_equal. apply (Hnone "qkv_proj.weight"); [simpl; lia|done|].
    apply Hend; [simpl; lia|done].
  - rewrite Hlayer by (right; right; left). f_equal. apply (Hnone "gate_up_proj.weight"); [simpl; lia|done|].
    apply Hend; [simpl; lia|done].
  - intros s Hs. apply Hlayer. unfold layer_params. subst layer.
    apply (list_elem_of_fmap_2 (fun s => "model.layers." +:+ pretty i +:+ "." +:+ s)).
    repeat (apply elem_of_cons in Hs as [->|Hs]); [..|by apply elem_of_nil in Hs];
      rewrite !elem_of_cons; auto 10.
  - apply Hload. by left.
Qed.

Lemma merged_weights_never_loaded_witness :
  fst (load_weights true true [("model.layers.0.self_attn.q_proj.weight", 7)] (params_dict true 1))
    !! "model.layers.0.self_attn.qkv_proj.weight" = Some [].
Proof.
  apply (merged_weights_never_loaded true 1 [("model.layers.0.self_attn.q_proj.weight", 7)] 0).
  - lia.
  - apply Forall_cons. split; [|apply Forall_nil; exact I]. apply (bool_decide_unpack _).
    vm_compute. exact I.
Defined.
