(* ===== verification/Bench.v ===== *)
(** * Benchmarks (python/benchmark/metrics.py, fcfs.py, sjf.py, compare.py,
      benchmarks/run_benchmark.py)

    The percentile and aggregation functions, the workers of the simulated
    benchmarks, the comparison with its fallback, and the aggregation of the
    live benchmark.  Clock readings, random numbers and service times are
    arguments. *)
From Stdlib Require Import ZArith Lia.
From stdpp Require Import base option list strings gmap sorting.
From S2P Require Import Prelude PyFloat Heapq Features Predictor Aging.
From S2P Require Import PriorityQueue BaseScheduler Fcfs Sjf.
Local Open Scope string_scope.
Local Open Scope list_scope.
Local Open Scope nat_scope.
Local Open Scope py_scope.

(** ** Rounding and percentiles *)

(** [round(x, nd)]: the exact value rounded to [nd] decimals, ties to even,
    then to the nearest float. *)
Definition py_round (x : float) (nd : Z) : float :=
  match x with
  | Fin z => flit (rne (z * 10 ^ nd) (2 ^ grid)) (10 ^ nd)
  | _ => x
  end.

(** [sorted]: a list in which no element is less than the one before it. *)
Definition sort_le (x y : float) : Prop := fltb y x = false.

#[local] Instance sort_le_dec x y : Decision (sort_le x y).
Proof. unfold sort_le. apply _. Defined.

Definition sorted (data : list float) : list float := merge_sort sort_le data.

Definition percentile (data : list float) (p : float) : result float :=
  match data with
  | [] => Ok f0
  | _ =>
      let sorted_data := sorted data in
      let n := Z.of_nat (length sorted_data) in
      let? k := to_int (fmul (of_int n) p) in
      let idx := Z.max 0 (k - 1) in
      match sorted_data !! Z.to_nat (Z.min idx (n - 1)) with
      | Some x => Ok x
      | None => Raise IndexError
      end
  end.

Record RequestMetric := mkMetric {
  success : bool;
  e2e_ms : float;
  queue_wait_ms : float;
  feature_ms : float;
  predict_ms : float;
  schedule_ms : float;
  tokens : Z;
  concurrency : Z;
}.

Record BenchmarkResult := mkBench {
  br_scheduler : string;
  br_concurrency : Z;
  n_requests : nat;
  n_success : nat;
  throughput_rps : float;
  tokens_per_sec : float;
  e2e_p50_ms : float;
  e2e_p95_ms : float;
  e2e_p99_ms : float;
  queue_wait_p50_ms : float;
  queue_wait_p99_ms : float;
  feature_p50_ms : float;
  predict_p50_ms : float;
  schedule_p50_ms : float;
  error_rate : float;
  elapsed_sec : float;
  gpu_utilization : float;
  cpu_utilization : float;
}.

Definition successes (ms : list RequestMetric) : list RequestMetric :=
  filter (fun m => m.(success) = true) ms.

Definition sum_tokens (ms : list RequestMetric) : Z := foldr (fun m acc => m.(tokens) + acc)%Z 0%Z ms.

Definition pct_of (f : RequestMetric -> float) (ms : list RequestMetric) (num : Z) (nd : Z) : result float :=
  let? x := percentile (map f ms) (flit num 100) in Ok (py_round x nd).

Definition aggregate_metrics (scheduler : string) (conc : Z) (metrics : list RequestMetric)
    (elapsed : float) : result BenchmarkResult :=
  let ok := successes metrics in
  let span := fmax elapsed (flit 1 1000000) in
  let? rps := fdiv (of_int (Z.of_nat (length ok))) span in
  let? total := float_of_int (sum_tokens ok) in
  let? tps := fdiv total span in
  let? p50 := pct_of e2e_ms metrics 50 2 in
  let? p95 := pct_of e2e_ms metrics 95 2 in
  let? p99 := pct_of e2e_ms metrics 99 2 in
  let? w50 := pct_of queue_wait_ms metrics 50 2 in
  let? w99 := pct_of queue_wait_ms metrics 99 2 in
  let? f50 := pct_of feature_ms metrics 50 3 in
  let? p50' := pct_of predict_ms metrics 50 3 in
  let? s50 := pct_of schedule_ms metrics 50 3 in
  let? err := int_div (Z.of_nat (length metrics) - Z.of_nat (length ok))
                (Z.max (Z.of_nat (length metrics)) 1) in
  Ok (mkBench scheduler conc (length metrics) (length ok) (py_round rps 3) (py_round tps 1)
        p50 p95 p99 w50 w99 f50 p50' s50 (py_round (fmul err (of_int 100)) 2)
        (py_round elapsed 2) f0 f0).

(** ** The live benchmark *)

(** A request's outcome: success, milliseconds, tokens. *)
Definition outcome : Type := bool * float * Z.

(** [run_request] after its call: a 200 response with the token count it
    reports, another status, or an exception. *)
Inductive reply_kind := Reply200 (usage : option Z) | ReplyOther | ReplyError.

Definition run_request (max_tokens : Z) (t0 t1 : float) (r : reply_kind) : outcome :=
  let elapsed_ms := fmul (fsub t1 t0) (of_int 1000) in
  match r with
  | Reply200 u => (true, elapsed_ms, default max_tokens u)
  | _ => (false, elapsed_ms, 0%Z)
  end.

Record BenchResult := mkLive {
  lv_concurrency : Z;
  lv_n_requests : Z;
  lv_n_success : nat;
  lv_total_tokens : Z;
  lv_elapsed_sec : float;
  lv_throughput_rps : float;
  lv_tokens_per_sec : float;
  lv_e2e_p50_ms : float;
  lv_e2e_p99_ms : float;
  lv_error_rate : float;
}.

(** [data[max(0, int(len(data) * p) - 1)] if data else 0.0] on sorted data *)
Definition pct (data : list float) (p : float) : result float :=
  match data with
  | [] => Ok f0
  | _ =>
      let? k := to_int (fmul (of_int (Z.of_nat (length data))) p) in
      match data !! Z.to_nat (Z.max 0 (k - 1)) with
      | Some x => Ok x
      | None => Raise IndexError
      end
  end.

(** [run_level] once all [n] requests are done. *)
Definition run_level (conc n : Z) (results : list outcome) (elapsed : float) : result BenchResult :=
  let ok := filter (fun r => r.1.1 = true) results in
  let e2es := sorted (map (fun r => r.1.2) results) in
  let total := foldr (fun r acc => r.2 + acc)%Z 0%Z ok in
  let? rps := fdiv (of_int (Z.of_nat (length ok))) elapsed in
  let? tot := float_of_int total in
  let? tps := fdiv tot elapsed in
  let? p50 := pct e2es (flit 50 100) in
  let? p99 := pct e2es (flit 99 100) in
  let? err := int_div (n - Z.of_nat (length ok)) n in
  Ok (mkLive conc n (length ok) total (py_round elapsed 2) (py_round rps 2) (py_round tps 1)
        (py_round p50 1) (py_round p99 1) (py_round (fmul err (of_int 100)) 1)).

(** ** The simulated benchmarks *)

(** The part of a worker up to its service time: its request is submitted and
    the next request acquired, without a suspension in between. *)
Definition worker {S} `{SchedulerOps S} (c : submit_clock) (a : acquire_clock) (l : loc)
    (st : store) (s : S) : store * acquire_outcome * S :=
  let '(st', s1, _) := submit c l st s in
  let '(o, s2) := acquire a None s1 in (st', o, s2).

(** One round of [run_comparison]: the results of the three runners. *)
Definition compare_level (fcfs oracle : BenchmarkResult) (sjf : result BenchmarkResult)
    : list BenchmarkResult :=
  [fcfs; oracle;
   match sjf with
   | Ok r => r
   | Raise _ =>
       mkBench "sjf" fcfs.(br_concurrency) fcfs.(n_requests) fcfs.(n_success)
         fcfs.(throughput_rps) fcfs.(tokens_per_sec) fcfs.(e2e_p50_ms) fcfs.(e2e_p95_ms)
         fcfs.(e2e_p99_ms) fcfs.(queue_wait_p50_ms) fcfs.(queue_wait_p99_ms)
         fcfs.(feature_p50_ms) fcfs.(predict_p50_ms) fcfs.(schedule_p50_ms)
         fcfs.(error_rate) fcfs.(elapsed_sec) fcfs.(gpu_utilization) fcfs.(cpu_utilization)
   end].

Definition run_comparison (run : Z -> BenchmarkResult * BenchmarkResult * result BenchmarkResult)
    (levels : list Z) : list BenchmarkResult :=
  mjoin (map (fun c => let '(f, o, s) := run c in compare_level f o s) levels).

(** ** Properties: percentiles *)

Lemma flit_mono n m d : (0 < d)%Z -> (n <= m)%Z -> (flit n d <= flit m d)%float.
Proof.
  intros Hd H. rewrite !flit_def. pose proof unit_pos. apply round_ratio_mono; [done..|].
  do 2 (apply Z.mul_le_mono_nonneg_r; [lia|]). done.
Qed.

Lemma flit_not_nan n d : (0 < d)%Z -> is_nan (flit n d) = false.
Proof. intros Hd. exact (proj1 (fle_not_nan _ _ (flit_mono n n d Hd (Z.le_refl _)))). Qed.

Lemma py_round_mono x y nd : (0 <= nd)%Z -> (x <= y)%float -> (py_round x nd <= py_round y nd)%float.
Proof.
  intros Hnd Hxy. assert (Hd : (0 < 10 ^ nd)%Z) by (apply Z.pow_pos_nonneg; lia).
  destruct (fle_not_nan _ _ Hxy) as [Hx Hy].
  destruct x as [a|s|], y as [b|t|]; try discriminate; cbn [py_round].
  - apply flit_mono; [done|]. apply fle_Fin in Hxy. pose proof unit_pos.
    apply rne_mono; [done..|]. do 2 (apply Z.mul_le_mono_nonneg_r; [lia|]). done.
  - pose proof (flit_not_nan (rne (a * 10 ^ nd) (2 ^ grid)) (10 ^ nd) Hd) as Hn.
    destruct t; [by apply fle_inv_neg in Hxy|]. by apply fle_pos_inf.
  - destruct s; [|by apply fle_inv_pos in Hxy]. apply fle_neg_inf. by apply flit_not_nan.
  - done.
Qed.

Lemma sorted_strongly data :
  Forall (fun x => is_nan x = false) data -> StronglySorted fle (sorted data).
Proof.
  intros Hn. unfold sorted.
  assert (Hs : Sorted sort_le (merge_sort sort_le data)).
  { apply Sorted_merge_sort. intros x y. unfold sort_le.
    destruct (fltb y x) eqn:E; [|by left]. right. destruct (fltb x y) eqn:E'; [|done].
    pose proof (fltb_irrefl x) as H. by rewrite (flt_trans x y x E' E) in H. }
  rewrite <- (merge_sort_Permutation sort_le data) in Hn.
  apply Sorted_StronglySorted; [intros x y z; apply fle_trans|].
  induction Hs as [|x l Hs IH Hd]; [constructor|]. apply Forall_cons in Hn as [Hx Hn].
  constructor; [by apply IH|]. destruct Hd as [|y l Hd]; constructor.
  apply Forall_cons in Hn as [Hy _]. by apply fltb_false.
Qed.

Lemma strongly_sorted_lookup (l : list float) i j x y :
  StronglySorted fle l -> Forall (fun x => is_nan x = false) l ->
  l !! i = Some x -> l !! j = Some y -> i <= j -> (x <= y)%float.
Proof.
  intros Hs Hn. revert i j. induction Hs as [|z l Hs IH Hz]; intros i j Hi Hj Hij; [done|].
  apply Forall_cons in Hn as [Hzn Hn]. destruct i as [|i], j as [|j]; simpl in *; try lia.
  - simplify_eq. by apply fle_refl.
  - simplify_eq. rewrite Forall_forall in Hz. apply Hz. by eapply list_elem_of_lookup_2.
  - apply (IH Hn i j); [done..|lia].
Qed.

Lemma to_int_mono x y a b : (x <= y)%float -> to_int x = Ok a -> to_int y = Ok b -> (a <= b)%Z.
Proof.
  destruct x as [u|s|], y as [v|t|]; try discriminate. intros H Ha Hb. apply fle_Fin in H.
  injection Ha as <-. injection Hb as <-. apply Z.quot_le_mono; [apply unit_pos|done].
Qed.

(** The rank [percentile] reads, in the sorted data. *)
Definition rank (n k : Z) : nat := Z.to_nat (Z.min (Z.max 0 (k - 1)) (n - 1)).

Lemma percentile_rank data p :
  data <> [] -> (Z.of_nat (length data) <= 2 ^ 53)%Z -> (f0 <= p)%float -> (p <= f1)%float ->
  exists k x, to_int (fmul (of_int (Z.of_nat (length data))) p) = Ok k /\
    sorted data !! rank (Z.of_nat (length data)) k = Some x /\ percentile data p = Ok x.
Proof.
  intros Hne Hn Hp0 Hp1.
  assert (Hl : length (sorted data) = length data)
    by (unfold sorted; by rewrite merge_sort_Permutation).
  destruct (count_part (Z.of_nat (length data)) p ltac:(lia) Hp0 Hp1) as (k & Hk & Hk0).
  assert (Hr : rank (Z.of_nat (length data)) k < length (sorted data)).
  { rewrite Hl. unfold rank. destruct data; [done|]. simpl length. lia. }
  destruct (lookup_lt_is_Some_2 _ _ Hr) as [x Hx]. exists k, x. split; [done|]. split; [done|].
  unfold percentile. destruct data as [|d data]; [done|]. rewrite Hl, Hk. cbn [rbind].
  fold (rank (Z.of_nat (length (d :: data))) k). by rewrite Hx.
Qed.

Lemma percentile_mono data p q :
  data <> [] -> Forall (fun x => is_nan x = false) data ->
  (Z.of_nat (length data) <= 2 ^ 53)%Z ->
  (f0 <= p)%float -> (p <= q)%float -> (q <= f1)%float ->
  exists x y, percentile data p = Ok x /\ percentile data q = Ok y /\
    (x ∈ data) /\ (y ∈ data) /\ (x <= y)%float.
Proof.
  intros Hne Hnn Hn Hp Hpq Hq.
  destruct (percentile_rank data p Hne Hn Hp (fle_trans _ _ _ Hpq Hq)) as (k & x & Hk & Hx & ->).
  destruct (percentile_rank data q Hne Hn (fle_trans _ _ _ Hp Hpq) Hq) as (m & y & Hm & Hy & ->).
  assert (Hs : sorted data ≡ₚ data) by apply merge_sort_Permutation.
  exists x, y. split; [done|]. split; [done|].
  split; [rewrite <- Hs; by eapply list_elem_of_lookup_2|].
  split; [rewrite <- Hs; by eapply list_elem_of_lookup_2|].
  eapply strongly_sorted_lookup; [by apply sorted_strongly|by rewrite Hs|exact Hx|exact Hy|].
  assert (Hn0 : (f0 <= of_int (Z.of_nat (length data)))%float)
    by (rewrite <- of_int_0; apply of_int_mono; lia).
  assert (Hnm : (of_int (Z.of_nat (length data)) <= of_int (2 ^ 53))%float) by (by apply of_int_mono).
  assert (Hkm : (k <= m)%Z); [|unfold rank; lia].
  eapply to_int_mono; [|exact Hk|exact Hm]. apply fmul_mono_r.
  - apply (fin_between _ _ Hn0 Hnm). fcompute.
  - apply (fin_between _ f1 Hp (fle_trans _ _ _ Hpq Hq)). fcompute.
  - apply (fin_between _ f1 (fle_trans _ _ _ Hp Hpq) Hq). fcompute.
  - exact Hn0.
  - exact Hpq.
Qed.

(** The quantiles the aggregation asks for. *)
Lemma pct_pair f (ms : list RequestMetric) a b nd :
  (0 <= nd)%Z -> Forall (fun m => is_nan (f m) = false) ms ->
  (Z.of_nat (length ms) <= 2 ^ 53)%Z -> (0 <= a <= b)%Z -> (b <= 100)%Z ->
  exists x y, pct_of f ms a nd = Ok x /\ pct_of f ms b nd = Ok y /\ (x <= y)%float.
Proof.
  intros Hnd Hnn Hn [Ha Hab] Hb.
  destruct (decide (ms = [])) as [->|Hne].
  { eexists _, _. split; [reflexivity|]. split; [reflexivity|]. apply py_round_mono; [done|]. by apply fle_refl. }
  assert (H0 : (f0 <= flit a 100)%float).
  { replace f0 with (flit 0 100) by fcompute. by apply flit_mono. }
  assert (H1 : (flit b 100 <= f1)%float).
  { replace f1 with (flit 100 100) by fcompute. by apply flit_mono. }
  destruct (percentile_mono (map f ms) (flit a 100) (flit b 100)) as (x & y & Ex & Ey & _ & _ & Hxy).
  - by destruct ms.
  - by apply Forall_map.
  - by rewrite length_map.
  - exact H0.
  - by apply flit_mono.
  - exact H1.
  - unfold pct_of. rewrite Ex, Ey. cbn [rbind]. eexists _, _. split; [reflexivity|].
    split; [reflexivity|]. by apply py_round_mono.
Qed.

Lemma span_divides x elapsed : exists y, fdiv x (fmax elapsed (flit 1 1000000)) = Ok y.
Proof.
  unfold fmax. set (e := flit 1 1000000).
  assert (He : fltb f0 e = true) by fcompute.
  destruct (fltb elapsed e) eqn:E; [by apply fdiv_pos_Ok|]. clearbody e.
  destruct (is_nan elapsed) eqn:Hn.
  { destruct elapsed; try discriminate. by destruct x; eexists. }
  assert (is_nan e = false) by (by destruct e).
  assert (Hlt : (f0 < elapsed)%float) by (apply (flt_le_trans _ e); [exact He|by apply fltb_false]).
  apply fdiv_pos_Ok. exact Hlt.
Qed.

(** Measurements that are numbers. *)
Definition metric_ok (m : RequestMetric) : Prop :=
  is_nan m.(e2e_ms) = false /\ is_nan m.(queue_wait_ms) = false /\ is_nan m.(feature_ms) = false /\
  is_nan m.(predict_ms) = false /\ is_nan m.(schedule_ms) = false.

Lemma aggregate_metrics_ok scheduler conc metrics elapsed t :
  Forall metric_ok metrics -> (Z.of_nat (length metrics) <= 2 ^ 53)%Z ->
  float_of_int (sum_tokens (successes metrics)) = Ok t ->
  exists r, aggregate_metrics scheduler conc metrics elapsed = Ok r /\
    r.(n_requests) = length metrics /\ r.(n_success) = length (successes metrics) /\
    r.(n_success) <= r.(n_requests) /\
    (r.(e2e_p50_ms) <= r.(e2e_p95_ms))%float /\ (r.(e2e_p95_ms) <= r.(e2e_p99_ms))%float /\
    (r.(queue_wait_p50_ms) <= r.(queue_wait_p99_ms))%float /\
    (length (successes metrics) = length metrics -> r.(error_rate) = f0).
Proof.
  intros Hok Hn Ht. unfold aggregate_metrics. rewrite Ht.
  destruct (span_divides (of_int (Z.of_nat (length (successes metrics)))) elapsed) as [rps ->]. cbn [rbind].
  destruct (span_divides t elapsed) as [tps ->]. cbn [rbind].
  assert (Hf : forall f, (forall m, metric_ok m -> is_nan (f m) = false) ->
            Forall (fun m => is_nan (f m) = false) metrics)
    by (intros f Hf; by eapply Forall_impl).
  destruct (pct_pair e2e_ms metrics 50 95 2) as (a & b & -> & Eb & Hab); [lia|apply Hf; by intros m (? & _)|done|lia|lia|].
  destruct (pct_pair e2e_ms metrics 95 99 2) as (b' & d & Eb' & -> & Hbd); [lia|apply Hf; by intros m (? & _)|done|lia|lia|].
  rewrite Eb in Eb'. injection Eb' as <-. rewrite Eb.
  destruct (pct_pair queue_wait_ms metrics 50 99 2) as (w & w' & -> & -> & Hw);
    [lia|apply Hf; by intros m (? & ? & _)|done|lia|lia|].
  destruct (pct_pair feature_ms metrics 50 50 3) as (x1 & ? & -> & _ & _);
    [lia|apply Hf; by intros m (? & ? & ? & _)|done|lia|lia|].
  destruct (pct_pair predict_ms metrics 50 50 3) as (x2 & ? & -> & _ & _);
    [lia|apply Hf; by intros m (? & ? & ? & ? & _)|done|lia|lia|].
  destruct (pct_pair schedule_ms metrics 50 50 3) as (x3 & ? & -> & _ & _);
    [lia|apply Hf; by intros m (? & ? & ? & ? & ?)|done|lia|lia|].
  cbn [rbind]. unfold int_div. destruct (Z.eqb_spec (Z.max (Z.of_nat (length metrics)) 1) 0) as [E|E]; [lia|].
  cbn [rbind]. eexists. split; [reflexivity|].
  cbn [n_requests n_success e2e_p50_ms e2e_p95_ms e2e_p99_ms queue_wait_p50_ms queue_wait_p99_ms error_rate].
  split_and!; [reflexivity|reflexivity|apply length_filter|exact Hab|exact Hbd|exact Hw|].
  intros ->. rewrite Z.sub_diag. cbn [Z.mul]. rewrite round_ratio_0. fcompute.
Qed.

(** Aggregation never raises on measurements that are numbers (the
    divisions are guarded against an elapsed time of zero and an empty list),
    counts the requests and the successes among them, and reports percentiles
    in order: p50 <= p95 <= p99, after rounding. *)
Theorem aggregate_metrics_spec scheduler conc metrics elapsed t :
  Forall metric_ok metrics -> (Z.of_nat (length metrics) <= 2 ^ 53)%Z ->
  float_of_int (sum_tokens (successes metrics)) = Ok t ->
  exists r, aggregate_metrics scheduler conc metrics elapsed = Ok r /\
    r.(n_requests) = length metrics /\ r.(n_success) = length (successes metrics) /\
    r.(n_success) <= r.(n_requests) /\
    (r.(e2e_p50_ms) <= r.(e2e_p95_ms))%float /\ (r.(e2e_p95_ms) <= r.(e2e_p99_ms))%float /\
    (r.(queue_wait_p50_ms) <= r.(queue_wait_p99_ms))%float.
Proof.
  intros Hok Hn Ht. destruct (aggregate_metrics_ok scheduler conc metrics elapsed t Hok Hn Ht)
    as (r & Hr & H1 & H2 & H3 & H4 & H5 & H6 & _).
  exists r. by split_and!.
Qed.

(** ** Properties: the simulated schedulers never have a choice *)

(** What the workers do, in the order the event loop runs them: the first
    part of a worker, or the completion after its service time. *)
Inductive sim_op :=
| SimWork (c : submit_clock) (a : acquire_clock) (l : loc)
| SimComplete (rid : string).

Fixpoint sim_run {S} `{SchedulerOps S} (os : list sim_op) (st : store) (s : S)
    : list (loc * acquire_outcome) :=
  match os with
  | [] => []
  | SimWork c a l :: os' =>
      let '(st', o, s') := worker c a l st s in (l, o) :: sim_run os' st' s'
  | SimComplete rid :: os' => sim_run os' st (complete rid true s)
  end.

Definition sim_locs (os : list sim_op) : list loc :=
  omap (fun o => match o with SimWork _ _ l => Some l | _ => None end) os.

(** A request as the workers build it. *)
Record sim_request (req : ScheduledRequest) : Prop := {
  sr_tokens : (20 <= req.(r_max_tokens) <= 200)%Z;
  sr_predicted : ftruthy req.(r_predicted_tokens) = true;
}.

Section Simulation.
Context {S : Type} `{SchedulerLaws S} (idle : S -> Prop).
Hypothesis idle_worker : forall c a l st s req,
  idle s -> st !! l = Some req -> sim_request req ->
  let '(_, o, s') := worker c a l st s in o = Acquired l /\ idle s'.
Hypothesis idle_complete : forall rid s, idle s -> idle (complete rid true s).

Lemma worker_frame c a l st (s : S) st' o s' l' :
  worker c a l st s = (st', o, s') -> l' <> l -> st' !! l' = st !! l'.
Proof.
  unfold worker. destruct (submit c l st s) as [[st1 s1] r] eqn:E.
  destruct (acquire a None s1) as [o1 s2]. intros [= <- _ _] Hne. by eapply submit_frame.
Qed.

Lemma sim_run_own os st s :
  idle s -> NoDup (sim_locs os) ->
  Forall (fun l => exists req, st !! l = Some req /\ sim_request req) (sim_locs os) ->
  sim_run os st s = map (fun l => (l, Acquired l)) (sim_locs os).
Proof.
  revert st s. induction os as [|[c a l|rid] os IH]; intros st s Hi Hnd Hall; simpl; [done| |].
  - simpl in *. apply NoDup_cons in Hnd as [Hni Hnd]. apply Forall_cons in Hall as [(req & Hl & Hr) Hall].
    pose proof (idle_worker c a l st s req Hi Hl Hr) as Hw.
    destruct (worker c a l st s) as [[st' o] s'] eqn:E. destruct Hw as [-> Hi'].
    f_equal. apply IH; [done..|]. rewrite Forall_forall in Hall |- *. intros l' Hin.
    rewrite (worker_frame _ _ _ _ _ _ _ _ l' E); [auto|]. intros ->. done.
  - simpl in *. apply IH; auto.
Qed.
End Simulation.

Definition fcfs_idle (s : FCFSScheduler) : Prop := s.(f_queue) = [].
Definition pq_idle (q : PriorityQueue.PriorityQueue loc) : Prop := q.(_heap) = [] /\ q.(_cancelled) = ∅.
Definition oracle_idle (s : OracleSJFScheduler) : Prop := pq_idle s.(o_queue).
Definition sjf_idle (s : SJFScheduler) : Prop := s.(s_use_fallback) = false /\ pq_idle s.(s_queue).

(** On an idle queue a dequeue returns what was just enqueued. *)
Lemma pq_idle_serves (q : PriorityQueue.PriorityQueue loc) now rid p l d t1 t2 t3 :
  pq_idle q ->
  let '(o, q') := dequeue_turn d t1 t2 t3 (enqueue now rid p l q) in
  o = Returned (mkItem p now rid l) /\ pq_idle q'.
Proof.
  intros [Hh Hc]. unfold dequeue_turn, pop_live, enqueue. cbn [_heap]. rewrite Hh.
  cbn. rewrite Hc. cbn. rewrite bool_decide_eq_false_2 by (by apply not_elem_of_empty). done.
Qed.

Lemma fcfs_idle_worker c a l st (s : FCFSScheduler) req :
  fcfs_idle s -> st !! l = Some req -> sim_request req ->
  let '(_, o, s') := worker c a l st s in o = Acquired l /\ fcfs_idle s'.
Proof.
  intros Hi Hl _. unfold worker. cbn [submit fcfs_ops]. rewrite Hl. cbn [acquire fcfs_ops].
  unfold fcfs_acquire, fcfs_get, fcfs_submit. cbn [f_queue]. by rewrite Hi.
Qed.

Lemma float_of_small_int n : (0 <= n <= 2 ^ 53)%Z -> exists p, float_of_int n = Ok p.
Proof.
  intros [H0 H1]. unfold float_of_int.
  assert (Hn0 : (f0 <= of_int n)%float) by (rewrite <- of_int_0; by apply of_int_mono).
  assert (Hn1 : (of_int n <= of_int (2 ^ 53))%float) by (by apply of_int_mono).
  assert (Hf : is_fin (of_int n) = true) by (apply (fin_between _ _ Hn0 Hn1); fcompute).
  destruct (of_int n); [by eexists|discriminate Hf..].
Qed.

Lemma oracle_idle_worker c a l st (s : OracleSJFScheduler) req :
  oracle_idle s -> st !! l = Some req -> sim_request req ->
  let '(_, o, s') := worker c a l st s in o = Acquired l /\ oracle_idle s'.
Proof.
  intros Hi Hl [Ht _]. unfold worker. cbn [submit oracle_ops]. unfold oracle_submit. rewrite Hl.
  destruct (float_of_small_int (r_max_tokens req)) as [p ->]; [lia|].
  cbn [acquire oracle_ops]. unfold oracle_acquire. cbn [o_queue o_base].
  pose proof (pq_idle_serves (o_queue s) (sc_now c) (r_request_id req) p l
                (dequeue_deadline None (ac_t0 a)) (ac_pop a) (ac_check a) (ac_rem a) Hi) as Hs.
  destruct (dequeue_turn _ _ _ _ _) as [o q']. by destruct Hs as [-> ?].
Qed.

Lemma sjf_idle_worker predictor c a l st (s : SJFScheduler) req :
  sjf_idle s -> st !! l = Some req -> sim_request req ->
  let '(_, o, s') := worker (H := sjf_ops predictor) c a l st s in o = Acquired l /\ sjf_idle s'.
Proof.
  intros [Hu Hi] Hl [_ Hp]. unfold worker. cbn [submit sjf_ops]. unfold sjf_submit, sjf_predict.
  rewrite Hl, Hp. unfold fallback_active. rewrite Hu. cbn [acquire sjf_ops].
  unfold sjf_acquire, fallback_active. cbn [s_use_fallback set_queue set_pending set_base s_queue].
  rewrite Hu.
  pose proof (pq_idle_serves (s_queue s) (sc_now c) (r_request_id req) (r_predicted_tokens req) l
                (dequeue_deadline None (ac_t0 a)) (ac_pop a) (ac_check a) (ac_rem a) Hi) as Hs.
  destruct (dequeue_turn _ _ _ _ _) as [o q']. by destruct Hs as [-> ?].
Qed.

(** The simulated benchmarks compare nothing: a worker submits its request
    and acquires one without giving up the event loop in between, so on a
    scheduler that starts out idle every worker acquires its own request,
    whatever the order of the workers and completions; FCFS, oracle and
    predicted SJF all serve the requests in the order the workers run. *)
Theorem simulation_never_reorders predictor os st (f : FCFSScheduler) (o : OracleSJFScheduler)
    (s : SJFScheduler) :
  fcfs_idle f -> oracle_idle o -> sjf_idle s ->
  NoDup (sim_locs os) ->
  Forall (fun l => exists req, st !! l = Some req /\ sim_request req) (sim_locs os) ->
  let own := map (fun l => (l, Acquired l)) (sim_locs os) in
  sim_run os st f = own /\ sim_run os st o = own /\
  sim_run (H := sjf_ops predictor) os st s = own.
Proof.
  intros Hf Ho Hs Hnd Hall own. split_and!.
  - apply (sim_run_own fcfs_idle); [apply fcfs_idle_worker|done..].
  - apply (sim_run_own oracle_idle); [apply oracle_idle_worker|done..].
  - pose proof (sjf_laws predictor).
    apply (sim_run_own (H := sjf_ops predictor) sjf_idle); [apply sjf_idle_worker|done..].
Qed.

(** ** Witnesses *)

Definition demo_metric (ok : bool) (ms : Z) : RequestMetric :=
  mkMetric ok (of_int ms) f0 f0 f0 f0 ms 1.

Lemma aggregate_metrics_spec_witness :
  exists r, aggregate_metrics "fcfs" 1 [demo_metric true 30; demo_metric false 10; demo_metric true 20] f0 = Ok r /\
    r.(n_requests) = 3 /\ (r.(e2e_p50_ms) <= r.(e2e_p95_ms))%float.
Proof.
  destruct (aggregate_metrics_spec "fcfs" 1 [demo_metric true 30; demo_metric false 10; demo_metric true 20]
              f0 (of_int 50)) as (r & E & Hn & _ & _ & Hp & _).
  - repeat (apply Forall_cons; split); [..|apply Forall_nil; exact I];
      unfold metric_ok; split_and!; fcompute.
  - vm_compute. discriminate.
  - vm_compute. reflexivity.
  - exists r. split; [exact E|]. split; [exact Hn|exact Hp].
Defined.

Definition sim_store : store :=
  <[1 := demo_request "a" 150 150]> (<[2 := demo_request "b" 20 20]> ∅).

(** The long request is served first: it came first. *)
Lemma simulation_never_reorders_witness :
  sim_run [SimWork demo_clock demo_aclock 1; SimWork demo_clock demo_aclock 2; SimComplete "a"]
    sim_store oracle_init = [(1, Acquired 1); (2, Acquired 2)].
Proof.
  apply (simulation_never_reorders broken_predictor
           [SimWork demo_clock demo_aclock 1; SimWork demo_clock demo_aclock 2; SimComplete "a"]
           sim_store fcfs_init oracle_init demo_sjf).
  - reflexivity.
  - split; reflexivity.
  - split; [reflexivity|split; reflexivity].
  - apply (bool_decide_unpack _). vm_compute. exact I.
  - apply Forall_cons. split; [|apply Forall_cons; split; [|apply Forall_nil; exact I]].
    + exists (demo_request "a" 150 150). split; [vm_compute; reflexivity|].
      split; [simpl; lia|fcompute].
    + exists (demo_request "b" 20 20). split; [vm_compute; reflexivity|].
      split; [simpl; lia|fcompute].
Defined.

(** A level of the live benchmark without requests divides by zero. *)
Example run_level_without_requests : run_level 1 0 [] f1 = Raise ZeroDivisionError.
Proof. vm_compute. reflexivity. Qed.
