(* ===== verification/PyText.v ===== *)
(** * Python text: code points, character classes and [str] methods

    A [str] is the list of its code points.  The tables of the Unicode character
    database that [str.isupper], [str.lower], [re] and friends consult are not
    part of the program: they are the operations of the class [Unicode], with
    what the code relies on as the laws [UnicodeLaws] (agreement with ASCII, and
    disjointness of a few categories).  [ascii_tables] is the restriction to
    ASCII.  The [str] methods the program calls are defined on top, with their
    specifications. *)
From Stdlib Require Import ZArith Lia.
From stdpp Require Import base option list strings.
From S2P Require Import Prelude.
Local Open Scope Z_scope.

Abbreviation text := (list Z).

(** The code points of a string of this development. *)
Fixpoint codes (s : string) : text :=
  match s with
  | EmptyString => []
  | String a s' => Z.of_N (Ascii.N_of_ascii a) :: codes s'
  end.

Lemma codes_app (a b : string) : codes (String.append a b) = codes a ++ codes b.
Proof. induction a as [|x a IH]; [done|]. exact (f_equal (cons _) IH). Qed.

(** ** Character classes *)

Definition in_range (lo hi c : Z) : bool := (lo <=? c) && (c <=? hi).

Definition is_ascii (c : Z) : bool := in_range 0 127 c.
Definition ascii_upper (c : Z) : bool := in_range 65 90 c.
Definition ascii_lower (c : Z) : bool := in_range 97 122 c.
Definition ascii_digit (c : Z) : bool := in_range 48 57 c.
Definition ascii_alnum (c : Z) : bool := ascii_upper c || ascii_lower c || ascii_digit c.
(** Tab to carriage return, the four separators 0x1c-0x1f, and the space. *)
Definition ascii_space (c : Z) : bool := in_range 9 13 c || in_range 28 32 c.
Definition ascii_tolower (c : Z) : Z := if ascii_upper c then c + 32 else c.

(** [string.punctuation] *)
Definition is_punctuation (c : Z) : bool :=
  in_range 33 47 c || in_range 58 64 c || in_range 91 96 c || in_range 123 126 c.

Class Unicode := {
  isalnum : Z -> bool;
  isspace : Z -> bool;
  isdigit : Z -> bool;
  isupper : Z -> bool;
  islower : Z -> bool;
  (** Equality of characters for [re.IGNORECASE]. *)
  same_case : Z -> Z -> bool;
  (** [str.lower]: on whole strings, since it can lengthen them and looks at
      the neighbours of a final sigma. *)
  lower : text -> text;
}.

Class UnicodeLaws (U : Unicode) : Prop := {
  alnum_ascii : forall c, is_ascii c = true -> isalnum c = ascii_alnum c;
  space_ascii : forall c, is_ascii c = true -> isspace c = ascii_space c;
  digit_ascii : forall c, is_ascii c = true -> isdigit c = ascii_digit c;
  upper_ascii : forall c, is_ascii c = true -> isupper c = ascii_upper c;
  lower_ascii : forall c, is_ascii c = true -> islower c = ascii_lower c;
  same_case_ascii : forall c d, is_ascii c = true -> is_ascii d = true ->
    same_case c d = (ascii_tolower c =? ascii_tolower d);
  lower_text_ascii : forall t, forallb is_ascii t = true -> lower t = map ascii_tolower t;
  upper_not_lower : forall c, isupper c = true -> islower c = false;
  upper_not_space : forall c, isupper c = true -> isspace c = false;
  lower_not_space : forall c, islower c = true -> isspace c = false;
  alnum_not_space : forall c, isalnum c = true -> isspace c = false;
}.

(** The tables restricted to ASCII. *)
#[global] Instance ascii_tables : Unicode := {
  isalnum := ascii_alnum;
  isspace := ascii_space;
  isdigit := ascii_digit;
  isupper := ascii_upper;
  islower := ascii_lower;
  same_case c d := ascii_tolower c =? ascii_tolower d;
  lower := map ascii_tolower;
}.

Ltac ascii_solve :=
  unfold ascii_alnum, ascii_space, ascii_upper, ascii_lower, ascii_digit, in_range in *; lia.

#[global] Instance ascii_laws : UnicodeLaws ascii_tables.
Proof. split; try reflexivity; intros; cbn in *; ascii_solve. Qed.

(** ** String methods *)

(** [t.startswith(sub)] *)
Definition starts_with (sub t : text) : bool := bool_decide (sub `prefix_of` t).

(** [sub in t] *)
Fixpoint contains (sub t : text) : bool :=
  starts_with sub t || match t with [] => false | _ :: t' => contains sub t' end.

(** The scan of [str.count] and [str.replace]: [skip] characters of the last
    occurrence are still to be passed over. *)
Fixpoint count_loop (sub : text) (skip : nat) (t : text) : Z :=
  match t with
  | [] => 0
  | _ :: t' =>
      match skip with
      | S k => count_loop sub k t'
      | O => if starts_with sub t then 1 + count_loop sub (length sub - 1) t'
             else count_loop sub 0 t'
      end
  end.

(** [t.count(sub)]; the empty string occurs once more than there are characters. *)
Definition str_count (sub t : text) : Z :=
  match sub with
  | [] => Z.of_nat (length t) + 1
  | _ => count_loop sub 0 t
  end.

Fixpoint replace_loop (sub new : text) (skip : nat) (t : text) : text :=
  match t with
  | [] => []
  | c :: t' =>
      match skip with
      | S k => replace_loop sub new k t'
      | O => if starts_with sub t then new ++ replace_loop sub new (length sub - 1) t'
             else c :: replace_loop sub new 0 t'
      end
  end.

(** [t.replace(sub, new)] for a [sub] that is not empty. *)
Definition str_replace (sub new t : text) : text := replace_loop sub new 0 t.

(** Maximal runs of characters that satisfy [p]; [word] is the run being read,
    reversed. *)
Fixpoint runs_loop (p : Z -> bool) (word : text) (t : text) : list text :=
  match t with
  | [] => if bool_decide (word = []) then [] else [reverse word]
  | c :: t' =>
      if p c then runs_loop p (c :: word) t'
      else if bool_decide (word = []) then runs_loop p [] t'
      else reverse word :: runs_loop p [] t'
  end.

Definition runs (p : Z -> bool) (t : text) : list text := runs_loop p [] t.

Section Whitespace.
Context {U : Unicode}.

(** [t.split()] *)
Definition split_ws (t : text) : list text := runs (fun c => negb (isspace c)) t.

Fixpoint lstrip (t : text) : text :=
  match t with
  | [] => []
  | c :: t' => if isspace c then lstrip t' else t
  end.

(** [t.strip()] *)
Definition strip (t : text) : text := reverse (lstrip (reverse (lstrip t))).
End Whitespace.

(** How many elements satisfy a boolean test: [sum(1 for x in l if p(x))]. *)
Definition count_if {A} (p : A -> bool) (l : list A) : Z := Z.of_nat (length (List.filter p l)).

(** ** Specifications *)

Section CountIf.
Context {A : Type}.
Implicit Types (p q : A -> bool) (l : list A).

Lemma count_if_cons p x l : count_if p (x :: l) = (if p x then 1 else 0) + count_if p l.
Proof. unfold count_if. simpl. destruct (p x); simpl; lia. Qed.

Lemma count_if_bounds p l : 0 <= count_if p l <= Z.of_nat (length l).
Proof.
  unfold count_if. pose proof (List.filter_length_le p l). lia.
Qed.

(** Counts of classes that exclude one another add up to at most the length. *)
Lemma count_if_disjoint p q l :
  (forall x, p x = true -> q x = false) ->
  count_if p l + count_if q l = count_if (fun x => p x || q x) l.
Proof.
  intros Hd. induction l as [|x l IH]; [done|]. rewrite !count_if_cons, <- IH.
  specialize (Hd x). destruct (p x), (q x); simpl; try lia; by specialize (Hd eq_refl).
Qed.
End CountIf.

Lemma starts_with_iff sub t : starts_with sub t = true <-> exists k, t = sub ++ k.
Proof. unfold starts_with. by rewrite bool_decide_eq_true. Qed.

(** [sub in t] holds exactly when the text has the substring somewhere. *)
Lemma contains_iff sub t : contains sub t = true <-> exists a b, t = a ++ sub ++ b.
Proof.
  induction t as [|c t IH]; simpl; rewrite orb_true_iff, starts_with_iff.
  - split; [intros [[k ->]|?]; [|done]; by exists [], k|].
    intros ([|? ?] & b & H); [|done]. left. by exists b.
  - rewrite IH. split.
    + intros [[k Hk]|(a & b & ->)]; [by exists [], k|by exists (c :: a), b].
    + intros ([|d a] & b & H); simplify_eq/=; [left; eauto|right; eauto].
Qed.

Lemma contains_app_r sub a t : contains sub t = true -> contains sub (a ++ t) = true.
Proof.
  rewrite !contains_iff. intros (x & y & ->). exists (a ++ x), y. by rewrite <- app_assoc.
Qed.

Lemma count_loop_skip sub k t : count_loop sub k t = count_loop sub 0 (drop k t).
Proof.
  revert t. induction k as [|k IH]; intros [|c t]; try done. simpl. by rewrite IH.
Qed.

Lemma count_loop_nonneg sub k t : 0 <= count_loop sub k t.
Proof.
  revert k. induction t as [|c t IH]; intros [|k]; simpl; try lia; [|apply IH].
  split_if; pose proof (IH 0%nat); pose proof (IH (length sub - 1)%nat); lia.
Qed.

(** Occurrences are counted without overlap. *)
Lemma count_loop_bound sub k t :
  sub <> [] -> (k <= length t)%nat ->
  count_loop sub k t * Z.of_nat (length sub) <= Z.of_nat (length t) - Z.of_nat k.
Proof.
  intros Hs. revert k. induction t as [|c t IH]; intros k Hk; [simpl in *; lia|].
  destruct k as [|k]; cbn [count_loop length] in *; [|specialize (IH k); lia].
  destruct (starts_with sub (c :: t)) eqn:E; [|specialize (IH 0%nat); lia].
  apply starts_with_iff in E as [r Hr]. apply (f_equal length) in Hr. rewrite length_app in Hr.
  destruct sub as [|d sub]; [done|]. cbn [length] in *. specialize (IH (S (length sub) - 1)%nat). lia.
Qed.

Lemma str_count_nonneg sub t : 0 <= str_count sub t.
Proof. destruct sub; simpl; [lia|]. apply count_loop_nonneg. Qed.

Lemma str_count_bound sub t : sub <> [] -> str_count sub t <= Z.of_nat (length t).
Proof.
  intros Hs. unfold str_count. destruct sub as [|c sub]; [done|].
  pose proof (count_loop_bound (c :: sub) 0 t Hs). pose proof (count_loop_nonneg (c :: sub) 0 t).
  cbn [length] in *. nia.
Qed.

(** A substring is counted exactly when it is there. *)
Lemma count_loop_contains sub t : 0 < count_loop sub 0 t <-> contains sub t = true /\ t <> [].
Proof.
  induction t as [|c t IH]; [simpl; split; [lia|by intros [_ ?]]|]. cbn [count_loop contains].
  destruct (starts_with sub (c :: t)) eqn:E; simpl.
  - pose proof (count_loop_nonneg sub (length sub - 1) t). split; [done|lia].
  - rewrite IH. split; intros [H ?]; (split; [done|]); [done|]. intros ->.
    destruct sub; [|done]. by rewrite (proj2 (starts_with_iff [] [c])) in E by eauto.
Qed.

Lemma str_count_contains sub t : sub <> [] -> 0 < str_count sub t <-> contains sub t = true.
Proof.
  intros Hs. unfold str_count. destruct sub as [|d sub]; [done|]. rewrite count_loop_contains.
  split; [by intros []|]. intros H. split; [done|]. intros ->. by destruct sub.
Qed.

(** Replacing what is not there changes nothing. *)
Lemma str_replace_absent sub new t : contains sub t = false -> str_replace sub new t = t.
Proof.
  unfold str_replace. induction t as [|c t IH]; [done|]. cbn [contains replace_loop].
  intros [-> H]%orb_false_elim. by rewrite IH.
Qed.

Lemma replace_loop_skip sub new k t : replace_loop sub new k t = replace_loop sub new 0 (drop k t).
Proof. revert t. induction k as [|k IH]; intros [|c t]; try done. simpl. by rewrite IH. Qed.

(** What is replaced leaves the replacement behind. *)
Lemma str_replace_present sub new t :
  sub <> [] -> contains sub t = true -> contains new (str_replace sub new t) = true.
Proof.
  unfold str_replace. intros Hs. induction t as [|c t IH]; cbn [contains replace_loop].
  - intros [[k Hk]%starts_with_iff|?]%orb_true_iff; [|done]. by destruct sub.
  - destruct (starts_with sub (c :: t)); simpl.
    + intros _. apply contains_iff. by eexists [], _.
    + intros H. rewrite (IH H). apply orb_true_r.
Qed.

(** ** Runs *)

Section Runs.
Context (p : Z -> bool).
Abbreviation good := (fun c => p c = true).

(** No run goes on into [t]. *)
Definition ends_run (t : text) : Prop := match t with [] => True | c :: _ => p c = false end.

Lemma reverse_not_nil (w : text) : w <> [] -> reverse w <> [].
Proof. intros Hw H%(f_equal length). rewrite length_reverse in H. by destruct w. Qed.

Lemma runs_loop_spec word t :
  Forall good word ->
  Forall (fun w => w <> [] /\ Forall good w) (runs_loop p word t) /\
  concat (runs_loop p word t) = reverse word ++ List.filter p t.
Proof.
  revert word. induction t as [|c t IH]; intros word Hw; simpl.
  - case_bool_decide; subst; simpl; [done|]. rewrite !app_nil_r. split; [|done].
    constructor; [|done]. split; [by apply reverse_not_nil|by apply Forall_reverse].
  - destruct (p c) eqn:Ec; simpl.
    + destruct (IH (c :: word) ltac:(by constructor)) as [IH1 IH2]. split; [done|].
      rewrite IH2, reverse_cons, <- app_assoc. done.
    + destruct (IH [] (Forall_nil_2 _)) as [IH1 IH2].
      case_bool_decide; subst; simpl; [done|]. rewrite IH2. split; [|done].
      constructor; [|done]. split; [by apply reverse_not_nil|by apply Forall_reverse].
Qed.

(** Runs are not empty, hold only characters of the class, and together are
    all of them. *)
Lemma runs_spec t :
  Forall (fun w => w <> [] /\ Forall good w) (runs p t) /\ concat (runs p t) = List.filter p t.
Proof. exact (runs_loop_spec [] t (Forall_nil_2 _)). Qed.

Lemma runs_length t : (length (runs p t) <= length t)%nat.
Proof.
  destruct (runs_spec t) as [Hw Hc].
  transitivity (length (concat (runs p t))).
  - clear Hc. induction Hw as [|w ws [Hne _] _ IH]; [done|]. simpl. rewrite length_app.
    destruct w; [done|]. simpl. lia.
  - rewrite Hc. apply List.filter_length_le.
Qed.

Lemma runs_nil t : runs p t = [] <-> Forall (fun c => p c = false) t.
Proof.
  destruct (runs_spec t) as [Hw Hc]. split.
  - intros H. rewrite H in Hc. simpl in Hc. clear -Hc. induction t as [|c t IH]; [done|].
    simpl in Hc. destruct (p c) eqn:E; [done|]. constructor; auto.
  - intros H. assert (Hn : List.filter p t = []).
    { clear -H. induction H as [|c t Hc _ IH]; [done|]. simpl. by rewrite Hc. }
    rewrite Hn in Hc. destruct Hw as [|w ws [Hne _] _]; [done|]. by destruct w.
Qed.

Lemma runs_loop_read word w k :
  Forall good w -> runs_loop p word (w ++ k) = runs_loop p (reverse w ++ word) k.
Proof.
  intros Hw. revert word. induction Hw as [|c w Hc _ IH]; intros word; [done|].
  simpl. rewrite Hc, IH, reverse_cons, <- app_assoc. done.
Qed.

Lemma runs_skip u t : Forall (fun c => p c = false) u -> runs p (u ++ t) = runs p t.
Proof. unfold runs. induction 1 as [|c u Hc _ IH]; [done|]. simpl. by rewrite Hc. Qed.

Lemma runs_first w k :
  w <> [] -> Forall good w -> ends_run k -> runs p (w ++ k) = w :: runs p k.
Proof.
  intros Hne Hw Hk. unfold runs. rewrite runs_loop_read, app_nil_r by done.
  apply reverse_not_nil in Hne.
  destruct k as [|c k]; simpl in *; rewrite ?Hk, bool_decide_eq_false_2 by done;
    by rewrite reverse_involutive.
Qed.

(** A text has no character of the class, or a first maximal run. *)
Lemma run_decomp t :
  Forall (fun c => p c = false) t \/
  exists u w k, t = u ++ w ++ k /\ Forall (fun c => p c = false) u /\ w <> [] /\
                Forall good w /\ ends_run k.
Proof.
  induction t as [|c t [IH|(u & w & k & -> & Hu & Hne & Hw & Hk)]]; [by left| |];
    destruct (p c) eqn:Ec; [|left; by constructor| |].
  - right. exists [], [c], t. split_and!; [done|done|done|by constructor|].
    destruct IH; simpl; done.
  - right. destruct u as [|d u].
    + exists [], (c :: w), k. split_and!; [done|done|done|by constructor|done].
    + exists [], [c], (d :: u ++ w ++ k). split_and!; [done|done|done|by constructor|].
      by apply Forall_inv in Hu.
  - right. exists (c :: u), w, k. split_and!; [done|by constructor|done|done|done].
Qed.
End Runs.

Section WhitespaceFacts.
Context {U : Unicode}.

(** [split()] yields non-empty pieces without whitespace, which together are the
    text without its whitespace; only whitespace yields none. *)
Lemma split_ws_spec t :
  Forall (fun w => w <> [] /\ Forall (fun c => isspace c = false) w) (split_ws t) /\
  concat (split_ws t) = List.filter (fun c => negb (isspace c)) t /\
  (split_ws t = [] <-> Forall (fun c => isspace c = true) t).
Proof.
  destruct (runs_spec (fun c => negb (isspace c)) t) as [H1 H2]. split_and!; [|done|].
  - eapply Forall_impl; [exact H1|]. intros w [Hw Hf]. split; [done|].
    eapply Forall_impl; [exact Hf|]. intros c. apply negb_true_iff.
  - unfold split_ws. rewrite runs_nil. apply Forall_iff. intros c. apply negb_false_iff.
Qed.
End WhitespaceFacts.
