(* ===== verification/Regex.v ===== *)
(** * Regular expressions of Python's [re]

    The program calls [re.search], [re.findall], [re.split] and [re.sub] with
    patterns without look-around and without back references.  A match is
    the first one the backtracking matcher finds: [run r c] lists, in
    the order the matcher tries them, all positions where a match of [r] that
    starts at [c] can end, and the first one is the match.  [Match] is the
    language of a pattern as a relation; the matcher finds exactly its
    members. *)
From Stdlib Require Import ZArith Lia.
From stdpp Require Import base option list strings.
From S2P Require Import Prelude PyText.
Local Open Scope Z_scope.

(** ** Patterns *)

(** Sets of characters.  [ChI c] is a literal under [re.IGNORECASE]; a dot is
    [NotIn (Ch 10)], or [AnyCh] under [re.DOTALL]. *)
Inductive cset :=
| Ch (c : Z)
| ChI (c : Z)
| Rng (lo hi : Z)
| WordCh
| SpaceCh
| AnyCh
| NotIn (s : cset)
| Either (s1 s2 : cset).

(** [Bnd] is a word boundary, [Bol] is [^] under [re.MULTILINE]; repetition is
    greedy. *)
Inductive re :=
| Emp
| CSet (s : cset)
| Bnd
| Bol
| Cat (r1 r2 : re)
| Alt (r1 r2 : re)
| Star (r : re).

Definition Plus (r : re) : re := Cat r (Star r).
Definition Opt (r : re) : re := Alt r Emp.

(** [r{1,n}] for [n > 0] *)
Fixpoint UpTo (n : nat) (r : re) : re :=
  match n with
  | O => Emp
  | S O => r
  | S n' => Cat r (Opt (UpTo n' r))
  end.

(** A literal, one with [re.IGNORECASE], and a set of literals. *)
Fixpoint lits (t : text) : re :=
  match t with
  | [] => Emp
  | [c] => CSet (Ch c)
  | c :: t' => Cat (CSet (Ch c)) (lits t')
  end.
Fixpoint litsI (t : text) : re :=
  match t with
  | [] => Emp
  | [c] => CSet (ChI c)
  | c :: t' => Cat (CSet (ChI c)) (litsI t')
  end.
Definition lit (s : string) : re := lits (codes s).
Definition litI (s : string) : re := litsI (codes s).

Fixpoint one_of (t : text) : cset :=
  match t with
  | [] => NotIn AnyCh
  | [c] => Ch c
  | c :: t' => Either (Ch c) (one_of t')
  end.
Definition chars (s : string) : cset := one_of (codes s).

(** [r1|...|rn] and a sequence. *)
Fixpoint alts (rs : list re) : re :=
  match rs with
  | [] => CSet (NotIn AnyCh)
  | [r] => r
  | r :: rs' => Alt r (alts rs')
  end.
Fixpoint cats (rs : list re) : re :=
  match rs with
  | [] => Emp
  | [r] => r
  | r :: rs' => Cat r (cats rs')
  end.

(** ** Positions *)

(** A position in the subject: what is before it, last character first, and
    what is after it. *)
Record cursor := At { before : text; after : text }.

#[global] Instance cursor_eq_dec : EqDecision cursor.
Proof. solve_decision. Defined.

(** The text between two positions of the same subject. *)
Definition between (c d : cursor) : text :=
  take (length c.(after) - length d.(after)) c.(after).

Section Matching.
Context {U : Unicode}.

Definition is_word (c : Z) : bool := isalnum c || (c =? 95).

Fixpoint in_cset (s : cset) (x : Z) : bool :=
  match s with
  | Ch c => c =? x
  | ChI c => same_case c x
  | Rng lo hi => in_range lo hi x
  | WordCh => is_word x
  | SpaceCh => isspace x
  | AnyCh => true
  | NotIn s' => negb (in_cset s' x)
  | Either s1 s2 => in_cset s1 x || in_cset s2 x
  end.

Definition head_word (t : text) : bool :=
  match t with [] => false | c :: _ => is_word c end.

Definition at_boundary (c : cursor) : bool := xorb (head_word c.(before)) (head_word c.(after)).

Definition at_line_start (c : cursor) : bool :=
  match c.(before) with [] => true | x :: _ => x =? 10 end.

(** ** The matcher *)

(** Greedy repetition: every further turn must consume something, and one more
    turn is tried before stopping. *)
Fixpoint star_loop (step : cursor -> list cursor) (fuel : nat) (c : cursor) : list cursor :=
  match fuel with
  | O => [c]
  | S n =>
      flat_map (star_loop step n)
        (List.filter (fun d => Nat.ltb (length d.(after)) (length c.(after))) (step c)) ++ [c]
  end.

Fixpoint run (r : re) (c : cursor) : list cursor :=
  match r with
  | Emp => [c]
  | CSet s =>
      match c.(after) with
      | [] => []
      | x :: rest => if in_cset s x then [At (x :: c.(before)) rest] else []
      end
  | Bnd => if at_boundary c then [c] else []
  | Bol => if at_line_start c then [c] else []
  | Cat r1 r2 => flat_map (run r2) (run r1 c)
  | Alt r1 r2 => run r1 c ++ run r2 c
  | Star r1 => star_loop (run r1) (length c.(after)) c
  end.

(** The first match at a position; with [adv] an empty one does not count. *)
Definition match_at (r : re) (adv : bool) (c : cursor) : option cursor :=
  head (List.filter (fun d => negb (adv && bool_decide (d = c))) (run r c)).

(** The scan of [search]: the leftmost position that has a match. *)
Fixpoint scan (r : re) (adv : bool) (bef aft : text) : option (cursor * cursor) :=
  match match_at r adv (At bef aft) with
  | Some e => Some (At bef aft, e)
  | None =>
      match aft with
      | [] => None
      | x :: rest => scan r false (x :: bef) rest
      end
  end.

Definition start (t : text) : cursor := At [] t.

(** [r.search(t)] *)
Definition re_search (r : re) (t : text) : option (cursor * cursor) := scan r false [] t.

Definition found (r : re) (t : text) : bool := bool_decide (is_Some (re_search r t)).

(** [r.finditer(t)]: each search starts where the last match ended, and does not
    accept an empty match where an empty one was just found. *)
Fixpoint finditer_loop (r : re) (fuel : nat) (adv : bool) (c : cursor) : list (cursor * cursor) :=
  match fuel with
  | O => []
  | S n =>
      match scan r adv c.(before) c.(after) with
      | None => []
      | Some (s, e) => (s, e) :: finditer_loop r n (bool_decide (s = e)) e
      end
  end.

(** Two turns per character at most: an empty match and one that advances. *)
Definition iter_fuel (adv : bool) (c : cursor) : nat :=
  2 * length c.(after) + (if adv then 1 else 2).

Definition finditer (r : re) (t : text) : list (cursor * cursor) :=
  finditer_loop r (iter_fuel false (start t)) false (start t).

(** [r.findall(t)] for a pattern whose groups, if any, span it. *)
Definition findall (r : re) (t : text) : list text :=
  map (fun m => between m.1 m.2) (finditer r t).

(** The pieces between matches. *)
Fixpoint pieces (c : cursor) (ms : list (cursor * cursor)) : list text :=
  match ms with
  | [] => [c.(after)]
  | (s, e) :: ms' => between c s :: pieces e ms'
  end.

(** [r.split(t)] *)
Definition re_split (r : re) (t : text) : list text := pieces (start t) (finditer r t).

(** The subject with each match [m] replaced by [f m]. *)
Fixpoint weave (f : text -> text) (c : cursor) (ms : list (cursor * cursor)) : text :=
  match ms with
  | [] => c.(after)
  | (s, e) :: ms' => between c s ++ f (between s e) ++ weave f e ms'
  end.

(** [r.sub(f, t)] and [r.sub(f, t, count=1)], the replacement given as a function of the
    matched text. *)
Definition re_sub (r : re) (f : text -> text) (t : text) : text :=
  weave f (start t) (finditer r t).
Definition re_sub1 (r : re) (f : text -> text) (t : text) : text :=
  weave f (start t) (take 1 (finditer r t)).

(** ** The language of a pattern *)

Inductive Match : re -> cursor -> cursor -> Prop :=
| MEmp c : Match Emp c c
| MSet s b x a : in_cset s x = true -> Match (CSet s) (At b (x :: a)) (At (x :: b) a)
| MBnd c : at_boundary c = true -> Match Bnd c c
| MBol c : at_line_start c = true -> Match Bol c c
| MCat r1 r2 c d e : Match r1 c d -> Match r2 d e -> Match (Cat r1 r2) c e
| MAltL r1 r2 c d : Match r1 c d -> Match (Alt r1 r2) c d
| MAltR r1 r2 c d : Match r2 c d -> Match (Alt r1 r2) c d
| MStar0 r c : Match (Star r) c c
| MStarS r c d e : Match r c d -> Match (Star r) d e -> Match (Star r) c e.
End Matching.
#[export] Hint Constructors Match : sched.

(** [d] lies [w] further on in the same subject. *)
Definition moved (w : text) (c d : cursor) : Prop :=
  c.(after) = w ++ d.(after) /\ d.(before) = reverse w ++ c.(before).
Definition reaches (c d : cursor) : Prop := exists w, moved w c d.

Lemma moved_nil c : moved [] c c.
Proof. done. Qed.

Lemma moved_trans v w c d e : moved v c d -> moved w d e -> moved (v ++ w) c e.
Proof.
  intros [H1 H2] [H3 H4]. split; [by rewrite H1, H3, app_assoc|].
  by rewrite H4, H2, reverse_app, app_assoc.
Qed.

Lemma moved_between w c d : moved w c d -> between c d = w.
Proof.
  intros [H _]. unfold between. rewrite H, length_app.
  replace (length w + length (after d) - length (after d))%nat with (length w) by lia.
  by rewrite take_app_length.
Qed.

Lemma reaches_refl c : reaches c c.
Proof. by exists []. Qed.

Lemma reaches_trans c d e : reaches c d -> reaches d e -> reaches c e.
Proof. intros [v Hv] [w Hw]. exists (v ++ w). by eapply moved_trans. Qed.

Lemma reaches_length c d : reaches c d -> (length d.(after) <= length c.(after))%nat.
Proof. intros [w [H _]]. rewrite H, length_app. lia. Qed.

(** Without progress there is no movement. *)
Lemma reaches_eq c d :
  reaches c d -> (length c.(after) <= length d.(after))%nat -> d = c.
Proof.
  intros [w [H1 H2]] Hl. rewrite H1, length_app in Hl. destruct w; [|simpl in Hl; lia].
  destruct c, d; simpl in *. by subst.
Qed.

Lemma reaches_step x b a : reaches (At b (x :: a)) (At (x :: b) a).
Proof. by exists [x]. Qed.
#[export] Hint Resolve reaches_refl reaches_step reaches_trans : sched.

Section MatchFacts.
Context {U : Unicode}.
Implicit Types (r : re) (c d e : cursor).

Lemma Match_reaches r c d : Match r c d -> reaches c d.
Proof. induction 1; eauto with sched. Qed.

Lemma elem_of_flat_map {A B} (f : A -> list B) l y :
  y ∈ flat_map f l <-> exists x, x ∈ l /\ y ∈ f x.
Proof. rewrite list_elem_of_In, in_flat_map. setoid_rewrite list_elem_of_In. done. Qed.

Lemma elem_of_List_filter {A} (p : A -> bool) l x :
  x ∈ List.filter p l <-> x ∈ l /\ p x = true.
Proof. by rewrite !list_elem_of_In, filter_In. Qed.

(** Repetition by turns that advance reaches what repetition reaches. *)
Lemma star_loop_iff r fuel c d :
  (forall e e', e' ∈ run r e <-> Match r e e') ->
  (length c.(after) <= fuel)%nat ->
  d ∈ star_loop (run r) fuel c <-> Match (Star r) c d.
Proof.
  intros Hr. revert c. induction fuel as [|n IH]; intros c Hf; split.
  - intros ->%list_elem_of_singleton. constructor.
  - intros H. apply list_elem_of_singleton, reaches_eq; [by eapply Match_reaches|lia].
  - cbn [star_loop]. rewrite elem_of_app, elem_of_flat_map, list_elem_of_singleton.
    intros [(e & [He Hl]%elem_of_List_filter & Hd)| ->]; [|constructor].
    apply Nat.ltb_lt in Hl. apply Hr in He. apply IH in Hd; [|lia]. by eapply MStarS.
  - intros H. remember (Star r) as q eqn:Eq. cbn [star_loop].
    rewrite elem_of_app, elem_of_flat_map, list_elem_of_singleton.
    induction H as [| | | | | | |q c|q c e d H1 _ H2 IH2]; simplify_eq; [by right|].
    destruct (decide (length (after e) < length (after c))%nat) as [Hl|Hl].
    + left. exists e. rewrite elem_of_List_filter. split; [split; [by apply Hr|by apply Nat.ltb_lt]|].
      apply IH; [lia|done].
    + apply Match_reaches in H1. assert (e = c) as -> by (apply reaches_eq; [done|lia]). auto.
Qed.

(** The backtracking matcher is sound and complete: the positions it lists for a
    pattern and a starting position are exactly the ends of the matches of the
    pattern there, repetition of empty matches included. *)
Theorem run_iff r c d : d ∈ run r c <-> Match r c d.
Proof.
  revert c d. induction r as [|s| | |r1 IH1 r2 IH2|r1 IH1 r2 IH2|r IH]; intros c d; cbn [run].
  - rewrite list_elem_of_singleton. split; [intros ->; constructor|by inversion 1].
  - destruct c as [b [|x a]]; cbn [after before].
    + split; [by intros ?%elem_of_nil|inversion 1].
    + destruct (in_cset s x) eqn:E; [rewrite list_elem_of_singleton|]; split;
        [intros ->; by constructor|by inversion 1|by intros ?%elem_of_nil|inversion 1; congruence].
  - destruct (at_boundary c) eqn:E; [rewrite list_elem_of_singleton|]; split;
      [intros ->; by constructor|by inversion 1|by intros ?%elem_of_nil|inversion 1; congruence].
  - destruct (at_line_start c) eqn:E; [rewrite list_elem_of_singleton|]; split;
      [intros ->; by constructor|by inversion 1|by intros ?%elem_of_nil|inversion 1; congruence].
  - rewrite elem_of_flat_map. setoid_rewrite IH1. setoid_rewrite IH2. split.
    + intros (e & ? & ?). by eapply MCat.
    + inversion 1; eauto.
  - rewrite elem_of_app, IH1, IH2. split; [intros []; eauto with sched|inversion 1; auto].
  - apply star_loop_iff; [done|lia].
Qed.

Lemma run_reaches r c d : d ∈ run r c -> reaches c d.
Proof. intros ?%run_iff. by eapply Match_reaches. Qed.

(** ** Searching *)

Lemma match_at_Some r adv c d :
  match_at r adv c = Some d -> Match r c d /\ (adv = true -> d <> c).
Proof.
  unfold match_at. intros H%head_Some_elem_of. apply elem_of_List_filter in H as [H Ha].
  apply run_iff in H. split; [done|]. intros ->. simpl in Ha. by case_bool_decide.
Qed.

Lemma match_at_None r adv c :
  match_at r adv c = None <-> forall d, Match r c d -> adv = true /\ d = c.
Proof.
  unfold match_at. rewrite head_None. split.
  - intros H d Hd%run_iff.
    destruct (negb (adv && bool_decide (d = c))) eqn:E.
    + exfalso. apply (not_elem_of_nil d). rewrite <- H. by apply elem_of_List_filter.
    + apply negb_false_iff, andb_true_iff in E as [? ?%bool_decide_eq_true]. done.
  - intros H. destruct (List.filter _ _) as [|d l] eqn:E; [done|].
    assert (Hd : d ∈ d :: l) by (by left). rewrite <- E in Hd.
    apply elem_of_List_filter in Hd as [Hd Ha]. apply run_iff, H in Hd as [-> ->].
    by rewrite bool_decide_eq_true_2 in Ha.
Qed.

(** What the scan finds is the leftmost position with an acceptable match. *)
Lemma scan_Some r adv b a s e :
  scan r adv b a = Some (s, e) ->
  reaches (At b a) s /\ Match r s e /\ (s = At b a -> adv = true -> e <> s) /\
  (forall s' e', reaches (At b a) s' -> (length (after s) < length (after s'))%nat ->
                 Match r s' e' -> adv = true /\ s' = At b a /\ e' = s').
Proof.
  revert adv b. induction a as [|x a IH]; intros adv b; cbn [scan];
    destruct (match_at r adv (At b _)) as [d|] eqn:E; intros H; simplify_eq.
  1,2: apply match_at_Some in E as [E1 E2]; split_and!; [apply reaches_refl|done|done|];
    intros s' e' Hs' Hl; apply reaches_length in Hs'; cbn [after] in *; simpl in *; lia.
  apply IH in H as (H1 & H2 & H3 & H4). split_and!; [eauto with sched|done| |].
  - intros -> _. apply reaches_length in H1. simpl in H1. lia.
  - intros s' e' Hr Hl Hm. destruct Hr as [[|y w] [Hw1 Hw2]].
    + destruct s' as [b' a']; simpl in *; subst. destruct (proj1 (match_at_None _ _ _) E _ Hm).
      by subst.
    + destruct s' as [b' a']; simpl in *; simplify_eq.
      rewrite reverse_cons, <- app_assoc in Hm.
      exfalso. destruct (H4 (At (reverse w ++ [y] ++ b) a') e') as [? _]; [by exists w|done|done|done].
Qed.

Lemma scan_None r adv b a :
  scan r adv b a = None ->
  forall s e, reaches (At b a) s -> Match r s e -> adv = true /\ s = At b a /\ e = s.
Proof.
  revert adv b. induction a as [|x a IH]; intros adv b; cbn [scan];
    destruct (match_at r adv (At b _)) as [d|] eqn:E; intros H; simplify_eq;
    intros s e [[|y w] [Hw1 Hw2]] Hm; destruct s as [b' a']; simpl in *; simplify_eq.
  - destruct (proj1 (match_at_None _ _ _) E _ Hm). by subst.
  - destruct (proj1 (match_at_None _ _ _) E _ Hm). by subst.
  - exfalso. rewrite reverse_cons, <- app_assoc in Hm.
    destruct (IH _ _ H (At (reverse w ++ [y] ++ b) a') e) as [? _]; [by exists w|done|done].
Qed.

(** A search succeeds exactly when some part of the subject matches. *)
Lemma found_iff r t :
  found r t = true <-> exists s e, reaches (start t) s /\ Match r s e.
Proof.
  unfold found. rewrite bool_decide_eq_true. split.
  - intros [[s e] H]. apply scan_Some in H as (? & ? & _). eauto.
  - intros (s & e & Hs & Hm). unfold re_search. destruct (scan r false [] t) as [?|] eqn:E; [eauto|].
    exfalso. by destruct (scan_None _ _ _ _ E s e Hs Hm).
Qed.

(** ** Iterated search *)

(** Matches in order, without overlap. *)
Inductive chain r : cursor -> list (cursor * cursor) -> Prop :=
| chain_nil c : chain r c []
| chain_cons c s e ms :
    reaches c s -> Match r s e -> chain r e ms -> chain r c ((s, e) :: ms).

Lemma finditer_loop_chain r fuel adv c : chain r c (finditer_loop r fuel adv c).
Proof.
  revert adv c. induction fuel as [|n IH]; intros adv c; cbn [finditer_loop]; [constructor|].
  destruct (scan _ _ _ _) as [[s e]|] eqn:E; [|constructor].
  destruct c as [b a]. apply scan_Some in E as (? & ? & _). by constructor.
Qed.

Lemma cursor_eta c : At (before c) (after c) = c.
Proof. by destruct c. Qed.

(** Each turn of the iteration lowers the fuel that is needed. *)
Lemma iter_progress r adv c s e :
  scan r adv c.(before) c.(after) = Some (s, e) ->
  (iter_fuel (bool_decide (s = e)) e < iter_fuel adv c)%nat.
Proof.
  intros (H1 & H2 & H3 & _)%scan_Some. rewrite cursor_eta in *. unfold iter_fuel.
  pose proof (reaches_length _ _ H1). apply Match_reaches in H2. pose proof (reaches_length _ _ H2).
  case_bool_decide as E.
  - subst e. destruct (decide (s = c)) as [->|Hne].
    + destruct adv; [by destruct (H3 eq_refl eq_refl)|lia].
    + destruct (decide (length (after c) <= length (after s))%nat).
      * by apply reaches_eq in H1.
      * destruct adv; lia.
  - destruct (decide (length (after s) <= length (after e))%nat) as [Hl|Hl].
    + by apply reaches_eq in H2; [subst|].
    + destruct adv; lia.
Qed.

(** Positions of one subject are ordered by how much is left. *)
Lemma reaches_linear c d e :
  reaches c d -> reaches c e -> (length (after e) <= length (after d))%nat -> reaches d e.
Proof.
  intros [v [Hv1 Hv2]] [w [Hw1 Hw2]] Hl.
  rewrite Hv1 in Hw1. pose proof (f_equal length Hw1) as Hlen. rewrite !length_app in Hlen.
  apply app_eq_inv in Hw1 as [(k & Hk1 & Hk2)|(k & Hk1 & Hk2)].
  - rewrite Hk2, length_app in Hl. destruct k; [|simpl in Hl; lia].
    exists []. simpl in *. rewrite app_nil_r in Hk1. subst. split; [done|]. simpl.
    by rewrite Hw2, Hv2.
  - exists k. split; [done|]. by rewrite Hw2, Hk1, reverse_app, <- app_assoc, Hv2.
Qed.

Lemma finditer_loop_complete r fuel adv c s' e' :
  (iter_fuel adv c <= fuel)%nat -> reaches c s' -> Match r s' e' -> e' <> s' ->
  exists s e, (s, e) ∈ finditer_loop r fuel adv c /\ reaches s s' /\
              (s' = s \/ (length (after e) < length (after s'))%nat).
Proof.
  revert adv c. induction fuel as [|n IH]; intros adv c Hf Hr Hm Hne;
    [unfold iter_fuel in Hf; destruct adv; lia|].
  cbn [finditer_loop]. destruct (scan r adv (before c) (after c)) as [[s e]|] eqn:E.
  2: { exfalso. rewrite <- (cursor_eta c) in Hr.
       by destruct (scan_None _ _ _ _ E s' e' Hr Hm) as (_ & _ & ?). }
  pose proof (iter_progress _ _ _ _ _ E) as Hp.
  apply scan_Some in E as (H1 & H2 & _ & H4). rewrite cursor_eta in *.
  destruct (decide (length (after s) < length (after s'))%nat) as [Hl|Hl].
  { exfalso. by destruct (H4 s' e' Hr Hl Hm) as (_ & _ & ?). }
  assert (Hss : reaches s s') by (apply (reaches_linear c); [done|done|lia]).
  destruct (decide (length (after e) < length (after s'))%nat) as [He|He].
  { exists s, e. split; [by left|auto]. }
  destruct (IH (bool_decide (s = e)) e) as (s1 & e1 & Hin & ?); [lia| |done|done|].
  { apply (reaches_linear c); [|done|lia]. eapply reaches_trans; [done|by eapply Match_reaches]. }
  exists s1, e1. split; [by right|done].
Qed.

(** Iterated search returns matches of the pattern in order and without overlap, and
    misses none: every place where the pattern matches something is the start
    of a reported match or lies inside one. *)
Theorem finditer_spec r t :
  chain r (start t) (finditer r t) /\
  forall s' e', reaches (start t) s' -> Match r s' e' -> e' <> s' ->
  exists s e, (s, e) ∈ finditer r t /\ reaches s s' /\
              (s' = s \/ (length (after e) < length (after s'))%nat).
Proof.
  split; [apply finditer_loop_chain|]. intros. by eapply finditer_loop_complete.
Qed.

(** The pieces and the matches put together again. *)
Fixpoint interleave (ps ms : list text) : text :=
  match ps, ms with
  | p :: ps', m :: ms' => p ++ m ++ interleave ps' ms'
  | p :: _, [] => p
  | [], _ => []
  end.

Lemma between_after c d : reaches c d -> between c d ++ after d = after c.
Proof. intros [w Hw]. rewrite (moved_between w c d Hw). by destruct Hw. Qed.

Lemma chain_weave r (f : text -> text) c ms :
  chain r c ms -> weave f c ms = interleave (pieces c ms) (map (fun m => f (between m.1 m.2)) ms).
Proof. induction 1 as [c|c s e ms _ _ _ IH]; simpl; [done|]. by rewrite IH. Qed.

Lemma chain_weave_id r c ms : chain r c ms -> weave id c ms = after c.
Proof.
  induction 1 as [c|c s e ms H1 H2 _ IH]; simpl; [done|]. rewrite IH. unfold id.
  rewrite (between_after s e) by (by eapply Match_reaches). by apply between_after.
Qed.

Lemma chain_take r n c ms : chain r c ms -> chain r c (take n ms).
Proof.
  intros H. revert n. induction H as [|c s e ms ? ? _ IH]; intros [|n]; simpl; try constructor; auto.
Qed.

Lemma pieces_length c ms : length (pieces c ms) = S (length ms).
Proof. revert c. induction ms as [|[s e] ms IH]; intros c; simpl; [done|]. by rewrite IH. Qed.

Lemma re_split_length r t : length (re_split r t) = S (length (findall r t)).
Proof. unfold re_split, findall. by rewrite pieces_length, length_map. Qed.

(** Splitting loses nothing: the pieces with the matches put back between them are
    the subject, and there is one piece more than there are matches. *)
Theorem split_interleave r t :
  interleave (re_split r t) (findall r t) = t /\
  length (re_split r t) = S (length (findall r t)).
Proof.
  unfold re_split, findall. pose proof (finditer_loop_chain r (iter_fuel false (start t)) false (start t)) as H.
  fold (finditer r t) in H. split.
  - rewrite <- (chain_weave r id) by done. by rewrite (chain_weave_id r).
  - by rewrite pieces_length, length_map.
Qed.

(** Substitution rewrites the matches and keeps the pieces. *)
Lemma re_sub_interleave r f t :
  re_sub r f t = interleave (re_split r t) (map f (findall r t)).
Proof.
  unfold re_sub, findall. rewrite map_map. apply (chain_weave r), finditer_loop_chain.
Qed.

(** Nothing to replace, nothing changed. *)
Lemma not_found_finditer r t : found r t = false -> finditer r t = [].
Proof.
  unfold found, re_search, finditer. intros H%bool_decide_eq_false.
  replace (iter_fuel false (start t)) with (S (2 * length t + 1)) by (unfold iter_fuel; simpl; lia).
  cbn [finditer_loop before after start]. destruct (scan _ _ _ _) eqn:E; [destruct H; eauto|done].
Qed.

Lemma re_sub_absent r f t : found r t = false -> re_sub r f t = t.
Proof. intros H. unfold re_sub. by rewrite not_found_finditer. Qed.
End MatchFacts.

(** ** Which match comes first *)

Section FirstMatch.
Context {U : Unicode}.

(** The match of [r] at [c] the matcher finds first ends at [d]. *)
Definition first (r : re) (c d : cursor) : Prop := head (run r c) = Some d.

Lemma match_at_first r c d : first r c d -> match_at r false c = Some d.
Proof.
  unfold first, match_at. simpl. intros H.
  replace (List.filter _ (run r c)) with (run r c); [done|].
  induction (run r c) as [|x l IH]; [done|]. simpl. f_equal. clear. by induction l as [|y l IH]; [|simpl; f_equal].
Qed.

Lemma first_Cat r1 r2 c d e : first r1 c d -> first r2 d e -> first (Cat r1 r2) c e.
Proof.
  unfold first. intros H1 H2. cbn [run]. destruct (run r1 c) as [|x l]; [done|]. injection H1 as ->.
  simpl. destruct (run r2 d) as [|y l']; [done|]. by injection H2 as ->.
Qed.

Lemma first_Bnd c : at_boundary c = true -> first Bnd c c.
Proof. unfold first. simpl. by intros ->. Qed.

Lemma first_CSet s x b t : in_cset s x = true -> first (CSet s) (At b (x :: t)) (At (x :: b) t).
Proof. unfold first. simpl. by intros ->. Qed.

Lemma first_lits w b k : first (lits w) (At b (w ++ k)) (At (reverse w ++ b) k).
Proof.
  revert b. induction w as [|x [|y w] IH]; intros b; [done| |].
  - apply first_CSet. simpl. apply Z.eqb_refl.
  - rewrite reverse_cons, <- app_assoc. eapply first_Cat; [apply first_CSet; simpl; apply Z.eqb_refl|]. apply IH.
Qed.

(** Greedy repetition of a character set first tries the longest run. *)
Lemma star_set_first s fuel w b k :
  Forall (fun c => in_cset s c = true) w -> ends_run (in_cset s) k -> (length (w ++ k) <= fuel)%nat ->
  exists l, star_loop (run (CSet s)) fuel (At b (w ++ k)) = At (reverse w ++ b) k :: l.
Proof.
  intros Hw Hk. revert b fuel. induction Hw as [|c w Hc _ IH]; intros b [|fuel] Hf.
  - by exists [].
  - exists []. destruct k as [|c k]; cbn [star_loop run app after before] in *; [done|].
    simpl in Hk. by rewrite Hk.
  - simpl in Hf. lia.
  - cbn [app length star_loop run after before] in *. rewrite Hc. cbn [List.filter after].
    rewrite (proj2 (Nat.ltb_lt _ _)) by lia. cbn [flat_map].
    destruct (IH (c :: b) fuel ltac:(lia)) as [l Hl]. rewrite Hl.
    eexists. rewrite reverse_cons, <- !app_assoc. done.
Qed.

Lemma first_star_set s w b k :
  Forall (fun c => in_cset s c = true) w -> ends_run (in_cset s) k ->
  first (Star (CSet s)) (At b (w ++ k)) (At (reverse w ++ b) k).
Proof.
  intros Hw Hk. unfold first.
  change (run (Star (CSet s)) (At b (w ++ k)))
    with (star_loop (run (CSet s)) (length (w ++ k)) (At b (w ++ k))).
  by destruct (star_set_first s _ w b k Hw Hk (le_n _)) as [l ->].
Qed.

Lemma first_plus_set s w b k :
  w <> [] -> Forall (fun c => in_cset s c = true) w -> ends_run (in_cset s) k ->
  first (Plus (CSet s)) (At b (w ++ k)) (At (reverse w ++ b) k).
Proof.
  intros Hne Hw Hk. destruct w as [|c w]; [done|]. apply Forall_cons in Hw as [Hc Hw].
  eapply first_Cat; [by apply first_CSet|]. rewrite reverse_cons, <- app_assoc. by apply first_star_set.
Qed.
End FirstMatch.
