(* ===== verification/FloatBounds.v ===== *)
(** * Bounds on float arithmetic

    Magnitudes of sums, products and quotients with rounding: what keeps
    computed features and metrics finite.  A magnitude is counted in units
    [2^e] of the grid, small multiples of which rounding fixes. *)
From Stdlib Require Import ZArith Lia.
From stdpp Require Import base option list strings.
From S2P Require Import Prelude PyFloat.
Local Open Scope Z_scope.

(** ** Representable bounds *)

(** Integers of 53 bits, scaled by a power of two, are fixed by rounding. *)
Lemma round_pos_scaled k e : 0 <= k < 2 ^ 53 -> 0 <= e -> round_pos (k * 2 ^ e) 1 = k * 2 ^ e.
Proof.
  intros Hk He. unfold round_pos, round_at. rewrite Z.mul_1_l.
  set (E := ulp_exp 0 53 (k * 2 ^ e) 1).
  assert (HE : 0 <= E <= e).
  { unfold E, ulp_exp. rewrite Z.div_1_r. destruct (Z.eq_dec k 0) as [->|Hk0]; [simpl; lia|].
    rewrite Z.log2_mul_pow2 by lia.
    assert (Z.log2 k < 53) by (apply Z.log2_lt_pow2; lia). lia. }
  replace (k * 2 ^ e) with (k * 2 ^ (e - E) * 2 ^ E).
  - rewrite rne_exact; [done|]. apply pow2_pos. lia.
  - rewrite <- Z.mul_assoc, <- Z.pow_add_r by lia. f_equal. f_equal. lia.
Qed.

Lemma grid_def : grid = 1074.
Proof. fcompute. Qed.

Lemma overflow_def : overflow = 2 ^ 2098.
Proof. fcompute. Qed.

Lemma wf_scaled k e : 0 <= k < 2 ^ 53 -> 0 <= e <= 2045 -> wf_float (Fin (k * 2 ^ e)) = true.
Proof.
  intros Hk He. pose proof (pow2_pos e ltac:(lia)) as Hp. cbn [wf_float].
  rewrite Z.abs_eq by (apply Z.mul_nonneg_nonneg; lia).
  rewrite round_pos_scaled, Z.eqb_refl by lia. cbn [andb]. apply Z.ltb_lt. rewrite overflow_def.
  apply Z.lt_le_trans with (2 ^ 53 * 2 ^ e); [apply Z.mul_lt_mono_pos_r; lia|].
  rewrite <- Z.pow_add_r by lia. apply Z.pow_le_mono_r; lia.
Qed.

(** Rounding stays within a representable bound. *)
Lemma round_ratio_within n d b :
  0 < d -> wf_float (Fin b) = true -> 0 <= b -> Z.abs n <= b * d ->
  exists z, round_ratio n d = Fin z /\ Z.abs z <= b.
Proof.
  intros Hd Hb Hb0 Hn.
  assert (Hwn : wf_float (Fin (- b)) = true) by (by apply (fneg_wf (Fin b))).
  assert (H1 : (Fin (- b) <= round_ratio n d)%float).
  { rewrite <- (round_ratio_fixed (- b)) by done. apply round_ratio_mono; lia. }
  assert (H2 : (round_ratio n d <= Fin b)%float).
  { rewrite <- (round_ratio_fixed b) by done. apply round_ratio_mono; lia. }
  destruct (round_ratio n d) as [z|[]|]; try done.
  apply fle_Fin in H1, H2. exists z. split; [done|lia].
Qed.

(** ** Sums *)

Section Units.
Context (e : Z) (He : 0 <= e <= 2045).

(** [x] is finite and at most [k] units [2^e] away from zero. *)
Definition mag (k : Z) (x : float) : Prop := exists z, x = Fin z /\ Z.abs z <= k * 2 ^ e.

Lemma mag_fin k x : mag k x -> is_fin x = true.
Proof. by intros (z & -> & _). Qed.

Lemma mag_weaken j k x : j <= k -> mag j x -> mag k x.
Proof.
  intros Hjk (z & -> & Hz). exists z. split; [done|]. pose proof (pow2_pos e ltac:(lia)).
  etransitivity; [exact Hz|]. apply Z.mul_le_mono_nonneg_r; lia.
Qed.

Lemma mag_0 k : 0 <= k -> mag k f0.
Proof.
  intros Hk. exists 0. split; [done|]. pose proof (pow2_pos e ltac:(lia)).
  apply Z.mul_nonneg_nonneg; lia.
Qed.

Lemma mag_fneg k x : mag k x -> mag k (fneg x).
Proof. intros (z & -> & Hz). exists (- z). split; [done|lia]. Qed.

Lemma mag_fadd j k x y :
  0 <= j -> 0 <= k -> j + k < 2 ^ 53 -> mag j x -> mag k y -> mag (j + k) (fadd x y).
Proof.
  intros Hj Hk Hs (a & -> & Ha) (b & -> & Hb). cbn [fadd].
  pose proof (pow2_pos e ltac:(lia)).
  apply round_ratio_within; [lia|apply wf_scaled; lia|apply Z.mul_nonneg_nonneg; lia|]. lia.
Qed.

Lemma mag_fsub j k x y :
  0 <= j -> 0 <= k -> j + k < 2 ^ 53 -> mag j x -> mag k y -> mag (j + k) (fsub x y).
Proof. intros. apply mag_fadd; [done..|]. by apply mag_fneg. Qed.

(** The correction term of one step of the compensated sum. *)
Lemma correction_mag j acc x :
  0 <= j -> 2 * j + 2 < 2 ^ 53 -> mag j acc -> mag 1 x ->
  mag (2 * j + 2) (if fleb (fabs x) (fabs acc) then fadd (fsub acc (fadd acc x)) x
                   else fadd (fsub x (fadd acc x)) acc).
Proof.
  intros Hj Hs Ha Hx.
  assert (Ht : mag (j + 1) (fadd acc x)) by (apply mag_fadd; [lia..|done|done]).
  destruct (fleb _ _).
  - replace (2 * j + 2) with ((j + (j + 1)) + 1) by lia.
    apply mag_fadd; [lia..| |done]. apply mag_fsub; [lia..|done|done].
  - replace (2 * j + 2) with ((1 + (j + 1)) + j) by lia.
    apply mag_fadd; [lia..| |done]. apply mag_fsub; [lia..|done|done].
Qed.

Lemma fsum_loop_fin N j m acc c xs :
  0 <= j -> 0 <= m -> j + Z.of_nat (length xs) <= N ->
  m + Z.of_nat (length xs) * (2 * N + 2) + N < 2 ^ 53 ->
  mag j acc -> mag m c -> Forall (mag 1) xs -> is_fin (fsum_loop acc c xs) = true.
Proof.
  intros Hj Hm HN HM Ha Hc Hxs. revert j m acc c Hj Hm HN HM Ha Hc.
  induction Hxs as [|x xs Hx _ IH]; intros j m acc c Hj Hm HN HM Ha Hc.
  - cbn [fsum_loop]. simpl in *. destruct (_ && _); [|by eapply mag_fin].
    eapply mag_fin, mag_fadd; [exact Hj|exact Hm|lia|done|done].
  - cbn [fsum_loop length] in *. rewrite Nat2Z.inj_succ in *.
    apply (IH (j + 1) (m + (2 * j + 2))); [lia|lia|lia|nia| |].
    + apply mag_fadd; [lia|lia|nia|done|done].
    + apply mag_fadd; [lia|lia|nia|done|]. apply correction_mag; [lia|nia|done|done].
Qed.

(** A compensated sum of up to twenty million bounded terms is finite. *)
Lemma fsum_fin xs :
  Z.of_nat (length xs) <= 20000000 -> Forall (mag 1) xs -> is_fin (fsum xs) = true.
Proof.
  intros Hl Hxs. destruct Hxs as [|x xs Hx Hxs]; [done|]. cbn [length] in Hl. cbn [fsum].
  apply (fsum_loop_fin 20000000 1 0); [lia|lia|lia|lia| |by apply mag_0|done].
  apply (mag_fadd 0 1); [lia..|by apply mag_0|done].
Qed.
End Units.

Lemma fsum_loop_wf acc c xs : wf_float acc = true -> wf_float (fsum_loop acc c xs) = true.
Proof.
  revert acc c. induction xs as [|x xs IH]; intros acc c Ha; cbn [fsum_loop]; [|apply IH, fadd_wf].
  destruct (_ && _); [apply fadd_wf|done].
Qed.

Lemma fsum_wf xs : wf_float (fsum xs) = true.
Proof. destruct xs; [done|]. apply fsum_loop_wf, fadd_wf. Qed.

(** ** Ratios and integers *)

Lemma int_div_def n d : 0 < d -> int_div n d = Ok (flit n d).
Proof.
  intros Hd. unfold int_div. destruct (d =? 0) eqn:E; bool_to_prop; [lia|].
  by rewrite Z.sgn_pos, Z.mul_1_r, Z.abs_eq, flit_def by lia.
Qed.

Lemma flit_nonneg n d : 0 < d -> 0 <= n -> (f0 <= flit n d)%float.
Proof.
  intros Hd Hn. rewrite flit_def. unfold f0. rewrite <- (round_ratio_0 1).
  pose proof unit_pos as Hu. apply round_ratio_mono; [done|done|].
  assert (0 <= n * 2 ^ grid) by (apply Z.mul_nonneg_nonneg; lia). lia.
Qed.

(** A part of a positive whole is a number between 0 and 1. *)
Lemma ratio_unit n d : 0 < d -> 0 <= n <= d -> (f0 <= flit n d)%float /\ (flit n d <= f1)%float.
Proof.
  intros Hd Hn. split; [apply flit_nonneg; lia|]. apply (flit_mono_1 n d 1); lia.
Qed.

Lemma of_int_nonneg n : 0 <= n -> (f0 <= of_int n)%float.
Proof. intros H. rewrite <- of_int_0. by apply of_int_mono. Qed.

(** Counts below [2^1000] convert to finite floats. *)
Lemma of_int_fin n : 0 <= n <= 2 ^ 70 -> is_fin (of_int n) = true.
Proof.
  intros [Hn Hm]. apply (fin_between _ (of_int (2 ^ 70))); [by apply of_int_nonneg|by apply of_int_mono|].
  fcompute.
Qed.

Lemma unit_fin x : (f0 <= x)%float -> (x <= f1)%float -> is_fin x = true.
Proof. intros H0 H1. apply (fin_between _ _ H0 H1). fcompute. Qed.

Lemma fmul_comm x y : fmul x y = fmul y x.
Proof.
  destruct x as [a|s|], y as [b|t|]; cbn [fmul]; try reflexivity.
  - by rewrite Z.mul_comm.
  - by rewrite xorb_comm.
  - by rewrite xorb_comm.
  - by rewrite xorb_comm.
Qed.

(** Adding nonnegative numbers, the left one possibly infinite. *)
Lemma fadd_nonneg_l x y :
  is_fin y = true -> (f0 <= x)%float -> (f0 <= y)%float -> (f0 <= fadd x y)%float.
Proof.
  intros Hf Hx Hy. destruct y as [b|?|]; [|discriminate Hf..].
  destruct x as [a|s|]; [by apply fadd_nonneg| |].
  - exact Hx.
  - exact Hx.
Qed.

(** A nonnegative number divided by a positive one. *)
Lemma fdiv_nonneg x b q :
  0 < b -> (f0 <= x)%float -> fdiv x (Fin b) = Ok q -> (f0 <= q)%float.
Proof.
  intros Hb H0 Hq. destruct x as [a|s|].
  - apply fle_Fin in H0. rewrite fdiv_Fin in Hq by lia. simplify_eq.
    unfold f0. rewrite <- (round_ratio_0 1). pose proof unit_pos as Hu.
    apply round_ratio_mono; [done|done|].
    assert (0 <= a * 2 ^ grid) by (apply Z.mul_nonneg_nonneg; lia). lia.
  - destruct b as [|b|b]; [lia| |lia]. simpl in Hq. simplify_eq. by destruct s.
  - apply fle_not_nan in H0 as [_ H0]. discriminate H0.
Qed.

Lemma of_int_3 : of_int 3 = Fin (3 * 2 ^ grid). Proof. fcompute. Qed.

(** A ratio of counts, the divisor at least one, is finite. *)
Lemma flit_fin n d : 0 < d -> 0 <= n <= 2 ^ 70 -> is_fin (flit n d) = true.
Proof.
  intros Hd Hn. apply (fin_between _ (of_int (2 ^ 70))); [apply flit_nonneg; lia| |fcompute].
  apply flit_mono_1; [done|]. destruct Hn as [Hn Hm]. etransitivity; [exact Hm|].
  rewrite <- (Z.mul_1_r (2 ^ 70)) at 1. apply Z.mul_le_mono_nonneg_l; [by apply Z.pow_nonneg|lia].
Qed.

(** Dividing by something that is at least one keeps a number finite. *)
Lemma fdiv_fin x y :
  is_fin x = true -> wf_float x = true -> is_fin y = true -> (f1 <= y)%float ->
  exists q, fdiv x y = Ok q /\ is_fin q = true.
Proof.
  intros Hx Hw Hyf Hy. rewrite f1_def in Hy.
  destruct x as [a|s|]; [|discriminate Hx..]. destruct y as [b|s|]; [|discriminate Hyf..].
  apply fle_Fin in Hy. pose proof unit_pos as Hu. rewrite fdiv_Fin by lia.
  eexists. split; [reflexivity|].
  destruct (round_ratio_within (a * 2 ^ grid) b (Z.abs a)) as (z & -> & _); [lia| |lia| |reflexivity].
  - destruct (Z.abs_spec a) as [[_ ->]|[_ ->]]; [done|]. by apply (fneg_wf (Fin a)).
  - rewrite Z.abs_mul, (Z.abs_eq (2 ^ grid)) by lia. by apply Z.mul_le_mono_nonneg_l; [lia|].
Qed.

(** ** Exact subtraction *)

(** The integers up to [2^53] are exact. *)
Lemma of_int_exact n : (0 <= n < 2 ^ 53) -> of_int n = Fin (n * 2 ^ grid).
Proof.
  intros Hn. rewrite of_int_def. apply round_ratio_fixed, wf_scaled; [done|].
  rewrite grid_def. lia.
Qed.

(** A positive float is a significand of 53 bits times a power of two. *)
Lemma wf_significand z :
  wf_float (Fin z) = true -> (0 < z) ->
  exists k u, z = (k * 2 ^ u) /\ (0 <= k < 2 ^ 53) /\ (0 <= u) /\
    (u = 0 \/ 2 ^ (u + 52) <= z).
Proof.
  intros Hw Hz. cbn [wf_float] in Hw. apply andb_true_iff in Hw as [Hr _].
  apply Z.eqb_eq in Hr. rewrite Z.abs_eq in Hr by lia.
  unfold round_pos, round_at in Hr. set (u := ulp_exp 0 53 z 1) in *.
  exists (rne z (1 * 2 ^ u)), u.
  assert (Hu : u = Z.max 0 (Z.log2 z - 52)) by (unfold u, ulp_exp; by rewrite Z.div_1_r).
  pose proof (Z.log2_spec z Hz) as [Hlo Hhi]. pose proof (Z.log2_nonneg z).
  pose proof (pow2_pos u ltac:(lia)) as Hp. split; [by rewrite Hr|].
  split; [|split; [lia|]].
  - split; [nia|]. apply Z.nle_gt. intros Hk.
    assert (Hb : (2 ^ 53 * 2 ^ u <= z)) by (rewrite <- Hr; by apply Z.mul_le_mono_nonneg_r; [lia|]).
    rewrite <- Z.pow_add_r in Hb by lia.
    assert (2 ^ Z.succ (Z.log2 z) <= 2 ^ (53 + u)) by (apply Z.pow_le_mono_r; lia). lia.
  - destruct (Z.eq_dec u 0) as [|Hn]; [by left|right].
    replace (u + 52) with (Z.log2 z) by lia. done.
Qed.

(** Taking a multiple of the unit in the last place off a float is exact. *)
Lemma fsub_exact z d :
  wf_float (Fin z) = true -> (0 <= d <= z) -> (z <= 2 ^ (grid + 20)) ->
  (2 ^ (grid - 32) | d) -> fsub (Fin z) (Fin d) = Fin (z - d).
Proof.
  intros Hw Hd Hz [m ->]. destruct (Z.eq_dec z 0) as [->|Hz0].
  { assert (m * 2 ^ (grid - 32) = 0) as -> by lia. by apply round_ratio_fixed. }
  destruct (wf_significand z Hw ltac:(lia)) as (k & u & -> & Hk & Hu & Hlow).
  rewrite grid_def in *. pose proof (pow2_pos u Hu) as Hp.
  assert (Hu' : (u <= 1042)).
  { destruct Hlow as [->|Hlow]; [lia|]. apply Z.nlt_ge. intros Hlt.
    assert (2 ^ (1043 + 52) <= 2 ^ (u + 52)) by (apply Z.pow_le_mono_r; lia).
    assert (2 ^ (1074 + 20) < 2 ^ (1043 + 52)) by (apply Z.pow_lt_mono_r; lia). lia. }
  replace (1074 - 32) with (1042 - u + u) in * by lia.
  rewrite Z.pow_add_r, Z.mul_assoc in * by lia. set (j := (m * 2 ^ (1042 - u))) in *.
  cbn [fsub fadd fneg]. replace (k * 2 ^ u - j * 2 ^ u) with ((k - j) * 2 ^ u) by lia.
  replace (k * 2 ^ u + - (j * 2 ^ u)) with ((k - j) * 2 ^ u) by lia.
  apply round_ratio_fixed, wf_scaled; [|lia]. nia.
Qed.
