(* ===== verification/FeatureExtractor.v ===== *)
(** * Feature extraction (python/predictor/feature_extractor.py)

    The extractor turns a prompt into forty numbers by regular expressions,
    character counts and word lists.  The Unicode tables, [math.log2],
    [math.sqrt], spaCy and the sentence embedder are parameters.  The theorems:
    extraction from any prompt yields a well-formed vector whose ratios, scores
    and flags lie in their ranges; the words are the maximal runs of word
    characters; messages give the prompt the gateway builds. *)
From Stdlib Require Import ZArith Lia.
From stdpp Require Import base option list strings gmap.
From S2P Require Import Prelude PyFloat Heapq Aging PriorityQueue BaseScheduler Fcfs Sjf Gateway.
From S2P Require Import Features Predictor PyText Regex FloatBounds.
Local Open Scope string_scope.
Local Open Scope list_scope.
Local Open Scope Z_scope.
Local Open Scope py_scope.

(** ** Patterns *)

Definition quote : Z := 34.
Definition nl : Z := 10.

Definition _WORD_RE : re := cats [Bnd; Plus (CSet WordCh); Bnd].
Definition _SENTENCE_RE : re := Plus (CSet (chars ".!?")).
Definition nonspaces : re := Plus (CSet (NotIn SpaceCh)).
Definition _URL_RE : re :=
  Alt (cats [litI "http"; Opt (litI "s"); litI "://"; nonspaces])
      (cats [litI "www"; litI "."; nonspaces]).
Definition _CODE_FENCE_RE : re := lit "```".
Definition _PYTHON_RE : re :=
  Cat Bnd (alts (map litI ["def "; "class "; "import "; "from "; "print("; "if __name__"; "lambda "])).
Definition _SQL_RE : re :=
  cats [Bnd; alts (map litI ["SELECT"; "INSERT"; "UPDATE"; "DELETE"; "FROM"; "WHERE"; "JOIN"]); Bnd].
Definition quotes : cset := one_of [quote; 39].
Definition spaces : re := Star (CSet SpaceCh).
Definition _JSON_RE : re :=
  cats [CSet (chars "[{"); Star (CSet AnyCh); CSet quotes; spaces; lit ":"; spaces; CSet quotes].
Definition letters : cset := Either (Rng 97 122) (Rng 65 90).
Definition _XML_RE : re :=
  Alt (lit "<?xml") (cats [lit "<"; CSet letters; Star (CSet (NotIn (Ch 62))); lit ">"]).
Definition _YAML_RE : re :=
  cats [Bol; Star (CSet (Either SpaceCh (Ch 45))); CSet (Either letters (Ch 95));
        Star (CSet (Either WordCh (Ch 45))); spaces; lit ":"].
Definition dot : cset := NotIn (Ch nl).
Definition _MARKDOWN_RE : re :=
  alts [cats [Bol; UpTo 6 (lit "#"); CSet SpaceCh];
        cats [Bol; lit "*"; CSet SpaceCh];
        cats [Bol; lit "-"; CSet SpaceCh];
        lit "**";
        lit "__";
        cats [lit "["; Plus (CSet dot); lit "]("; Plus (CSet dot); lit ")"]].

Definition words_of (s : string) : list text := map codes (String.words s).

Definition _STOPWORDS : list text :=
  words_of "a an the and or but if in on at to for of is are was were be been being it this that with as by from not".

Definition hint (ws : list string) : re := cats [Bnd; alts (map litI ws); Bnd].
Definition _LANG_HINTS : list (string * re) := [
  ("en", hint ["the"; "and"; "is"; "are"; "you"; "your"]);
  ("es", hint ["el"; "la"; "los"; "las"; "que"; "de"; "en"]);
  ("fr", hint ["le"; "la"; "les"; "de"; "et"; "est"; "une"; "un"]);
  ("de", hint ["der"; "die"; "das"; "und"; "ist"; "ein"; "eine"])].

(** [re.search(r"\bNAME\s*:", text, re.I)] *)
Definition role_re (name : string) : re := cats [Bnd; litI name; spaces; lit ":"].

(** The fallback of the named entity count. *)
Definition capitalised : re := Cat (CSet (Rng 65 90)) (Plus (CSet (Rng 97 122))).
Definition entity_re : re :=
  cats [Bnd; capitalised; Plus (Cat (Plus (CSet SpaceCh)) capitalised); Bnd].

(** ** Scores *)

Definition flag (b : bool) : float := if b then f1 else f0.
Definition len {A} (l : list A) : Z := Z.of_nat (length l).
Definition Zbool (b : bool) : Z := if b then 1 else 0.

(** [Counter(text)]: counts by character, in the order of first occurrence. *)
Fixpoint bump (c : Z) (d : list (Z * Z)) : list (Z * Z) :=
  match d with
  | [] => [(c, 1)]
  | (k, n) :: d' => if k =? c then (k, n + 1) :: d' else (k, n) :: bump c d'
  end.
Definition Counter (t : text) : list (Z * Z) := fold_left (fun d c => bump c d) t [].

Section Extractor.
Context {U : Unicode}.
Context (log2 sqrt : float -> result float).

(** A term of the entropy. *)
Definition entropy_term (length : Z) (c : Z) : result float :=
  let? p := int_div c length in
  let? l := log2 p in
  Ok (fmul p l).

Definition _shannon_entropy (t : text) : result float :=
  match t with
  | [] => Ok f0
  | _ => let? terms := rmap (fun kc => entropy_term (len t) kc.2) (Counter t) in
         Ok (fneg (fsum terms))
  end.

Definition hits_of (r : re) (t : text) : Z := len (finditer r t).

(** [max(scores, key=scores.get)]: the first language with the highest score. *)
Fixpoint best_lang (best : string * Z) (scores : list (string * Z)) : string * Z :=
  match scores with
  | [] => best
  | s :: rest => best_lang (if best.2 <? s.2 then s else best) rest
  end.

Definition _detect_language (t : text) : string :=
  match map (fun lp => (lp.1, hits_of lp.2 t)) _LANG_HINTS with
  | [] => "en"
  | s :: rest => let best := best_lang s rest in if 0 <? best.2 then best.1 else "en"
  end.

Definition _lang_to_float (code : string) : float :=
  match od_get code [("en", f0); ("es", flit 1 4); ("fr", flit 1 2); ("de", flit 3 4)] with
  | Some x => x
  | None => f1
  end.

Definition reasoning_kw : list text :=
  words_of "why how explain reason analyze compare evaluate prove step think".

Definition _reasoning_score (t : text) (q_marks word_count : Z) : result float :=
  let hits := count_if (fun w => bool_decide (w ∈ reasoning_kw)) (findall _WORD_RE (lower t)) in
  let? ratio := int_div hits (Z.max word_count 1) in
  let base := fmul ratio (of_int 10) in
  Ok (fmin f1 (fadd base (fmul (of_int q_marks) (flit 1 10)))).

Definition _coding_probability (t : text) : result float :=
  let signals :=
    Zbool (found _CODE_FENCE_RE t) + Zbool (found _PYTHON_RE t) + Zbool (found _SQL_RE t) +
    Zbool (contains (codes "function") (lower t)) + Zbool (contains (codes "class ") (lower t)) +
    Zbool (contains (codes "import ") (lower t)) in
  let? q := fdiv (of_int signals) (of_int 3) in
  Ok (fmin f1 q).

(** ** The extractor object *)

(** [ner] counts the entities of a document, [embedder] gives the norm of an
    encoding; both are loaded on first use. *)
Record FeatureExtractor := mkExtractor {
  enable_ner : bool;
  enable_embedding : bool;
  ner : option (text -> result Z);
  embedder : option (text -> result float);
}.

Definition extractor_init (ner_on embedding_on : bool) : FeatureExtractor :=
  mkExtractor ner_on embedding_on None None.

(** What importing and loading spaCy and the sentence transformer gives; [None]
    is an exception. *)
Context (spacy_load : option (text -> result Z)) (transformer_load : option (text -> result float)).

Definition call_ner (f : text -> result Z) (t : text) : result float :=
  let? n := f (take 512 t) in Ok (of_int n).

Definition _named_entity_count (self : FeatureExtractor) (t : text) : result float * FeatureExtractor :=
  match self.(ner) with
  | Some f => (call_ner f t, self)
  | None =>
      match spacy_load with
      | None => (Ok (of_int (hits_of entity_re t)), self)
      | Some f =>
          (call_ner f t, mkExtractor self.(enable_ner) self.(enable_embedding) (Some f) self.(embedder))
      end
  end.

Definition _embedding_norm (self : FeatureExtractor) (t : text) : result float * FeatureExtractor :=
  match self.(embedder) with
  | Some f => (f (take 256 t), self)
  | None =>
      match transformer_load with
      | None => (let? s := sqrt (of_int (len t)) in fdiv s (of_int 100), self)
      | Some f =>
          (f (take 256 t), mkExtractor self.(enable_ner) self.(enable_embedding) self.(ner) (Some f))
      end
  end.

(** The counts and scores of the first half of [_extract_features]. *)
Record Stats := mkStats {
  chars_n : Z; word_count : Z; token_count : Z; vocab_size : Z; unique_ratio : float;
  total_chars : Z; uppercase : Z; lowercase : Z; whitespace : Z; digits : Z; punct : Z;
  q_marks : Z; excls : Z; periods : Z; commas : Z;
  entropy : float; info_density : float;
  sentence_count : Z; avg_sentence_len : float; stopword_ratio : float;
  lang_code : string; unicode_ratio : float; reasoning_score : float; coding_prob : float;
  turns : Z;
}.

Definition ratio_or_0 (n d : Z) : result float := if d =? 0 then Ok f0 else int_div n d.

Definition count_turns (t : text) : Z :=
  let turns := str_count (codes "user:") t + str_count (codes "assistant:") t +
               str_count (codes "system:") t in
  if (turns =? 0) && contains [nl] t then str_count [nl; nl] t + 1 else turns.

Definition information_density (entropy : float) (vocab_size : Z) : result float :=
  if 1 <? vocab_size then
    let? l := log2 (of_int (Z.max vocab_size 2)) in
    fdiv entropy l
  else Ok f0.

Definition analyze (t : text) : result Stats :=
  let chars := len t in
  let words := findall _WORD_RE t in
  let word_count := len words in
  let tokens := split_ws t in
  let token_count := if bool_decide (tokens = []) then Z.max 1 word_count else len tokens in
  let vocab_size := len (remove_dups (map lower words)) in
  let? unique_ratio := ratio_or_0 vocab_size word_count in
  let total_chars := Z.max chars 1 in
  let q := str_count (codes "?") t in
  let? entropy := _shannon_entropy t in
  let? info_density := information_density entropy vocab_size in
  let sentences := re_split _SENTENCE_RE t in
  let sentence_count := Z.max 1 (count_if (fun s => negb (bool_decide (strip s = []))) sentences) in
  let? avg_sentence_len := int_div word_count sentence_count in
  let stopwords := count_if (fun w => bool_decide (lower w ∈ _STOPWORDS)) words in
  let? stopword_ratio := ratio_or_0 stopwords word_count in
  let? unicode_ratio := int_div (count_if (fun c => 127 <? c) t) total_chars in
  let? reasoning_score := _reasoning_score t q word_count in
  let? coding_prob := _coding_probability t in
  Ok (mkStats chars word_count token_count vocab_size unique_ratio total_chars
        (count_if isupper t) (count_if islower t) (count_if isspace t) (count_if isdigit t)
        (count_if is_punctuation t) q (str_count (codes "!") t) (str_count (codes ".") t)
        (str_count (codes ",") t) entropy info_density sentence_count avg_sentence_len
        stopword_ratio (_detect_language t) unicode_ratio reasoning_score coding_prob
        (count_turns t)).

(** The tuple of the second half. *)
Definition feature_values (t : text) (st : Stats) (ner_count embed_norm : float)
    : result (list float) :=
  let? avg_token_length := int_div st.(chars_n) st.(token_count) in
  let? avg_word_length := ratio_or_0 st.(chars_n) st.(word_count) in
  let? upper_ratio := int_div st.(uppercase) st.(total_chars) in
  let? lower_ratio := int_div st.(lowercase) st.(total_chars) in
  let? space_ratio := int_div st.(whitespace) st.(total_chars) in
  Ok [of_int st.(token_count); of_int st.(chars_n); of_int st.(word_count);
      avg_token_length; avg_word_length; of_int st.(vocab_size); st.(unique_ratio);
      st.(entropy); st.(info_density); of_int st.(punct); of_int st.(q_marks);
      of_int st.(excls); of_int st.(periods); of_int st.(commas); of_int st.(digits);
      upper_ratio; lower_ratio; space_ratio;
      flag (found _MARKDOWN_RE t); flag (found _CODE_FENCE_RE t); flag (found _PYTHON_RE t);
      flag (found _SQL_RE t); flag (found _JSON_RE t); flag (found _XML_RE t);
      flag (found _YAML_RE t); of_int (hits_of _URL_RE t); of_int (str_count [nl] t);
      of_int (Z.max st.(turns) 1); flag (found (role_re "system") t);
      flag (found (role_re "assistant") t); flag (found (role_re "user") t);
      _lang_to_float st.(lang_code); st.(unicode_ratio); st.(reasoning_score);
      st.(coding_prob); st.(stopword_ratio); of_int st.(sentence_count);
      st.(avg_sentence_len); ner_count; embed_norm].

Definition _extract_features (self : FeatureExtractor) (t : text)
    : result FeatureVector * FeatureExtractor :=
  match analyze t with
  | Raise e => (Raise e, self)
  | Ok st =>
      let '(rn, self1) :=
        if self.(enable_ner) then _named_entity_count self t else (Ok f0, self) in
      match rn with
      | Raise e => (Raise e, self1)
      | Ok ner_count =>
          let '(rm, self2) :=
            if self1.(enable_embedding) then _embedding_norm self1 t else (Ok f0, self1) in
          match rm with
          | Raise e => (Raise e, self2)
          | Ok embed_norm =>
              (let? values := feature_values t st ner_count embed_norm in
               if bool_decide (length values = NUM_FEATURES) then make_feature_vector values
               else Raise AssertionError, self2)
          end
      end
  end.

(** [extract] on a string of this development; [t0], [t1] are the clock readings. *)
Definition extract (self : FeatureExtractor) (t0 t1 : float) (prompt : string)
    : result ExtractionResult * FeatureExtractor :=
  let '(r, self') := _extract_features self (codes prompt) in
  (let? features := r in Ok (Build_ExtractionResult features (ms_between t0 t1) prompt), self').

(** [clock] gives the two readings of each call. *)
Fixpoint extract_batch (self : FeatureExtractor) (clock : nat -> float * float)
    (prompts : list string) : result (list ExtractionResult) * FeatureExtractor :=
  match prompts with
  | [] => (Ok [], self)
  | p :: rest =>
      let '(r, self1) := extract self (clock O).1 (clock O).2 p in
      match r with
      | Raise e => (Raise e, self1)
      | Ok x => let '(rs, self2) := extract_batch self1 (fun n => clock (S n)) rest in
                (let? xs := rs in Ok (x :: xs), self2)
      end
  end.

Definition feature_names : list string := FEATURE_NAMES.

(** ** Chat messages *)

(** An element of a content list: a dictionary, with the [str] of its ["text"] entry
    if it has one and the [str] of the dictionary itself, or something else. *)
Inductive ContentPart :=
| DictPart (text_entry : option string) (repr : string)
| OtherPart.

(** The content of a message: a list, or a value given by its [str]. *)
Inductive Content :=
| Parts (ps : list ContentPart)
| Plain (str : string).

Record ChatMessage := { chat_role : option string; chat_content : option Content }.

Fixpoint part_texts (ps : list ContentPart) : list string :=
  match ps with
  | [] => []
  | DictPart entry repr :: ps' => default repr entry :: part_texts ps'
  | OtherPart :: ps' => part_texts ps'
  end.

Definition chat_line (m : ChatMessage) : string :=
  let role := default "user" m.(chat_role) in
  let content := match default (Plain "") m.(chat_content) with
                 | Parts ps => join " " (part_texts ps)
                 | Plain s => s
                 end in
  role +:+ ": " +:+ content.

Definition extract_from_messages (messages : list ChatMessage) (t0 t1 : float)
    : result ExtractionResult :=
  (extract (extractor_init false false) t0 t1 (join newline (map chat_line messages))).1.
End Extractor.

(** ** Words *)

Section Words.
Context {U : Unicode}.

(** A word starts here: the match is the whole run. *)
Lemma word_match w b k :
  w <> [] -> Forall (fun c => is_word c = true) w -> ends_run is_word k -> head_word b = false ->
  match_at _WORD_RE false (At b (w ++ k)) = Some (At (reverse w ++ b) k).
Proof.
  intros Hne Hw Hk Hb. apply match_at_first. unfold _WORD_RE. cbn [cats].
  assert (Hlast : head_word (reverse w ++ b) = true).
  { destruct w as [|c w _] using rev_ind; [done|]. rewrite reverse_snoc. cbn [app head_word].
    apply Forall_app in Hw as [_ Hw]. exact (proj1 (Forall_singleton _ _) Hw). }
  eapply first_Cat; [apply first_Bnd|eapply first_Cat; [by apply first_plus_set|apply first_Bnd]];
    unfold at_boundary; cbn [before after].
  - rewrite Hb. destruct w as [|c w]; [done|]. apply Forall_cons in Hw as [Hc _]. simpl. by rewrite Hc.
  - rewrite Hlast. destruct k; simpl in *; by rewrite ?Hk.
Qed.

(** No word starts at a character outside the class, or at the end. *)
Lemma no_word_match b t : ends_run is_word t -> match_at _WORD_RE false (At b t) = None.
Proof.
  intros Ht. apply match_at_None. intros d Hd. exfalso.
  unfold _WORD_RE, Plus in Hd. cbn [cats] in Hd.
  inversion Hd as [| | | |? ? ? e ? H1 H2| | | |]; subst.
  inversion H1; subst. inversion H2 as [| | | |? ? ? e' ? H3 _| | | |]; subst.
  inversion H3 as [| | | |? ? ? e'' ? H4 _| | | |]; subst.
  inversion H4; subst. simpl in *. congruence.
Qed.

Lemma scan_no_words b t :
  Forall (fun c => is_word c = false) t -> scan _WORD_RE false b t = None.
Proof.
  intros H. revert b. induction H as [|c t Hc _ IH]; intros b; cbn [scan];
    rewrite no_word_match by done; [done|apply IH].
Qed.

Lemma scan_words u w b k :
  (u = [] -> head_word b = false) -> Forall (fun c => is_word c = false) u -> w <> [] ->
  Forall (fun c => is_word c = true) w -> ends_run is_word k ->
  scan _WORD_RE false b (u ++ w ++ k) =
    Some (At (reverse u ++ b) (w ++ k), At (reverse w ++ reverse u ++ b) k).
Proof.
  intros Hb Hu Hne Hw Hk. revert b Hb. induction Hu as [|c u Hc _ IH]; intros b Hb.
  - cbn [app]. destruct w as [|x w]; [done|]. cbn [scan app].
    rewrite app_comm_cons, word_match by auto. done.
  - cbn [app scan]. rewrite no_word_match by done. rewrite IH by done.
    by rewrite reverse_cons, <- !app_assoc.
Qed.

Lemma finditer_words fuel c :
  (head_word c.(before) = true -> ends_run is_word c.(after)) ->
  (iter_fuel false c <= fuel)%nat ->
  map (fun m => between m.1 m.2) (finditer_loop _WORD_RE fuel false c) = runs is_word c.(after).
Proof.
  revert c. induction fuel as [|n IH]; intros [b t] Hb Hf; [unfold iter_fuel in Hf; simpl in Hf; lia|].
  cbn [finditer_loop before after] in *.
  destruct (run_decomp is_word t) as [Hn|(u & w & k & -> & Hu & Hne & Hw & Hk)].
  - rewrite scan_no_words by done. symmetry. by apply runs_nil.
  - rewrite scan_words; try done.
    2: { intros ->. destruct (head_word b) eqn:E; [|done]. specialize (Hb eq_refl).
         destruct w as [|x w]; [done|]. apply Forall_cons in Hw as [Hx _]. simpl in Hb. congruence. }
    rewrite bool_decide_eq_false_2.
    2: { intros [= H1 H2]. apply (f_equal length) in H2. rewrite length_app in H2.
         destruct w; [done|simpl in H2; lia]. }
    cbn [map fst snd]. rewrite IH; cbn [before after]; [|done|].
    + rewrite runs_skip, runs_first by done. f_equal.
      apply moved_between. by split.
    + unfold iter_fuel in *. cbn [after] in *. rewrite !length_app in Hf.
      destruct w; [done|]. simpl in Hf. lia.
Qed.

Lemma words_are_runs (t : text) : findall _WORD_RE t = runs is_word t.
Proof. unfold findall, finditer. apply finditer_words; [done|]. apply le_n. Qed.

(** C36.  The words of a prompt, found by the regular expression with its greedy
    repetition and its two boundary assertions, are the maximal runs of word
    characters, in order: none is empty, missed, cut short or joined, and together
    they hold every word character of the prompt. *)
Theorem words_are_maximal_runs (t : text) :
  findall _WORD_RE t = runs is_word t /\
  Forall (fun w => w <> [] /\ Forall (fun c => is_word c = true) w) (findall _WORD_RE t) /\
  concat (findall _WORD_RE t) = List.filter is_word t.
Proof. rewrite words_are_runs. split; [done|]. apply runs_spec. Qed.
End Words.

(** ** Counting characters *)

Lemma bump_in c d k n :
  NoDup (map fst d) -> (k, n) ∈ bump c d ->
  (k <> c /\ (k, n) ∈ d) \/ (k = c /\ ((c, n - 1) ∈ d \/ ((c ∉ map fst d) /\ n = 1))).
Proof.
  induction d as [|[k' m] d IH]; cbn [bump map fst].
  - intros _ [= -> ->]%list_elem_of_singleton. right. split; [done|]. right. split; [|done].
    apply not_elem_of_nil.
  - intros [Hk' Hnd]%NoDup_cons. destruct (k' =? c) eqn:E; bool_to_prop.
    + subst k'. intros [[= -> ->]|H]%elem_of_cons.
      * right. split; [done|]. left. replace (m + 1 - 1) with m by lia. by left.
      * left. split; [|by right]. intros ->. apply Hk'. apply list_elem_of_fmap. by exists (c, n).
    + intros [[= -> ->]|H]%elem_of_cons; [left; split; [done|by left]|].
      destruct (IH Hnd H) as [[? ?]|[? [?|[? ?]]]]; [left; split; [done|by right]|right; split; [done|]..].
      * left. by right.
      * right. split; [|done]. by apply not_elem_of_cons.
Qed.

Lemma bump_keys c d k : (k ∈ map fst (bump c d)) <-> k = c \/ k ∈ map fst d.
Proof.
  induction d as [|[k' m] d IH]; cbn [bump map fst].
  - rewrite list_elem_of_singleton. split; [auto|intros [?|?%elem_of_nil]; done].
  - destruct (k' =? c) eqn:E; bool_to_prop; cbn [map fst]; rewrite !elem_of_cons, ?IH; naive_solver.
Qed.

Lemma bump_nodup c d : NoDup (map fst d) -> NoDup (map fst (bump c d)).
Proof.
  induction d as [|[k m] d IH]; cbn [bump map fst]; [intros _; apply NoDup_singleton|].
  intros [Hk Hnd]%NoDup_cons. destruct (k =? c) eqn:E; bool_to_prop; cbn [map fst].
  - by constructor.
  - constructor; [|auto]. rewrite bump_keys. by intros [?|?].
Qed.

(** The counter has each character once, with the number of its occurrences. *)
Lemma Counter_spec t :
  NoDup (map fst (Counter t)) /\ (forall k, k ∈ map fst (Counter t) <-> k ∈ t) /\
  forall k n, (k, n) ∈ Counter t -> n = count_if (Z.eqb k) t /\ 1 <= n.
Proof.
  unfold Counter. induction t as [|c t IH] using rev_ind.
  - split; [constructor|]. split; [done|]. by intros k n ?%elem_of_nil.
  - destruct IH as (IH1 & IH2 & IH3). rewrite fold_left_app. cbn [fold_left].
    split; [by apply bump_nodup|]. split.
    + intros k. rewrite bump_keys, IH2, elem_of_app, list_elem_of_singleton. tauto.
    + intros k n H. unfold count_if in *. rewrite List.filter_app, length_app, Nat2Z.inj_add.
      cbn [List.filter]. apply (bump_in _ _ _ _ IH1) in H as [[Hne H]|[-> [H|[H ->]]]].
      * apply IH3 in H as [-> ?]. destruct (k =? c) eqn:E; bool_to_prop; [done|]. simpl. lia.
      * apply IH3 in H as [H ?]. rewrite Z.eqb_refl. simpl. lia.
      * rewrite Z.eqb_refl. simpl. rewrite IH2 in H. split; [|lia].
        replace (List.filter (Z.eqb c) t) with (@nil Z); [done|]. symmetry. clear -H.
        induction t as [|d t IH]; [done|]. apply not_elem_of_cons in H as [H1 H2]. simpl.
        destruct (c =? d) eqn:E; bool_to_prop; [done|]. auto.
Qed.

(** A Python string holds code points. *)
Definition valid_text (t : text) : Prop := Forall (fun c => 0 <= c < 1114112) t.

Lemma codes_valid s : valid_text (codes s).
Proof.
  induction s as [|a s IH]; constructor; [|done].
  pose proof (Ascii.N_ascii_bounded a). lia.
Qed.

Lemma Counter_length t : valid_text t -> Z.of_nat (length (Counter t)) <= 1114112.
Proof.
  intros Hv. destruct (Counter_spec t) as (Hnd & Hk & _).
  rewrite <- (length_map fst).
  assert (Hs : map fst (Counter t) ⊆+ seqZ 0 1114112).
  { apply NoDup_submseteq; [done|]. intros k Hin%Hk. apply elem_of_seqZ.
    pose proof (proj1 (Forall_forall _ _) Hv k Hin) as Hr. simpl in Hr. lia. }
  apply submseteq_length in Hs. rewrite length_seqZ in Hs. lia.
Qed.

(** ** Well-formed extraction *)

(** What the documentation of [math] says of the two functions on positive, finite
    arguments. *)
Class MathLaws (log2 sqrt : float -> result float) : Prop := {
  log2_domain : forall z, 0 < z -> exists y, log2 (Fin z) = Ok y /\ is_fin y = true;
  log2_below_1 : forall z y, 0 < z -> (Fin z <= f1)%float -> log2 (Fin z) = Ok y ->
    (of_int (-1074) <= y)%float /\ (y <= f0)%float;
  log2_from_2 : forall z y, (of_int 2 <= Fin z)%float -> log2 (Fin z) = Ok y -> (f1 <= y)%float;
  sqrt_domain : forall z, 0 <= z -> exists y, sqrt (Fin z) = Ok y /\ is_fin y = true /\ wf_float y = true;
}.

(** A number between 0 and 1. *)
Definition unit_range (x : float) : Prop := (f0 <= x)%float /\ (x <= f1)%float.

(** A count that is small enough to convert. *)
Definition small (n : Z) : Prop := 0 <= n <= 2 ^ 70.

Lemma unit_flit n d : 0 < d -> 0 <= n <= d -> unit_range (flit n d).
Proof. apply ratio_unit. Qed.

Lemma unit_flag b : unit_range (flag b).
Proof. destruct b; split; fcompute. Qed.

Lemma unit_finite x : unit_range x -> is_fin x = true.
Proof. intros [H0 H1]. by apply unit_fin. Qed.

Lemma small_fin n : small n -> is_fin (of_int n) = true.
Proof. apply of_int_fin. Qed.

Lemma ratio_or_0_unit n d : 0 <= n <= d -> exists q, ratio_or_0 n d = Ok q /\ unit_range q.
Proof.
  intros H. unfold ratio_or_0. destruct (d =? 0) eqn:E; bool_to_prop.
  - exists f0. split; [done|]. apply (unit_flag false).
  - rewrite int_div_def by lia. eexists. split; [done|]. apply unit_flit; lia.
Qed.

Lemma fmin_1_unit x : (f0 <= x)%float -> unit_range (fmin f1 x).
Proof.
  intros Hx. split; [apply fmin_glb; [fcompute|done]|]. apply fmin_le_l. fcompute.
Qed.

Section Total.
Context {U : Unicode} (log2 sqrt : float -> result float) {HM : MathLaws log2 sqrt}.

Abbreviation entropy_of := (_shannon_entropy log2).

Lemma flit_pos_Fin c l :
  1 <= c <= l -> l <= 2 ^ 63 -> exists z, flit c l = Fin z /\ 0 < z /\ unit_range (Fin z).
Proof.
  intros Hc Hl. destruct (unit_flit c l ltac:(lia) ltac:(lia)) as [H0 H1].
  assert (Hp : (flit 1 (2 ^ 63) <= flit c l)%float).
  { rewrite !flit_def. pose proof unit_pos as Hu. apply round_ratio_mono; [lia|lia|].
    rewrite Z.mul_1_l. clear -Hc Hl Hu. generalize dependent (2 ^ grid). intros g Hg.
    assert (g * l <= g * 2 ^ 63) by (apply Z.mul_le_mono_nonneg_l; lia).
    assert (1 * g <= c * g) by (apply Z.mul_le_mono_nonneg_r; lia). lia. }
  assert (Hq : (f0 < flit 1 (2 ^ 63))%float) by fcompute.
  pose proof (flt_le_trans _ _ _ Hq Hp) as Hpos. clear Hp Hq.
  pose proof (unit_fin _ H0 H1) as Hf. destruct (flit c l) as [z|?|]; [|discriminate Hf..].
  exists z. split; [reflexivity|]. split; [exact (proj1 (flt_Fin 0 z) Hpos)|exact (conj H0 H1)].
Qed.

Lemma entropy_term_ok l c :
  1 <= c <= l -> l <= 2 ^ 63 ->
  exists x, entropy_term log2 l c = Ok x /\ mag (grid + 11) 1 x.
Proof.
  intros Hc Hl. unfold entropy_term. rewrite int_div_def by lia. cbn [rbind].
  destruct (flit_pos_Fin c l Hc Hl) as (z & -> & Hz & H0 & H1).
  destruct (log2_domain z Hz) as (y & Hy & Hyf). rewrite Hy. cbn [rbind]. eexists. split; [reflexivity|].
  destruct (log2_below_1 z y Hz H1 Hy) as [Hy0 Hy1]. destruct y as [b|?|]; [|discriminate Hyf..].
  replace (of_int (-1074)) with (Fin (-1074 * 2 ^ grid)) in Hy0 by fcompute.
  rewrite f1_def in H1. apply fle_Fin in Hy0, Hy1, H1. pose proof unit_pos as Hu. cbn [fmul].
  apply round_ratio_within; [done|apply wf_scaled; [lia|by vm_compute]| |].
  - rewrite Z.mul_1_l. apply Z.pow_nonneg. lia.
  - assert (Hg : 2 ^ (grid + 11) = 2 ^ grid * 2048) by (by rewrite Z.pow_add_r by (by vm_compute)).
    rewrite Hg, Z.abs_mul. clear -Hz H1 Hy0 Hy1 Hu. generalize dependent (2 ^ grid). intros g. intros.
    assert (Z.abs z <= g) by lia. assert (Z.abs b <= 1074 * g) by lia. nia.
Qed.

Lemma entropy_ok t :
  valid_text t -> len t <= 2 ^ 63 ->
  exists h, entropy_of t = Ok h /\ is_fin h = true /\ wf_float h = true.
Proof.
  intros Hv Hl. destruct t as [|c0 t0] eqn:Et; [by exists f0|]. rewrite <- Et in *.
  assert (He : entropy_of t = let? terms := rmap (fun kc => entropy_term log2 (len t) kc.2) (Counter t) in
                              Ok (fneg (fsum terms))) by (by rewrite Et).
  rewrite He. destruct (Counter_spec t) as (_ & _ & Hn).
  destruct (rmap_exists (fun kc => entropy_term log2 (len t) kc.2) (mag (grid + 11) 1) (Counter t))
    as (terms & -> & Hm & Hlen).
  { intros [k n] [-> ?]%Hn. apply entropy_term_ok; [|done].
    pose proof (count_if_bounds (Z.eqb k) t). cbn [snd]. unfold len. lia. }
  cbn [rbind]. eexists. split; [reflexivity|].
  assert (Hf : is_fin (fsum terms) = true).
  { apply (fsum_fin (grid + 11) ltac:(by vm_compute)); [|done].
    pose proof (Counter_length t Hv). lia. }
  split; [by destruct (fsum terms)|]. apply fneg_wf, fsum_wf.
Qed.

Lemma density_ok h v :
  is_fin h = true -> wf_float h = true -> small v ->
  exists d, information_density log2 h v = Ok d /\ is_fin d = true.
Proof.
  intros Hh Hw Hv. unfold information_density. destruct (1 <? v) eqn:E; bool_to_prop; [|by exists f0].
  rewrite Z.max_l by lia. pose proof (small_fin v Hv) as Hf.
  assert (H2 : (of_int 2 <= of_int v)%float) by (apply of_int_mono; lia).
  destruct (of_int v) as [z|?|]; [|discriminate Hf..].
  assert (Hz : 0 < z).
  { apply (flt_Fin 0). apply (flt_le_trans _ (of_int 2)); [fcompute|done]. }
  destruct (log2_domain z Hz) as (y & Hy & Hyf). rewrite Hy. cbn [rbind].
  exact (fdiv_fin _ _ Hh Hw Hyf (log2_from_2 _ _ H2 Hy)).
Qed.

(** *** Bounds of the counts *)

Lemma finditer_loop_length r fuel adv c : (length (finditer_loop r fuel adv c) <= fuel)%nat.
Proof.
  revert adv c. induction fuel as [|n IH]; intros adv c; cbn [finditer_loop]; [done|].
  destruct (scan _ _ _ _) as [[s e]|]; simpl; [|lia]. specialize (IH (bool_decide (s = e)) e). lia.
Qed.

Lemma hits_bounds r t : 0 <= hits_of r t <= 2 * len t + 2.
Proof.
  unfold hits_of, len, finditer. pose proof (finditer_loop_length r (iter_fuel false (start t)) false (start t)) as H.
  unfold iter_fuel at 2 in H. cbn [start after] in H. lia.
Qed.

Lemma len_map {A B} (f : A -> B) l : len (map f l) = len l.
Proof. unfold len. by rewrite length_map. Qed.

Lemma words_bounds t : 0 <= len (findall _WORD_RE t) <= len t.
Proof.
  rewrite words_are_runs. unfold len. pose proof (runs_length is_word t). lia.
Qed.

Lemma vocab_bounds (ws : list text) : 0 <= len (remove_dups ws) <= len ws.
Proof.
  unfold len. assert (H : remove_dups ws ⊆+ ws).
  { apply NoDup_submseteq; [apply NoDup_remove_dups|]. intros w. by rewrite elem_of_remove_dups. }
  apply submseteq_length in H. lia.
Qed.

Lemma sentences_bounds t :
  0 <= count_if (fun s => negb (bool_decide (strip s = []))) (re_split _SENTENCE_RE t) <= 2 * len t + 3.
Proof.
  pose proof (count_if_bounds (fun s => negb (bool_decide (strip s = []))) (re_split _SENTENCE_RE t)).
  rewrite re_split_length in H. pose proof (hits_bounds _SENTENCE_RE t). unfold hits_of, len in *.
  unfold findall in H. rewrite length_map in H. lia.
Qed.

Lemma turns_bounds t : 0 <= count_turns t <= 3 * len t + 1.
Proof.
  unfold count_turns, len.
  pose proof (str_count_nonneg (codes "user:") t). pose proof (str_count_nonneg (codes "assistant:") t).
  pose proof (str_count_nonneg (codes "system:") t). pose proof (str_count_nonneg [nl; nl] t).
  pose proof (str_count_bound (codes "user:") t ltac:(done)).
  pose proof (str_count_bound (codes "assistant:") t ltac:(done)).
  pose proof (str_count_bound (codes "system:") t ltac:(done)).
  pose proof (str_count_bound [nl; nl] t ltac:(done)). destruct (_ && _); lia.
Qed.

(** *** The first half of the extraction *)

(** The invariant of the computed statistics. *)
Record stats_ok (t : text) (st : Stats) : Prop := {
  so_chars : chars_n st = len t;
  so_total : total_chars st = Z.max (len t) 1;
  so_words : 0 <= word_count st <= len t;
  so_tokens : 1 <= token_count st /\ small (token_count st);
  so_vocab : 0 <= vocab_size st <= len t;
  so_classes : Forall (fun n => 0 <= n <= len t)
    [uppercase st; lowercase st; whitespace st; digits st; punct st;
     q_marks st; excls st; periods st; commas st];
  so_units : Forall unit_range
    [unique_ratio st; stopword_ratio st; unicode_ratio st; reasoning_score st; coding_prob st];
  so_entropy : is_fin (entropy st) = true;
  so_density : is_fin (info_density st) = true;
  so_sentences : 1 <= sentence_count st /\ small (sentence_count st);
  so_avg : avg_sentence_len st = flit (word_count st) (sentence_count st);
  so_turns : 0 <= turns st /\ small (turns st);
  so_lang : lang_code st = _detect_language t;
}.

Lemma reasoning_ok t q w :
  0 <= q <= 2 ^ 64 -> exists x, _reasoning_score t q w = Ok x /\ unit_range x.
Proof.
  intros Hq. unfold _reasoning_score. rewrite int_div_def by lia. cbn [rbind]. eexists. split; [reflexivity|].
  pose proof (count_if_bounds (fun w => bool_decide (w ∈ reasoning_kw)) (findall _WORD_RE (lower t))) as Hh.
  set (hits := count_if _ _) in *. apply fmin_1_unit.
  assert (H0 : (f0 <= flit hits (Z.max w 1))%float) by (apply flit_nonneg; lia).
  assert (H1 : (f0 <= fmul (flit hits (Z.max w 1)) (of_int 10))%float)
    by (apply fmul_nonneg_pos; [fcompute|done|fcompute]).
  assert (Hqf : is_fin (of_int q) = true) by (apply of_int_fin; lia).
  assert (H2 : (f0 <= fmul (of_int q) (flit 1 10))%float).
  { apply fmul_nonneg; [done|fcompute|apply of_int_nonneg; lia|fcompute]. }
  assert (H3 : is_fin (fmul (of_int q) (flit 1 10)) = true).
  { apply (fin_between _ (fmul (of_int q) f1)); [done| |].
    - apply fmul_mono_r; [done|fcompute|fcompute|apply of_int_nonneg; lia|fcompute].
    - apply (fin_between _ (fmul (of_int (2 ^ 64)) f1)).
      + apply fmul_nonneg; [done|fcompute|apply of_int_nonneg; lia|fcompute].
      + rewrite (fmul_comm (of_int q) f1), (fmul_comm (of_int (2 ^ 64)) f1). apply fmul_mono_r; [fcompute|done|fcompute|fcompute|apply of_int_mono; lia].
      + fcompute. }
  exact (fadd_nonneg_l _ _ H3 H1 H2).
Qed.

Lemma coding_ok t : exists x, _coding_probability t = Ok x /\ unit_range x.
Proof.
  unfold _coding_probability. set (n := _ + Zbool _).
  assert (Hn : 0 <= n) by (unfold n, Zbool; repeat case_match; lia). clearbody n.
  destruct (fdiv_of_int_Ok (of_int n) 3 ltac:(lia)) as [q Hq]. rewrite Hq. cbn [rbind].
  eexists. split; [reflexivity|]. apply fmin_1_unit. rewrite of_int_3 in Hq.
  eapply fdiv_nonneg; [|by apply of_int_nonneg|exact Hq]. pose proof unit_pos. lia.
Qed.

Lemma analyze_ok t : valid_text t -> len t <= 2 ^ 63 -> exists st, analyze log2 t = Ok st /\ stats_ok t st.
Proof.
  intros Hv Hl. pose proof (words_bounds t) as Hw. unfold analyze.
  pose proof (vocab_bounds (map lower (findall _WORD_RE t))) as Hvoc. rewrite len_map in Hvoc.
  destruct (ratio_or_0_unit _ _ Hvoc) as (uq & -> & Huq). cbn [rbind].
  destruct (entropy_ok t Hv Hl) as (h & -> & Hh & Hhw). cbn [rbind].
  destruct (density_ok h (len (remove_dups (map lower (findall _WORD_RE t)))) Hh Hhw) as (d & -> & Hd);
    [unfold small; lia|]. cbn [rbind].
  pose proof (sentences_bounds t) as Hs. rewrite int_div_def by lia. cbn [rbind].
  pose proof (count_if_bounds (fun w => bool_decide (lower w ∈ _STOPWORDS)) (findall _WORD_RE t)) as Hst.
  destruct (ratio_or_0_unit _ _ Hst) as (sw & Hsw & Hswu). fold (len (findall _WORD_RE t)) in Hsw.
  rewrite Hsw. cbn [rbind].
  pose proof (count_if_bounds (fun c => 127 <? c) t) as Hu. rewrite int_div_def by lia. cbn [rbind].
  assert (Hcnt : forall x, 0 <= str_count [x] t <= len t)
    by (intros x; split; [apply str_count_nonneg|by apply str_count_bound]).
  destruct (reasoning_ok t (str_count (codes "?") t) (len (findall _WORD_RE t))) as (rs & -> & Hrs);
    [pose proof (Hcnt 63) as Hq; change (codes "?") with [63]; lia|]. cbn [rbind].
  destruct (coding_ok t) as (cp & -> & Hcp). cbn [rbind].
  eexists. split; [reflexivity|]. pose proof (turns_bounds t) as Ht.
  assert (Htok : 0 <= len (split_ws t) <= len t).
  { unfold len, split_ws. pose proof (runs_length (fun c => negb (isspace c)) t). lia. }
  constructor; cbn [chars_n word_count token_count vocab_size unique_ratio total_chars uppercase
    lowercase whitespace digits punct q_marks excls periods commas entropy info_density sentence_count
    avg_sentence_len stopword_ratio lang_code unicode_ratio reasoning_score coding_prob turns];
    try reflexivity; try assumption; unfold small; try lia.
  - case_bool_decide as E; [lia|]. split; [|lia]. unfold len in *. destruct (split_ws t); [done|]. simpl. lia.
  - rewrite !Forall_cons, Forall_nil. split_and!; try exact I; first [apply count_if_bounds|apply Hcnt|idtac];
      apply Hcnt.
  - rewrite !Forall_cons, Forall_nil. split_and!; try exact I; try assumption.
    apply unit_flit; [lia|]. unfold len in *. lia.
Qed.

(** *** The whole vector *)

(** The libraries behind the two optional features do not raise. *)
Definition quiet (spacy : option (text -> result Z)) (transformer : option (text -> result float))
    (self : FeatureExtractor) : Prop :=
  (forall f t, ner self = Some f \/ spacy = Some f -> exists n, f t = Ok n /\ small n) /\
  (forall f t, embedder self = Some f \/ transformer = Some f -> exists x, f t = Ok x /\ is_fin x = true).

Definition same_flags (a b : FeatureExtractor) : Prop :=
  enable_ner a = enable_ner b /\ enable_embedding a = enable_embedding b.

Context (spacy : option (text -> result Z)) (transformer : option (text -> result float)).
Abbreviation extract_features := (_extract_features log2 sqrt spacy transformer).

Lemma call_ner_ok f t :
  (exists n, f (take 512 t) = Ok n /\ small n) -> exists x, call_ner f t = Ok x /\ is_fin x = true.
Proof.
  intros (n & Hn & Hs). unfold call_ner. rewrite Hn. cbn [rbind]. eexists. split; [reflexivity|].
  by apply small_fin.
Qed.

Lemma named_entity_ok self t :
  quiet spacy transformer self -> len t <= 2 ^ 63 ->
  exists x self', _named_entity_count spacy self t = (Ok x, self') /\ is_fin x = true /\
                  quiet spacy transformer self' /\ same_flags self' self.
Proof.
  intros Hq Hl. destruct Hq as [Hn He]. unfold _named_entity_count.
  destruct (ner self) as [f|] eqn:Ef; [|destruct spacy as [f|] eqn:Es].
  - destruct (call_ner_ok f t) as (x & -> & Hx); [apply Hn; auto|].
    exists x, self. split_and!; [done|done| |by split]. split; [|done]. by rewrite Ef.
  - destruct (call_ner_ok f t) as (x & -> & Hx); [apply Hn; auto|].
    eexists x, _. split_and!; [done|done| |by split]. split; [|done]. cbn [ner].
    intros g u [H|H]; apply Hn; right; congruence.
  - pose proof (hits_bounds entity_re t).
    eexists _, self. split_and!; [done|apply small_fin; unfold small; lia| |by split].
    split; [|done]. by rewrite Ef.
Qed.

Lemma embedding_ok self t :
  quiet spacy transformer self -> len t <= 2 ^ 63 ->
  exists x self', _embedding_norm sqrt transformer self t = (Ok x, self') /\ is_fin x = true /\
                  quiet spacy transformer self' /\ same_flags self' self.
Proof.
  intros Hq Hl. destruct Hq as [Hn He]. unfold _embedding_norm.
  destruct (embedder self) as [f|] eqn:Ef; [|destruct transformer as [f|] eqn:Es].
  - destruct (He f (take 256 t)) as (x & -> & Hx); [auto|].
    exists x, self. split_and!; [done|done| |by split]. split; [done|]. by rewrite Ef.
  - destruct (He f (take 256 t)) as (x & -> & Hx); [auto|].
    eexists x, _. split_and!; [done|done| |by split]. split; [done|]. cbn [embedder].
    intros g u [H|H]; apply He; right; congruence.
  - assert (H0 : (f0 <= of_int (len t))%float) by (apply of_int_nonneg; unfold len; lia).
    assert (Hf : is_fin (of_int (len t)) = true) by (apply of_int_fin; unfold len in *; lia).
    destruct (of_int (len t)) as [z|?|]; [|discriminate Hf..]. apply fle_Fin in H0.
    destruct (sqrt_domain z H0) as (y & -> & Hy & Hyw). cbn [rbind].
    destruct (fdiv_fin y (of_int 100)) as (q & -> & Hqf); [done|done|fcompute|fcompute|].
    exists q, self. split_and!; [done|done| |by split]. split; [done|]. by rewrite Ef.
Qed.

Lemma lang_unit code : unit_range (_lang_to_float code).
Proof. unfold _lang_to_float, od_get. repeat case_bool_decide; split; fcompute. Qed.

(** The features that are ratios, scores and flags. *)
Definition unit_features : list string := [
  "unique_word_ratio"; "uppercase_ratio"; "lowercase_ratio"; "whitespace_ratio"; "has_markdown";
  "has_code_fence"; "has_python"; "has_sql"; "has_json"; "has_xml"; "has_yaml"; "has_system_prompt";
  "has_assistant_prompt"; "has_user_prompt"; "language_code"; "unicode_ratio"; "reasoning_score";
  "coding_probability"; "stopword_ratio"].

Definition unit_positions : list nat :=
  [6; 15; 16; 17; 18; 19; 20; 21; 22; 23; 24; 28; 29; 30; 31; 32; 33; 34; 35]%nat.

(** The features that are at least one. *)
Definition positive_positions : list nat := [0; 27; 36]%nat.

Record values_ok (vs : list float) : Prop := {
  vo_length : length vs = NUM_FEATURES;
  vo_finite : Forall (fun x => is_fin x = true) vs;
  vo_unit : Forall (fun i => exists x, vs !! i = Some x /\ unit_range x) unit_positions;
  vo_positive : Forall (fun i => exists x, vs !! i = Some x /\ (f1 <= x)%float) positive_positions;
}.

Lemma of_int_ge_1 n : 1 <= n -> (f1 <= of_int n)%float.
Proof. intros H. replace f1 with (of_int 1) by fcompute. by apply of_int_mono. Qed.

Lemma feature_values_ok t st nc en :
  stats_ok t st -> len t <= 2 ^ 63 -> is_fin nc = true -> is_fin en = true ->
  exists vs, feature_values t st nc en = Ok vs /\ values_ok vs.
Proof.
  intros [Hch Htot Hw [Htok Hto2] Hvoc Hcl Hun Hent Hden [Hs1 Hs2] Hav [Ht1 Ht2] Hlg] Hl Hnc Hen.
  rewrite !Forall_cons in Hcl. destruct Hcl as (Hup & Hlo & Hsp & Hdi & Hpu & Hq & Hex & Hpe & Hco & _).
  rewrite !Forall_cons in Hun. destruct Hun as (Huq & Hsw & Huc & Hre & Hcp & _).
  unfold feature_values. rewrite !int_div_def by lia. unfold ratio_or_0.
  assert (Hawl : exists w, (if word_count st =? 0 then Ok f0 else int_div (chars_n st) (word_count st)) = Ok w /\
                           is_fin w = true).
  { destruct (word_count st =? 0) eqn:E; [by exists f0|]. bool_to_prop.
    rewrite int_div_def by lia. eexists. split; [reflexivity|]. apply flit_fin; [lia|].
    rewrite Hch. unfold len in *. lia. }
  destruct Hawl as (w & -> & Hwf). cbn [rbind]. eexists. split; [reflexivity|].
  pose proof (hits_bounds _URL_RE t) as Hurl. unfold small in *.
  assert (Hnl : 0 <= str_count [nl] t <= len t)
    by (split; [apply str_count_nonneg|by apply str_count_bound]).
  assert (Hur : unit_range (flit (uppercase st) (total_chars st))) by (apply unit_flit; lia).
  assert (Hlr : unit_range (flit (lowercase st) (total_chars st))) by (apply unit_flit; lia).
  assert (Hsr : unit_range (flit (whitespace st) (total_chars st))) by (apply unit_flit; lia).
  assert (Hlang : unit_range (_lang_to_float (lang_code st))) by apply lang_unit.
  constructor.
  - reflexivity.
  - repeat apply Forall_cons_2; try apply Forall_nil_2; try assumption;
      try (apply unit_finite; first [assumption|apply unit_flag]);
      try (apply of_int_fin; lia).
    + apply flit_fin; lia.
    + rewrite Hav. apply flit_fin; lia.
  - unfold unit_positions. repeat apply Forall_cons_2; try apply Forall_nil_2;
      (eexists; split; [reflexivity|first [assumption|apply unit_flag]]).
  - unfold positive_positions. repeat apply Forall_cons_2; try apply Forall_nil_2;
      (eexists; split; [reflexivity|apply of_int_ge_1; lia]).
Qed.

Lemma extract_features_ok self t :
  valid_text t -> len t <= 2 ^ 63 -> quiet spacy transformer self ->
  exists v self', extract_features self t = (Ok v, self') /\ values_ok (values v) /\
                  quiet spacy transformer self' /\ same_flags self' self.
Proof.
  intros Hv Hl Hq. unfold _extract_features.
  destruct (analyze_ok t Hv Hl) as (st & -> & Hst).
  assert (Hn : exists x self1, (if enable_ner self then _named_entity_count spacy self t else (Ok f0, self)) =
                 (Ok x, self1) /\ is_fin x = true /\ quiet spacy transformer self1 /\ same_flags self1 self).
  { destruct (enable_ner self); [by apply named_entity_ok|].
    exists f0, self. split_and!; [done|done|done|by split]. }
  destruct Hn as (nc & self1 & -> & Hnc & Hq1 & Hf1).
  assert (Hm : exists x self2,
             (if enable_embedding self1 then _embedding_norm sqrt transformer self1 t else (Ok f0, self1)) =
             (Ok x, self2) /\ is_fin x = true /\ quiet spacy transformer self2 /\ same_flags self2 self1).
  { destruct (enable_embedding self1); [by apply embedding_ok|].
    exists f0, self1. split_and!; [done|done|done|by split]. }
  destruct Hm as (en & self2 & -> & Hen & Hq2 & Hf2).
  destruct (feature_values_ok t st nc en Hst Hl Hnc Hen) as (vs & -> & Hvs). cbn [rbind].
  pose proof (vo_length _ Hvs) as Hlen. rewrite bool_decide_eq_true_2 by exact Hlen.
  unfold make_feature_vector. rewrite bool_decide_eq_true_2 by exact Hlen.
  eexists _, self2. split; [reflexivity|]. split_and!; [exact Hvs|done|].
  destruct Hf1, Hf2. split; congruence.
Qed.

(** C8.  Extraction is total and well typed: for every prompt, whichever optional features
    are switched on and whether or not their libraries can be loaded, the
    extractor raises nothing and returns a vector of exactly forty finite numbers
    (no NaN, no infinity), and stays an extractor of the same configuration. *)
Theorem extract_features_type self t :
  valid_text t -> len t <= 2 ^ 63 -> quiet spacy transformer self ->
  exists v self', extract_features self t = (Ok v, self') /\ wf_features v /\
                  Forall (fun x => is_fin x = true) (values v) /\
                  quiet spacy transformer self' /\ same_flags self' self.
Proof.
  intros Hv Hl Hq. destruct (extract_features_ok self t Hv Hl Hq) as (v & self' & ? & Hvo & ? & ?).
  exists v, self'. split_and!; [done|exact (vo_length _ Hvo)|exact (vo_finite _ Hvo)|done|done].
Qed.

Lemma named_positions (names : list string) (ps : list nat) (P : float -> Prop) v d :
  wf_features v -> as_dict v = Ok d ->
  Forall2 (fun n i => FEATURE_NAMES !! i = Some n) names ps ->
  Forall (fun i => exists x, values v !! i = Some x /\ P x) ps ->
  Forall (fun n => exists x, d !! n = Some x /\ P x) names.
Proof.
  intros Hw Hd Hni. induction Hni as [|n i names ps Hn _ IH]; intros H; [constructor|].
  apply Forall_cons in H as [(x & Hx & HP) H]. constructor; [|auto].
  destruct (as_dict_lookup v i n x Hw Hn Hx) as (d' & Hd' & Hl). exists x. split; [congruence|done].
Qed.

(** C25.  The ranges of the features, by name: ratios, flags, the language code and the two
    scores lie between 0 and 1 after rounding, and the token, turn and sentence
    counts are at least 1. *)
Theorem feature_ranges self t :
  valid_text t -> len t <= 2 ^ 63 -> quiet spacy transformer self ->
  exists v d, (extract_features self t).1 = Ok v /\ as_dict v = Ok d /\
    Forall (fun n => exists x, d !! n = Some x /\ unit_range x) unit_features /\
    Forall (fun n => exists x, d !! n = Some x /\ (f1 <= x)%float)
      ["prompt_token_count"; "conversation_turn_count"; "sentence_count"].
Proof.
  intros Hv Hl Hq. destruct (extract_features_ok self t Hv Hl Hq) as (v & self' & -> & Hvo & _).
  assert (Hw : wf_features v) by exact (vo_length _ Hvo).
  assert (Hd : exists d, as_dict v = Ok d)
    by (unfold as_dict; rewrite bool_decide_eq_true_2 by exact Hw; eauto).
  destruct Hd as [d Hd]. exists v, d. split_and!; [done|done| |].
  - eapply named_positions; [done|done| |exact (vo_unit _ Hvo)]. repeat constructor.
  - eapply named_positions; [done|done| |exact (vo_positive _ Hvo)]. repeat constructor.
Qed.
End Total.

(** ** Languages *)

Lemma best_lang_spec best scores :
  best_lang best scores ∈ best :: scores /\
  Forall (fun s => s.2 <= (best_lang best scores).2) (best :: scores).
Proof.
  revert best. induction scores as [|s rest IH]; intros best; cbn [best_lang].
  - split; [by left|]. by repeat constructor.
  - destruct (IH (if best.2 <? s.2 then s else best)) as [H1 H2].
    apply Forall_cons in H2 as [H2 H3]. split.
    + apply elem_of_cons in H1 as [H1|H1]; [|by right; right].
      rewrite H1. destruct (best.2 <? s.2); [by right; left|by left].
    + destruct (best.2 <? s.2) eqn:E; bool_to_prop;
        (constructor; [|constructor; [|done]]); lia.
Qed.

Section Languages.
Context {U : Unicode}.

Definition score (lang : string) (t : text) : Z :=
  match od_get lang _LANG_HINTS with Some r => hits_of r t | None => 0 end.

(** Language detection picks a language of the table: English when no hint occurs
    at all, otherwise one whose hints occur at least as often as those of every other
    language.  The code is always one of the four known ones, so the numeric
    encoding never takes its default of 1.0. *)
Theorem detect_language_spec (t : text) :
  let lang := _detect_language t in
  lang ∈ ["en"; "es"; "fr"; "de"] /\ _lang_to_float lang <> f1 /\
  (forall l, l ∈ ["en"; "es"; "fr"; "de"] -> score l t <= Z.max 0 (score lang t)) /\
  (score lang t = 0 -> lang = "en").
Proof.
  assert (Hcode : forall code, code ∈ ["en"; "es"; "fr"; "de"] -> _lang_to_float code <> f1).
  { intros code Hin E. apply (f_equal (fun x => feqb x f1)) in E.
    assert (Ht : feqb f1 f1 = true) by fcompute. rewrite Ht in E.
    repeat (apply elem_of_cons in Hin as [->|Hin]; [vm_compute in E; discriminate E|]).
    by apply elem_of_nil in Hin. }
  assert (Hs : forall l, 0 <= score l t)
    by (intros l; unfold score; destruct (od_get l _LANG_HINTS); [apply hits_bounds|done]).
  pose proof (best_lang_spec ("en", score "en" t) [("es", score "es" t); ("fr", score "fr" t); ("de", score "de" t)])
    as [Hin Hmax].
  change (_detect_language t) with
    (let best := best_lang ("en", score "en" t) [("es", score "es" t); ("fr", score "fr" t); ("de", score "de" t)] in
     if 0 <? best.2 then best.1 else "en").
  destruct (best_lang _ _) as [l n]. cbn zeta. cbn [fst snd] in *.
  assert (Hl : l ∈ ["en"; "es"; "fr"; "de"] /\ n = score l t).
  { rewrite !elem_of_cons in Hin. rewrite !elem_of_cons. destruct Hin as [Hin|[Hin|[Hin|[Hin|Hin%elem_of_nil]]]];
      [injection Hin as -> ->; tauto..|done]. }
  destruct Hl as [Hl ->].
  assert (Hle : forall l', l' ∈ ["en"; "es"; "fr"; "de"] -> score l' t <= score l t).
  { rewrite !Forall_cons in Hmax. destruct Hmax as (Ma & Mb & Mc & Md & _). intros l' Hl'.
    rewrite !elem_of_cons in Hl'. by destruct Hl' as [->|[->|[->|[->|Hl'%elem_of_nil]]]]. }
  assert (Hen : "en" ∈ ["en"; "es"; "fr"; "de"]) by (by left).
  pose proof (Hs l) as H0.
  assert (Hm : forall x l', score l t <= Z.max 0 x -> l' ∈ ["en"; "es"; "fr"; "de"] ->
                 score l' t <= Z.max 0 x) by (intros x l' Hx Hl'; specialize (Hle l' Hl'); lia).
  destruct (0 <? score l t) eqn:E; bool_to_prop.
  - split; [exact Hl|]. split; [exact (Hcode l Hl)|]. split; [|lia].
    intros l'. apply Hm. lia.
  - split; [exact Hen|]. split; [exact (Hcode "en" Hen)|]. split; [|intros _; reflexivity].
    intros l'. apply Hm. lia.
Qed.
End Languages.

(** ** The extractor inside the serving path *)

Section Serving.
Context {U : Unicode} (log2 sqrt : float -> result float) {HM : MathLaws log2 sqrt}.
Context (spacy : option (text -> result Z)) (transformer : option (text -> result float)).
Abbreviation default_extractor := (extractor_init false false).

(** The messages of a chat request as the gateway sees them, with string contents. *)
Definition chat_of (m : Message) : ChatMessage :=
  {| chat_role := role m; chat_content := Plain <$> content m |}.

(** Features of a conversation: for messages with text contents, extraction from the
    messages is extraction from the prompt the gateway builds from them, so
    predictions made from messages and from scheduled requests agree. *)
Theorem messages_match_gateway (ms : list Message) (t0 t1 : float) :
  extract_from_messages log2 sqrt spacy transformer (map chat_of ms) t0 t1 =
  (extract log2 sqrt spacy transformer default_extractor t0 t1 (build_prompt ms)).1.
Proof.
  unfold extract_from_messages, build_prompt. do 3 f_equal. rewrite map_map. apply map_ext.
  intros [r c]. unfold chat_line, chat_of, message_line. simpl. by destruct r, c.
Qed.

Lemma default_quiet : quiet spacy transformer default_extractor ->
  forall s t0 t1, Z.of_nat (String.length s) <= 2 ^ 63 ->
  exists v, extract log2 sqrt spacy transformer default_extractor t0 t1 s =
    (Ok (Build_ExtractionResult v (ms_between t0 t1) s), default_extractor) /\ wf_features v.
Proof.
  intros Hq s t0 t1 Hl. unfold extract.
  assert (Hlen : len (codes s) <= 2 ^ 63).
  { unfold len. replace (length (codes s)) with (String.length s); [done|].
    clear. induction s as [|a s IH]; [done|]. simpl. by rewrite IH. }
  destruct (extract_features_ok log2 sqrt spacy transformer default_extractor (codes s)
              (codes_valid s) Hlen Hq) as (v & self' & He & Hv & _).
  rewrite He. cbn [rbind]. exists v. split; [|exact (vo_length _ Hv)]. f_equal.
  unfold _extract_features in He. destruct (analyze log2 (codes s)); simpl in He; congruence.
Qed.

(** [_parallel_extract_work] and [parallel_extract] of dataset.py: each call works with an
    extractor of its own; [Pool.map] gives the results in the order of its arguments and
    refuses a pool without workers. *)
Definition _parallel_extract_work (t0 t1 : float) (prompt : string) : result (list float) :=
  rbind (extract log2 sqrt spacy transformer default_extractor t0 t1 prompt).1
    (fun r => Ok (as_list (ext_features r))).

Definition parallel_extract (t0 t1 : float) (workers : Z) (prompts : list string)
    : result (list (list float)) :=
  if workers <? 1 then Raise (ValueError "Number of processes must be at least 1")
  else rmap (_parallel_extract_work t0 t1) prompts.

(** Extraction in parallel gives the vectors of extraction one by one, in the same order,
    although the workers share no extractor. *)
Theorem parallel_matches_sequential t0 t1 workers clock prompts :
  quiet spacy transformer default_extractor -> 1 <= workers ->
  Forall (fun p => Z.of_nat (String.length p) <= 2 ^ 63) prompts ->
  exists xs, extract_batch log2 sqrt spacy transformer default_extractor clock prompts =
      (Ok xs, default_extractor) /\
    parallel_extract t0 t1 workers prompts = Ok (map (fun x => as_list (ext_features x)) xs).
Proof.
  intros Hq Hw Hp. unfold parallel_extract. rewrite (proj2 (Z.ltb_ge _ _) Hw).
  revert clock. induction Hp as [|p ps Hl _ IH]; intros clock; [by exists []|].
  destruct (default_quiet Hq p (clock O).1 (clock O).2 Hl) as (v & Hv & _).
  destruct (default_quiet Hq p t0 t1 Hl) as (v' & Hv' & _).
  destruct (IH (fun n => clock (S n))) as (xs & Hxs & Hrs).
  assert (v' = v) as ->.
  { unfold extract in Hv, Hv'. destruct (_extract_features _ _ _ _ _ _) as [[u|e] x]; cbn [rbind] in *; congruence. }
  eexists. cbn [extract_batch rmap]. rewrite Hv, Hxs. split; [reflexivity|].
  unfold _parallel_extract_work at 1. rewrite Hv'. cbn [fst rbind]. rewrite Hrs. reflexivity.
Qed.

(** The predictor of the scheduler: default extractor, any network. *)
Definition serving_predictor (net : list float -> float) (mean std : option (list float))
    (t0 t1 t2 t3 : float) (prompt : string) : result PredictionResult :=
  predict (fun p => (extract log2 sqrt spacy transformer default_extractor t0 t1 p).1)
    net default_model_config mean std t2 t3 prompt.

(** A submission whose prediction succeeds queues the request with it. *)
Lemma predicted_submission predictor c l st s req r :
  st !! l = Some req -> ftruthy (r_predicted_tokens req) = false -> s_use_fallback s = false ->
  predictor (r_prompt req) = Ok r ->
  exists st' s', sjf_submit predictor c l st s = (st', s', Ok tt) /\ s_use_fallback s' = false /\
    s_queue s' = enqueue (sc_now c) (r_request_id req) (predicted_tokens r) l (s_queue s) /\
    r_priority <$> st' !! l = Some (predicted_tokens r).
Proof.
  intros Hl Hpt Hfb Hr. unfold sjf_submit, sjf_predict. rewrite Hl, Hpt, Hr.
  destruct s as [b q a ac fb ff ai mr to pe uf at_ dr]. cbn in Hfb. subst uf.
  eexists _, _. split; [reflexivity|]. split; [done|]. split; [done|]. by rewrite lookup_insert_eq.
Qed.

(** C7.  Extractor, predictor and scheduler together: for a request without a
    prediction submitted to a scheduler that is not in fallback mode, with
    normalisation arrays of the feature count or none and name and embedding
    models that do not raise, submission never fails and never switches to the
    fallback, whatever the prompt and the network are; the request enters the
    priority queue with what the network says about its features, between 1
    and 4096 unless the network says NaN, which is queued as it is. *)
Theorem submission_never_falls_back net mean std t0 t1 t2 t3 c l st s req :
  quiet spacy transformer default_extractor ->
  match mean, std with
  | Some m, Some sd => length m = NUM_FEATURES /\ length sd = NUM_FEATURES
  | _, _ => True
  end ->
  st !! l = Some req -> Z.of_nat (String.length (r_prompt req)) <= 2 ^ 63 ->
  ftruthy (r_predicted_tokens req) = false -> s_use_fallback s = false ->
  exists st' s' v row p,
    sjf_submit (serving_predictor net mean std t0 t1 t2 t3) c l st s = (st', s', Ok tt) /\
    s_use_fallback s' = false /\
    (extract log2 sqrt spacy transformer default_extractor t0 t1 (r_prompt req)).1 =
      Ok (Build_ExtractionResult v (ms_between t0 t1) (r_prompt req)) /\
    _to_tensor mean std v = Ok row /\ p = forward default_model_config net row /\ clamped net row p /\
    s_queue s' = enqueue (sc_now c) (r_request_id req) p l (s_queue s) /\
    r_priority <$> st' !! l = Some p.
Proof.
  intros Hq Hms Hl Hlen Hpt Hfb.
  destruct (default_quiet Hq (r_prompt req) t0 t1 Hlen) as (v & He & Hv).
  destruct (predict_in_range (fun p => (extract log2 sqrt spacy transformer default_extractor t0 t1 p).1)
              net mean std t2 t3 (r_prompt req) (Build_ExtractionResult v (ms_between t0 t1) (r_prompt req)))
    as (r & row & Hr & _ & Hrow & Hp' & Hc & _); [by rewrite He|done|done|].
  destruct (predicted_submission (serving_predictor net mean std t0 t1 t2 t3) c l st s req r Hl Hpt Hfb Hr)
    as (st' & s' & E & Hf & Hq' & Hp).
  pose proof (f_equal fst He) as He'. exists st', s', v, row, (predicted_tokens r).
  exact (conj E (conj Hf (conj He' (conj Hrow (conj Hp' (conj Hc (conj Hq' Hp))))))).
Qed.
End Serving.

(** ** Python and SQL *)

Section PythonFlag.
Context {U : Unicode} {HU : UnicodeLaws U}.

Lemma litsI_match w v b k :
  w <> [] -> Forall2 (fun x y => same_case x y = true) w v ->
  Match (litsI w) (At b (v ++ k)) (At (reverse v ++ b) k).
Proof.
  intros Hne Hwv. revert b. induction Hwv as [|x y w v Hxy Hwv IH]; intros b; [done|].
  destruct w as [|x' w].
  - apply Forall2_nil_inv_l in Hwv as ->. simpl. by apply MSet.
  - rewrite reverse_cons, <- app_assoc. apply (MCat _ _ _ (At (y :: b) (v ++ k))); [by apply MSet|].
    by apply IH.
Qed.

Lemma same_case_ascii_text (w v : text) :
  forallb is_ascii w = true -> forallb is_ascii v = true -> map ascii_tolower w = map ascii_tolower v ->
  Forall2 (fun x y => same_case x y = true) w v.
Proof.
  revert v. induction w as [|x w IH]; intros [|y v]; try done. simpl.
  intros [Hx Hw]%andb_prop [Hy Hv]%andb_prop [= H1 H2]. constructor; [|by apply IH].
  rewrite same_case_ascii by done. by apply Z.eqb_eq.
Qed.

(** The Python pattern ignores case, so the keyword FROM of an SQL query is taken for
    a Python import: every prompt in which FROM, followed by a space, stands at a
    word boundary has the Python flag set along with the SQL flag. *)
Theorem sql_from_is_python (a b : text) :
  head_word (reverse a) = false ->
  let t := a ++ codes "FROM " ++ b in
  found _PYTHON_RE t = true /\ found _SQL_RE t = true.
Proof.
  intros Ha t. set (s := At (reverse a) (codes "FROM " ++ b)).
  assert (Hs : reaches (start t) s) by (exists a; split; [done|by rewrite app_nil_r]).
  assert (HF : is_word 70 = true) by (unfold is_word; rewrite alnum_ascii by done; done).
  assert (HM : is_word 77 = true) by (unfold is_word; rewrite alnum_ascii by done; done).
  assert (Hsp : is_word 32 = false) by (unfold is_word; rewrite alnum_ascii by done; done).
  assert (Hb : at_boundary s = true).
  { unfold at_boundary, s. cbn [before after]. change (head_word (codes "FROM " ++ b)) with (is_word 70).
    by rewrite Ha, HF. }
  split; apply found_iff.
  - exists s, (At (reverse (codes "FROM ") ++ reverse a) b). split; [done|].
    apply (MCat _ _ _ s); [by apply MBnd|]. cbn [map alts]. do 3 apply MAltR. apply MAltL.
    apply litsI_match; [done|]. by apply same_case_ascii_text.
  - exists s, (At (reverse (codes "FROM") ++ reverse a) (32 :: b)). split; [done|].
    apply (MCat _ _ _ s); [by apply MBnd|].
    apply (MCat _ _ _ (At (reverse (codes "FROM") ++ reverse a) (32 :: b))).
    + cbn [map alts]. do 4 apply MAltR. apply MAltL.
      apply (litsI_match (codes "FROM") (codes "FROM") (reverse a) (32 :: b)); [done|].
      by apply same_case_ascii_text.
    + apply MBnd. change (xorb (is_word 77) (is_word 32) = true). by rewrite HM, Hsp.
Qed.
End PythonFlag.

(** ** Instances and witnesses *)

(** A whole-number logarithm and an integer square root: concrete functions with
    the properties above. *)
Definition floor_log2 (x : float) : result float :=
  match x with
  | Fin z => if 0 <? z then Ok (of_int (Z.min 1024 (Z.log2 z - grid)))
             else Raise (ValueError "math domain error")
  | _ => Ok x
  end.

Definition floor_sqrt (x : float) : result float :=
  match x with
  | Fin z => if 0 <=? z then Ok (round_ratio (Z.min (1 * 2 ^ 2000) (Z.sqrt (z * 2 ^ grid))) 1)
             else Raise (ValueError "math domain error")
  | _ => Ok x
  end.

Lemma small_log_fin n : -1074 <= n <= 1024 -> is_fin (of_int n) = true.
Proof.
  intros [H1 H2]. apply of_int_mono in H1, H2.
  assert (Ha : is_fin (of_int (-1074)) = true) by fcompute.
  assert (Hb : is_fin (of_int 1024) = true) by fcompute.
  destruct (of_int (-1074)) as [x|?|]; [|discriminate Ha..].
  destruct (of_int 1024) as [y|?|]; [|discriminate Hb..].
  destruct (of_int n) as [z|[]|]; [reflexivity| | |].
  - by apply fle_inv_neg in H1.
  - by apply fle_inv_pos in H2.
  - apply fle_not_nan in H2 as [H2 _]. discriminate H2.
Qed.

#[global] Instance floor_laws : MathLaws floor_log2 floor_sqrt.
Proof.
  assert (Hlog : forall z, 0 < z -> floor_log2 (Fin z) = Ok (of_int (Z.min 1024 (Z.log2 z - grid)))).
  { intros z Hz. unfold floor_log2. by rewrite (proj2 (Z.ltb_lt 0 z) Hz). }
  split.
  - intros z Hz. eexists. split; [by apply Hlog|]. apply small_log_fin.
    pose proof (Z.log2_nonneg z). rewrite grid_def. lia.
  - intros z y Hz H1 Hy. rewrite Hlog in Hy by done. simplify_eq. rewrite f1_def in H1.
    apply fle_Fin in H1. apply Z.log2_le_mono in H1. rewrite Z.log2_pow2 in H1 by (by vm_compute).
    pose proof (Z.log2_nonneg z). rewrite <- of_int_0. rewrite grid_def in *. split; apply of_int_mono; lia.
  - intros z y H2 Hy. replace (of_int 2) with (Fin (2 ^ 1075)) in H2 by fcompute. apply fle_Fin in H2.
    assert (Hz : 0 < z) by (pose proof (pow2_pos 1075 ltac:(lia)); lia).
    rewrite Hlog in Hy by done. simplify_eq. apply Z.log2_le_mono in H2. rewrite Z.log2_pow2 in H2 by lia.
    rewrite grid_def. apply of_int_ge_1. lia.
  - intros z Hz. unfold floor_sqrt. rewrite (proj2 (Z.leb_le 0 z) Hz). eexists. split; [reflexivity|].
    pose proof (Z.sqrt_nonneg (z * 2 ^ grid)) as Hs. pose proof (pow2_pos 2000 ltac:(lia)) as Hp.
    split; [|apply round_ratio_wf; lia].
    destruct (round_ratio_within (Z.min (1 * 2 ^ 2000) (Z.sqrt (z * 2 ^ grid))) 1 (1 * 2 ^ 2000))
      as (y & -> & _); [lia|apply wf_scaled; lia|lia|lia|reflexivity].
Qed.

Lemma nothing_loaded_quiet ner_on embedding_on : quiet None None (extractor_init ner_on embedding_on).
Proof. split; intros f t [H|H]; discriminate H. Qed.

Definition demo_prompt : string := "Why is the sky blue? See https://example.org!".

Lemma extract_features_type_witness :
  exists v self', _extract_features floor_log2 floor_sqrt None None (extractor_init true true)
                    (codes demo_prompt) = (Ok v, self') /\ wf_features v /\
                  Forall (fun x => is_fin x = true) (values v) /\
                  quiet None None self' /\ same_flags self' (extractor_init true true).
Proof.
  apply (extract_features_type floor_log2 floor_sqrt None None (extractor_init true true) (codes demo_prompt)).
  - apply codes_valid.
  - vm_compute. discriminate.
  - apply nothing_loaded_quiet.
Defined.

Lemma feature_ranges_witness :
  exists v d, (_extract_features floor_log2 floor_sqrt None None (extractor_init false false)
                 (codes demo_prompt)).1 = Ok v /\ as_dict v = Ok d /\
    Forall (fun n => exists x, d !! n = Some x /\ unit_range x) unit_features /\
    Forall (fun n => exists x, d !! n = Some x /\ (f1 <= x)%float)
      ["prompt_token_count"; "conversation_turn_count"; "sentence_count"].
Proof.
  apply (feature_ranges floor_log2 floor_sqrt None None (extractor_init false false) (codes demo_prompt)).
  - apply codes_valid.
  - vm_compute. discriminate.
  - apply nothing_loaded_quiet.
Defined.

Lemma sql_from_is_python_witness :
  found _PYTHON_RE (codes "SELECT name FROM users") = true /\
  found _SQL_RE (codes "SELECT name FROM users") = true.
Proof.
  apply (sql_from_is_python (codes "SELECT name ") (codes "users")). reflexivity.
Defined.

(** A network that reads its row. *)
Definition summing_net (row : list float) : float := fold_left (fun a x => to_f32 (fadd a x)) row f0.

Lemma submission_never_falls_back_witness :
  exists st' s' v row p,
    sjf_submit (serving_predictor floor_log2 floor_sqrt None None summing_net None None f0 f0 f0 f0)
      demo_clock 2%nat demo_store demo_sjf = (st', s', Ok tt) /\
    s_use_fallback s' = false /\
    (extract floor_log2 floor_sqrt None None (extractor_init false false) f0 f0 "hello").1 =
      Ok (Build_ExtractionResult v (ms_between f0 f0) "hello") /\
    _to_tensor None None v = Ok row /\ p = forward default_model_config summing_net row /\
    clamped summing_net row p /\
    s_queue s' = enqueue (sc_now demo_clock) "b" p 2%nat (s_queue demo_sjf) /\
    r_priority <$> st' !! 2%nat = Some p.
Proof.
  apply (submission_never_falls_back floor_log2 floor_sqrt None None summing_net None None
           f0 f0 f0 f0 demo_clock 2%nat demo_store demo_sjf (demo_request "b" 0 32)).
  - apply nothing_loaded_quiet.
  - exact I.
  - vm_compute. reflexivity.
  - vm_compute. discriminate.
  - vm_compute. reflexivity.
  - vm_compute. reflexivity.
Defined.

(** The extractor on the prompts of the project's own tests. *)
Definition test_code_prompt : text := codes ("```python" +:+ newline +:+ "def foo():" +:+ newline +:+ "    pass").

Example code_detection :
  found _CODE_FENCE_RE test_code_prompt = true /\ found _PYTHON_RE test_code_prompt = true /\
  found _SQL_RE test_code_prompt = false.
Proof. vm_compute. auto. Qed.

Example url_detection : findall _URL_RE (codes demo_prompt) = [codes "https://example.org!"].
Proof. vm_compute. reflexivity. Qed.

Example markup_detection :
  map (fun r => found r (codes "- [a](b) <p> {'k': 'v'}")) [_MARKDOWN_RE; _XML_RE; _JSON_RE; _YAML_RE] =
  [true; true; true; false].
Proof. vm_compute. reflexivity. Qed.

Lemma parallel_matches_sequential_witness :
  exists xs, extract_batch floor_log2 floor_sqrt None None (extractor_init false false) (fun _ => (f0, f0))
      [demo_prompt; ""] = (Ok xs, extractor_init false false) /\
    parallel_extract floor_log2 floor_sqrt None None f0 f1 4 [demo_prompt; ""] =
      Ok (map (fun x => as_list (ext_features x)) xs).
Proof.
  apply (parallel_matches_sequential floor_log2 floor_sqrt None None f0 f1 4 (fun _ => (f0, f0))).
  - apply nothing_loaded_quiet.
  - lia.
  - repeat constructor; vm_compute; discriminate.
Defined.
