(* ===== verification/EndToEnd.v ===== *)
(** * From training to scheduling

    train.py leaves a checkpoint and an export; the gateway's startup reads the export
    back; its scheduler asks the loaded predictor for every request.  This file puts
    the models of those parts together: train.py over files, and the predictor object
    of the gateway as the predictor of the SJF scheduler. *)
From Stdlib Require Import ZArith Lia.
From stdpp Require Import base option list strings gmap.
From S2P Require Import Prelude PyFloat Heapq Aging PriorityQueue BaseScheduler Fcfs Sjf.
From S2P Require Import Features Predictor Dataset Trainer Pipeline Serving PyText Regex FloatBounds FeatureExtractor.
Local Open Scope string_scope.
Local Open Scope list_scope.
Local Open Scope nat_scope.
Local Open Scope py_scope.

(** ** Definitions *)

Section Script.
Context (_hash_prompt : string -> string).
Context (permutation : Z -> nat -> list nat) (col_mean col_std : list (list float) -> list float).
Context (np_mean : list float -> float) (np_sqrt : float -> float).
Context (pearson spearman : list float -> list float -> float).
Context {M : Type} (shapes : M -> list (string * list Z)) (net : M -> list float -> float).

(** train.py over files, from the splits on: the checkpoint file of the trainer is read back for
    the test metrics and again by the export. *)
Definition train_script (run : DatasetSplits -> result (TrainResult * option M)) (fs : files)
    (checkpoint_path output_dir : path) (c : DatasetCfg) (preset : result (list Sample)) (hidden : Z)
    (drop_p : float) (version : option string) (date : string) (rev_parse : result string)
    : result (files * ExportMetadata) :=
  let? sp := prepare_splits _hash_prompt permutation col_mean col_std c preset in
  let? (res, ck) := run sp in
  match ck with
  | None => missing checkpoint_path
  | Some m =>
      let fs1 := <[checkpoint_path := StateFile (shapes m) (net m)]> fs in
      let? (state, trained) := torch_load fs1 checkpoint_path in
      let? _ := load_state_dict default_model_config state in
      let? (x, y) := to_tensors sp.(test) sp.(feature_mean) sp.(feature_std) in
      let preds := map (forward default_model_config trained) x in
      let? d := broadcast fsub32 y preds in
      let metrics :=
        [("test_mae", np_mean (map fabs d)); ("test_rmse", np_sqrt (np_mean (map sq32 d)));
         ("test_pearson", pearson y preds); ("test_spearman", spearman y preds);
         ("best_val_loss", res.(best_val_loss)); ("best_epoch", of_int (Z.of_nat res.(best_epoch)))] in
      export_files fs1 checkpoint_path output_dir sp.(feature_mean) sp.(feature_std) (Some metrics)
        (default "1.0.0" version) hidden drop_p date rev_parse
  end.

(** The script over files computes what the script over values computes. *)
Lemma train_script_values run fs ck dir c preset hidden drop_p version date rev fs' meta :
  train_script run fs ck dir c preset hidden drop_p version date rev = Ok (fs', meta) ->
  exists state,
    train_main _hash_prompt permutation col_mean col_std np_mean np_sqrt pearson spearman shapes net run c preset
      hidden drop_p version date rev = Ok (state, meta).
Proof.
  unfold train_script, train_main. intros E. apply rbind_Ok in E as (sp & -> & E). cbn [rbind].
  apply rbind_Ok in E as ([res ck'] & -> & E). cbn [rbind]. destruct ck' as [m|]; [|discriminate E].
  unfold torch_load at 1 in E. rewrite lookup_insert_eq in E. cbn [rbind] in E.
  apply rbind_Ok in E as ([] & -> & E). cbn [rbind]. apply rbind_Ok in E as ([x y] & -> & E). cbn [rbind].
  apply rbind_Ok in E as (d & -> & E). cbn [rbind]. unfold export_files, torch_load in E.
  rewrite lookup_insert_eq in E. cbn [rbind] in E. apply rbind_Ok in E as ([state' meta'] & Hex & E).
  injection E as <- <-. by exists state'.
Qed.

(** What the script leaves: the export of the trained model and the statistics of the training
    part. *)
Lemma train_script_export run fs ck dir c preset hidden drop_p version date rev fs' meta :
  train_script run fs ck dir c preset hidden drop_p version date rev = Ok (fs', meta) ->
  exists sp res m,
    prepare_splits _hash_prompt permutation col_mean col_std c preset = Ok sp /\ run sp = Ok (res, Some m) /\
    shapes m = param_shapes default_model_config /\
    fs' !! slash dir "metadata.json" =
      Some (MetaFile {| meta_mean := Some sp.(feature_mean); meta_std := Some sp.(feature_std) |}) /\
    fs' !! slash dir "output_length_mlp.pt" = Some (StateFile (shapes m) (net m)).
Proof.
  unfold train_script. intros E. apply rbind_Ok in E as (sp & Hsp & E). apply rbind_Ok in E as ([res ck'] & Hrun & E).
  destruct ck' as [m|]; [|discriminate E]. unfold torch_load at 1 in E. rewrite lookup_insert_eq in E. cbn [rbind] in E.
  apply rbind_Ok in E as ([] & Hl & E). apply rbind_Ok in E as ([x y] & _ & E). apply rbind_Ok in E as (d & _ & E).
  apply load_state_dict_shapes in Hl. exists sp, res, m. split; [exact Hsp|]. split; [exact Hrun|]. split; [exact Hl|].
  eapply exported_files in E as (Hm & _ & _ & Hp); [|apply lookup_insert_eq]. by split.
Qed.

(** A training run that never improves leaves the checkpoint of an earlier run (see
    [Trainer.unimproved_training]); the script then exports that network, next to the statistics of
    the new data. *)
Theorem stale_checkpoint_exported run old fs ck dir c preset hidden drop_p version date rev fs' meta :
  (forall sp res ck', run sp = Ok (res, ck') -> ck' = Some old) ->
  train_script run fs ck dir c preset hidden drop_p version date rev = Ok (fs', meta) ->
  exists sp, prepare_splits _hash_prompt permutation col_mean col_std c preset = Ok sp /\
    fs' !! slash dir "metadata.json" =
      Some (MetaFile {| meta_mean := Some sp.(feature_mean); meta_std := Some sp.(feature_std) |}) /\
    fs' !! slash dir "output_length_mlp.pt" = Some (StateFile (shapes old) (net old)).
Proof.
  intros Hrun E. apply train_script_export in E as (sp & res & m & Hsp & Hr & _ & Hm & Hp).
  apply Hrun in Hr as [= ->]. by exists sp.
Qed.

(** The statistics a split carries are those of samples of the data set. *)
Lemma split_statistics samples train_ratio val_ratio seed sp :
  split permutation col_mean col_std samples train_ratio val_ratio seed = Ok sp ->
  Forall (fun s => s ∈ samples) sp.(Dataset.train) /\
  sp.(feature_mean) = along_axis0 col_mean (map np_float32 (map s_features sp.(Dataset.train))) /\
  sp.(feature_std) = along_axis0 col_std (map np_float32 (map s_features sp.(Dataset.train))).
Proof.
  unfold split. intros E. apply rbind_Ok in E as (a & _ & E). apply rbind_Ok in E as (b & _ & E).
  apply rbind_Ok in E as (tr & Htr & E). apply rbind_Ok in E as (va & _ & E). apply rbind_Ok in E as (te & _ & E).
  unfold np_rows in E. destruct (same_length _); [|discriminate E]. injection E as <-. cbn [Dataset.train feature_mean feature_std].
  split; [|done]. unfold pick in Htr. apply rmap_Ok in Htr. revert Htr. clear.
  generalize (py_slice None (Some a) (permutation seed (length samples))). intros idx H.
  induction H as [|i s idx tr Hi _ IH]; [done|]. constructor; [|exact IH].
  destruct (samples !! i) eqn:E; [|discriminate Hi]. injection Hi as ->. by eapply list_elem_of_lookup_2.
Qed.

End Script.

Section Serve.
Context {U : Unicode} (log2 sqrt : float -> result float).
Context (spacy : option (text -> result Z)) (transformer : option (text -> result float)).

(** [OutputLengthPredictor.predict] of a predictor object, with its own extractor. *)
Definition object_predict (p : OutputLengthPredictor) (t0 t1 t2 t3 : float) (prompt : string)
    : result PredictionResult :=
  predict (fun s => (extract log2 sqrt spacy transformer (extractor_init false false) t0 t1 s).1)
    p.(p_net) p.(p_config) p.(p_mean) p.(p_std) t2 t3 prompt.
End Serve.

(** ** From a training run to the queue *)

Section Composition.
Context {U : Unicode} (log2 sqrt : float -> result float) {HM : MathLaws log2 sqrt}.
Context (spacy : option (text -> result Z)) (transformer : option (text -> result float)).
Context (h : string -> string).
Context (permutation : Z -> nat -> list nat) (col_mean col_std : list (list float) -> list float).
Context (np_mean : list float -> float) (np_sqrt : float -> float).
Context (pearson spearman : list float -> list float -> float).
Context {M : Type} (shapes : M -> list (string * list Z)) (net : M -> list float -> float).

(** Numpy's statistics along the first axis have an entry per column; the name and embedding models
    that are loaded do not raise. *)
Hypothesis columns : forall rows, rows <> [] -> Forall (fun r => length r = NUM_FEATURES) rows ->
  length (col_mean rows) = NUM_FEATURES /\ length (col_std rows) = NUM_FEATURES.
Hypothesis loaded_quiet : quiet spacy transformer (extractor_init false false).

Lemma split_widths samples c sp :
  Forall (fun s => length s.(s_features) = NUM_FEATURES) samples ->
  prepare_splits h permutation col_mean col_std c (Ok samples) = Ok sp -> sp.(Dataset.train) <> [] ->
  length sp.(feature_mean) = NUM_FEATURES /\ length sp.(feature_std) = NUM_FEATURES.
Proof.
  intros Hw E Hne. unfold prepare_splits in E. cbn [rbind] in E.
  apply split_statistics in E as (Hin & -> & ->). destruct (Dataset.train sp) as [|s0 ss] eqn:Etr; [done|].
  rewrite <- Etr in *. replace (along_axis0 col_mean _) with (col_mean (map np_float32 (map s_features (Dataset.train sp))))
    by (by rewrite Etr). replace (along_axis0 col_std _) with (col_std (map np_float32 (map s_features (Dataset.train sp))))
    by (by rewrite Etr). apply columns.
  - by rewrite Etr.
  - rewrite Forall_forall in Hw. rewrite map_map. apply Forall_map. eapply Forall_impl; [exact Hin|]. intros s Hs.
    apply dedup_elem in Hs. unfold np_float32. rewrite length_map. by apply Hw.
Qed.

(** C6.  Train, export, serve, schedule: after a training run on samples with forty features each, with
    a training part that is not empty, the gateway starts with the trained network and the
    statistics of the training part, and every request without a prediction, submitted while the
    scheduler is not in fallback mode, is queued with what that network says about its normalised
    features: between 1 and 4096 tokens, or NaN where the network says NaN.  Such a submission never
    raises and never switches to the fallback. *)
Theorem trained_model_schedules cuda run fs ck dir c samples hidden drop_p version date rev fs' meta untrained :
  train_script h permutation col_mean col_std np_mean np_sqrt pearson spearman shapes net run fs ck dir c (Ok samples)
    hidden drop_p version date rev = Ok (fs', meta) ->
  Forall (fun s => length s.(s_features) = NUM_FEATURES) samples ->
  (forall sp, prepare_splits h permutation col_mean col_std c (Ok samples) = Ok sp -> sp.(Dataset.train) <> []) ->
  exists sp res m p,
    prepare_splits h permutation col_mean col_std c (Ok samples) = Ok sp /\ run sp = Ok (res, Some m) /\
    gateway_predictor cuda fs' dir untrained = Ok p /\
    forall t0 t1 t2 t3 k l st s req,
      st !! l = Some req -> (Z.of_nat (String.length (r_prompt req)) <= 2 ^ 63)%Z ->
      ftruthy (r_predicted_tokens req) = false -> s_use_fallback s = false ->
      exists st' s' v row,
        sjf_submit (object_predict log2 sqrt spacy transformer p t0 t1 t2 t3) k l st s = (st', s', Ok tt) /\
        (extract log2 sqrt spacy transformer (extractor_init false false) t0 t1 (r_prompt req)).1 =
          Ok (Build_ExtractionResult v (ms_between t0 t1) (r_prompt req)) /\
        _to_tensor (Some sp.(feature_mean)) (Some sp.(feature_std)) v = Ok row /\
        s_queue s' = enqueue (sc_now k) (r_request_id req) (forward default_model_config (net m) row) l (s_queue s) /\
        clamped (net m) row (forward default_model_config (net m) row) /\
        s_use_fallback s' = false.
Proof.
  intros E Hw Hne. apply train_script_export in E as (sp & res & m & Hsp & Hrun & Hsh & Hm & Hp).
  destruct (split_widths samples c sp Hw Hsp (Hne sp Hsp)) as [Hlm Hls].
  assert (Hmean : feature_mean sp <> []) by (intros Hx; rewrite Hx in Hlm; discriminate Hlm).
  exists sp, res, m. eexists. split; [exact Hsp|]. split; [exact Hrun|].
  split; [by eapply exported_gateway|].
  intros t0 t1 t2 t3 k l st s req Hl Hlen Hpt Hfb.
  destruct (default_quiet log2 sqrt spacy transformer loaded_quiet (r_prompt req) t0 t1 Hlen) as (v & He & Hv).
  set (mean := np_float32 (feature_mean sp)). set (std := np_float32 (feature_std sp)).
  destruct (normalize_total (np_float32 (as_list v)) mean std) as (row & Hr & _).
  { unfold mean, np_float32, as_list. rewrite !length_map. unfold wf_features in Hv. congruence. }
  { unfold std, np_float32, as_list. rewrite !length_map. unfold wf_features in Hv. congruence. }
  assert (Ht : _to_tensor (Some (feature_mean sp)) (Some (feature_std sp)) v = Ok row) by exact Hr.
  assert (Ht' : _to_tensor (Some mean) (Some std) v = Ok row)
    by (unfold _to_tensor, mean, std; rewrite !np_float32_idem; exact Hr).
  set (p := predictor_init _ _ _ _ _ _).
  assert (Hpred : object_predict log2 sqrt spacy transformer p t0 t1 t2 t3 (r_prompt req) =
    Ok (mkPrediction (forward default_model_config (net m) row) v (ms_between t0 t1) (ms_between t2 t3))).
  { unfold object_predict, predict, p. cbn [predictor_init p_net p_config p_mean p_std]. rewrite He. cbn [fst rbind ext_features].
    rewrite Ht'. reflexivity. }
  destruct (predicted_submission _ k l st s req _ Hl Hpt Hfb Hpred) as (st' & s' & Es & Hf & Hq & _).
  pose proof (forward_clamped (net m) row) as Hc.
  pose proof (f_equal fst He) as He'.
  exists st', s', v, row. exact (conj Es (conj He' (conj Ht (conj Hq (conj Hc Hf))))).
Qed.
End Composition.

(** ** Witness: a run of the script, and a request *)

Definition forty_sample (s : string) : Sample := mkSample s (replicate NUM_FEATURES f0) f0 [].
Definition forty_samples : list Sample := map forty_sample ["a"; "b"; "c"].

(** A trainer that leaves the network that sums its row. *)
Definition summing (_ : Z) (row : list float) : float := summing_net row.
Definition summing_run (sp : DatasetSplits) : result (TrainResult * option Z) :=
  Ok (mkTrainResult 1 f0 [] "best.pt" sp.(feature_mean) sp.(feature_std), Some 0%Z).

Definition summing_script : result (files * ExportMetadata) :=
  train_script (fun p => p) in_order first_row first_row (fun _ => f0) (fun x => x) (fun _ _ => f0) (fun _ _ => f0)
    (fun _ : Z => param_shapes default_model_config) summing summing_run ∅ ["best.pt"] ["models"] default_cfg
    (Ok forty_samples) 128 f0 None "today" (Raise IndexError).

Definition or_nothing (r : result (files * ExportMetadata)) : files * ExportMetadata :=
  match r with Ok z => z | Raise _ => (∅, mkExport "" [] 0 [] [] 0 f0 "" "" []) end.

Definition summing_export : files * ExportMetadata := or_nothing summing_script.

Lemma summing_script_ok : summing_script = Ok (summing_export.1, summing_export.2).
Proof.
  assert (Hok : is_ok summing_script = true) by (vm_compute; reflexivity).
  unfold summing_export. destruct summing_script as [[fs meta]|]; [reflexivity|discriminate Hok].
Qed.

Lemma first_row_columns rows :
  rows <> [] -> Forall (fun r => length r = NUM_FEATURES) rows ->
  length (first_row rows) = NUM_FEATURES /\ length (first_row rows) = NUM_FEATURES.
Proof. intros Hne Hall. destruct Hall as [|r rows Hr _]; done. Qed.

Definition train_count (r : result DatasetSplits) : nat :=
  match r with Ok sp => length sp.(Dataset.train) | Raise _ => 0 end.

Lemma summing_trains sp :
  prepare_splits (fun p => p) in_order first_row first_row default_cfg (Ok forty_samples) = Ok sp -> sp.(Dataset.train) <> [].
Proof.
  assert (Hok : train_count (prepare_splits (fun p => p) in_order first_row first_row default_cfg (Ok forty_samples)) = 2)
    by (vm_compute; reflexivity).
  intros E Hnil. rewrite E in Hok. unfold train_count in Hok. rewrite Hnil in Hok. discriminate Hok.
Qed.

Lemma trained_model_schedules_witness :
  exists p st' s' y, gateway_predictor false summing_export.1 ["models"] (fun _ => f0) = Ok p /\
    sjf_submit (object_predict floor_log2 floor_sqrt None None p f0 f0 f0 f0) demo_clock 2 demo_store demo_sjf
      = (st', s', Ok tt) /\
    s_queue s' = enqueue (sc_now demo_clock) "b" y 2 (s_queue demo_sjf) /\
    exists row, clamped summing_net row y.
Proof.
  destruct (trained_model_schedules floor_log2 floor_sqrt None None (fun p => p) in_order first_row first_row (fun _ => f0)
      (fun x => x) (fun _ _ => f0) (fun _ _ => f0) (fun _ : Z => param_shapes default_model_config) summing
      first_row_columns (nothing_loaded_quiet false false) false summing_run ∅ ["best.pt"] ["models"]
      default_cfg forty_samples 128 f0 None "today" (Raise IndexError) summing_export.1 summing_export.2 (fun _ => f0))
    as (sp & res & m & p & _ & _ & Hg & Hs).
  - exact summing_script_ok.
  - repeat constructor.
  - exact summing_trains.
  - destruct (Hs f0 f0 f0 f0 demo_clock 2 demo_store demo_sjf (demo_request "b" 0 32))
      as (st' & s' & v & row & Es & _ & _ & Hq & Hc & _).
    + vm_compute. reflexivity.
    + vm_compute. discriminate.
    + vm_compute. reflexivity.
    + vm_compute. reflexivity.
    + exists p, st', s', (forward default_model_config (summing m) row).
      exact (conj Hg (conj Es (conj Hq (ex_intro _ row Hc)))).
Defined.
