(* ===== verification/RegistryPatch.v ===== *)
(** * Patches of an installed vLLM (scripts/patch_registry.py, scripts/patch_init.py)

    Two scripts run during the image build: the first edits the model registry
    (registry.py, or __init__.py in old versions), the second the exports of
    __init__.py.  The files are a record of optional contents; a script maps
    them to the new contents and what it reports.  Texts with double quotes are
    written with single ones and converted by [dq]. *)
From Stdlib Require Import ZArith Lia.
From stdpp Require Import base option list strings.
From S2P Require Import Prelude PyText Regex.
Local Open Scope string_scope.
Local Open Scope list_scope.
Local Open Scope Z_scope.

(** Single quotes to double quotes. *)
Definition dq (s : string) : text := map (fun c => if c =? 39 then 34 else c) (codes s).

Inductive message :=
| VllmMissing
| AlreadyRegistered (label : string)
| Registered (label : string)
| NoInsertionPoint (label : string)
| NoRegistry
| NoInit
| RegisteredInGenerationModels
| AlreadyExported
| Exported.

(** registry.py and __init__.py under model_executor/models; [None] is no file. *)
Record ModelFiles := mkFiles { registry_py : option text; init_py : option text }.

(** ** patch_registry.py *)

Definition spaces : re := Star (CSet SpaceCh).
Definition NATIVE_ENTRY : text := dq "'SmolLM3ForCausalLM': ('smollm3', 'SmolLM3ForCausalLM'),".

Definition TRANSFORMERS_ENTRY_RE : re :=
  cats [spaces; lits (dq "'SmolLM3ForCausalLM':"); spaces; lits (dq "("); spaces;
        lits (dq "'transformers',"); spaces; lits (dq "'TransformersForCausalLM',"); spaces;
        lits (dq "),")].

Definition NATIVE_ENTRY_RE : re :=
  cats [lits (dq "'SmolLM3ForCausalLM':"); spaces; lits (dq "("); spaces; lits (dq "'smollm3',");
        spaces; lits (dq "'SmolLM3ForCausalLM',"); spaces; lits (dq ")")].

Definition INSERT_CANDIDATES : list text := [
  dq "'StableLmForCausalLM': ('stablelm', 'StablelmForCausalLM'),";
  dq "'Starcoder2ForCausalLM': ('starcoder2', 'Starcoder2ForCausalLM'),"].

Definition native_line : text :=
  codes (newline +:+ "    ") ++ NATIVE_ENTRY ++ codes "  # native SmolLM3 port".

(** The loop over the insertion candidates. *)
Fixpoint insert_native (candidates : list text) (label : string) (content : text) : text * message :=
  match candidates with
  | [] => (content, NoInsertionPoint label)
  | insert_after :: rest =>
      if contains insert_after content then
        (str_replace insert_after (insert_after ++ native_line) content, Registered label)
      else insert_native rest label content
  end.

Section Patches.
Context {U : Unicode}.

Definition patch_content (content : text) (label : string) : text * message :=
  let content := re_sub TRANSFORMERS_ENTRY_RE (fun _ => []) content in
  if found NATIVE_ENTRY_RE content then (content, AlreadyRegistered label)
  else insert_native INSERT_CANDIDATES label content.

(** The script; [installed] says whether [import vllm] succeeds. *)
Definition patch_registry (installed : bool) (fs : ModelFiles) : ModelFiles * message :=
  if negb installed then (fs, VllmMissing)
  else match registry_py fs, init_py fs with
       | Some content, _ =>
           let '(new, m) := patch_content content "registry.py" in (mkFiles (Some new) (init_py fs), m)
       | None, Some content =>
           let '(new, m) := patch_content content "__init__.py" in (mkFiles None (Some new), m)
       | None, None => (fs, NoRegistry)
       end.

(** ** patch_init.py *)

Definition model_name : text := codes "SmolLM3ForCausalLM".
Definition import_line : text := codes "from .smollm3 import SmolLM3ForCausalLM  # native SmolLM3 port".
Definition words : re := Plus (CSet WordCh).

(** [from \.\w+ import \w+ForCausalLM\n] *)
Definition import_re : re :=
  cats [lit "from ."; words; lit " import "; words; lit "ForCausalLM"; CSet (Ch 10)].

(** [__all__\s*=\s*\[[^\]]*] *)
Definition all_re : re := cats [lit "__all__"; spaces; lit "="; spaces; lit "["; Star (CSet (NotIn (Ch 93)))].

Definition add_import (content : text) : text :=
  if contains (codes "from .smollm3 import") content then content
  else match re_search import_re content with
       | Some (_, e) => reverse (before e) ++ import_line ++ [10] ++ after e
       | None => import_line ++ [10] ++ content
       end.

(** What the substitution adds behind the group. *)
Definition all_entry : text := [10] ++ dq "    'SmolLM3ForCausalLM',".

Definition add_export (content : text) : text :=
  if contains (codes "__all__") content then re_sub1 all_re (fun m => m ++ all_entry) content
  else content.

Definition patch_init_content (content : text) : text * message :=
  if contains (codes "_GENERATION_MODELS") content && contains (dq "'SmolLM3ForCausalLM'") content then
    (content, RegisteredInGenerationModels)
  else if contains model_name content then (content, AlreadyExported)
  else (add_export (add_import content), Exported).

Definition patch_init (installed : bool) (fs : ModelFiles) : ModelFiles * message :=
  if negb installed then (fs, VllmMissing)
  else match init_py fs with
       | None => (fs, NoInit)
       | Some content =>
           let '(new, m) := patch_init_content content in (mkFiles (registry_py fs) (Some new), m)
       end.

(** The image build runs one script after the other. *)
Definition build_patches (installed : bool) (fs : ModelFiles) : ModelFiles :=
  (patch_init installed (patch_registry installed fs).1).1.

(** ** Properties *)

Lemma contains_prefix sub a b : contains sub a = true -> contains sub (a ++ b) = true.
Proof. rewrite !contains_iff. intros (x & y & ->). exists x, (y ++ b). by rewrite <- !app_assoc. Qed.

Lemma contains_trans a b t : contains a b = true -> contains b t = true -> contains a t = true.
Proof.
  rewrite !contains_iff. intros (x & y & ->) (u & v & ->). exists (u ++ x), (y ++ v).
  by rewrite <- !app_assoc.
Qed.

Lemma insert_native_spec candidates label content :
  Forall (fun c => c <> []) candidates ->
  match insert_native candidates label content with
  | (new, Registered _) => exists c, c ∈ candidates /\ contains c content = true /\
      new = str_replace c (c ++ native_line) content /\ contains (c ++ native_line) new = true
  | (new, m) => new = content /\ m = NoInsertionPoint label /\
                forall c, c ∈ candidates -> contains c content = false
  end.
Proof.
  induction 1 as [|c cs Hc _ IH]; cbn [insert_native].
  - split_and!; [done|done|]. by intros c ?%elem_of_nil.
  - destruct (contains c content) eqn:E.
    + exists c. split_and!; [by left|done|done|]. by apply str_replace_present.
    + destruct (insert_native cs label content) as [new []];
        try (destruct IH as (? & ? & IH); split_and!; [done|done|]; intros c' [->|?]%elem_of_cons; auto).
      destruct IH as (c' & ? & ?). exists c'. split; [by right|done].
Qed.

(** What the registry patch does to a file, on every branch: the Transformers entry is
    cut out; a file that has the entry in the form the guard recognises is
    otherwise left alone; else the native entry is put right behind the first
    candidate model that is listed, or, when none is, the file is left alone and
    the missing insertion point is reported. *)
Theorem patch_content_spec (content : text) (label : string) :
  let cut := re_sub TRANSFORMERS_ENTRY_RE (fun _ => []) content in
  match patch_content content label with
  | (new, AlreadyRegistered l) => l = label /\ new = cut /\ found NATIVE_ENTRY_RE cut = true
  | (new, Registered _) =>
      found NATIVE_ENTRY_RE cut = false /\
      exists c, c ∈ INSERT_CANDIDATES /\ contains c cut = true /\
                new = str_replace c (c ++ native_line) cut /\
                contains (c ++ native_line) new = true /\ contains NATIVE_ENTRY new = true
  | (new, m) => m = NoInsertionPoint label /\ new = cut /\ found NATIVE_ENTRY_RE cut = false /\
                forall c, c ∈ INSERT_CANDIDATES -> contains c cut = false
  end.
Proof.
  intros cut. unfold patch_content. fold cut. destruct (found NATIVE_ENTRY_RE cut) eqn:E; [done|].
  assert (Hne : Forall (fun c : text => c <> []) INSERT_CANDIDATES) by (repeat (apply Forall_cons_2; [discriminate|]); apply Forall_nil_2).
  pose proof (insert_native_spec INSERT_CANDIDATES label cut Hne) as H.
  destruct (insert_native INSERT_CANDIDATES label cut) as [new []];
    try (destruct H as (-> & Hm & H); simplify_eq; done).
  split; [done|]. destruct H as (c & H1 & H2 & H3 & H4). exists c. split_and!; [done|done|done|done|].
  apply (contains_trans _ (c ++ native_line)); [|done]. apply contains_app_r.
  unfold native_line. apply contains_iff. by eexists _, _.
Qed.

(** *** The guard *)

Lemma lits_match_inv w b t e :
  Match (lits w) (At b t) e -> exists k, t = w ++ k /\ e = At (reverse w ++ b) k.
Proof.
  revert b t. induction w as [|x [|y w] IH]; intros b t H.
  - inversion H; subst. by exists t.
  - inversion H as [|s b' c a Hc| | | | | | |]; subst. simpl in Hc. apply Z.eqb_eq in Hc as ->. by exists a.
  - inversion H as [| | | |? ? ? d ? H1 H2| | | |]; subst.
    inversion H1 as [|s b' c a Hc| | | | | | |]; subst. simpl in Hc. apply Z.eqb_eq in Hc as ->.
    destruct (IH _ _ H2) as (k & -> & ->). exists k. by rewrite (reverse_cons _ c), <- app_assoc.
Qed.

Lemma star_set_inv s c e :
  Match (Star (CSet s)) c e -> exists w, moved w c e /\ Forall (fun x => in_cset s x = true) w.
Proof.
  intros H. remember (Star (CSet s)) as r eqn:Er. induction H as [| | | | | | |r c|r c d e H1 _ _ IH]; simplify_eq.
  - by exists [].
  - destruct (IH eq_refl) as (w & Hw & Hf). inversion H1; subst. eexists (_ :: w). split; [|by constructor].
    eapply (moved_trans [_] w); [|exact Hw]. by split.
Qed.

(** A literal behind white space that the text has at once, or after one space. *)
Lemma spaces_then w b t e x :
  isspace x = false -> Match spaces (At b (w ++ x :: t)) e -> Forall (fun c => isspace c = true) w ->
  forall l k, after e = l :: k -> isspace l = false -> l = x /\ k = t.
Proof.
  intros Hx (v & [Hv1 Hv2] & Hf)%star_set_inv Hw l k He Hl. simpl in Hv1. rewrite He in Hv1. clear He Hv2.
  revert v Hv1 Hf. induction Hw as [|y w Hy _ IH]; intros [|z v] Hv1 Hf; simplify_eq/=; [done| | |].
  - apply Forall_cons in Hf as [Hz _]. simpl in Hz. congruence.
  - congruence.
  - apply (IH v); [done|]. by apply Forall_cons in Hf as [_ Hf].
Qed.

Lemma cat_inv r1 r2 c e : Match (Cat r1 r2) c e -> exists d, Match r1 c d /\ Match r2 d e.
Proof. inversion 1; eauto. Qed.

(** White space and a literal: where the text has the literal's first character,
    it must go on with the rest of it. *)
Lemma spaces_lits sp b x w y t r e :
  isspace x = false -> isspace y = false -> Forall (fun c => isspace c = true) sp ->
  Match (Cat spaces (Cat (lits (x :: w)) r)) (At b (sp ++ y :: t)) e ->
  exists b' k, y :: t = (x :: w) ++ k /\ Match r (At b' k) e.
Proof.
  intros Hx Hy Hsp ([b1 a1] & H1 & ([b2 a2] & H2 & H3)%cat_inv)%cat_inv.
  destruct (lits_match_inv _ _ _ _ H2) as (k & -> & [= -> ->]).
  destruct (spaces_then sp b t (At b1 ((x :: w) ++ k)) y Hy H1 Hsp x (w ++ k) eq_refl Hx) as [-> <-].
  eexists _, k. by split.
Qed.

Context {HU : UnicodeLaws U}.

Lemma ascii_not_space c : is_ascii c && negb (ascii_space c) = true -> isspace c = false.
Proof. intros [Ha Hs]%andb_prop. rewrite space_ascii by done. by apply negb_true_iff. Qed.

Lemma one_space : Forall (fun c => isspace c = true) [32].
Proof. repeat constructor. by rewrite space_ascii. Qed.

(** The pattern that should recognise the native entry wants a comma behind its last
    string, which the entry does not have. *)
Lemma guard_misses_entry b c e : ~ Match NATIVE_ENTRY_RE (At b (NATIVE_ENTRY ++ c)) e.
Proof.
  intros ([b1 a1] & H1 & H)%cat_inv.
  destruct (lits_match_inv _ _ _ _ H1) as (k & Hk & [= -> ->]). clear H1.
  unfold NATIVE_ENTRY, dq in Hk. cbn in Hk. simplify_eq.
  apply (spaces_lits [32] _ 40 [] 40) in H as (b2 & k2 & Hk2 & H);
    [|by apply ascii_not_space..|apply one_space].
  cbn in Hk2. simplify_eq.
  apply (spaces_lits [] _ 34 (tail (dq "'smollm3',")) 34) in H as (b3 & k3 & Hk3 & H);
    [|by apply ascii_not_space..|constructor].
  cbn in Hk3. simplify_eq.
  apply (spaces_lits [32] _ 34 (tail (dq "'SmolLM3ForCausalLM',")) 34) in H as (b4 & k4 & Hk4 & H);
    [|by apply ascii_not_space..|apply one_space].
  cbn in Hk4. simplify_eq.
Qed.

(** *** The exports *)

Lemma add_import_cases content :
  add_import content = content \/ contains model_name (add_import content) = true.
Proof.
  unfold add_import. destruct (contains _ content); [by left|right].
  assert (Hn : contains model_name import_line = true) by (by vm_compute).
  destruct (re_search import_re content) as [[s e]|].
  - by apply contains_app_r, contains_prefix.
  - by apply contains_prefix.
Qed.

Lemma add_export_cases content :
  add_export content = content \/ contains model_name (add_export content) = true.
Proof.
  unfold add_export, re_sub1. destruct (contains _ content); [|by left].
  destruct (finditer all_re content) as [|[s e] ms]; [by left|right]. simpl.
  apply contains_app_r. rewrite <- app_assoc. apply contains_app_r, contains_prefix. by vm_compute.
Qed.

(** Patching the exports is idempotent: a second run changes nothing, whatever the
    file holds, and never adds a second import or a second export. *)
Theorem patch_init_idempotent (installed : bool) (fs : ModelFiles) :
  let once := (patch_init installed fs).1 in (patch_init installed once).1 = once.
Proof.
  destruct fs as [r [content|]]; [|by destruct installed]. destruct installed; [|done].
  assert (Hc : (patch_init_content (patch_init_content content).1).1 = (patch_init_content content).1).
  { unfold patch_init_content at 2 3.
    destruct (contains (codes "_GENERATION_MODELS") content && _) eqn:E1.
    { cbn [fst]. unfold patch_init_content. by rewrite E1. }
    destruct (contains model_name content) eqn:E2.
    { cbn [fst]. unfold patch_init_content. by rewrite E1, E2. }
    cbn [fst]. destruct (contains model_name (add_export (add_import content))) eqn:E3.
    { unfold patch_init_content. rewrite E3. split_if; reflexivity. }
    assert (Hsame : add_export (add_import content) = content).
    { destruct (add_export_cases (add_import content)) as [Hx|Hx]; [|congruence]. rewrite Hx in *.
      destruct (add_import_cases content) as [Hy|Hy]; [done|congruence]. }
    rewrite Hsame. unfold patch_init_content. by rewrite E1, E2. }
  unfold patch_init. cbn [negb init_py registry_py].
  destruct (patch_init_content content) as [new m]. cbn [fst init_py registry_py] in *.
  by destruct (patch_init_content new) as [new' m']; cbn [fst] in *; subst.
Qed.

(** The two scripts together.  In the old layout, once the first script has put the
    native entry into __init__.py the second one leaves that file alone; in
    the new layout each script edits only its own file, so that the order of the
    two does not matter. *)
Theorem scripts_compose (fs : ModelFiles) :
  match registry_py fs, init_py fs with
  | None, Some content =>
      (patch_registry true fs).2 = Registered "__init__.py" ->
      build_patches true fs = (patch_registry true fs).1
  | Some content, _ =>
      build_patches true fs = (patch_registry true (patch_init true fs).1).1
  | None, None => build_patches true fs = fs
  end.
Proof.
  destruct fs as [[r|] [i|]]; unfold build_patches, patch_registry, patch_init; cbn [negb registry_py init_py].
  - destruct (patch_content r _) as [new m] eqn:Er, (patch_init_content i) as [new' m'] eqn:Ei.
    cbn [fst registry_py init_py]. by rewrite Ei, Er.
  - destruct (patch_content r _) as [new m] eqn:Er. cbn [fst registry_py init_py]. by rewrite Er.
  - intros Hreg.
    assert (Hn : contains model_name (patch_content i "__init__.py").1 = true).
    { unfold patch_content in *. destruct (found _ _); [discriminate Hreg|].
      pose proof (insert_native_spec INSERT_CANDIDATES "__init__.py"
                    (re_sub TRANSFORMERS_ENTRY_RE (fun _ => []) i)) as H.
      destruct (insert_native _ _ _) as [new []]; cbn in Hreg; try discriminate Hreg.
      destruct H as (c & _ & _ & _ & H);
        [repeat (apply Forall_cons_2; [discriminate|]); apply Forall_nil_2|].
      apply (contains_trans _ (c ++ native_line)); [|done]. apply contains_app_r. by vm_compute. }
    destruct (patch_content i "__init__.py") as [new m]. cbn [fst registry_py init_py] in *.
    unfold patch_init_content. rewrite Hn. split_if; reflexivity.
  - done.
Qed.

(** The export is added without a separator: whatever stands between the brackets of
    the list, the new string is put right behind it, so after an element without a
    trailing comma Python reads the two string literals as one. *)
Theorem export_adds_no_comma (items rest : text) :
  93 ∉ items ->
  add_export (codes "__all__ = [" ++ items ++ 93 :: rest) =
  codes "__all__ = [" ++ items ++ all_entry ++ 93 :: rest.
Proof.
  intros Hi. unfold add_export. rewrite contains_prefix by (by vm_compute).
  set (t := codes "__all__ = [" ++ items ++ 93 :: rest).
  set (e := At (reverse items ++ reverse (codes "__all__ = [")) (93 :: rest)).
  assert (Hm : match_at all_re false (start t) = Some e).
  { apply match_at_first. unfold all_re. cbn [cats].
    assert (Heq : ends_run (in_cset SpaceCh) (codes "= [" ++ items ++ 93 :: rest)) by (by apply ascii_not_space).
    assert (Hbr : ends_run (in_cset SpaceCh) (codes "[" ++ items ++ 93 :: rest)) by (by apply ascii_not_space).
    assert (Hit : Forall (fun c => in_cset (NotIn (Ch 93)) c = true) items).
    { apply Forall_forall. intros c Hc. cbn [in_cset]. by destruct (Z.eqb_spec 93 c) as [<-|]. }
    unfold t. eapply first_Cat; [apply (first_lits (codes "__all__"))|].
    eapply first_Cat; [exact (first_star_set SpaceCh [32] _ _ one_space Heq)|].
    eapply first_Cat; [apply (first_lits (codes "="))|].
    eapply first_Cat; [exact (first_star_set SpaceCh [32] _ _ one_space Hbr)|].
    eapply first_Cat; [apply (first_lits (codes "["))|].
    exact (first_star_set (NotIn (Ch 93)) items _ (93 :: rest) Hit eq_refl). }
  unfold re_sub1, finditer.
  replace (iter_fuel false (start t)) with (S (2 * length t + 1)) by (unfold iter_fuel; simpl; lia).
  cbn [finditer_loop before after start].
  assert (Hs : scan all_re false [] t = Some (start t, e)).
  { change t with (after (start t)) at 1. destruct t as [|x t'] eqn:Et; [done|]. cbn [scan after start].
    change (At [] (x :: t')) with (start (x :: t')). by rewrite Hm. }
  rewrite Hs. cbn [take weave].
  rewrite (moved_between [] (start t) (start t)) by done.
  rewrite (moved_between (codes "__all__ = [" ++ items) (start t) e);
    [by rewrite app_nil_l, <- !app_assoc|].
  split; [by unfold t; rewrite <- app_assoc|]. by rewrite reverse_app, app_nil_r.
Qed.
End Patches.

(** ** A registry, and witnesses *)

(** The listing of a registry file around the entries that matter. *)
Definition demo_registry : text :=
  codes ("_TEXT_GENERATION_MODELS = {" +:+ newline +:+ "    ") ++
  dq "'StableLmForCausalLM': ('stablelm', 'StablelmForCausalLM')," ++
  codes (newline +:+ "}" +:+ newline +:+ "_TRANSFORMERS_SUPPORTED_MODELS = {" +:+ newline +:+ "    ") ++
  dq "'SmolLM3ForCausalLM': ( 'transformers', 'TransformersForCausalLM', )," ++
  codes (newline +:+ "}").

Definition patch_once (content : text) : text := (patch_content content "registry.py").1.

(** The guard against patching twice never sees the entry the patch writes: at no
    place where the native entry stands does its pattern match, whatever
    precedes and follows.  So a second run inserts the entry again: on a
    registry with the usual listing the first run cuts the Transformers entry and adds
    one native entry, the second run reports success and adds another. *)
Theorem patching_twice_duplicates :
  (forall (U : Unicode) (HU : UnicodeLaws U) b c e,
     ~ Match NATIVE_ENTRY_RE (At b (NATIVE_ENTRY ++ c)) e) /\
  contains (dq "TransformersForCausalLM") (patch_once demo_registry) = false /\
  str_count NATIVE_ENTRY (patch_once demo_registry) = 1 /\
  str_count NATIVE_ENTRY (patch_once (patch_once demo_registry)) = 2 /\
  (patch_content (patch_once demo_registry) "registry.py").2 = Registered "registry.py".
Proof.
  split; [intros U HU b c e; by apply guard_misses_entry|]. vm_compute. auto.
Qed.

Lemma export_adds_no_comma_witness :
  add_export (codes "__all__ = [" ++ dq "'Model'" ++ 93 :: [10]) =
  codes "__all__ = [" ++ dq "'Model'" ++ all_entry ++ 93 :: [10].
Proof.
  apply (export_adds_no_comma (dq "'Model'") [10]). apply (bool_decide_unpack _). vm_compute. exact I.
Defined.

(** The export of a file without imports of its own. *)
Example export_example :
  patch_init_content (dq "__all__ = ['Model',]") =
    (import_line ++ [10] ++ dq "__all__ = ['Model'," ++ [10] ++ dq "    'SmolLM3ForCausalLM',]", Exported).
Proof. vm_compute. reflexivity. Qed.

Example import_after_first_model :
  add_import (codes ("import os" +:+ newline +:+ "from .llama import LlamaForCausalLM" +:+ newline +:+ "x = 1")) =
  codes ("import os" +:+ newline +:+ "from .llama import LlamaForCausalLM" +:+ newline) ++
  import_line ++ codes (newline +:+ "x = 1").
Proof. vm_compute. reflexivity. Qed.

(** ** The documented change (vllm_port/registry_patch.py)

    The texts a reader is told to look for and to produce. *)

Definition text_lines (ls : list text) : text := 10 :: mjoin (map (fun l => l ++ [10]) ls).

Definition BEFORE_TRANSFORMERS_SUPPORTED : text := text_lines
  [dq "_TRANSFORMERS_SUPPORTED_MODELS = {";
   dq "    'SmolLM3ForCausalLM': (          # <-- REMOVE THIS ENTRY";
   dq "        'transformers',";
   dq "        'TransformersForCausalLM',";
   dq "    ),";
   dq "    'Emu3ForConditionalGeneration': (";
   dq "        'transformers',";
   dq "        'TransformersForMultimodalLM',";
   dq "    ),";
   dq "}"].

Definition AFTER_TEXT_GENERATION_MODELS : text := text_lines
  [dq "_TEXT_GENERATION_MODELS = {";
   dq "    # ... existing models ...";
   [];
   dq "    # [PATCH] SmolLM3 native port " ++ 8212 :: dq " replaces Transformers fallback";
   dq "    'SmolLM3ForCausalLM': ('smollm3', 'SmolLM3ForCausalLM'),";
   [];
   dq "    # ... rest of existing models ...";
   dq "}";
   [];
   dq "_TRANSFORMERS_SUPPORTED_MODELS = {";
   dq "    # SmolLM3ForCausalLM REMOVED " ++ 8212 :: dq " now in _TEXT_GENERATION_MODELS";
   dq "    'Emu3ForConditionalGeneration': (";
   dq "        'transformers',";
   dq "        'TransformersForMultimodalLM',";
   dq "    ),";
   dq "}"].

Definition INIT_CHANGE : text := text_lines
  [dq "# Add to vllm/model_executor/models/__init__.py:";
   dq "from .smollm3 import SmolLM3ForCausalLM";
   [];
   dq "__all__ = [";
   dq "    # ... existing exports ...";
   dq "    'SmolLM3ForCausalLM',";
   dq "]"].

(** The documented entry carries a comment after its parenthesis, which the pattern of the
    script does not allow: the script leaves the entry in place.  The documented result is
    not recognised as patched, so a run on it adds the entry again; the documented
    export is recognised. *)
Lemma documented_texts :
  patch_content BEFORE_TRANSFORMERS_SUPPORTED "registry.py" =
    (BEFORE_TRANSFORMERS_SUPPORTED, NoInsertionPoint "registry.py") /\
  contains NATIVE_ENTRY AFTER_TEXT_GENERATION_MODELS = true /\
  found NATIVE_ENTRY_RE AFTER_TEXT_GENERATION_MODELS = false /\
  patch_init_content INIT_CHANGE = (INIT_CHANGE, AlreadyExported).
Proof. split_and!; vm_compute; reflexivity. Qed.
