(* ===== verification/Report.v ===== *)
(** * Reports (python/benchmark/compare.py and plots.py,
      python/evaluation/generate_report.py, scripts/generate_benchmark_report.py,
      benchmarks/run_benchmark.py)

    Benchmark rows travel as dictionaries through JSON files from the comparison
    to the report generators.  JSON values are a type of their own; a number is
    the text Python prints for it.  The JSON encoder and decoder, the
    representation of containers and of floats, the Markdown converter and the
    PDF libraries are parameters; the decoder and the PDF libraries may raise.
    Writing a file adds it to the list of files written. *)
From Stdlib Require Import ZArith Lia.
From stdpp Require Import base option list strings gmap sorting pretty.
From S2P Require Import Prelude PyFloat Bench.
Local Open Scope string_scope.
Local Open Scope list_scope.
Local Open Scope nat_scope.
Local Open Scope py_scope.

(** ** Values *)

Inductive json :=
| JNull
| JBool (b : bool)
| JNum (repr : string)
| JStr (s : string)
| JArr (l : list json)
| JObj (d : odict json).

(** What a script leaves on disk, in the order of writing: the JSON text of a value, a text, the
    bytes a PDF library makes. *)
Inductive file_content := JsonFile (v : json) | TextFile (s : string) | PdfFile (bytes : string).
Abbreviation files := (list (string * file_content)).

(** [d[key]] *)
Definition getitem (d : odict json) (key : string) : result json :=
  match od_get key d with Some v => Ok v | None => Raise (KeyError key) end.

(** Truth value of a loaded value. *)
Definition truthy (v : json) : bool :=
  match v with
  | JNull => false
  | JBool b => b
  | JNum r => negb (bool_decide (r ∈ ["0"; "0.0"; "-0.0"]))
  | JStr s => negb (bool_decide (s = ""))
  | JArr l => negb (bool_decide (length l = 0))
  | JObj d => negb (bool_decide (length d = 0))
  end.

Lemma String_compare_refl s : String.compare s s = Eq.
Proof. pose proof (String.compare_antisym s s) as H. by destruct (String.compare s s). Qed.

Section Reports.
(** [json.loads], and [str] of a list or dictionary and of a float. *)
Context (json_loads : string -> result json).
Context (container_repr : json -> string) (float_repr : float -> string).

Definition py_str (v : json) : string :=
  match v with
  | JNull => "None"
  | JBool true => "True"
  | JBool false => "False"
  | JNum r => r
  | JStr s => s
  | _ => container_repr v
  end.

Definition cell (r : odict json) (key : string) : result string :=
  let? v := getitem r key in Ok (py_str v).

(** [result.__dict__] *)
Definition bench_dict (b : BenchmarkResult) : odict json := [
  ("scheduler", JStr (br_scheduler b)); ("concurrency", JNum (pretty (br_concurrency b)));
  ("n_requests", JNum (pretty (n_requests b))); ("n_success", JNum (pretty (n_success b)));
  ("throughput_rps", JNum (float_repr (throughput_rps b)));
  ("tokens_per_sec", JNum (float_repr (tokens_per_sec b)));
  ("e2e_p50_ms", JNum (float_repr (e2e_p50_ms b))); ("e2e_p95_ms", JNum (float_repr (e2e_p95_ms b)));
  ("e2e_p99_ms", JNum (float_repr (e2e_p99_ms b)));
  ("queue_wait_p50_ms", JNum (float_repr (queue_wait_p50_ms b)));
  ("queue_wait_p99_ms", JNum (float_repr (queue_wait_p99_ms b)));
  ("feature_p50_ms", JNum (float_repr (feature_p50_ms b)));
  ("predict_p50_ms", JNum (float_repr (predict_p50_ms b)));
  ("schedule_p50_ms", JNum (float_repr (schedule_p50_ms b)));
  ("error_rate", JNum (float_repr (error_rate b))); ("elapsed_sec", JNum (float_repr (elapsed_sec b)));
  ("gpu_utilization", JNum (float_repr (gpu_utilization b)));
  ("cpu_utilization", JNum (float_repr (cpu_utilization b)))].

(** [results_to_dict] *)
Definition results_to_dict (rs : list BenchmarkResult) : list (odict json) := map bench_dict rs.

(** ** compare.py: generate_report *)

Definition csv_row (keys : list string) (r : odict json) : result string :=
  let? cells := rmap (cell r) keys in Ok (join "," cells).

(** Rows are written one by one: the text before the first missing key is in the file. *)
Fixpoint csv_rows (keys : list string) (rs : list (odict json)) : string * result unit :=
  match rs with
  | [] => ("", Ok tt)
  | r :: rest =>
      match csv_row keys r with
      | Raise e => ("", Raise e)
      | Ok line => let '(text, res) := csv_rows keys rest in (line +:+ newline +:+ text, res)
      end
  end.

Definition compare_line (r : odict json) : result string :=
  let? s := cell r "scheduler" in
  let? c := cell r "concurrency" in
  let? p50 := cell r "e2e_p50_ms" in
  let? p99 := cell r "e2e_p99_ms" in
  let? rps := cell r "throughput_rps" in
  let? tps := cell r "tokens_per_sec" in
  Ok ("| " +:+ s +:+ " | " +:+ c +:+ " | " +:+ p50 +:+ " | " +:+ p99 +:+ " | " +:+ rps +:+ " | " +:+ tps +:+ " |").

(** [ts] stamps the file names, [now] the text; plots are left out. *)
Definition generate_report (results : list (odict json)) (ts now : string) : files * result unit :=
  let json_file := ("comparison_" +:+ ts +:+ ".json", JsonFile (JArr (map JObj results))) in
  let csv := match results with
             | [] => None
             | r :: _ => let keys := od_keys r in
                         let '(text, res) := csv_rows keys results in
                         Some (join "," keys +:+ newline +:+ text, res)
             end in
  let csv_file := match csv with
                  | None => []
                  | Some (text, _) => [("comparison_" +:+ ts +:+ ".csv", TextFile text)]
                  end in
  match default (Ok tt) (snd <$> csv) with
  | Raise e => (json_file :: csv_file, Raise e)
  | Ok _ =>
      match rmap compare_line results with
      | Raise e => (json_file :: csv_file, Raise e)
      | Ok rows =>
          let lines := ["# Scheduler Comparison Benchmark"; newline +:+ "**Generated:** " +:+ now +:+ newline;
                        "| Scheduler | Concurrency | p50 (ms) | p99 (ms) | RPS | Tok/s |";
                        "|-----------|-------------|----------|----------|-----|-------|"] ++ rows in
          (json_file :: csv_file ++ [("comparison_" +:+ ts +:+ ".md", TextFile (join newline lines))], Ok tt)
      end
  end.

(** ** generate_report.py *)

Definition metric_line (title key : string) (eval_data : odict json) : string :=
  title +:+ py_str (default (JStr "N/A") (od_get key eval_data)).

(** Subscripting anything but a dictionary with a string raises. *)
Definition row_dict (v : json) : result (odict json) :=
  match v with JObj d => Ok d | _ => Raise (TypeError "row") end.

Definition bench_line (v : json) : result string :=
  let? r := row_dict v in
  let? s := cell r "scheduler" in
  let? c := cell r "concurrency" in
  let? p50 := cell r "e2e_p50_ms" in
  let? p99 := cell r "e2e_p99_ms" in
  let? rps := cell r "throughput_rps" in
  Ok ("| " +:+ s +:+ " | " +:+ c +:+ " | " +:+ p50 +:+ " | " +:+ p99 +:+ " | " +:+ rps +:+ " | "
      +:+ py_str (default (JNum "0") (od_get "queue_wait_p99_ms" r)) +:+ " |").

Definition report_head (ts : string) : list string := [
  "# vLLM Intelligent SJF Scheduler — Evaluation Report";
  newline +:+ "**Generated:** " +:+ ts +:+ newline;
  "## 1. Architecture";
  "The system implements ML-based Shortest-Job-First scheduling via a gateway proxy "
  +:+ "that predicts output token length, prioritizes requests in a priority queue, and "
  +:+ "forwards to vLLM with aging to prevent starvation." +:+ newline;
  "## 2. Methodology";
  "- Feature extraction: 40 numerical prompt features";
  "- Model: 2-layer MLP with Huber loss";
  "- Schedulers compared: FCFS, Oracle SJF, Predicted SJF";
  "- Simulation-based benchmark with configurable concurrency" +:+ newline;
  "## 3. Model Metrics"].

Definition report_tail : list string := [
  newline +:+ "## 5. Discussion";
  "Predicted SJF reduces tail latency compared to FCFS by prioritizing "
  +:+ "short-output requests. Oracle SJF represents the theoretical upper bound.";
  newline +:+ "## 6. Limitations";
  "- Prediction accuracy depends on training data distribution";
  "- Gateway adds minimal scheduling overhead";
  "- Live vLLM continuous batching interacts with SJF ordering";
  newline +:+ "## 7. Future Work";
  "- Online learning from observed output lengths";
  "- Integration with vLLM internal scheduler";
  "- Multi-GPU aware scheduling"].

Definition metrics_section (eval_data : odict json) : list string :=
  match eval_data with
  | [] => []
  | _ => [metric_line "- MAE: " "mae" eval_data; metric_line "- RMSE: " "rmse" eval_data;
          metric_line "- R²: " "r2" eval_data; metric_line "- Pearson: " "pearson" eval_data;
          metric_line "- Spearman: " "spearman" eval_data]
  end.

Definition meta_section (meta : odict json) : list string :=
  match meta with
  | [] => []
  | _ => [newline +:+ metric_line "**Model version:** " "model_version" meta;
          metric_line "**Training date:** " "training_date" meta;
          metric_line "**Git SHA:** " "git_sha" meta]
  end.

Definition bench_section (bench : list json) : result (list string) :=
  match bench with
  | [] => Ok ["*No benchmark data available.*"]
  | _ => let? rows := rmap bench_line bench in
         Ok (["| Scheduler | Concurrency | p50 (ms) | p99 (ms) | RPS | Queue p99 |";
              "|-----------|-------------|----------|----------|-----|-----------|"] ++ rows)
  end.

Definition build_markdown_lines (ts : string) (bench : list json) (eval_data meta : odict json)
    : result (list string) :=
  let? rows := bench_section bench in
  Ok (report_head ts ++ metrics_section eval_data ++ meta_section meta ++
      [newline +:+ "## 4. Benchmark Results"; ""] ++ rows ++ report_tail).

Definition _build_markdown (ts : string) (bench : list json) (eval_data meta : odict json)
    : result string :=
  let? lines := build_markdown_lines ts bench eval_data meta in Ok (join newline lines).

(** [s.replace("<", "&lt;")] *)
Fixpoint escape_lt (s : string) : string :=
  match s with
  | EmptyString => EmptyString
  | String c s' => if Ascii.eqb c (Ascii.ascii_of_nat 60) then "&lt;" +:+ escape_lt s' else String c (escape_lt s')
  end.

Definition dquote : string := String (Ascii.ascii_of_nat 34) "".

Definition html_head : string := join newline [
  "<!DOCTYPE html>";
  "<html><head><meta charset=" +:+ dquote +:+ "utf-8" +:+ dquote +:+ "><title>Evaluation Report</title>";
  "<style>body{font-family:sans-serif;max-width:900px;margin:2em auto;padding:0 1em}";
  "table{border-collapse:collapse;width:100%}th,td{border:1px solid #ddd;padding:8px}</style>";
  "</head><body>"].

(** [markdown] is the converter, [None] when the package is missing. *)
Definition html_body (markdown : option (string -> string)) (md : string) : string :=
  match markdown with
  | Some f => f md
  | None => "<pre>" +:+ escape_lt md +:+ "</pre>"
  end.

Definition _markdown_to_html (markdown : option (string -> string)) (md : string) : string :=
  html_head +:+ html_body markdown md +:+ "</body></html>".

(** [md.split("\n")] *)
Fixpoint split_lines (s : string) : list string :=
  match s with
  | EmptyString => [""]
  | String c s' =>
      if Ascii.eqb c (Ascii.ascii_of_nat 10) then "" :: split_lines s'
      else match split_lines s' with
           | [] => [String c ""]
           | l :: ls => String c l :: ls
           end
  end.

(** The PDF libraries, [None] where the package is missing: WeasyPrint renders the page, FPDF cells
    of at most 200 characters, one per line. *)
Definition _simple_pdf_fallback (fpdf : option (list string -> result string)) (md : string) : result file_content :=
  match fpdf with
  | Some cells => let? bytes := cells (map (String.substring 0 200) (split_lines md)) in Ok (PdfFile bytes)
  | None => Ok (TextFile ("% PDF-1.4" +:+ newline +:+ "% Minimal placeholder" +:+ newline))
  end.

Definition pdf_file (weasyprint : option (string -> result string)) (fpdf : option (list string -> result string))
    (md html : string) : result file_content :=
  match weasyprint with
  | Some write_pdf => let? bytes := write_pdf html in Ok (PdfFile bytes)
  | None => _simple_pdf_fallback fpdf md
  end.

(** [sorted(dir.glob("comparison_*.json"))[-1]]: the last name in string order. *)
Fixpoint latest (best : string * string) (rest : list (string * string)) : string * string :=
  match rest with
  | [] => best
  | f :: rest' => latest (if bool_decide (String.ltb best.1 f.1 = true) then f else best) rest'
  end.

(** The rows of loaded comparison data: something false counts as no data, and what is
    no list cannot be iterated into rows. *)
Definition as_rows (v : json) : result (list json) :=
  if negb (truthy v) then Ok []
  else match v with JArr l => Ok l | _ => Raise (TypeError "rows") end.

(** [generate_reports]: the names and texts of the comparison files, the decoded evaluation and
    metadata.  A PDF library that raises leaves the two files before it. *)
Definition generate_reports (bench_files : list (string * string)) (eval_data meta : option (odict json))
    (markdown : option (string -> string)) (weasyprint : option (string -> result string))
    (fpdf : option (list string -> result string)) (ts : string) : files * result unit :=
  let bench := match bench_files with
               | [] => Ok []
               | f :: rest => let? v := json_loads (latest f rest).2 in as_rows v
               end in
  match (let? rows := bench in _build_markdown ts rows (default [] eval_data) (default [] meta)) with
  | Raise e => ([], Raise e)
  | Ok md =>
      let html := _markdown_to_html markdown md in
      let pages := [("evaluation_report.md", TextFile md); ("evaluation_report.html", TextFile html)] in
      match pdf_file weasyprint fpdf md html with
      | Raise e => (pages, Raise e)
      | Ok pdf => (pages ++ [("evaluation_report.pdf", pdf)], Ok tt)
      end
  end.

(** ** generate_benchmark_report.py *)

(** [data.items()]: only a dictionary has it. *)
Definition items (v : json) : result (odict json) :=
  match v with
  | JObj d => Ok d
  | _ => Raise (OtherError "AttributeError: 'items'")
  end.

Definition metric_item (kv : string * json) : string := "- **" +:+ kv.1 +:+ "**: " +:+ py_str kv.2.

Definition algo_section (am : string * json) : result (list string) :=
  let? metrics := items am.2 in
  Ok (["## " +:+ am.1] ++ map metric_item metrics ++ [""]).

Definition _to_markdown (data : json) : result string :=
  let? algos := items data in
  let? sections := rmap algo_section algos in
  Ok (join newline (["# Scheduler Benchmark Report"; ""] ++ mjoin sections)).

(** [run] after the comparison has written its files: [results_dir] lists the JSON
    files it finds. *)
Definition run_report (results_dir : list (string * string)) (stamp : string) : files * result unit :=
  match results_dir with
  | [] => ([], Raise IndexError)
  | f :: rest =>
      match json_loads (latest f rest).2 with
      | Raise e => ([], Raise e)
      | Ok data =>
          let out := ("production_bench_" +:+ stamp +:+ ".json", JsonFile data) in
          match _to_markdown data with
          | Raise e => ([out], Raise e)
          | Ok md => ([out; ("production_bench_" +:+ stamp +:+ ".md", TextFile md)], Ok tt)
          end
      end
  end.

(** ** run_benchmark.py *)

Definition render_row (r : BenchResult) : string :=
  "| " +:+ pretty (lv_concurrency r) +:+ " | " +:+ pretty (lv_n_requests r) +:+ " | "
  +:+ pretty (lv_n_success r) +:+ " | " +:+ float_repr (lv_throughput_rps r) +:+ " | "
  +:+ float_repr (lv_tokens_per_sec r) +:+ " | " +:+ float_repr (lv_e2e_p50_ms r) +:+ " | "
  +:+ float_repr (lv_e2e_p99_ms r) +:+ " | " +:+ float_repr (lv_error_rate r) +:+ "% |".

Definition render_table (results : list BenchResult) : string :=
  join newline
    (["| Concurrency | Requests | Success | RPS | Tok/s | E2E p50 | E2E p99 | Err |";
      "|-------------|----------|---------|-----|------------|--------------|--------------|--------|"]
     ++ map render_row results).

(** [asdict(r)] *)
Definition live_dict (r : BenchResult) : odict json := [
  ("concurrency", JNum (pretty (lv_concurrency r))); ("n_requests", JNum (pretty (lv_n_requests r)));
  ("n_success", JNum (pretty (lv_n_success r))); ("total_tokens", JNum (pretty (lv_total_tokens r)));
  ("elapsed_sec", JNum (float_repr (lv_elapsed_sec r)));
  ("throughput_rps", JNum (float_repr (lv_throughput_rps r)));
  ("tokens_per_sec", JNum (float_repr (lv_tokens_per_sec r)));
  ("e2e_p50_ms", JNum (float_repr (lv_e2e_p50_ms r))); ("e2e_p99_ms", JNum (float_repr (lv_e2e_p99_ms r)));
  ("error_rate", JNum (float_repr (lv_error_rate r)))].

(** [main] of run_benchmark.py: the levels one after the other, then the two files; [run] is
    a level, [now] the time in the heading. *)
Definition live_main (run : Z -> result BenchResult) (levels : list Z) (ts now : string) : files * result unit :=
  match rmap run levels with
  | Raise e => ([], Raise e)
  | Ok results =>
      ([("smollm3_bench_" +:+ ts +:+ ".json", JsonFile (JArr (map (fun r => JObj (live_dict r)) results)));
        ("smollm3_bench_" +:+ ts +:+ ".md",
         TextFile ("# SmolLM3 Native Port Benchmark" +:+ newline +:+ newline +:+ "**" +:+ now +:+ "**" +:+ newline
                   +:+ newline +:+ render_table results +:+ newline))], Ok tt)
  end.

(** [main] of compare.py after reading its configuration: the comparison, then the report. *)
Definition compare_main (run : Z -> BenchmarkResult * BenchmarkResult * result BenchmarkResult)
    (levels : option (list Z)) (ts now : string) : files * result unit :=
  generate_report (results_to_dict (run_comparison run (default [1; 2; 4; 8; 16; 32]%Z levels))) ts now.

(** ** Properties *)

Lemma rmap_map_total {A B} (f : A -> result B) (g : A -> B) l :
  (forall x, f x = Ok (g x)) -> rmap f l = Ok (map g l).
Proof. intros H. apply rmap_total. auto. Qed.

Definition compare_row (b : BenchmarkResult) : string :=
  "| " +:+ br_scheduler b +:+ " | " +:+ pretty (br_concurrency b) +:+ " | " +:+ float_repr (e2e_p50_ms b)
  +:+ " | " +:+ float_repr (e2e_p99_ms b) +:+ " | " +:+ float_repr (throughput_rps b) +:+ " | "
  +:+ float_repr (tokens_per_sec b) +:+ " |".

Definition bench_row (b : BenchmarkResult) : string :=
  "| " +:+ br_scheduler b +:+ " | " +:+ pretty (br_concurrency b) +:+ " | " +:+ float_repr (e2e_p50_ms b)
  +:+ " | " +:+ float_repr (e2e_p99_ms b) +:+ " | " +:+ float_repr (throughput_rps b) +:+ " | "
  +:+ float_repr (queue_wait_p99_ms b) +:+ " |".

Lemma compare_line_bench b : compare_line (bench_dict b) = Ok (compare_row b).
Proof. reflexivity. Qed.

Lemma bench_line_bench b : bench_line (JObj (bench_dict b)) = Ok (bench_row b).
Proof. reflexivity. Qed.

(** The fields of a result, in the order of the CSV columns. *)
Definition csv_cells (b : BenchmarkResult) : list string := map (fun kv => py_str kv.2) (bench_dict b).
Definition csv_columns : list string := [
  "scheduler"; "concurrency"; "n_requests"; "n_success"; "throughput_rps"; "tokens_per_sec"; "e2e_p50_ms";
  "e2e_p95_ms"; "e2e_p99_ms"; "queue_wait_p50_ms"; "queue_wait_p99_ms"; "feature_p50_ms"; "predict_p50_ms";
  "schedule_p50_ms"; "error_rate"; "elapsed_sec"; "gpu_utilization"; "cpu_utilization"].

Lemma csv_rows_bench bs :
  csv_rows csv_columns (results_to_dict bs) =
  (foldr (fun b text => join "," (csv_cells b) +:+ newline +:+ text) "" bs, Ok tt).
Proof.
  induction bs as [|b bs IH]; [done|]. cbn [results_to_dict map csv_rows].
  change (csv_row csv_columns (bench_dict b)) with (Ok (join "," (csv_cells b))).
  fold (results_to_dict bs). by rewrite IH.
Qed.

Definition comparison_name (ts : string) : string := "comparison_" +:+ ts +:+ ".json".
Definition comparison_json (bs : list BenchmarkResult) : json := JArr (map (fun b => JObj (bench_dict b)) bs).

Lemma latest_stays best rest :
  Forall (fun f => String.ltb best.1 f.1 = false) rest -> latest best rest = best.
Proof.
  induction 1 as [|f rest Hf _ IH]; cbn [latest]; [done|]. rewrite bool_decide_eq_false_2; [done|].
  by rewrite Hf.
Qed.

Lemma ltb_asym a b : String.ltb a b = true -> String.ltb b a = false.
Proof. unfold String.ltb. rewrite (String.compare_antisym b a). by destruct (String.compare a b). Qed.

(** The newest file is the one that is read, wherever the directory lists it. *)
Lemma latest_newest name v f rest :
  (name, v) ∈ f :: rest ->
  Forall (fun g => g = (name, v) \/ String.ltb g.1 name = true) (f :: rest) ->
  latest f rest = (name, v).
Proof.
  revert f. induction rest as [|g rest IH]; intros f Hin Hall.
  - by apply list_elem_of_singleton in Hin as <-.
  - apply Forall_cons in Hall as [Hf Hall]. apply Forall_cons in Hall as [Hg Hall]. cbn [latest].
    destruct Hf as [->|Hf].
    + rewrite latest_stays; [|].
      * case_bool_decide as E; [|done]. cbn [fst] in E. destruct Hg as [->|Hg]; [done|].
        by rewrite (ltb_asym _ _ Hg) in E.
      * case_bool_decide as E; cbn [fst] in *.
        -- destruct Hg as [->|Hg]; [|by rewrite (ltb_asym _ _ Hg) in E].
           eapply Forall_impl; [exact Hall|]. intros h [->|Hh]; [|by apply ltb_asym].
           cbn. unfold String.ltb. by rewrite String_compare_refl.
        -- eapply Forall_impl; [exact Hall|]. intros h [->|Hh]; [|by apply ltb_asym].
           cbn. unfold String.ltb. by rewrite String_compare_refl.
    + apply IH.
      * apply elem_of_cons in Hin as [<-|Hin];
          [by cbn in Hf; unfold String.ltb in Hf; rewrite String_compare_refl in Hf|]. apply elem_of_cons in Hin as [<-|Hin].
        -- rewrite bool_decide_eq_true_2 by done. by left.
        -- by right.
      * constructor; [|done]. case_bool_decide; auto.
Qed.

(** A file newer than all others is the one that is read. *)
Lemma latest_appended name v older :
  Forall (fun f => String.ltb f.1 name = true) older ->
  exists f rest, older ++ [(name, v)] = f :: rest /\ latest f rest = (name, v).
Proof.
  intros Hold.
  assert (Hin : (name, v) ∈ older ++ [(name, v)]) by (apply elem_of_app; right; by left).
  assert (Hall : Forall (fun g => g = (name, v) \/ String.ltb g.1 name = true) (older ++ [(name, v)])).
  { apply Forall_app. split; [|apply Forall_singleton; by left].
    eapply Forall_impl; [exact Hold|]. by right. }
  destruct (older ++ [(name, v)]) as [|f rest]; [by apply elem_of_nil in Hin|].
  exists f, rest. split; [done|]. by apply latest_newest.
Qed.

Definition compare_lines (now : string) (bs : list BenchmarkResult) : list string :=
  ["# Scheduler Comparison Benchmark"; newline +:+ "**Generated:** " +:+ now +:+ newline;
   "| Scheduler | Concurrency | p50 (ms) | p99 (ms) | RPS | Tok/s |";
   "|-----------|-------------|----------|----------|-----|-------|"] ++ map compare_row bs.

Lemma generate_report_bench bs ts now :
  generate_report (results_to_dict bs) ts now =
  ((comparison_name ts, JsonFile (comparison_json bs)) ::
   match bs with
   | [] => []
   | _ => [("comparison_" +:+ ts +:+ ".csv",
            TextFile (join "," csv_columns +:+ newline +:+
                      foldr (fun b text => join "," (csv_cells b) +:+ newline +:+ text) "" bs))]
   end ++ [("comparison_" +:+ ts +:+ ".md", TextFile (join newline (compare_lines now bs)))], Ok tt).
Proof.
  unfold generate_report.
  assert (Hrows : rmap compare_line (results_to_dict bs) = Ok (map compare_row bs)).
  { clear. induction bs as [|b bs IH]; [done|]. cbn [results_to_dict map rmap]. rewrite compare_line_bench.
    cbn [rbind]. fold (results_to_dict bs). by rewrite IH. }
  assert (Hj : JArr (map JObj (results_to_dict bs)) = comparison_json bs)
    by (unfold comparison_json, results_to_dict; by rewrite map_map).
  rewrite Hrows, Hj. destruct bs as [|b bs]; [done|].
  cbn [results_to_dict map]. change (od_keys (bench_dict b)) with csv_columns.
  fold (results_to_dict bs). change (bench_dict b :: results_to_dict bs) with (results_to_dict (b :: bs)).
  rewrite csv_rows_bench. reflexivity.
Qed.

Lemma bench_rows bs : rmap bench_line (map (fun b => JObj (bench_dict b)) bs) = Ok (map bench_row bs).
Proof.
  induction bs as [|b bs IH]; [done|]. cbn [map rmap]. rewrite bench_line_bench. cbn [rbind]. by rewrite IH.
Qed.

(** The encoder, and its documented promise for a value: the decoder gives back the lists,
    dictionaries, strings and numbers it wrote. *)
Context (json_dumps : json -> string).
Definition read_back (v : json) : Prop := json_loads (json_dumps v) = Ok v.

(** C37.  From the comparison to the evaluation report: whatever the benchmarks measured, if there is
    a result, the comparison writes its JSON, CSV and Markdown files without a missing key, with
    one CSV line of eighteen cells and one table row for each result, in order; and the
    report generator, when that is the comparison file of the last name, decodes it and writes
    its Markdown and HTML files with the same results, in the same order, in its own table, and
    then the PDF, unless the PDF library in use raises, which leaves the other two. *)
Theorem comparison_reaches_report bs ts now older eval_data meta markdown weasyprint fpdf ts' :
  read_back (comparison_json bs) -> bs <> [] ->
  Forall (fun f => String.ltb f.1 (comparison_name ts) = true) older ->
  exists csv, generate_report (results_to_dict bs) ts now =
    ([(comparison_name ts, JsonFile (comparison_json bs)); csv;
      ("comparison_" +:+ ts +:+ ".md", TextFile (join newline (compare_lines now bs)))], Ok tt) /\
  Forall (fun b => length (csv_cells b) = length csv_columns) bs /\
  exists md html,
    generate_reports (older ++ [(comparison_name ts, json_dumps (comparison_json bs))]) eval_data meta markdown
        weasyprint fpdf ts' =
      match pdf_file weasyprint fpdf md html with
      | Ok pdf => ([("evaluation_report.md", TextFile md); ("evaluation_report.html", TextFile html);
                    ("evaluation_report.pdf", pdf)], Ok tt)
      | Raise e => ([("evaluation_report.md", TextFile md); ("evaluation_report.html", TextFile html)], Raise e)
      end /\
    md = join newline
      (report_head ts' ++ metrics_section (default [] eval_data) ++ meta_section (default [] meta) ++
       [newline +:+ "## 4. Benchmark Results"; "";
        "| Scheduler | Concurrency | p50 (ms) | p99 (ms) | RPS | Queue p99 |";
        "|-----------|-------------|----------|----------|-----|-----------|"] ++
       map bench_row bs ++ report_tail) /\
    html = _markdown_to_html markdown md.
Proof.
  intros Hb Hne Hold. eexists. split.
  { rewrite generate_report_bench. destruct bs as [|b bs]; [done|]. reflexivity. }
  split; [by apply Forall_forall|].
  destruct (latest_appended (comparison_name ts) (json_dumps (comparison_json bs)) older Hold) as (f & rest & Hf & Hl).
  assert (Hr : as_rows (comparison_json bs) = Ok (map (fun b => JObj (bench_dict b)) bs)) by (by destruct bs).
  unfold generate_reports. rewrite Hf, Hl. cbn [snd]. rewrite Hb. cbn [rbind]. rewrite Hr. cbn [rbind].
  unfold _build_markdown, build_markdown_lines.
  assert (Hs : bench_section (map (fun b => JObj (bench_dict b)) bs) =
    Ok (["| Scheduler | Concurrency | p50 (ms) | p99 (ms) | RPS | Queue p99 |";
         "|-----------|-------------|----------|----------|-----|-----------|"] ++ map bench_row bs)).
  { unfold bench_section. rewrite bench_rows. by destruct bs. }
  rewrite Hs. cbn [rbind]. eexists _, _. split; [reflexivity|]. split; [|reflexivity].
  by rewrite <- !app_assoc.
Qed.

(** The production report never appears: the comparison stores a list of results and the
    report script asks it for the items of a dictionary.  For every comparison, an empty
    one included, the script copies the JSON file, raises, and writes no Markdown. *)
Theorem production_report_never_written bs ts older stamp :
  read_back (comparison_json bs) ->
  Forall (fun f => String.ltb f.1 (comparison_name ts) = true) older ->
  run_report (older ++ [(comparison_name ts, json_dumps (comparison_json bs))]) stamp =
    ([("production_bench_" +:+ stamp +:+ ".json", JsonFile (comparison_json bs))],
     Raise (OtherError "AttributeError: 'items'")).
Proof.
  intros Hb Hold. unfold run_report.
  destruct (latest_appended (comparison_name ts) (json_dumps (comparison_json bs)) older Hold) as (f & rest & -> & ->).
  cbn [snd]. by rewrite Hb.
Qed.

(** The live benchmark writes both of its files or none: one level that raises (no requests,
    no elapsed time) loses the results of all levels before it. *)
Lemma live_main_all_or_nothing run levels ts now :
  (forall e c pre post rs, levels = pre ++ c :: post -> rmap run pre = Ok rs -> run c = Raise e ->
     live_main run levels ts now = ([], Raise e)) /\
  (forall results, Forall2 (fun c r => run c = Ok r) levels results ->
     exists js md, live_main run levels ts now =
       ([("smollm3_bench_" +:+ ts +:+ ".json", JsonFile (JArr js)); ("smollm3_bench_" +:+ ts +:+ ".md", TextFile md)], Ok tt) /\
       length js = length levels).
Proof.
  unfold live_main. split.
  - intros e c pre post rs -> Hpre Hc.
    assert (rmap run (pre ++ c :: post) = Raise e) as ->; [|done].
    revert rs Hpre. induction pre as [|x pre IH]; intros rs Hpre; cbn [rmap app] in *; [by rewrite Hc|].
    destruct (run x) as [y|]; cbn [rbind] in *; [|done]. destruct (rmap run pre) as [ys|]; [|done].
    by rewrite (IH ys eq_refl).
  - intros results HF. assert (rmap run levels = Ok results) as ->.
    { induction HF as [|c r cs rs Hc _ IH]; [done|]. cbn [rmap]. by rewrite Hc, IH. }
    eexists _, _. split; [reflexivity|]. rewrite length_map. symmetry. by eapply Forall2_length.
Qed.

(** *** Text of the pages *)

Fixpoint has_char (c : Ascii.ascii) (s : string) : bool :=
  match s with
  | EmptyString => false
  | String d s' => Ascii.eqb d c || has_char c s'
  end.

Lemma has_char_app c a b : has_char c (a +:+ b) = has_char c a || has_char c b.
Proof.
  induction a as [|x a IH]; [done|].
  change (String x a +:+ b) with (String x (a +:+ b)). cbn [has_char]. by rewrite IH, orb_assoc.
Qed.

(** Without the Markdown converter nothing of the report can open a tag in the page. *)
Theorem fallback_escapes md : has_char (Ascii.ascii_of_nat 60) (escape_lt md) = false.
Proof.
  induction md as [|c md IH]; [done|]. cbn [escape_lt]. destruct (Ascii.eqb c _) eqn:E.
  - by rewrite has_char_app, IH.
  - cbn [has_char]. by rewrite E, IH.
Qed.

(** Splitting a text into lines and joining them again. *)
Theorem lines_round_trip md : join newline (split_lines md) = md.
Proof.
  induction md as [|c md IH]; [done|]. cbn [split_lines]. destruct (Ascii.eqb c _) eqn:E.
  - apply Ascii.eqb_eq in E as ->. rewrite <- IH at 2.
    destruct (split_lines md) as [|l ls] eqn:El; [|done].
    destruct md as [|d md]; [done|]. cbn [split_lines] in El. destruct (Ascii.eqb d _); [done|].
    by destruct (split_lines md).
  - rewrite <- IH at 2. destruct (split_lines md) as [|l [|l' ls]]; done.
Qed.

Lemma substring_length n s : (String.length (String.substring 0 n s) <= n)%nat.
Proof. revert s. induction n as [|n IH]; intros [|c s]; cbn; [lia|lia|lia|]. specialize (IH s). lia. Qed.

(** The plain PDF has one cell per line of the report, none longer than 200 characters. *)
Theorem pdf_cells fpdf md :
  exists lines, _simple_pdf_fallback (Some fpdf) md = rlift PdfFile (fpdf lines) /\
                length lines = length (split_lines md) /\ Forall (fun l => (String.length l <= 200)%nat) lines.
Proof.
  eexists. split; [reflexivity|]. rewrite length_map. split; [done|].
  apply Forall_map, Forall_forall. intros l _. apply (substring_length 200).
Qed.

(** A character beyond Latin-1 is encoded with a first byte of at least 196. *)
Fixpoint beyond_latin1 (s : string) : bool :=
  match s with
  | EmptyString => false
  | String c s' => (196 <=? Ascii.nat_of_ascii c) || beyond_latin1 s'
  end.

Lemma split_first_line a b :
  has_char (Ascii.ascii_of_nat 10) a = false -> split_lines (a +:+ newline +:+ b) = a :: split_lines b.
Proof.
  induction a as [|c a IH]; [done|]. cbn [has_char]. intros [Hc Ha]%orb_false_elim.
  change (String c a +:+ newline +:+ b) with (String c (a +:+ newline +:+ b)). cbn [split_lines]. rewrite Hc.
  by rewrite IH.
Qed.

(** The title of the report has a dash that the core fonts of FPDF do not have: where FPDF is the
    library in use, and refuses such text as documented, the report generator always raises after
    its Markdown and HTML files, and writes no PDF. *)
Theorem title_refused_by_core_font bench_files eval_data meta markdown fpdf ts' :
  (forall lines, Exists (fun l => beyond_latin1 l = true) lines -> exists e, fpdf lines = Raise e) ->
  exists e, snd (generate_reports bench_files eval_data meta markdown None (Some fpdf) ts') = Raise e.
Proof.
  intros Hf. unfold generate_reports. set (bench := match bench_files with [] => _ | _ => _ end). clearbody bench.
  destruct bench as [rows|e]; [|by exists e]. cbn [rbind]. unfold _build_markdown, build_markdown_lines.
  destruct (bench_section rows) as [sec|e]; [|by exists e]. cbn [rbind].
  set (rest := metrics_section (default [] eval_data) ++ meta_section (default [] meta) ++
                 [newline +:+ "## 4. Benchmark Results"; ""] ++ sec ++ report_tail).
  unfold pdf_file, _simple_pdf_fallback. change (report_head ts' ++ rest) with
    ("# vLLM Intelligent SJF Scheduler — Evaluation Report" :: (tail (report_head ts') ++ rest)).
  set (title := "# vLLM Intelligent SJF Scheduler — Evaluation Report").
  change (join newline (title :: tail (report_head ts') ++ rest)) with
    (title +:+ newline +:+ join newline (tail (report_head ts') ++ rest)).
  rewrite split_first_line by reflexivity. cbn [map].
  destruct (Hf (String.substring 0 200 title :: map (String.substring 0 200)
              (split_lines (join newline (tail (report_head ts') ++ rest))))) as [e He]; [by left|].
  rewrite He. by exists e.
Qed.
End Reports.

(** ** Plots *)

(** The data of [generate_plots]: rows of one scheduler, sorted by concurrency (the sort is
    stable), as the points of its curves. *)
Fixpoint insert_row (b : BenchmarkResult) (rows : list BenchmarkResult) : list BenchmarkResult :=
  match rows with
  | [] => [b]
  | r :: rest =>
      if (br_concurrency b <=? br_concurrency r)%Z then b :: rows else r :: insert_row b rest
  end.
Definition sort_rows (rows : list BenchmarkResult) : list BenchmarkResult := foldr insert_row [] rows.

Definition subset (results : list BenchmarkResult) (sched : string) : list BenchmarkResult :=
  sort_rows (filter (fun r => br_scheduler r = sched) results).

Definition curve (f : BenchmarkResult -> float) (rows : list BenchmarkResult) : list (Z * float) :=
  map (fun r => (br_concurrency r, f r)) rows.

(** [sorted(set(r["scheduler"] for r in results))] *)
Fixpoint insert_name (n : string) (names : list string) : list string :=
  match names with
  | [] => [n]
  | m :: rest => if String.ltb m n then m :: insert_name n rest else n :: names
  end.
Definition schedulers_of (results : list BenchmarkResult) : list string :=
  foldr insert_name [] (remove_dups (map br_scheduler results)).

(** The curves of the three panels: latency percentiles, throughput, queue wait. *)
Definition plot_series (results : list BenchmarkResult)
    : list (string * list (Z * float)) * list (string * list (Z * float)) * list (string * list (Z * float)) :=
  let schedulers := schedulers_of results in
  (mjoin (map (fun s => [(s +:+ " p50", curve e2e_p50_ms (subset results s));
                         (s +:+ " p99", curve e2e_p99_ms (subset results s))]) schedulers),
   map (fun s => (s, curve throughput_rps (subset results s))) schedulers,
   map (fun s => (s, curve queue_wait_p99_ms (subset results s))) schedulers).

(** A panel: title, axis labels and curves, each with its label, marker and whether dashed. *)
Record Curve := mkCurve { cu_label : string; cu_marker : string; cu_dashed : bool; cu_points : list (Z * float) }.
Record Panel := mkPanel { pa_title : string; pa_xlabel : string; pa_ylabel : string; pa_curves : list Curve }.

Definition solid (c : string * list (Z * float)) : Curve := mkCurve c.1 "o" false c.2.

Definition latency_curves (results : list BenchmarkResult) (sched : string) : list Curve :=
  [mkCurve (sched +:+ " p50") "o" false (curve e2e_p50_ms (subset results sched));
   mkCurve (sched +:+ " p99") "s" true (curve e2e_p99_ms (subset results sched))].

(** [generate_plots]: the image files with their panels; without matplotlib there are none. *)
Definition generate_plots (matplotlib : bool) (results : list BenchmarkResult) (timestamp : string)
    : list (string * list Panel) :=
  if matplotlib then
    let schedulers := schedulers_of results in
    let metric f := map (fun s => solid (s, curve f (subset results s))) schedulers in
    [("latency_throughput_" +:+ timestamp +:+ ".png",
      [mkPanel "End-to-End Latency" "Concurrency" "Latency (ms)" (mjoin (map (latency_curves results) schedulers));
       mkPanel "Throughput" "Concurrency" "Requests/sec" (metric throughput_rps)]);
     ("queue_wait_" +:+ timestamp +:+ ".png",
      [mkPanel "Queue Wait Time" "Concurrency" "Queue Wait p99 (ms)" (metric queue_wait_p99_ms)])]
  else [].

Lemma insert_row_perm b rows : insert_row b rows ≡ₚ b :: rows.
Proof.
  induction rows as [|r rows IH]; [done|]. cbn [insert_row]. split_if; [done|].
  rewrite IH. apply perm_swap.
Qed.

Lemma sort_rows_perm rows : sort_rows rows ≡ₚ rows.
Proof. induction rows as [|r rows IH]; [done|]. cbn [sort_rows foldr]. rewrite insert_row_perm. by constructor. Qed.

Definition row_le (a b : BenchmarkResult) : Prop := (br_concurrency a <= br_concurrency b)%Z.

Lemma insert_row_sorted b rows : StronglySorted row_le rows -> StronglySorted row_le (insert_row b rows).
Proof.
  induction 1 as [|r rows Hs IH Hr]; cbn [insert_row]; [by repeat constructor|]. split_if; bool_to_prop.
  - constructor; [by constructor|]. constructor; [done|]. eapply Forall_impl; [exact Hr|].
    unfold row_le. lia.
  - constructor; [done|]. rewrite insert_row_perm. constructor; [unfold row_le; lia|done].
Qed.

Lemma insert_name_perm n names : insert_name n names ≡ₚ n :: names.
Proof.
  induction names as [|m names IH]; [done|]. cbn [insert_name]. destruct (String.ltb m n); [|done].
  rewrite IH. apply perm_swap.
Qed.

(** Every scheduler that has results is plotted, once. *)
Theorem plotted_schedulers results :
  NoDup (schedulers_of results) /\
  forall s, s ∈ schedulers_of results <-> s ∈ map br_scheduler results.
Proof.
  assert (H : schedulers_of results ≡ₚ remove_dups (map br_scheduler results)).
  { unfold schedulers_of. induction (remove_dups _) as [|n names IH]; [done|].
    cbn [foldr]. rewrite insert_name_perm. by constructor. }
  split; [rewrite H; apply NoDup_remove_dups|]. intros s. by rewrite H, elem_of_remove_dups.
Qed.

(** Each scheduler's curve has all of its results and no others, by rising concurrency. *)
Theorem plot_subset_spec results sched :
  StronglySorted row_le (subset results sched) /\
  subset results sched ≡ₚ filter (fun r => br_scheduler r = sched) results.
Proof.
  unfold subset. split; [|apply sort_rows_perm].
  induction (filter _ results) as [|r rows IH]; [constructor|]. by apply insert_row_sorted.
Qed.

Lemma subsets_partition results (names : list string) :
  NoDup names ->
  mjoin (map (subset results) names) ≡ₚ filter (fun r => br_scheduler r ∈ names) results.
Proof.
  induction names as [|n names IH]; intros Hnd; cbn [map].
  - rewrite list_filter_none; [done|]. intros r _ H. by apply elem_of_nil in H.
  - apply NoDup_cons in Hnd as [Hn Hnd]. cbn. rewrite (IH Hnd).
    destruct (plot_subset_spec results n) as [_ ->]. clear IH.
    induction results as [|r rs IH]; [done|]. rewrite !filter_cons.
    destruct (decide (br_scheduler r = n)) as [E|E].
    + rewrite (decide_True (P := br_scheduler r ∈ n :: names)), (decide_False (P := br_scheduler r ∈ names))
        by (rewrite ?elem_of_cons; subst; auto). cbn. by rewrite IH.
    + destruct (decide (br_scheduler r ∈ names)) as [Hr|Hr].
      * rewrite decide_True by (by right). rewrite <- Permutation_middle. by rewrite IH.
      * rewrite decide_False by (rewrite elem_of_cons; tauto). exact IH.
Qed.

(** Along the curves of a metric every result is plotted exactly once, whatever the order and
    the repetitions of the results. *)
Theorem plots_show_every_result results (f : BenchmarkResult -> float) :
  mjoin (map (fun s => curve f (subset results s)) (schedulers_of results)) ≡ₚ
    map (fun r => (br_concurrency r, f r)) results.
Proof.
  destruct (plotted_schedulers results) as [Hnd Hs].
  transitivity (map (fun r => (br_concurrency r, f r)) (mjoin (map (subset results) (schedulers_of results)))).
  - clear. induction (schedulers_of results) as [|n names IH]; [done|]. cbn. rewrite map_app. by rewrite IH.
  - rewrite (subsets_partition results _ Hnd), list_filter_all; [done|].
    intros r Hr. apply Hs. by apply (list_elem_of_fmap_2 br_scheduler).
Qed.

(** ** Witnesses *)

Definition demo_result (name : string) (conc : Z) : BenchmarkResult :=
  mkBench name conc 2 2 f1 f1 f1 f1 f1 f0 f0 f0 f0 f0 f0 f1 f0 f0.

Definition no_repr (_ : json) : string := "...".
Definition toy_repr (x : float) : string := match x with Fin z => pretty (z / 2 ^ grid)%Z | _ => "nan" end.

(** An encoder and decoder that know the comparison of one result, and the empty one. *)
Definition one_comparison : json := comparison_json toy_repr [demo_result "fcfs" 4].
Definition toy_dumps (v : json) : string := match v with JArr [] => "[]" | _ => "[fcfs 4]" end.
Definition toy_loads (text : string) : result json :=
  if bool_decide (text = "[]") then Ok (JArr [])
  else if bool_decide (text = "[fcfs 4]") then Ok one_comparison
  else Raise (ValueError "JSONDecodeError").

(** FPDF as far as its core fonts go. *)
Definition core_fpdf (lines : list string) : result string :=
  if existsb beyond_latin1 lines then Raise (OtherError "FPDFUnicodeEncodingException") else Ok "%PDF".

Lemma core_fpdf_refuses lines :
  Exists (fun l => beyond_latin1 l = true) lines -> exists e, core_fpdf lines = Raise e.
Proof.
  intros H. unfold core_fpdf. assert (existsb beyond_latin1 lines = true) as ->; [|by eexists].
  induction H as [l ls Hl|l ls _ IH]; cbn [existsb]; [by rewrite Hl|by rewrite IH, orb_true_r].
Qed.

Lemma comparison_reaches_report_witness :
  exists md html pdf,
    generate_reports toy_loads no_repr ([("comparison_0.json", "null")] ++
        [(comparison_name "1", toy_dumps one_comparison)]) None None None None None "now" =
      ([("evaluation_report.md", TextFile md); ("evaluation_report.html", TextFile html);
        ("evaluation_report.pdf", pdf)], Ok tt).
Proof.
  destruct (comparison_reaches_report toy_loads no_repr toy_repr toy_dumps [demo_result "fcfs" 4] "1" "now"
              [("comparison_0.json", "null")] None None None None None "now") as (csv & _ & _ & md & html & H & _).
  - reflexivity.
  - discriminate.
  - repeat constructor.
  - eexists md, html, _. exact H.
Defined.

Lemma production_report_never_written_witness :
  run_report toy_loads no_repr ([] ++ [(comparison_name "1", toy_dumps (comparison_json toy_repr []))]) "s" =
    ([("production_bench_s.json", JsonFile (comparison_json toy_repr []))],
     Raise (OtherError "AttributeError: 'items'")).
Proof.
  apply (production_report_never_written toy_loads no_repr toy_repr toy_dumps [] "1" [] "s"); [reflexivity|constructor].
Defined.

Lemma title_refused_by_core_font_witness :
  exists e, snd (generate_reports toy_loads no_repr [] None None None None (Some core_fpdf) "now") = Raise e.
Proof. exact (title_refused_by_core_font toy_loads no_repr [] None None None core_fpdf "now" core_fpdf_refuses). Defined.
