(* ===== verification/SmolShapes.v ===== *)
(** * Modules and shapes of the SmolLM3 port (vllm_port/smollm3.py)

    The constructors of the port build a tree of torch and vLLM modules; here
    they are functions to that tree, with the sizes and prefixes they pass on.
    The parameters of the tree are the names the checkpoint loader works with.
    For the standalone mode, whose layers are plain torch layers, the forward
    pass is run on shapes: every operation checks its operands as torch does, and
    the theorems say when a whole pass is well typed. *)
From Stdlib Require Import ZArith Lia.
From stdpp Require Import base option list strings gmap pretty.
From S2P Require Import Prelude SmolLM3.
Local Open Scope string_scope.
Local Open Scope list_scope.
Local Open Scope Z_scope.
Local Open Scope py_scope.

(** ** Modules *)

(** A layer of torch or vLLM, with its constructor's sizes. *)
Inductive nn :=
| Linear (inp out : Z)
| LayerNorm (n : Z)
| Embedding (num dim : Z)
| MergedColumnParallelLinear (inp : Z) (outs : list Z) (prefix : string)
| QKVParallelLinear (hidden dim heads kv_heads : Z) (prefix : string)
| RowParallelLinear (inp out : Z) (prefix : string)
| RMSNorm (n : Z)
| VocabParallelEmbedding (num dim : Z) (prefix : string)
| ParallelLMHead (num dim org : Z) (prefix : string)
| RotaryEmbedding (dim : Z)
| AttentionKernel (heads dim kv_heads : Z) (prefix : string)
| Activation.

(** A module with its path from the root, in the order of registration. *)
Abbreviation modules := (list (string * nn)).

Definition under (name : string) (ms : modules) : modules :=
  map (fun m => (name +:+ "." +:+ m.1, m.2)) ms.

(** [SmolLM3MLP.__init__] *)
Definition mlp_init (vllm : bool) (hidden inter : Z) (prefix : string) : modules :=
  if vllm then
    [("gate_up_proj", MergedColumnParallelLinear hidden [inter; inter] (prefix +:+ ".gate_up_proj"));
     ("down_proj", RowParallelLinear inter hidden (prefix +:+ ".down_proj")); ("act_fn", Activation)]
  else
    [("gate_up_proj", Linear hidden (inter * 2)); ("down_proj", Linear inter hidden); ("act_fn", Activation)].

(** [SmolLM3Attention.__init__]; [tp] is the tensor-parallel world size inside vLLM. *)
Definition attention_init (cfg : SmolConfig) (tp : option Z) (layer_idx : Z) (prefix : string)
    : result modules :=
  let? d := attention_dims cfg tp layer_idx in
  let '(h, dim) := (a_hidden d, a_head_dim d) in
  match tp with
  | Some _ =>
      Ok ([("qkv_proj", QKVParallelLinear h dim (a_total_heads d) (a_total_kv_heads d) (prefix +:+ ".qkv_proj"));
           ("o_proj", RowParallelLinear (a_total_heads d * dim) h (prefix +:+ ".o_proj"))] ++
          (if a_use_rope d then [("rotary_emb", RotaryEmbedding dim)] else []) ++
          [("attn", AttentionKernel (a_heads d) dim (a_kv_heads d) (prefix +:+ ".attn"))])
  | None =>
      Ok [("q_proj", Linear h (a_heads d * dim)); ("k_proj", Linear h (a_kv_heads d * dim));
          ("v_proj", Linear h (a_kv_heads d * dim)); ("o_proj", Linear (a_heads d * dim) h)]
  end.

Definition norm_of (vllm : bool) (n : Z) : nn := if vllm then RMSNorm n else LayerNorm n.
Definition in_vllm (tp : option Z) : bool := bool_decide (is_Some tp).

(** [SmolLM3DecoderLayer.__init__] *)
Definition decoder_init (cfg : SmolConfig) (tp : option Z) (layer_idx : Z) (prefix : string)
    : result modules :=
  let hidden := default 2048 (hidden_size cfg) in
  let? attn := attention_init cfg tp layer_idx (prefix +:+ ".self_attn") in
  let mlp := mlp_init (in_vllm tp) hidden (default 8192 (intermediate_size cfg)) (prefix +:+ ".mlp") in
  Ok (under "self_attn" attn ++ under "mlp" mlp ++
      [("input_layernorm", norm_of (in_vllm tp) hidden);
       ("post_attention_layernorm", norm_of (in_vllm tp) hidden)]).

Definition layer_name (i : nat) : string := "layers." +:+ pretty i.

(** [SmolLM3Model.__init__] *)
Definition model_init (cfg : SmolConfig) (tp : option Z) (prefix : string) : result modules :=
  let hidden := default 2048 (hidden_size cfg) in
  let vocab := default 49152 (vocab_size cfg) in
  let n := Z.to_nat (default 32 (num_hidden_layers cfg)) in
  let? layers := rmap (fun i => let? ms := decoder_init cfg tp (Z.of_nat i) (prefix +:+ "." +:+ layer_name i) in
                               Ok (under (layer_name i) ms)) (seq 0 n) in
  Ok ([("embed_tokens", if in_vllm tp then VocabParallelEmbedding vocab hidden (prefix +:+ ".embed_tokens")
                        else Embedding vocab hidden)] ++
      mjoin layers ++ [("norm", norm_of (in_vllm tp) hidden)]).

(** [SmolLM3ForCausalLM.__init__] *)
Definition causal_init (cfg : SmolConfig) (tp : option Z) (prefix : string) : result modules :=
  let? model := model_init cfg tp (prefix +:+ ".model") in
  let vocab := default 49152 (vocab_size cfg) in
  let hidden := default 2048 (hidden_size cfg) in
  Ok (under "model" model ++
      [("lm_head", if in_vllm tp then ParallelLMHead vocab hidden vocab (prefix +:+ ".lm_head")
                   else Linear hidden vocab)]).

(** The parameters of a layer: none of these has a bias but the layer norm. *)
Definition leaf_params (m : nn) : list string :=
  match m with
  | LayerNorm _ => ["weight"; "bias"]
  | RotaryEmbedding _ | AttentionKernel _ _ _ _ | Activation => []
  | _ => ["weight"]
  end.

(** [named_parameters()] of a tree of modules. *)
Definition parameter_names (ms : modules) : list string :=
  mjoin (map (fun m => map (fun p => m.1 +:+ "." +:+ p) (leaf_params m.2)) ms).

(** The prefix a module was given, for those that take one. *)
Definition module_prefix (m : nn) : option string :=
  match m with
  | MergedColumnParallelLinear _ _ p | QKVParallelLinear _ _ _ _ p | RowParallelLinear _ _ p
  | VocabParallelEmbedding _ _ p | ParallelLMHead _ _ _ p | AttentionKernel _ _ _ p => Some p
  | _ => None
  end.

(** ** Shapes *)

Abbreviation shape := (list Z).
Definition shape_error {A} : result A := Raise (OtherError "RuntimeError: shapes").

Definition numel (s : shape) : Z := foldr Z.mul 1 s.

(** [nn.Linear(inp, out)] on the last dimension of a batch of sequences. *)
Definition linear (inp out : Z) (s : shape) : result shape :=
  match s with
  | [b; n; d] => if d =? inp then Ok [b; n; out] else shape_error
  | _ => shape_error
  end.

Definition view (new s : shape) : result shape :=
  if numel s =? numel new then Ok new else shape_error.

Definition transpose12 (s : shape) : result shape :=
  match s with [a; b; c; d] => Ok [a; c; b; d] | _ => shape_error end.
Definition transpose_last (s : shape) : result shape :=
  match s with [a; b; c; d] => Ok [a; b; d; c] | _ => shape_error end.

(** [t.repeat_interleave(n, dim=1)] *)
Definition repeat_heads (n : Z) (s : shape) : result shape :=
  match s with
  | [a; b; c; d] => if n <? 0 then shape_error else Ok [a; b * n; c; d]
  | _ => shape_error
  end.

(** Two batch dimensions are broadcast. *)
Definition broadcast_dim (x y : Z) : result Z :=
  if x =? y then Ok x else if x =? 1 then Ok y else if y =? 1 then Ok x else shape_error.

Definition matmul (s t : shape) : result shape :=
  match s, t with
  | [a; h; n; m], [a'; h'; m'; p] =>
      let? b := broadcast_dim a a' in
      let? hs := broadcast_dim h h' in
      if m =? m' then Ok [b; hs; n; p] else shape_error
  | _, _ => shape_error
  end.

(** [t.reshape(b, s, -1)] *)
Definition reshape_rest (b n : Z) (s : shape) : result shape :=
  if b * n =? 0 then shape_error
  else if numel s mod (b * n) =? 0 then Ok [b; n; numel s / (b * n)] else shape_error.

(** Addition of tensors of the same rank. *)
Definition add_shapes (s t : shape) : result shape :=
  if bool_decide (s = t) then Ok s else shape_error.

(** The standalone branch of [SmolLM3Attention.forward]. *)
Definition attention_shape (d : AttnDims) (x : shape) : result shape :=
  match x with
  | [b; s; _] =>
      let total := a_heads d * a_head_dim d in
      let kv := a_kv_heads d * a_head_dim d in
      let? q := linear (a_hidden d) total x in
      let? k := linear (a_hidden d) kv x in
      let? v := linear (a_hidden d) kv x in
      let? q := view [b; s; a_heads d; a_head_dim d] q in
      let? q := transpose12 q in
      let? k := view [b; s; a_kv_heads d; a_head_dim d] k in
      let? k := transpose12 k in
      let? v := view [b; s; a_kv_heads d; a_head_dim d] v in
      let? v := transpose12 v in
      let? rep := floordiv (a_heads d) (a_kv_heads d) in
      let? k := repeat_heads rep k in
      let? v := repeat_heads rep v in
      let? kt := transpose_last k in
      let? attn := matmul q kt in
      let? out := matmul attn v in
      let? out := transpose12 out in
      let? out := reshape_rest b s out in
      linear total (a_hidden d) out
  | _ => shape_error
  end.

(** The standalone branch of [SmolLM3MLP.forward]: two chunks of the merged projection. *)
Definition mlp_shape (hidden inter : Z) (x : shape) : result shape :=
  let? gu := linear hidden (inter * 2) x in
  match gu with
  | [b; s; d] => linear inter hidden [b; s; d / 2]
  | _ => shape_error
  end.

Definition layer_norm_shape (n : Z) (x : shape) : result shape :=
  match x with [b; s; d] => if d =? n then Ok x else shape_error | _ => shape_error end.

(** [SmolLM3DecoderLayer.forward], standalone *)
Definition decoder_shape (cfg : SmolConfig) (layer_idx : Z) (h : shape) (residual : option shape)
    : result (shape * shape) :=
  let hidden := default 2048 (hidden_size cfg) in
  let? d := attention_dims cfg None layer_idx in
  let? r := match residual with None => Ok h | Some r => add_shapes h r end in
  let? x := layer_norm_shape hidden r in
  let? a := attention_shape d x in
  let? r2 := add_shapes a r in
  let? x2 := layer_norm_shape hidden r2 in
  let? m := mlp_shape hidden (default 8192 (intermediate_size cfg)) x2 in
  Ok (m, r2).

Fixpoint layers_shape (cfg : SmolConfig) (ids : list nat) (h : shape) (residual : option shape)
    : result (shape * option shape) :=
  match ids with
  | [] => Ok (h, residual)
  | i :: rest =>
      let? hr := decoder_shape cfg (Z.of_nat i) h residual in
      layers_shape cfg rest hr.1 (Some hr.2)
  end.

(** [SmolLM3Model.forward] on token ids of shape [b, s], and [compute_logits]. *)
Definition model_shape (cfg : SmolConfig) (b s : Z) : result shape :=
  let hidden := default 2048 (hidden_size cfg) in
  let? hr := layers_shape cfg (seq 0 (Z.to_nat (default 32 (num_hidden_layers cfg)))) [b; s; hidden] None in
  let? h := match hr.2 with None => Ok hr.1 | Some r => add_shapes hr.1 r end in
  layer_norm_shape hidden h.

Definition logits_shape (cfg : SmolConfig) (h : shape) : result shape :=
  linear (default 2048 (hidden_size cfg)) (default 49152 (vocab_size cfg)) h.

(** ** Properties: the module tree *)

Lemma parameter_names_app ms1 ms2 : parameter_names (ms1 ++ ms2) = parameter_names ms1 ++ parameter_names ms2.
Proof. unfold parameter_names. by rewrite map_app, join_app. Qed.

Lemma parameter_names_under name ms :
  parameter_names (under name ms) = map (fun p => name +:+ "." +:+ p) (parameter_names ms).
Proof.
  induction ms as [|[n m] ms IH]; [done|].
  change (parameter_names (under name ((n, m) :: ms)))
    with (map (fun p => (name +:+ "." +:+ n) +:+ "." +:+ p) (leaf_params m) ++ parameter_names (under name ms)).
  change (parameter_names ((n, m) :: ms)) with (map (fun p => n +:+ "." +:+ p) (leaf_params m) ++ parameter_names ms).
  rewrite IH, map_app, map_map. f_equal. apply map_ext. intros p. by rewrite !append_assoc.
Qed.

Lemma parameter_names_join (mss : list modules) :
  parameter_names (mjoin mss) = mjoin (map parameter_names mss).
Proof.
  induction mss as [|ms mss IH]; [done|]. change (mjoin (ms :: mss)) with (ms ++ mjoin mss).
  by rewrite parameter_names_app, IH.
Qed.

(** What the constructors need to succeed. *)
Record constructible (cfg : SmolConfig) (tp : option Z) : Prop := {
  heads_nonzero : default 32 (num_attention_heads cfg) <> 0;
  interval_nonzero : default 2 (nope_layer_interval cfg) <> 0;
  tp_nonzero : tp <> Some 0;
}.

Lemma attention_dims_ok cfg tp i : constructible cfg tp -> exists d, attention_dims cfg tp i = Ok d.
Proof.
  intros [H1 H2 H3]. unfold attention_dims, floordiv, use_rope.
  destruct (default 32 (num_attention_heads cfg) =? 0) eqn:E1; [bool_to_prop; done|]. cbn [rbind].
  destruct (default 2 (nope_layer_interval cfg) =? 0) eqn:E2; [bool_to_prop; done|]. cbn [rbind].
  destruct tp as [n|]; [|eauto]. destruct (n =? 0) eqn:E3; [bool_to_prop; by subst|]. cbn [rbind]. eauto.
Qed.

Lemma layer_path_params i (names : list string) :
  map (fun p => "model" +:+ "." +:+ p) (map (fun p => layer_name i +:+ "." +:+ p) names) =
  map (fun s => "model.layers." +:+ pretty i +:+ "." +:+ s) names.
Proof. rewrite map_map. apply map_ext. intros p. unfold layer_name. by rewrite !append_assoc. Qed.

Lemma decoder_parameters cfg tp i prefix :
  constructible cfg tp ->
  exists ms, decoder_init cfg tp (Z.of_nat i) prefix = Ok ms /\
    map (fun s => "model.layers." +:+ pretty i +:+ "." +:+ s) (parameter_names ms) =
    layer_params (in_vllm tp) i.
Proof.
  intros Hc. unfold decoder_init, attention_init.
  destruct (attention_dims_ok cfg tp (Z.of_nat i) Hc) as [d ->]. cbn [rbind].
  destruct tp as [n|]; [destruct (a_use_rope d)|]; cbn [rbind]; eexists; split; reflexivity.
Qed.

(** The parameters the loader looks up are those of the modules the constructors
    build: with a nonzero head count, interval and world size, construction succeeds
    and the parameter names of the tree, in order, are the names the checkpoint
    is matched against, in both modes and for every configuration. *)
Theorem module_tree_parameters cfg tp prefix :
  constructible cfg tp ->
  exists ms, causal_init cfg tp prefix = Ok ms /\
    parameter_names ms =
    named_parameters (in_vllm tp) (Z.to_nat (default 32 (num_hidden_layers cfg))).
Proof.
  intros Hc. unfold causal_init, model_init. set (n := Z.to_nat _).
  set (mk := fun i => let? ms := decoder_init cfg tp (Z.of_nat i) ((prefix +:+ ".model") +:+ "." +:+ layer_name i) in
                      Ok (under (layer_name i) ms)).
  assert (Hl : forall l, exists mss, rmap mk l = Ok mss /\
            map (fun p => "model" +:+ "." +:+ p) (mjoin (map parameter_names mss)) =
            mjoin (map (layer_params (in_vllm tp)) l)).
  { induction l as [|i l (mss & Hm & Hp)]; [by exists []|].
    destruct (decoder_parameters cfg tp i ((prefix +:+ ".model") +:+ "." +:+ layer_name i) Hc) as (ms & Hms & Hi).
    exists (under (layer_name i) ms :: mss). split.
    - cbn [rmap]. unfold mk at 1. rewrite Hms. cbn [rbind]. by rewrite Hm.
    - cbn. rewrite map_app, parameter_names_under. f_equal; [|exact Hp].
      rewrite <- Hi. apply layer_path_params. }
  destruct (Hl (seq 0 n)) as (mss & -> & Hp). cbn [rbind]. eexists. split; [reflexivity|].
  rewrite parameter_names_app, parameter_names_under, !parameter_names_app, parameter_names_join, !map_app, Hp.
  unfold named_parameters, in_vllm, norm_of. destruct tp as [w|];
    rewrite ?bool_decide_eq_true_2, ?bool_decide_eq_false_2 by (eauto || by intros []);
    cbn; by rewrite <- app_assoc.
Qed.

(** Every prefix a module is given is the outer prefix and its own path. *)
Definition prefixed (p : string) (ms : modules) : Prop :=
  Forall (fun m => forall q, module_prefix m.2 = Some q -> q = p +:+ "." +:+ m.1) ms.

Lemma prefixed_under p name ms : prefixed (p +:+ "." +:+ name) ms -> prefixed p (under name ms).
Proof.
  unfold prefixed, under. rewrite Forall_map. intros HF. eapply Forall_impl; [exact HF|]. intros [n m] H q Hq. cbn in *.
  rewrite (H q Hq). by rewrite !append_assoc.
Qed.

Ltac leaf_prefix :=
  repeat (apply Forall_cons_2; [cbn; intros q Hq; by simplify_eq|]); apply Forall_nil_2.

Lemma attention_prefixed cfg tp i prefix ms : attention_init cfg tp i prefix = Ok ms -> prefixed prefix ms.
Proof.
  unfold attention_init. intros (d & _ & H)%rbind_Ok.
  destruct tp as [w|]; [destruct (a_use_rope d)|]; cbn in H; simplify_eq; leaf_prefix.
Qed.

Lemma mlp_prefixed vllm h inter prefix : prefixed prefix (mlp_init vllm h inter prefix).
Proof. destruct vllm; leaf_prefix. Qed.

Lemma norm_prefixed p name vllm n : prefixed p [(name, norm_of vllm n)].
Proof. destruct vllm; leaf_prefix. Qed.

Lemma decoder_prefixed cfg tp i prefix ms : decoder_init cfg tp i prefix = Ok ms -> prefixed prefix ms.
Proof.
  unfold decoder_init. intros (attn & Ha & H)%rbind_Ok. injection H as <-.
  apply Forall_app_2; [by eapply prefixed_under, attention_prefixed|].
  apply Forall_app_2; [apply prefixed_under, mlp_prefixed|].
  apply (Forall_app_2 _ [_] [_]); apply norm_prefixed.
Qed.

Lemma Ok_inj {A} (x y : A) : Ok x = Ok y -> y = x.
Proof. congruence. Qed.

Lemma model_prefixed cfg tp prefix ms : model_init cfg tp prefix = Ok ms -> prefixed prefix ms.
Proof.
  unfold model_init. intros (mss & E & ->%Ok_inj)%rbind_Ok.
  apply Forall_app_2; [destruct (in_vllm tp); leaf_prefix|].
  apply Forall_app_2; [|apply norm_prefixed].
  apply rmap_Ok in E. induction E as [|i ms l mss Hi _ IH]; [apply Forall_nil_2|].
  apply rbind_Ok in Hi as (ms' & Hd & ->%Ok_inj).
  apply Forall_app_2; [|done]. by eapply prefixed_under, decoder_prefixed.
Qed.

Lemma causal_prefixed cfg tp prefix ms : causal_init cfg tp prefix = Ok ms -> prefixed prefix ms.
Proof.
  unfold causal_init. intros (model & E & ->%Ok_inj)%rbind_Ok.
  apply Forall_app_2; [by eapply prefixed_under, model_prefixed|].
  destruct (in_vllm tp); leaf_prefix.
Qed.

(** Inside vLLM every projection, embedding and attention module is told its place as the outer
    prefix, a dot and its path in the tree.  With the constructor's default, the
    empty prefix, each of these names starts with a dot and so is never the name of
    the module's own path in the checkpoint. *)
Theorem module_prefixes cfg tp prefix ms :
  causal_init cfg tp prefix = Ok ms ->
  prefixed prefix ms /\
  (prefix = "" -> forall path m q, (path, m) ∈ ms -> module_prefix m = Some q ->
     q = "." +:+ path /\ q <> path).
Proof.
  intros H. pose proof (causal_prefixed cfg tp prefix ms H) as Hp.
  split; [done|]. intros -> path m q Hin Hq.
  pose proof (proj1 (Forall_forall _ _) Hp _ Hin q Hq) as Heq. cbn in Heq. split; [done|].
  assert (Hl : String.length ("." +:+ path) = S (String.length path)) by reflexivity.
  intros Hlen. rewrite <- Hlen in Hl at 2. rewrite Heq in Hl. change ("" +:+ "." +:+ path) with ("." +:+ path) in Hl. lia.
Qed.

(** ** Properties: shapes *)

(** A check that holds. *)
Lemma check_true {A} (x y : Z) (a b : A) : x = y -> (if x =? y then a else b) = a.
Proof. intros ->. by rewrite Z.eqb_refl. Qed.

Lemma check_false {A} (x y : Z) (a b : A) : x <> y -> (if x =? y then a else b) = b.
Proof. intros H. destruct (x =? y) eqn:E; bool_to_prop; done. Qed.

Record positive_dims (d : AttnDims) : Prop := {
  p_hidden : 0 < a_hidden d;
  p_heads : 0 < a_heads d;
  p_kv : 0 < a_kv_heads d;
  p_dim : 0 < a_head_dim d;
}.

(** The pass up to the products of queries, keys and values. *)
Lemma attention_shape_products d b s :
  0 < b -> 0 < s -> positive_dims d ->
  let h := a_heads d in
  let kv := a_kv_heads d * (a_heads d / a_kv_heads d) in
  attention_shape d [b; s; a_hidden d] =
    let? out := (let? attn := matmul [b; h; s; a_head_dim d] [b; kv; a_head_dim d; s] in
                 matmul attn [b; kv; s; a_head_dim d]) in
    let? out := transpose12 out in
    let? out := reshape_rest b s out in
    linear (h * a_head_dim d) (a_hidden d) out.
Proof.
  intros Hb Hs [Hh Hn Hk Hd] h kv. unfold attention_shape, linear. rewrite !Z.eqb_refl. cbn [rbind].
  unfold view, numel. cbn [foldr].
  rewrite !check_true by ring. cbn [rbind transpose12]. unfold floordiv. rewrite check_false by lia. cbn [rbind].
  assert (Hr : 0 <= a_heads d / a_kv_heads d) by (apply Z.div_pos; lia).
  unfold repeat_heads. destruct (a_heads d / a_kv_heads d <? 0) eqn:E; [bool_to_prop; lia|].
  cbn [rbind transpose_last]. by destruct (matmul _ _).
Qed.

Lemma repeat_interleave_length {A} n (l : list A) : length (repeat_interleave n l) = (n * length l)%nat.
Proof.
  unfold repeat_interleave. induction l as [|x l IH]; [simpl; lia|].
  change (mjoin (map (replicate n) (x :: l))) with (replicate n x ++ mjoin (map (replicate n) l)).
  rewrite length_app, IH, length_replicate. simpl. lia.
Qed.

Lemma attention_typed d b s :
  0 < b -> 0 < s -> positive_dims d ->
  attention_shape d [b; s; a_hidden d] = Ok [b; s; a_hidden d] <->
  a_heads d mod a_kv_heads d = 0.
Proof.
  intros Hb Hs Hp. rewrite attention_shape_products by done. destruct Hp as [Hh Hn Hk Hd].
  set (kv := a_kv_heads d * (a_heads d / a_kv_heads d)).
  pose proof (Z.div_mod (a_heads d) (a_kv_heads d) ltac:(lia)) as Hdm. fold kv in Hdm.
  pose proof (Z.mod_pos_bound (a_heads d) (a_kv_heads d) Hk) as Hm.
  assert (Hkv : 0 <= kv) by (unfold kv; apply Z.mul_nonneg_nonneg; [lia|apply Z.div_pos; lia]).
  unfold matmul, broadcast_dim. rewrite Z.eqb_refl. cbn [rbind].
  destruct (Z.eq_dec (a_heads d) kv) as [He|He].
  - split; [lia|intros _]. rewrite <- He, !Z.eqb_refl. cbn [rbind transpose12]. rewrite !Z.eqb_refl.
    cbn [rbind transpose12]. unfold reshape_rest, numel. cbn [foldr]. rewrite check_false by nia.
    replace (b * (s * (a_heads d * (a_head_dim d * 1)))) with (a_heads d * a_head_dim d * (b * s)) by ring.
    rewrite Z.mod_mul, Z.div_mul by nia. change (0 =? 0) with true. cbn [rbind]. unfold linear. by rewrite Z.eqb_refl.
  - split; [|lia]. intros H. exfalso. rewrite (check_false (a_heads d) kv) in H by done.
    destruct (a_heads d =? 1) eqn:E1; bool_to_prop.
    + (* one query head and more key heads: a dimension of size zero *)
      assert (kv = 0) as Hk0 by lia. rewrite Hk0 in H. cbn [rbind] in H. rewrite !Z.eqb_refl in H.
      cbn [rbind] in H. change (0 =? 0) with true in H. rewrite !Z.eqb_refl in H. cbn [rbind transpose12] in H. rewrite ?Z.eqb_refl in H. cbn [rbind transpose12] in H.
      unfold reshape_rest, numel in H. cbn [foldr] in H. rewrite check_false in H by nia.
      replace (b * (s * (0 * (a_head_dim d * 1)))) with 0 in H by ring.
      rewrite Z.mod_0_l, Z.div_0_l in H by nia. change (0 =? 0) with true in H. cbn [rbind] in H. unfold linear in H.
      rewrite check_false in H by nia. done.
    + destruct (kv =? 1) eqn:E2; bool_to_prop; [|done].
      assert (Hk1 : a_kv_heads d = 1) by (destruct (Z.mul_eq_1 _ _ E2); lia).
      assert (Hm0 : a_heads d mod a_kv_heads d = 0) by (rewrite Hk1; apply Z.mod_1_r). lia.
Qed.

(** The standalone attention is well typed exactly when the key-value heads divide the
    query heads: on a batch of sequences of hidden states it then returns a
    tensor of the same shape, and otherwise torch rejects one of its operations, since
    the expanded keys do not have the number of heads the queries have. *)
Theorem attention_well_typed d b s :
  0 < b -> 0 < s -> positive_dims d ->
  (attention_shape d [b; s; a_hidden d] = Ok [b; s; a_hidden d] <-> a_heads d mod a_kv_heads d = 0) /\
  (a_heads d mod a_kv_heads d = 0 <->
   length (repeat_interleave (Z.to_nat (a_heads d / a_kv_heads d)) (replicate (Z.to_nat (a_kv_heads d)) tt)) =
   Z.to_nat (a_heads d)).
Proof.
  intros Hb Hs Hp. split; [by apply attention_typed|]. destruct Hp as [_ Hn Hk _].
  rewrite repeat_interleave_length, length_replicate.
  pose proof (Z.div_mod (a_heads d) (a_kv_heads d) ltac:(lia)) as Hdm.
  assert (0 <= a_heads d / a_kv_heads d) by (apply Z.div_pos; lia).
  rewrite <- Z2Nat.inj_mul by lia. split; [intros H0; f_equal; lia|intros H0%Z2Nat.inj; nia].
Qed.

(** What a configuration needs for the standalone model to be well typed. *)
Record well_sized (cfg : SmolConfig) : Prop := {
  ws_hidden : 0 < default 2048 (hidden_size cfg);
  ws_heads : 0 < default 32 (num_attention_heads cfg);
  ws_kv : 0 < default 8 (num_key_value_heads cfg);
  ws_divides : default 32 (num_attention_heads cfg) mod default 8 (num_key_value_heads cfg) = 0;
  ws_dim : 0 < default (default 2048 (hidden_size cfg) / default 32 (num_attention_heads cfg)) (head_dim cfg);
  ws_interval : default 2 (nope_layer_interval cfg) <> 0;
}.

Lemma mlp_well_typed h inter b s : mlp_shape h inter [b; s; h] = Ok [b; s; h].
Proof.
  unfold mlp_shape, linear. rewrite Z.eqb_refl. cbn [rbind]. by rewrite Z.div_mul, Z.eqb_refl by lia.
Qed.

Lemma layer_norm_well_typed n b s : layer_norm_shape n [b; s; n] = Ok [b; s; n].
Proof. unfold layer_norm_shape. by rewrite Z.eqb_refl. Qed.

Lemma add_same x : add_shapes x x = Ok x.
Proof. unfold add_shapes. by rewrite bool_decide_eq_true_2. Qed.

Lemma decoder_well_typed cfg i b s residual :
  well_sized cfg -> 0 < b -> 0 < s ->
  let x := [b; s; default 2048 (hidden_size cfg)] in
  (residual = None \/ residual = Some x) -> decoder_shape cfg i x residual = Ok (x, x).
Proof.
  intros [H1 H2 H3 H4 H5 H6] Hb Hs x Hr. unfold decoder_shape, attention_dims, floordiv, use_rope.
  rewrite !check_false by lia. cbn [rbind].
  set (d := mkAttnDims _ _ _ _ _ _ _).
  assert (Ha : attention_shape d x = Ok x).
  { apply (attention_typed d b s Hb Hs); [by constructor|done]. }
  assert (Hres : match residual with None => Ok x | Some r => add_shapes x r end = Ok x).
  { destruct Hr as [-> | ->]; [done|apply add_same]. }
  rewrite Hres. cbn [rbind]. unfold x at 1. rewrite layer_norm_well_typed. cbn [rbind]. fold x.
  rewrite Ha. cbn [rbind]. rewrite add_same. cbn [rbind]. unfold x at 1. rewrite layer_norm_well_typed.
  cbn [rbind]. by rewrite mlp_well_typed.
Qed.

(** C34.  The standalone model is well typed: for a configuration with positive sizes whose
    key-value heads divide the query heads, a batch of token sequences of any positive size
    passes through embedding, every decoder layer with its residuals, the final norm
    and the head without a shape error, giving hidden states of the model width and
    logits over the vocabulary. *)
Theorem model_well_typed cfg b s :
  well_sized cfg -> 0 < b -> 0 < s ->
  model_shape cfg b s = Ok [b; s; default 2048 (hidden_size cfg)] /\
  (let? h := model_shape cfg b s in logits_shape cfg h) = Ok [b; s; default 49152 (vocab_size cfg)].
Proof.
  intros Hw Hb Hs. set (x := [b; s; default 2048 (hidden_size cfg)]).
  assert (Hl : forall ids residual, residual = None \/ residual = Some x ->
            exists r, layers_shape cfg ids x residual = Ok (x, r) /\ (r = None \/ r = Some x)).
  { induction ids as [|i ids IH]; intros residual Hr; [by exists residual|]. cbn [layers_shape].
    unfold x at 1. rewrite (decoder_well_typed cfg (Z.of_nat i) b s residual Hw Hb Hs Hr). cbn [rbind fst snd].
    apply IH. by right. }
  assert (Hm : model_shape cfg b s = Ok x).
  { unfold model_shape. fold x. destruct (Hl (seq 0 (Z.to_nat (default 32 (num_hidden_layers cfg)))) None)
      as (r & -> & Hr); [by left|]. cbn [rbind fst snd].
    assert (Hres : match r with None => Ok x | Some r => add_shapes x r end = Ok x)
      by (destruct Hr as [-> | ->]; [done|apply add_same]).
    rewrite Hres. cbn [rbind]. apply layer_norm_well_typed. }
  rewrite Hm. split; [done|]. cbn [rbind]. unfold logits_shape, linear, x. by rewrite Z.eqb_refl.
Qed.

(** ** Witnesses *)

Lemma default_well_sized : well_sized no_smol_config.
Proof. split; vm_compute; congruence. Qed.

Lemma model_well_typed_witness :
  model_shape no_smol_config 2 7 = Ok [2; 7; 2048] /\
  (let? h := model_shape no_smol_config 2 7 in logits_shape no_smol_config h) = Ok [2; 7; 49152].
Proof. apply (model_well_typed no_smol_config 2 7 default_well_sized); lia. Defined.

Definition demo_dims (heads kv : Z) : AttnDims := mkAttnDims 64 heads kv 16 true heads kv.

Lemma attention_well_typed_witness :
  attention_shape (demo_dims 4 2) [1; 3; 64] = Ok [1; 3; 64] <-> 4 mod 2 = 0.
Proof. apply (attention_well_typed (demo_dims 4 2) 1 3); [lia|lia|split; cbn; lia]. Defined.

Lemma module_tree_parameters_witness :
  exists ms, causal_init no_smol_config (Some 2) "" = Ok ms /\ parameter_names ms = named_parameters true 32.
Proof. apply (module_tree_parameters no_smol_config (Some 2) ""). split; cbn; congruence. Defined.

Lemma module_prefixes_witness :
  exists ms, causal_init (mkSmolConfig None None None None None None None (Some 1) None) (Some 1) "" = Ok ms /\
    prefixed "" ms.
Proof.
  eexists. split; [reflexivity|].
  apply (module_prefixes (mkSmolConfig None None None None None None None (Some 1) None) (Some 1) ""). reflexivity.
Defined.
