(* ===== verification/SmolForward.v ===== *)
(** * The standalone forward pass on values (vllm_port/smollm3.py)

    Outside vLLM the port computes with plain torch layers.  Here a sequence of
    hidden states is a function of position and channel, and the attention is
    the one the standalone branch writes out: heads by [view], key and value
    heads expanded by [repeat_interleave], scaled products, softmax over the
    keys, and the heads put side by side again.  The scalars, softmax, the
    activation and the layer norm are torch's, hence parameters; a batch is a
    list of sequences computed one by one.  What raises in torch raises here:
    token ids outside the vocabulary, head counts that do not divide, and a
    reshape of a tensor without elements. *)
From Stdlib Require Import ZArith Lia.
From stdpp Require Import base option list strings.
From S2P Require Import Prelude SmolLM3.
Local Open Scope list_scope.
Local Open Scope nat_scope.

Section Values.
Context {R : Type} (zero : R) (add mul : R -> R -> R).
Context (softmax : nat -> (nat -> R) -> nat -> R) (act : R -> R).
Context (norm_row : (nat -> R) -> (nat -> R) -> nat -> (nat -> R) -> nat -> R).

(** Hidden states by position and channel; a weight matrix by output and
    input channel, as torch stores it. *)
Abbreviation tensor := (nat -> nat -> R).
Abbreviation matrix := (nat -> nat -> R).

Definition sum (n : nat) (f : nat -> R) : R := foldr (fun i acc => add (f i) acc) zero (seq 0 n).

(** [nn.Linear(inp, _, bias=False)] *)
Definition linear (inp : nat) (w : matrix) (x : tensor) : tensor :=
  fun t o => sum inp (fun i => mul (x t i) (w o i)).

(** [nn.LayerNorm]: each position by itself. *)
Definition layer_norm (weight bias : nat -> R) (n : nat) (x : tensor) : tensor :=
  fun t => norm_row weight bias n (x t).

(** Sizes of an attention module, and its [scaling]. *)
Record HeadDims := mkHeadDims { d_hidden : nat; d_heads : nat; d_kv_heads : nat; d_dim : nat; d_scale : R }.

(** [x.view(b, s, n, head_dim).transpose(1, 2)]: the list of heads. *)
Definition split_heads (n dim : nat) (x : tensor) : list tensor :=
  map (fun h t c => x t (h * dim + c)) (seq 0 n).

(** One head: [softmax((q @ k^T) * scaling) @ v] over a sequence of [s]. *)
Definition scores (D : HeadDims) (q k : tensor) (t u : nat) : R :=
  mul (sum D.(d_dim) (fun c => mul (q t c) (k u c))) D.(d_scale).

Definition head_attention (D : HeadDims) (s : nat) (q k v : tensor) : tensor :=
  fun t c => sum s (fun u => mul (softmax s (scores D q k t) u) (v u c)).

(** [out.transpose(1, 2).reshape(b, s, -1)] *)
Definition merge_heads (dim : nat) (hs : list tensor) : tensor :=
  fun t c => match hs !! (c / dim) with Some h => h t (c mod dim) | None => zero end.

(** The standalone product of queries, keys and values: as many expanded
    key-value heads as query heads, or the product of the two does not broadcast
    (a single query head with none of the others leaves nothing to reshape, like
    any other size of zero). *)
Definition attention_product (D : HeadDims) (s : nat) (q k v : tensor) : result tensor :=
  if bool_decide (D.(d_kv_heads) = 0) then Raise ZeroDivisionError
  else
    let repeat := D.(d_heads) / D.(d_kv_heads) in
    let qs := split_heads D.(d_heads) D.(d_dim) q in
    let ks := repeat_interleave repeat (split_heads D.(d_kv_heads) D.(d_dim) k) in
    let vs := repeat_interleave repeat (split_heads D.(d_kv_heads) D.(d_dim) v) in
    if bool_decide (length qs = length ks) then
      if bool_decide (length qs * D.(d_dim) * s = 0) then Raise (OtherError "cannot reshape tensor of 0 elements")
      else Ok (merge_heads D.(d_dim) (zip_with (fun q kv => head_attention D s q kv.1 kv.2) qs (zip ks vs)))
    else Raise (OtherError "The size of tensor a must match the size of tensor b").

(** The parameters of one decoder layer. *)
Record LayerWeights := mkLayerWeights {
  q_w : matrix; k_w : matrix; v_w : matrix; o_w : matrix;
  gate_up_w : matrix; down_w : matrix;
  ln1_w : nat -> R; ln1_b : nat -> R; ln2_w : nat -> R; ln2_b : nat -> R;
}.

(** The modules of [SmolLM3DecoderLayer] in standalone mode, on results: an
    exception goes through to the end; [rope] is the rotation only vLLM
    provides. *)
Definition standalone_layer {P} (D : HeadDims) (inter s : nat) (use_rope : bool)
    (rope : P -> result tensor -> result tensor -> result tensor * result tensor) (W : LayerWeights)
    : layer (result tensor) P :=
  mkLayer use_rope
    (rlift (layer_norm W.(ln1_w) W.(ln1_b) D.(d_hidden))) (rlift (layer_norm W.(ln2_w) W.(ln2_b) D.(d_hidden)))
    (fun x => (rlift (linear D.(d_hidden) W.(q_w)) x, rlift (linear D.(d_hidden) W.(k_w)) x,
               rlift (linear D.(d_hidden) W.(v_w)) x))
    rope
    (fun q k v => rbind q (fun q => rbind k (fun k => rbind v (fun v => attention_product D s q k v))))
    (rlift (linear (D.(d_heads) * D.(d_dim)) W.(o_w)))
    (fun x => let y := rlift (linear D.(d_hidden) W.(gate_up_w)) x in (y, rlift (fun y t c => y t (inter + c)) y))
    (rlift (fun x t c => act (x t c))) (rlift2 (fun x y t c => mul (x t c) (y t c)))
    (rlift (linear inter W.(down_w))).

Definition add_states (x y : tensor) : tensor := fun t c => add (x t c) (y t c).

(** [nn.Embedding]: a row of the table per id. *)
Definition embed_tokens (embed : list (nat -> R)) (ids : list nat) : result tensor :=
  rlift (fun rows t c => match rows !! t with Some row => row c | None => zero end)
    (rmap (fun i => match embed !! i with Some row => Ok row | None => Raise IndexError end) ids).

(** [SmolLM3ForCausalLM.forward] and [compute_logits], standalone, on one
    sequence of token ids. *)
Definition standalone_hidden {P} (D : HeadDims) (inter s : nat)
    (rope : P -> result tensor -> result tensor -> result tensor * result tensor)
    (layers : list (bool * LayerWeights)) (fw fb : nat -> R) (embed : list (nat -> R))
    (positions : P) (ids : list nat) : result tensor :=
  rbind (model_forward (rlift2 add_states) false
    (map (fun l => standalone_layer D inter s l.1 rope l.2) layers)
    (rlift (layer_norm fw fb D.(d_hidden))) positions
    (embed_tokens embed ids)) id.

Definition standalone_logits {P} (D : HeadDims) (inter : nat)
    (rope : P -> result tensor -> result tensor -> result tensor * result tensor)
    (layers : list (bool * LayerWeights)) (fw fb : nat -> R) (embed : list (nat -> R)) (head : nat -> nat -> R)
    (positions : P) (ids : list nat) : result tensor :=
  rbind (standalone_hidden D inter (length ids) rope layers fw fb embed positions ids) (fun h =>
  Ok (linear D.(d_hidden) head h)).

(** ** Grouped queries *)

Lemma repeat_interleave_lookup {A} n (l : list A) i :
  0 < n -> repeat_interleave n l !! i = l !! (i / n).
Proof.
  intros Hn. unfold repeat_interleave. revert i. induction l as [|x l IH]; intros i; [done|].
  change (mjoin (map (replicate n) (x :: l))) with (replicate n x ++ mjoin (map (replicate n) l)).
  destruct (decide (i < n)) as [Hi|Hi].
  - rewrite lookup_app_l by (by rewrite length_replicate). rewrite Nat.div_small by done.
    by apply lookup_replicate_2.
  - rewrite lookup_app_r by (rewrite length_replicate; lia). rewrite length_replicate, IH.
    replace i with (i - n + 1 * n) at 2 by lia. rewrite Nat.div_add by lia.
    by rewrite Nat.add_1_r.
Qed.

(** The reference: query head [h] attends to key-value head [h / (H / KV)],
    read in place. *)
Definition grouped_attention (D : HeadDims) (s : nat) (q k v : tensor) : tensor :=
  fun t c =>
    let h := c / D.(d_dim) in
    let g := h / (D.(d_heads) / D.(d_kv_heads)) in
    let at_head n (x : tensor) : tensor := fun t c => x t (n * D.(d_dim) + c) in
    head_attention D s (at_head h q) (at_head g k) (at_head g v) t (c mod D.(d_dim)).

Lemma split_lookup n dim x h : h < n -> split_heads n dim x !! h = Some (fun t c => x t (h * dim + c)).
Proof.
  intros Hh. unfold split_heads. rewrite list_lookup_fmap, lookup_seq_lt by done. done.
Qed.

Lemma length_repeat_interleave {A} n (l : list A) : length (repeat_interleave n l) = n * length l.
Proof.
  unfold repeat_interleave. induction l as [|x l IH]; [cbn; lia|].
  change (mjoin (map (replicate n) (x :: l))) with (replicate n x ++ mjoin (map (replicate n) l)).
  rewrite length_app, length_replicate, IH. cbn [length]. lia.
Qed.

Lemma length_split_heads n dim x : length (split_heads n dim x) = n.
Proof. unfold split_heads. by rewrite length_map, length_seq. Qed.

(** When the standalone product exists. *)
Definition heads_fit (D : HeadDims) (s : nat) : bool :=
  negb (D.(d_kv_heads) =? 0) && (D.(d_heads) =? D.(d_heads) / D.(d_kv_heads) * D.(d_kv_heads)) &&
  negb (D.(d_heads) * D.(d_dim) * s =? 0).

Lemma attention_ok D s q k v : is_ok (attention_product D s q k v) = heads_fit D s.
Proof.
  unfold attention_product, heads_fit. rewrite !length_repeat_interleave, !length_split_heads.
  destruct (Nat.eqb_spec (d_kv_heads D) 0) as [E|E]; [by rewrite bool_decide_eq_true_2|].
  rewrite bool_decide_eq_false_2 by done. cbn [negb andb].
  destruct (Nat.eqb_spec (d_heads D) (d_heads D / d_kv_heads D * d_kv_heads D)) as [H|H];
    [rewrite bool_decide_eq_true_2 by done|by rewrite bool_decide_eq_false_2].
  destruct (Nat.eqb_spec (d_heads D * d_dim D * s) 0) as [Z|Z];
    [by rewrite bool_decide_eq_true_2|by rewrite bool_decide_eq_false_2].
Qed.

(** Expanding the key and value heads is grouped-query attention: when the
    key-value heads divide the query heads and nothing is empty, the standalone
    product exists and every channel of it is the one in which query head [h]
    uses key-value head [h / (H / KV)]; otherwise it raises. *)
Theorem expanded_heads_are_grouped (D : HeadDims) (s : nat) (q k v : tensor) :
  match attention_product D s q k v with
  | Ok out => heads_fit D s = true /\
      forall t c, c < D.(d_heads) * D.(d_dim) -> out t c = grouped_attention D s q k v t c
  | Raise _ => heads_fit D s = false
  end.
Proof.
  pose proof (attention_ok D s q k v) as Hok. destruct (attention_product D s q k v) as [out|e] eqn:E;
    cbn [is_ok] in Hok; [|done].
  split; [done|]. intros t c Hc. unfold heads_fit in Hok. symmetry in Hok.
  rewrite !andb_true_iff, !negb_true_iff, !Nat.eqb_neq, Nat.eqb_eq in Hok. destruct Hok as [[Hk Hm] Hz].
  unfold attention_product in E. repeat case_bool_decide; try discriminate E.
  injection E as <-. unfold merge_heads, grouped_attention.
  set (rep := d_heads D / d_kv_heads D) in *. set (h := c / d_dim D).
  assert (Hd : d_dim D <> 0) by nia.
  assert (Hrep : 0 < rep) by nia.
  assert (Hlt : h < d_heads D) by (apply Nat.Div0.div_lt_upper_bound; lia).
  assert (Hg : h / rep < d_kv_heads D) by (apply Nat.Div0.div_lt_upper_bound; nia).
  rewrite lookup_zip_with, split_lookup by done. cbn [mbind option_bind].
  rewrite lookup_zip_with, !repeat_interleave_lookup, !split_lookup by done. done.
Qed.

(** ** Order *)

Section Order.
Hypothesis add_comm : forall x y, add x y = add y x.
Hypothesis add_assoc : forall x y z, add x (add y z) = add (add x y) z.
(** A length and a rearrangement of the positions below it. *)
Context (s : nat) (perm : nat -> nat) (Hperm : map perm (seq 0 s) ≡ₚ seq 0 s).
Hypothesis softmax_ext : forall f g, (forall u, u < s -> f u = g u) ->
  forall u, u < s -> softmax s f u = softmax s g u.
Hypothesis softmax_perm : forall f u, u < s ->
  softmax s (fun i => f (perm i)) u = softmax s f (perm u).
(** A norm of a row depends on the row alone. *)
Hypothesis norm_ext : forall w b n f g, (forall i, f i = g i) -> forall i, norm_row w b n f i = norm_row w b n g i.

(** [x'] is [x] rearranged. *)
Definition rearranged (x x' : tensor) : Prop := forall t c, t < s -> x' t c = x (perm t) c.

Lemma perm_lt t : t < s -> perm t < s.
Proof.
  intros Ht. assert (perm t ∈ map perm (seq 0 s)) as Hin.
  { apply (list_elem_of_fmap_2 perm). apply elem_of_seq. lia. }
  rewrite Hperm in Hin. apply elem_of_seq in Hin. lia.
Qed.

Lemma sum_ext n f g : (forall i, i < n -> f i = g i) -> sum n f = sum n g.
Proof.
  intros H. unfold sum. assert (Hin : forall i, i ∈ seq 0 n -> f i = g i)
    by (intros i Hi; apply H; apply elem_of_seq in Hi; lia).
  induction (seq 0 n) as [|i l IH]; [done|]. simpl. rewrite Hin by left. f_equal. apply IH.
  intros j Hj. apply Hin. by right.
Qed.

Lemma sum_perm f : sum s (fun i => f (perm i)) = sum s f.
Proof.
  unfold sum. set (F := fun l => foldr (fun i acc => add (f i) acc) zero l).
  assert (HF : forall l l' : list nat, l ≡ₚ l' -> F l = F l').
  { induction 1 as [|x l l' _ IH|x y l|l l' l'' _ IH _ IH']; simpl; [done|by rewrite IH| |congruence].
    by rewrite !add_assoc, (add_comm (f x)). }
  rewrite <- (HF _ _ Hperm). unfold F. generalize (seq 0 s). intros l.
  induction l as [|i l IH]; [done|]. simpl. by rewrite IH.
Qed.

Lemma linear_order inp w x x' : rearranged x x' -> rearranged (linear inp w x) (linear inp w x').
Proof. intros H t c Ht. apply sum_ext. intros i _. by rewrite H. Qed.

Lemma norm_order w b n x x' : rearranged x x' -> rearranged (layer_norm w b n x) (layer_norm w b n x').
Proof. intros H t c Ht. apply norm_ext. intros i. by apply H. Qed.

Lemma add_order x x' y y' :
  rearranged x x' -> rearranged y y' -> rearranged (add_states x y) (add_states x' y').
Proof. intros Hx Hy t c Ht. unfold add_states. by rewrite Hx, Hy. Qed.

Lemma head_order D q q' k k' v v' :
  rearranged q q' -> rearranged k k' -> rearranged v v' ->
  rearranged (head_attention D s q k v) (head_attention D s q' k' v').
Proof.
  intros Hq Hk Hv t c Ht. unfold head_attention.
  rewrite <- (sum_perm (fun u => mul (softmax s (scores D q k (perm t)) u) (v u c))).
  apply sum_ext. intros u Hu. rewrite Hv by done. f_equal.
  rewrite <- softmax_perm by done. apply softmax_ext; [|done]. intros w Hw. unfold scores. f_equal.
  apply sum_ext. intros i _. by rewrite Hq, Hk.
Qed.

Lemma split_order n dim x x' :
  rearranged x x' -> Forall2 rearranged (split_heads n dim x) (split_heads n dim x').
Proof.
  intros H. unfold split_heads. apply Forall2_fmap, Forall_Forall2_diag, Forall_forall.
  intros h _ t c Ht. by apply H.
Qed.

Lemma repeat_order n (xs xs' : list tensor) :
  Forall2 rearranged xs xs' -> Forall2 rearranged (repeat_interleave n xs) (repeat_interleave n xs').
Proof.
  intros H. unfold repeat_interleave. induction H as [|x x' xs xs' Hx _ IH]; [constructor|].
  apply Forall2_app; [|exact IH]. by apply Forall2_replicate.
Qed.

Lemma heads_order D qs qs' ks ks' vs vs' :
  Forall2 rearranged qs qs' -> Forall2 rearranged ks ks' -> Forall2 rearranged vs vs' ->
  Forall2 rearranged (zip_with (fun q kv => head_attention D s q kv.1 kv.2) qs (zip ks vs))
    (zip_with (fun q kv => head_attention D s q kv.1 kv.2) qs' (zip ks' vs')).
Proof.
  intros Hqs. revert ks ks' vs vs'. induction Hqs as [|q q' qs qs' Hq _ IH]; intros ks ks' vs vs' Hks Hvs;
    [constructor|].
  destruct Hks as [|k k' ks ks' Hk Hks]; [constructor|].
  destruct Hvs as [|v v' vs vs' Hv Hvs]; [constructor|]. cbn. constructor; [by apply head_order|by apply IH].
Qed.

Lemma merge_order dim hs hs' :
  Forall2 rearranged hs hs' -> rearranged (merge_heads dim hs) (merge_heads dim hs').
Proof.
  intros H t c Ht. unfold merge_heads. destruct (hs' !! (c / dim)) as [h'|] eqn:E'.
  - destruct (Forall2_lookup_r _ _ _ _ _ H E') as (h & E & Hh). rewrite E. by apply Hh.
  - apply lookup_ge_None in E'. rewrite <- (Forall2_length _ _ _ H) in E'. apply lookup_ge_None in E'.
    by rewrite E'.
Qed.

(** The same for results: both raise the same, or both return and the one is the other rearranged. *)
Definition rearranged_result : result tensor -> result tensor -> Prop := result_rel rearranged.

Lemma attention_order D q q' k k' v v' :
  rearranged q q' -> rearranged k k' -> rearranged v v' ->
  rearranged_result (attention_product D s q k v) (attention_product D s q' k' v').
Proof.
  intros Hq Hk Hv. unfold attention_product. rewrite !length_repeat_interleave, !length_split_heads.
  repeat case_bool_decide; try done.
  apply merge_order, heads_order; [|apply repeat_order..]; by apply split_order.
Qed.

Lemma lift_linear_order inp w x x' :
  rearranged_result x x' -> rearranged_result (rlift (linear inp w) x) (rlift (linear inp w) x').
Proof. apply (lift_rel rearranged rearranged). intros. by apply linear_order. Qed.

Lemma lift_norm_order w b n x x' :
  rearranged_result x x' -> rearranged_result (rlift (layer_norm w b n) x) (rlift (layer_norm w b n) x').
Proof. apply (lift_rel rearranged rearranged). intros. by apply norm_order. Qed.

Lemma lift_add_order x x' y y' :
  rearranged_result x x' -> rearranged_result y y' ->
  rearranged_result (rlift2 add_states x y) (rlift2 add_states x' y').
Proof. apply (lift2_rel rearranged rearranged rearranged). intros. by apply add_order. Qed.

Lemma decoder_order {P} D inter r (rope : P -> result tensor -> result tensor -> result tensor * result tensor)
    W p p' x x' y y' :
  rearranged_result x x' -> option_Forall2 rearranged_result y y' ->
  let L := standalone_layer D inter s r rope W in
  let z := decoder_forward (rlift2 add_states) false L p x y in
  let z' := decoder_forward (rlift2 add_states) false L p' x' y' in
  rearranged_result z.1 z'.1 /\ rearranged_result z.2 z'.2.
Proof.
  intros Hx Hy. cbn zeta.
  assert (Hmain : forall u u', rearranged_result u u' ->
    let L := standalone_layer D inter s r rope W in
    let z := decoder_forward (rlift2 add_states) false L p u None in
    let z' := decoder_forward (rlift2 add_states) false L p' u' None in
    rearranged_result z.1 z'.1 /\ rearranged_result z.2 z'.2).
  { intros u u' Hu. cbn -[rlift rlift2].
    set (r2 := rlift2 add_states _ u). set (r2' := rlift2 add_states _ u').
    assert (Hr2 : rearranged_result r2 r2').
    { apply lift_add_order; [|exact Hu]. apply lift_linear_order.
      pose proof (lift_norm_order (ln1_w W) (ln1_b W) (d_hidden D) u u' Hu) as Hn.
      destruct (rlift _ u) as [a|], (rlift _ u') as [a'|]; try done. cbn.
      by apply attention_order; apply linear_order. }
    split; [|exact Hr2]. apply lift_linear_order.
    assert (Hg : rearranged_result
                  (rlift (linear (d_hidden D) (gate_up_w W)) (rlift (layer_norm (ln2_w W) (ln2_b W) (d_hidden D)) r2))
                  (rlift (linear (d_hidden D) (gate_up_w W)) (rlift (layer_norm (ln2_w W) (ln2_b W) (d_hidden D)) r2')))
      by (by apply lift_linear_order, lift_norm_order).
    apply (lift2_rel rearranged rearranged rearranged).
    - intros a a' b b' Ha Hb t c Ht. by rewrite Ha, Hb.
    - apply (lift_rel rearranged rearranged); [|exact Hg]. intros a a' Ha t c Ht. by rewrite Ha.
    - apply (lift_rel rearranged rearranged); [|exact Hg]. intros a a' Ha t c Ht. by apply Ha. }
  destruct Hy as [y y' Hy|]; [|by apply Hmain].
  apply (Hmain (rlift2 add_states x y) (rlift2 add_states x' y')). by apply lift_add_order.
Qed.

Lemma layers_order {P} D inter (rope : P -> result tensor -> result tensor -> result tensor * result tensor)
    ls p p' x x' y y' :
  rearranged_result x x' -> option_Forall2 rearranged_result y y' ->
  let Ls := map (fun l => standalone_layer D inter s l.1 rope l.2) ls in
  let z := layers_forward (rlift2 add_states) false Ls p x y in
  let z' := layers_forward (rlift2 add_states) false Ls p' x' y' in
  rearranged_result z.1 z'.1 /\ option_Forall2 rearranged_result z.2 z'.2.
Proof.
  cbn zeta. revert x x' y y'. induction ls as [|[r W] ls IH]; intros x x' y y' Hx Hy; [by split|].
  destruct (decoder_order D inter r rope W p p' x x' y y' Hx Hy) as [Hh Hr]. cbn [map layers_forward fst snd].
  destruct (decoder_forward _ _ _ p x y) as [h1 r1]. destruct (decoder_forward _ _ _ p' x' y') as [h2 r2].
  apply IH; [exact Hh|]. by constructor.
Qed.

(** Every id of the sequence is in the vocabulary. *)
Definition in_vocabulary (embed : list (nat -> R)) (ids : list nat) : bool :=
  forallb (fun i => i <? length embed) ids.

Lemma embed_ok embed ids : is_ok (embed_tokens embed ids) = in_vocabulary embed ids.
Proof.
  unfold embed_tokens. rewrite is_ok_lift. induction ids as [|i ids IH]; [done|]. cbn [rmap in_vocabulary forallb].
  destruct (Nat.ltb_spec i (length embed)) as [Hi|Hi].
  - destruct (lookup_lt_is_Some_2 _ _ Hi) as [row ->]. cbn [rbind andb].
    rewrite (is_ok_bind _ _ true) by done. by rewrite IH, andb_true_r.
  - by rewrite (proj2 (lookup_ge_None _ _) Hi).
Qed.

Lemma decoder_ok {P} D inter r (rope : P -> result tensor -> result tensor -> result tensor * result tensor) W p x y :
  let z := decoder_forward (rlift2 add_states) false (standalone_layer D inter s r rope W) p x y in
  is_ok z.1 = is_ok x && from_option is_ok true y && heads_fit D s /\ is_ok z.2 = is_ok z.1.
Proof.
  assert (Hmain : forall u,
    let z := decoder_forward (rlift2 add_states) false (standalone_layer D inter s r rope W) p u None in
    is_ok z.1 = is_ok u && heads_fit D s /\ is_ok z.2 = is_ok z.1).
  { intros [u|e]; [|by split]. cbn.
    match goal with |- context [attention_product D s ?q ?k ?v] =>
      pose proof (attention_ok D s q k v) as Hok; destruct (attention_product D s q k v) end; by split. }
  destruct y as [y|]; [|cbn [from_option]; rewrite andb_true_r; apply Hmain].
  destruct (Hmain (rlift2 add_states x y)) as [H1 H2]. rewrite is_ok_lift2 in H1. exact (conj H1 H2).
Qed.

Lemma layers_ok {P} D inter (rope : P -> result tensor -> result tensor -> result tensor * result tensor) ls p x y :
  let z := layers_forward (rlift2 add_states) false (map (fun l => standalone_layer D inter s l.1 rope l.2) ls) p x y in
  is_ok z.1 && from_option is_ok true z.2 =
  is_ok x && from_option is_ok true y && (bool_decide (ls = []) || heads_fit D s).
Proof.
  cbn zeta. revert x y. induction ls as [|[r W] ls IH]; intros x y.
  { cbn [map layers_forward fst snd]. by rewrite bool_decide_eq_true_2, andb_true_r. }
  destruct (decoder_ok D inter r rope W p x y) as [H1 H2]. cbn [map layers_forward fst snd].
  destruct (decoder_forward _ _ _ p x y) as [h1 r1]. cbn [fst snd] in *.
  rewrite (bool_decide_eq_false_2 (_ :: ls = [])) by done. rewrite IH. cbn [from_option]. rewrite H2, H1.
  by destruct (is_ok x), (from_option is_ok true y), (heads_fit D s), (bool_decide (ls = [])).
Qed.

Lemma embed_order embed ids ids' :
  length ids = s -> length ids' = s -> (forall t, t < s -> ids' !! t = ids !! perm t) ->
  in_vocabulary embed ids = in_vocabulary embed ids' /\
  rearranged_result (embed_tokens embed ids) (embed_tokens embed ids').
Proof.
  intros Hl Hl' Hids.
  assert (Hperm' : ids' ≡ₚ ids).
  { assert (Hm : forall l, length l = s -> map (fun t => default 0 (l !! t)) (seq 0 s) = l).
    { intros l <-. apply list_eq. intros i. rewrite list_lookup_fmap.
      destruct (decide (i < length l)) as [Hi|Hi].
      - rewrite lookup_seq_lt by done. cbn. destruct (lookup_lt_is_Some_2 _ _ Hi) as [x ->]. done.
      - rewrite (lookup_ge_None_2 l) by lia. by rewrite (lookup_ge_None_2 (seq _ _)) by (rewrite length_seq; lia). }
    rewrite <- (Hm ids' Hl'), <- (Hm ids Hl). rewrite <- Hperm at 2. rewrite map_map.
    erewrite map_ext_in; [reflexivity|]. intros t Ht. apply in_seq in Ht. cbn beta. by rewrite Hids by lia. }
  assert (Hv : in_vocabulary embed ids = in_vocabulary embed ids').
  { unfold in_vocabulary. apply eq_true_iff_eq. rewrite !forallb_forall.
    split; intros H x Hx; apply H; [by rewrite <- Hperm'|by rewrite Hperm']. }
  split; [exact Hv|]. pose proof (embed_ok embed ids) as H. pose proof (embed_ok embed ids') as H'.
  rewrite <- Hv in H'. clear Hv Hperm'. unfold embed_tokens in *.
  set (f := fun i => match embed !! i with Some row => Ok row | None => Raise IndexError end) in *.
  assert (Hf : forall ids, match rmap f ids with Ok rows => forall t, rows !! t = mbind (fun i => embed !! i) (ids !! t)
                                            | Raise e => e = IndexError end).
  { clear. intros ids. induction ids as [|i ids IH]; [by intros t|]. cbn [rmap]. unfold f at 1.
    destruct (embed !! i) as [row|] eqn:E; [|done]. cbn [rbind].
    destruct (rmap f ids) as [rows|e]; [|done]. cbn [rbind]. intros [|t]; [by cbn; rewrite E|apply IH]. }
  pose proof (Hf ids) as H1. pose proof (Hf ids') as H2. clearbody f.
  destruct (rmap f ids) as [rows|e], (rmap f ids') as [rows'|e']; cbn in *; try congruence.
  intros t c Ht. by rewrite H1, H2, Hids.
Qed.

(** C24.  The standalone model has no notion of order: in exact arithmetic (sums
    that commute and associate, a softmax that treats its entries alike),
    rearranging the tokens rearranges the logits and does nothing else, whatever
    positions are passed, whatever layers are declared to rotate, and with no
    mask between past and future.  The run succeeds exactly if every id is in
    the vocabulary and, where there is a layer, the head counts fit; otherwise
    both orders raise. *)
Theorem standalone_order_blind {P} D inter (rope : P -> result tensor -> result tensor -> result tensor * result tensor)
    ls fw fb embed head (p p' : P) ids ids' :
  length ids = s -> length ids' = s -> (forall t, t < s -> ids' !! t = ids !! perm t) ->
  let z := standalone_logits D inter rope ls fw fb embed head p ids in
  let z' := standalone_logits D inter rope ls fw fb embed head p' ids' in
  rearranged_result z z' /\
  is_ok z = in_vocabulary embed ids && (bool_decide (ls = []) || heads_fit D s).
Proof.
  intros Hl Hl' Hids. cbn zeta. unfold standalone_logits, standalone_hidden, model_forward. rewrite Hl, Hl'.
  destruct (embed_order embed ids ids' Hl Hl' Hids) as [_ He]. rewrite <- embed_ok.
  destruct (layers_order D inter rope ls p p' _ _ None None He) as [Hh Hr]; [constructor|].
  pose proof (layers_ok D inter rope ls p (embed_tokens embed ids) None) as Hok.
  destruct (layers_forward _ _ _ p (embed_tokens embed ids) None) as [h1 r1].
  destruct (layers_forward _ _ _ p' (embed_tokens embed ids') None) as [h2 r2]. cbn [fst snd rbind from_option] in *.
  rewrite andb_true_r in Hok. unfold id. split.
  - apply (lift_rel rearranged rearranged); [intros a a'; apply linear_order|]. apply lift_norm_order.
    destruct Hr as [a b Hab|]; [by apply lift_add_order|done].
  - rewrite <- Hok, (is_ok_bind _ _ true), andb_true_r, is_ok_lift by done. destruct r1 as [r1|]; [by rewrite is_ok_lift2|]. by rewrite andb_true_r.
Qed.
End Order.
End Values.

(** ** Witnesses *)

(** Whole numbers for scalars, and weights that multiply by the total for a
    softmax. *)
Definition whole_softmax (n : nat) (f : nat -> Z) (u : nat) : Z := (f u * sum 0%Z Z.add n f)%Z.
Definition whole_norm (w b : nat -> Z) (n : nat) (f : nat -> Z) (i : nat) : Z := (w i * f i + b i)%Z.
Definition whole_dims : HeadDims := mkHeadDims 8 4 2 2 1%Z.
Definition whole_weights : LayerWeights :=
  let w (o i : nat) : Z := Z.of_nat (o + 2 * i) in
  let v (i : nat) : Z := Z.of_nat i in
  mkLayerWeights w w w w w w v v v v.

Definition rotate3 (t : nat) : nat := match t with 0 => 1 | 1 => 2 | _ => 0 end.

Lemma rotate3_perm : map rotate3 (seq 0 3) ≡ₚ seq 0 3.
Proof. cbn. exact (Permutation_app_comm [1; 2] [0]). Qed.

(** Four query heads over two key-value heads fit; over three they do not. *)
Lemma heads_fit_examples :
  heads_fit whole_dims 3 = true /\ heads_fit (mkHeadDims 8 4 3 2 1%Z) 3 = false /\ heads_fit whole_dims 0 = false.
Proof. split_and!; reflexivity. Qed.

Definition whole_embed : list (nat -> Z) := map (fun i c => Z.of_nat (i + c)) (seq 0 10).

Lemma standalone_order_blind_witness :
  let logits (p : nat) ids := standalone_logits 0%Z Z.add Z.mul whole_softmax Z.abs whole_norm whole_dims 4
      (fun _ q k => (q, k)) [(true, whole_weights); (false, whole_weights)] Z.of_nat Z.of_nat
      whole_embed (fun o c => Z.of_nat (o * c)) p ids in
  exists z z', logits 0 [5; 6; 7] = Ok z /\ logits 9 [6; 7; 5] = Ok z' /\ z' 0 3 = z 1 3.
Proof.
  intros logits.
  destruct (standalone_order_blind 0%Z Z.add Z.mul whole_softmax Z.abs whole_norm
              Z.add_comm Z.add_assoc 3 rotate3 rotate3_perm) with (D := whole_dims) (inter := 4)
    (rope := fun (_ : nat) (q k : result (nat -> nat -> Z)) => (q, k))
    (ls := [(true, whole_weights); (false, whole_weights)]) (fw := Z.of_nat) (fb := Z.of_nat)
    (embed := whole_embed) (head := fun o c => Z.of_nat (o * c))
    (p := 0) (p' := 9) (ids := [5; 6; 7]) (ids' := [6; 7; 5]) as [H Hok].
  - intros f g Hfg u Hu. unfold whole_softmax. rewrite (Hfg u Hu). f_equal. by apply sum_ext.
  - intros f u _. unfold whole_softmax. f_equal.
    exact (sum_perm 0%Z Z.add Z.add_comm Z.add_assoc 3 rotate3 rotate3_perm f).
  - intros w b n f g Hfg i. unfold whole_norm. by rewrite Hfg.
  - reflexivity.
  - reflexivity.
  - intros t Ht. destruct t as [|[|[|t]]]; [reflexivity..|lia].
  - fold (logits 0 [5; 6; 7]) in H, Hok. fold (logits 9 [6; 7; 5]) in H.
    assert (Hfit : is_ok (logits 0 [5; 6; 7]) = true) by (rewrite Hok; vm_compute; reflexivity). clear Hok.
    destruct (logits 0 [5; 6; 7]) as [z|]; [|discriminate Hfit].
    destruct (logits 9 [6; 7; 5]) as [z'|]; [|destruct H].
    exists z, z'. split; [reflexivity|]. split; [reflexivity|]. apply H. lia.
Defined.
