(* ===== verification/Simulation.v ===== *)
(** * The simulated benchmarks (python/benchmark/fcfs.py and sjf.py)

    [simulate_fcfs] and [simulate_sjf] start one task per request; a task waits
    for the semaphore, builds and submits its request, acquires one, sleeps for
    the service time and records a measurement.  The tasks of a run and the
    semaphore of asyncio form a machine whose steps are the stretches between
    two suspensions; the order of the steps is an argument, since it depends on
    how long the tasks sleep.  The measurements of a run are compared with those of
    a machine without a scheduler. *)
From Stdlib Require Import ZArith Lia.
From stdpp Require Import base option list strings gmap.
From S2P Require Import Prelude PyFloat Heapq Features Predictor Aging.
From S2P Require Import PriorityQueue BaseScheduler Fcfs Sjf Bench FloatBounds.
Local Open Scope string_scope.
Local Open Scope list_scope.
Local Open Scope nat_scope.
Local Open Scope py_scope.

(** ** The semaphore of asyncio

    [sem_woken] are the waiters whose future has its result and which the event
    loop will resume, in order; they still count as waiters for [locked()]. *)
Record Sem := mkSem {
  sem_value : nat;
  sem_waiters : list nat;
  sem_woken : list nat;
}.

Definition sem_init (n : nat) : Sem := mkSem n [] [].

Definition sem_locked (s : Sem) : bool :=
  match s with
  | mkSem (Datatypes.S _) [] [] => false
  | _ => true
  end.

(** [await sem.acquire()] up to its suspension: whether the task goes on. *)
Definition sem_acquire (i : nat) (s : Sem) : bool * Sem :=
  if sem_locked s then (false, mkSem s.(sem_value) (s.(sem_waiters) ++ [i]) s.(sem_woken))
  else (true, mkSem (pred s.(sem_value)) s.(sem_waiters) s.(sem_woken)).

(** [while self._value > 0: if not self._wake_up_next(): break] *)
Fixpoint wake_loop (value : nat) (waiters woken : list nat) : Sem :=
  match value, waiters with
  | Datatypes.S v, w :: ws => wake_loop v ws (woken ++ [w])
  | _, _ => mkSem value waiters woken
  end.

(** The rest of [acquire] in the task that is resumed first. *)
Definition sem_resume (s : Sem) : option (nat * Sem) :=
  match s.(sem_woken) with
  | [] => None
  | i :: woken => Some (i, wake_loop s.(sem_value) s.(sem_waiters) woken)
  end.

Definition sem_release (s : Sem) : Sem :=
  match s.(sem_waiters) with
  | [] => mkSem (Datatypes.S s.(sem_value)) [] s.(sem_woken)
  | w :: ws => mkSem s.(sem_value) ws (s.(sem_woken) ++ [w])
  end.

(** ** The tasks of a run *)

(** A task in its service time: what it still needs after the sleep.  The id and the
    token budget of the acquired request are never assigned to. *)
Record Service := mkService {
  sv_worker : nat;
  sv_rid : string;
  sv_tokens : Z;
  sv_wait_ms : float;
  sv_feature_ms : float;
  sv_predict_ms : float;
}.

(** How the body of a task stands when it first suspends or ends. *)
Inductive body_outcome :=
| Serves (sv : Service)
| Raises (e : exn)
| Blocks.

Record Sim (X : Type) := mkSim {
  sm_ctx : X;
  sm_sem : Sem;
  sm_started : nat;
  sm_serving : list Service;
  sm_blocked : list nat;
  sm_metrics : list RequestMetric;
  sm_error : option exn;
}.
Arguments mkSim {X}.
Arguments sm_ctx {X}.
Arguments sm_sem {X}.
Arguments sm_started {X}.
Arguments sm_serving {X}.
Arguments sm_blocked {X}.
Arguments sm_metrics {X}.
Arguments sm_error {X}.

(** What the two modules plug in: the body of a task up to its sleep, the
    completion after it, the measurement, and what happens in the background. *)
Record Program (X : Type) := mkProgram {
  p_body : nat -> X -> X * body_outcome;
  p_finish : Service -> X -> X;
  p_metric : Service -> RequestMetric;
  p_tick : float -> X -> X;
}.
Arguments mkProgram {X}.
Arguments p_body {X}.
Arguments p_finish {X}.
Arguments p_metric {X}.
Arguments p_tick {X}.

Inductive sim_event :=
| Start
| Resume
| Served (i : nat)
| Tick (now : float).

(** The service of task [i], and the others. *)
Fixpoint take_service (i : nat) (l : list Service) : option (Service * list Service) :=
  match l with
  | [] => None
  | sv :: l' =>
      if bool_decide (sv.(sv_worker) = i) then Some (sv, l')
      else '(x, r) ← take_service i l'; Some (x, sv :: r)
  end.

Section Machine.
Context {X : Type} (p : Program X) (n_requests : nat).

(** The body of task [i], which holds the semaphore.  An exception leaves the
    [async with] block and is what [gather] raises if it is the first. *)
Definition enter (i : nat) (m : Sim X) : Sim X :=
  match p.(p_body) i m.(sm_ctx) with
  | (x, Serves sv) =>
      mkSim x m.(sm_sem) m.(sm_started) (m.(sm_serving) ++ [sv]) m.(sm_blocked) m.(sm_metrics) m.(sm_error)
  | (x, Raises e) =>
      mkSim x (sem_release m.(sm_sem)) m.(sm_started) m.(sm_serving) m.(sm_blocked) m.(sm_metrics)
        (match m.(sm_error) with None => Some e | err => err end)
  | (x, Blocks) =>
      mkSim x m.(sm_sem) m.(sm_started) m.(sm_serving) (m.(sm_blocked) ++ [i]) m.(sm_metrics) m.(sm_error)
  end.

Definition with_sem (s : Sem) (started : nat) (m : Sim X) : Sim X :=
  mkSim m.(sm_ctx) s started m.(sm_serving) m.(sm_blocked) m.(sm_metrics) m.(sm_error).

Definition sim_step (e : sim_event) (m : Sim X) : option (Sim X) :=
  match e with
  | Start =>
      if m.(sm_started) <? n_requests then
        let i := m.(sm_started) in
        let '(ok, s) := sem_acquire i m.(sm_sem) in
        let m' := with_sem s (Datatypes.S i) m in
        Some (if ok then enter i m' else m')
      else None
  | Resume =>
      '(i, s) ← sem_resume m.(sm_sem);
      Some (enter i (with_sem s m.(sm_started) m))
  | Served i =>
      '(sv, serving) ← take_service i m.(sm_serving);
      Some (mkSim (p.(p_finish) sv m.(sm_ctx)) (sem_release m.(sm_sem)) m.(sm_started) serving
              m.(sm_blocked) (m.(sm_metrics) ++ [p.(p_metric) sv]) m.(sm_error))
  | Tick now =>
      Some (mkSim (p.(p_tick) now m.(sm_ctx)) m.(sm_sem) m.(sm_started) m.(sm_serving)
              m.(sm_blocked) m.(sm_metrics) m.(sm_error))
  end.

(** The run of a sequence of steps; none if one of them cannot happen. *)
Fixpoint sim_steps (es : list sim_event) (m : Sim X) : option (Sim X) :=
  match es with
  | [] => Some m
  | e :: es' => sim_step e m ≫= sim_steps es'
  end.

Definition sim_start (concurrency : nat) (x : X) : Sim X :=
  mkSim x (sem_init concurrency) 0 [] [] [] None.

(** [await asyncio.gather(...)]: over at the first exception, or when every task has
    ended; [None] while it waits. *)
Definition gathered (m : Sim X) : option (result (list RequestMetric)) :=
  match m.(sm_error) with
  | Some e => Some (Raise e)
  | None =>
      if bool_decide (length m.(sm_metrics) = n_requests) then Some (Ok m.(sm_metrics)) else None
  end.
End Machine.

(** ** The two simulations *)

Definition PROMPTS : list string :=
  ["What is machine learning?"; "Write a Python sort function.";
   "Explain quantum computing briefly."; "List 5 database optimization tips.";
   "How does attention work in transformers?"; "Debug this SQL query.";
   "Summarize the history of AI."; "Compare REST and GraphQL."].

(** [PROMPTS[i % len(PROMPTS)]] *)
Definition prompt_of (i : nat) : string := nth (i mod length PROMPTS) PROMPTS EmptyString.

(** What task [i] draws and reads: the id, the budget [random.randint(20, 200)], the
    creation time of the request, and the clock around and inside the scheduler. *)
Record Draw := mkDraw {
  d_id : string;
  d_max_tokens : Z;
  d_created : float;
  d_enqueue : float;
  d_acquired : float;
  d_submit : submit_clock;
  d_acquire : acquire_clock;
}.

(** The request a task builds: its prediction is its priority. *)
Definition sim_request_of (i : nat) (d : Draw) (predicted : float) : ScheduledRequest :=
  mkRequest d.(d_id) (prompt_of i) [{| role := Some "user"; content := Some (prompt_of i) |}]
    d.(d_max_tokens) predicted predicted d.(d_created) empty_metadata.

Section Workers.
Context {S : Type} `{SchedulerOps S} (draws : nat -> Draw).

(** From the construction of the request to the sleep. *)
Definition submit_and_acquire (i : nat) (predicted feature_ms predict_ms : float) (x : store * S)
    : (store * S) * body_outcome :=
  let d := draws i in
  let st := <[i := sim_request_of i d predicted]> (fst x) in
  match submit d.(d_submit) i st (snd x) with
  | (st1, s1, Raise e) => ((st1, s1), Raises e)
  | (st1, s1, Ok _) =>
      let '(o, s2) := acquire d.(d_acquire) None s1 in
      let wait_ms := fmul (fsub d.(d_acquired) d.(d_enqueue)) (of_int 1000) in
      ((st1, s2),
       match o with
       | Acquired l =>
           match st1 !! l with
           | Some acquired =>
               Serves (mkService i acquired.(r_request_id) acquired.(r_max_tokens) wait_ms
                         feature_ms predict_ms)
           | None => Raises (OtherError "no such request object")
           end
       | AcquireTimeout => Raises TimeoutError
       | AcquireWaits _ => Blocks
       end)
  end.

(** [await scheduler.complete(acquired.request_id)] *)
Definition complete_service (sv : Service) (x : store * S) : store * S :=
  (fst x, complete sv.(sv_rid) true (snd x)).

(** The body of [simulate_fcfs]'s worker up to the sleep. *)
Definition fcfs_body (i : nat) (x : store * S) : (store * S) * body_outcome :=
  match float_of_int (draws i).(d_max_tokens) with
  | Raise e => (x, Raises e)
  | Ok predicted => submit_and_acquire i predicted f0 f0 x
  end.

(** [feature_ms], [predict_ms] and [predicted] of [simulate_sjf]'s worker. *)
Definition sjf_prediction (predictor : option (nat -> string -> result PredictionResult))
    (use_oracle : bool) (i : nat) : result (float * float * float) :=
  let? predicted := if use_oracle then float_of_int (draws i).(d_max_tokens) else Ok f0 in
  match predictor with
  | Some predict =>
      if use_oracle then Ok (predicted, f0, f0)
      else
        let? pred := predict i (prompt_of i) in
        Ok (pred.(predicted_tokens), pred.(feature_latency_ms), pred.(predict_latency_ms))
  | None => Ok (predicted, f0, f0)
  end.

Definition sjf_body (predictor : option (nat -> string -> result PredictionResult))
    (use_oracle : bool) (i : nat) (x : store * S) : (store * S) * body_outcome :=
  match sjf_prediction predictor use_oracle i with
  | Raise e => (x, Raises e)
  | Ok (predicted, feature_ms, predict_ms) => submit_and_acquire i predicted feature_ms predict_ms x
  end.
End Workers.

(** The measurement both workers append, with the constant schedule time each uses. *)
Definition service_metric (service_time : Z -> float) (schedule_ms : float) (concurrency : Z)
    (sv : Service) : RequestMetric :=
  mkMetric true (fadd sv.(sv_wait_ms) (service_time sv.(sv_tokens))) sv.(sv_wait_ms)
    sv.(sv_feature_ms) sv.(sv_predict_ms) schedule_ms sv.(sv_tokens) concurrency.

(** What the [service_time] of the three runners returns: [tokens * 2.0]. *)
Definition service_time (tokens : Z) : float := fmul (of_int tokens) (of_int 2).

Definition fcfs_program (draws : nat -> Draw) (service : Z -> float) (concurrency : Z)
    : Program (store * FCFSScheduler) :=
  mkProgram (fcfs_body draws) complete_service (service_metric service f0 concurrency)
    (fun _ x => x).

Definition oracle_program (draws : nat -> Draw) (service : Z -> float) (concurrency : Z)
    : Program (store * OracleSJFScheduler) :=
  mkProgram (sjf_body draws None true) complete_service
    (service_metric service (flit 1 10) concurrency) (fun _ x => x).

Section SjfProgram.
Context (log1p exp : float -> result float) (predictor : string -> result PredictionResult).

(** The aging task runs a pass whenever its sleep ends. *)
Definition aging_tick (now : float) (x : store * SJFScheduler) : store * SJFScheduler :=
  let '(st, s, _) := aging_pass log1p exp now (fst x) (snd x) in (st, s).

Definition sjf_program (draws : nat -> Draw) (predict : nat -> string -> result PredictionResult)
    (service : Z -> float) (concurrency : Z) : Program (store * SJFScheduler) :=
  mkProgram (sjf_body (H := sjf_ops predictor) draws (Some predict) false)
    (complete_service (H := sjf_ops predictor)) (service_metric service (flit 1 10) concurrency)
    aging_tick.
End SjfProgram.

(** [simulate_fcfs] along a sequence of steps: [None] if it is still waiting. *)
Definition simulate_fcfs (concurrency n_requests : nat) (service : Z -> float) (draws : nat -> Draw)
    (es : list sim_event) (elapsed : float) : option (result (list RequestMetric * float)) :=
  m ← sim_steps (fcfs_program draws service (Z.of_nat concurrency)) n_requests es
        (sim_start concurrency (∅, fcfs_init));
  r ← gathered n_requests m;
  Some (let? metrics := r in Ok (metrics, elapsed)).

(** [simulate_sjf] with an SJF scheduler: the aging task is started before and, unless
    a task raised, stopped after the run; the scheduler is returned as well. *)
Definition simulate_sjf log1p exp predictor predict (s : SJFScheduler) (concurrency n_requests : nat)
    (service : Z -> float) (draws : nat -> Draw) (es : list sim_event) (elapsed : float)
    : option (result (list RequestMetric * float) * SJFScheduler) :=
  m ← sim_steps (sjf_program log1p exp predictor draws predict service (Z.of_nat concurrency))
        n_requests es (sim_start concurrency (∅, sjf_start s));
  r ← gathered n_requests m;
  let s' := snd m.(sm_ctx) in
  Some (match r with
        | Ok metrics => (Ok (metrics, elapsed), sjf_stop s')
        | Raise e => (Raise e, s')
        end).

(** [simulate_sjf] with the oracle: no aging task. *)
Definition simulate_oracle (concurrency n_requests : nat) (service : Z -> float) (draws : nat -> Draw)
    (es : list sim_event) (elapsed : float) : option (result (list RequestMetric * float)) :=
  m ← sim_steps (oracle_program draws service (Z.of_nat concurrency)) n_requests es
        (sim_start concurrency (∅, oracle_init));
  r ← gathered n_requests m;
  Some (let? metrics := r in Ok (metrics, elapsed)).

Definition aggregated (name : string) (concurrency : nat)
    (r : option (result (list RequestMetric * float))) : option (result BenchmarkResult) :=
  (fun r => let? x := r in aggregate_metrics name (Z.of_nat concurrency) (fst x) (snd x)) <$> r.

Definition run_fcfs_benchmark concurrency n_requests draws es elapsed :=
  aggregated "fcfs" concurrency (simulate_fcfs concurrency n_requests service_time draws es elapsed).

Definition run_oracle_benchmark concurrency n_requests draws es elapsed :=
  aggregated "oracle_sjf" concurrency (simulate_oracle concurrency n_requests service_time draws es elapsed).

(** [loaded] is what [OutputLengthPredictor.from_checkpoint] gives. *)
Definition run_sjf_benchmark log1p exp (loaded : result (nat -> string -> result PredictionResult))
    predictor concurrency n_requests draws es elapsed : option (result BenchmarkResult) :=
  match loaded with
  | Raise e => Some (Raise e)
  | Ok predict =>
      match sjf_init None true (flit 1 2) 3 (of_int 300) with
      | Raise e => Some (Raise e)
      | Ok s =>
          aggregated "sjf" concurrency
            (fst <$> simulate_sjf log1p exp predictor predict s concurrency n_requests service_time
                       draws es elapsed)
      end
  end.

(** ** The machine without a scheduler

    Tasks are numbers: who waits, who is served and who is done, in which order. *)
Record Order := mkOrder {
  or_sem : Sem;
  or_started : nat;
  or_serving : list nat;
  or_done : list nat;
}.

Fixpoint take_worker (i : nat) (l : list nat) : option (list nat) :=
  match l with
  | [] => None
  | j :: l' => if bool_decide (j = i) then Some l' else r ← take_worker i l'; Some (j :: r)
  end.

Definition order_step (n : nat) (e : sim_event) (a : Order) : option Order :=
  match e with
  | Start =>
      if a.(or_started) <? n then
        let i := a.(or_started) in
        let '(ok, s) := sem_acquire i a.(or_sem) in
        Some (mkOrder s (Datatypes.S i) (if ok then a.(or_serving) ++ [i] else a.(or_serving)) a.(or_done))
      else None
  | Resume =>
      '(i, s) ← sem_resume a.(or_sem);
      Some (mkOrder s a.(or_started) (a.(or_serving) ++ [i]) a.(or_done))
  | Served i =>
      serving ← take_worker i a.(or_serving);
      Some (mkOrder (sem_release a.(or_sem)) a.(or_started) serving (a.(or_done) ++ [i]))
  | Tick _ => Some a
  end.

Fixpoint order_steps (n : nat) (es : list sim_event) (a : Order) : option Order :=
  match es with
  | [] => Some a
  | e :: es' => order_step n e a ≫= order_steps n es'
  end.

Definition order_start (concurrency : nat) : Order := mkOrder (sem_init concurrency) 0 [] [].

(** *** Its invariant *)

(** How many tasks hold or have held the semaphore. *)
Definition admitted (a : Order) : nat := length a.(or_serving) + length a.(or_done).

(** The slots are all accounted for; the queue holds the started tasks that were not
    admitted, in order; the tasks served and done are the admitted ones, each once; and
    nobody waits while a slot is free and no wake-up is on its way. *)
Record order_inv (c n : nat) (a : Order) : Prop := {
  oi_slots : a.(or_sem).(sem_value) + length a.(or_sem).(sem_woken) + length a.(or_serving) = c;
  oi_queue : a.(or_sem).(sem_woken) ++ a.(or_sem).(sem_waiters) = seq (admitted a) (a.(or_started) - admitted a);
  oi_started : admitted a <= a.(or_started) <= n;
  oi_perm : a.(or_serving) ++ a.(or_done) ≡ₚ seq 0 (admitted a);
  oi_wake : a.(or_sem).(sem_waiters) = [] \/ a.(or_sem).(sem_value) = 0 \/ a.(or_sem).(sem_woken) <> [];
}.

Lemma order_start_inv c n : order_inv c n (order_start c).
Proof. split; cbn; [lia|done|lia|done|by left]. Qed.

Lemma wake_loop_spec v ws woken :
  let s := wake_loop v ws woken in
  s.(sem_woken) ++ s.(sem_waiters) = woken ++ ws /\
  s.(sem_value) + length s.(sem_woken) = v + length woken /\
  (s.(sem_waiters) = [] \/ s.(sem_value) = 0).
Proof.
  revert ws woken. induction v as [|v IH]; intros ws woken; cbn; [auto|].
  destruct ws as [|w ws]; cbn; [auto|]. destruct (IH ws (woken ++ [w])) as (H1 & H2 & H3).
  rewrite H1, <- app_assoc. rewrite length_app in H2. cbn in H2. split; [done|]. split; [lia|done].
Qed.

Lemma take_worker_perm i l r : take_worker i l = Some r -> l ≡ₚ i :: r.
Proof.
  revert r. induction l as [|j l IH]; intros r; cbn; [done|].
  case_bool_decide as Hj; [intros [= <-]; by subst|].
  destruct (take_worker i l) as [r'|]; cbn; [|done]. intros [= <-]. rewrite (IH r' eq_refl). apply perm_swap.
Qed.

(** A task is admitted when it heads the queue, or finds it empty. *)
Lemma admit_inv c n s k sv dn :
  sem_value s + length (sem_woken s) + length sv + 1 = c ->
  sem_woken s ++ sem_waiters s = seq (Datatypes.S (length sv + length dn)) (k - Datatypes.S (length sv + length dn)) ->
  Datatypes.S (length sv + length dn) <= k <= n -> sv ++ dn ≡ₚ seq 0 (length sv + length dn) ->
  sem_waiters s = [] \/ sem_value s = 0 \/ sem_woken s <> [] ->
  order_inv c n (mkOrder s k (sv ++ [length sv + length dn]) dn).
Proof.
  intros Hc Hq Hk Hp Hw.
  assert (Ha : admitted (mkOrder s k (sv ++ [length sv + length dn]) dn) = Datatypes.S (length sv + length dn))
    by (unfold admitted; cbn; rewrite length_app; cbn; lia).
  split; rewrite ?Ha; cbn [or_sem or_started or_serving or_done]; try done.
  - rewrite length_app. cbn. lia.
  - rewrite seq_S. cbn [Nat.add]. rewrite <- Hp, <- !app_assoc. apply Permutation_app_head.
    apply Permutation_app_comm.
Qed.

Lemma start_inv c n a a' : order_inv c n a -> order_step n Start a = Some a' -> order_inv c n a'.
Proof.
  intros [Hc Hq Hk Hp Hw]. destruct a as [[v ws wk] k sv dn]. unfold admitted in *. cbn -[Nat.ltb Nat.sub] in *.
  destruct (Nat.ltb_spec k n) as [Hn|]; [|done]. unfold sem_acquire.
  destruct (sem_locked _) eqn:El; cbn; intros [= <-].
  - split; cbn; unfold admitted; cbn; [done| |lia|done|].
    + rewrite app_assoc, Hq. replace (Datatypes.S k - _) with (Datatypes.S (k - (length sv + length dn))) by lia.
      rewrite seq_S. do 2 f_equal. lia.
    + destruct v; [by right; left|]. destruct wk; [|by right; right]. destruct ws; [done|].
      destruct Hw as [?|[?|?]]; done.
  - destruct v, ws, wk; try done. cbn in *.
    assert (k = length sv + length dn) as ->.
    { destruct (k - (length sv + length dn)) eqn:E; [lia|done]. }
    apply admit_inv; cbn; try lia; [|done|by left].
    by rewrite Nat.sub_diag.
Qed.

Lemma resume_inv c n a a' : order_inv c n a -> order_step n Resume a = Some a' -> order_inv c n a'.
Proof.
  intros [Hc Hq Hk Hp Hw]. destruct a as [[v ws wk] k sv dn]. unfold admitted in *. cbn -[Nat.ltb Nat.sub] in *.
  unfold sem_resume. cbn. destruct wk as [|i wk]; cbn in *; [done|]. intros [= <-].
  destruct (k - (length sv + length dn)) as [|r] eqn:Er; [done|]. cbn in Hq. injection Hq as -> Hq.
  destruct (wake_loop_spec v ws wk) as (H1 & H2 & H3).
  apply admit_inv; [lia| |lia|done|naive_solver].
  rewrite H1, Hq. f_equal. lia.
Qed.

Lemma served_inv c n i a a' : order_inv c n a -> order_step n (Served i) a = Some a' -> order_inv c n a'.
Proof.
  intros [Hc Hq Hk Hp Hw]. destruct a as [[v ws wk] k sv dn]. unfold admitted in *. cbn -[Nat.ltb Nat.sub] in *.
  destruct (take_worker i sv) as [r|] eqn:E; cbn; [|done]. intros [= <-].
  apply take_worker_perm in E. pose proof (Permutation_length E) as El. cbn in El.
  assert (Ha : length r + length (dn ++ [i]) = length sv + length dn)
    by (rewrite length_app; cbn; lia).
  split; unfold admitted; cbn [or_sem or_started or_serving or_done]; rewrite ?Ha; [| |done| |].
  - unfold sem_release. cbn. destruct ws as [|w ws]; cbn; rewrite ?length_app; cbn; lia.
  - rewrite <- Hq. unfold sem_release. cbn. destruct ws as [|w ws]; cbn; [done|]. by rewrite <- app_assoc.
  - rewrite <- Hp, E, app_assoc, (Permutation_app_comm (r ++ dn)). done.
  - unfold sem_release. cbn. destruct ws as [|w ws]; cbn; [by left|right; right]. by destruct wk.
Qed.

Lemma order_step_inv c n e a a' : order_inv c n a -> order_step n e a = Some a' -> order_inv c n a'.
Proof.
  destruct e; [apply start_inv|apply resume_inv|apply served_inv|]. cbn. by intros ? [= <-].
Qed.

Lemma order_steps_inv c n es a a' : order_inv c n a -> order_steps n es a = Some a' -> order_inv c n a'.
Proof.
  revert a. induction es as [|e es IH]; intros a Ha; cbn; [by intros [= <-]|].
  destruct (order_step n e a) as [a1|] eqn:E; cbn; [|done]. apply IH. by eapply order_step_inv.
Qed.

(** ** Refinement *)

Section Refinement.
Context {X : Type} (p : Program X) (n : nat) (Inv : X -> Prop) (own : nat -> Service).
Hypothesis own_worker : forall i, (own i).(sv_worker) = i.
Hypothesis body_own : forall i x, Inv x -> i < n -> exists x', p.(p_body) i x = (x', Serves (own i)) /\ Inv x'.
Hypothesis finish_inv : forall sv x, Inv x -> Inv (p.(p_finish) sv x).
Hypothesis tick_inv : forall now x, Inv x -> Inv (p.(p_tick) now x).

Record matches (m : Sim X) (a : Order) : Prop := {
  mt_sem : m.(sm_sem) = a.(or_sem);
  mt_started : m.(sm_started) = a.(or_started);
  mt_serving : m.(sm_serving) = map own a.(or_serving);
  mt_blocked : m.(sm_blocked) = [];
  mt_metrics : m.(sm_metrics) = map (fun i => p.(p_metric) (own i)) a.(or_done);
  mt_error : m.(sm_error) = None;
  mt_inv : Inv m.(sm_ctx);
}.

Lemma take_service_map i l :
  take_service i (map own l) = (fun r => (own i, map own r)) <$> take_worker i l.
Proof.
  induction l as [|j l IH]; [done|]. cbn [map take_service take_worker]. rewrite own_worker.
  case_bool_decide as Hj; [by rewrite Hj|]. rewrite IH. by destruct (take_worker i l).
Qed.

Lemma enter_matches i m a :
  matches m a -> i < n ->
  matches (enter p i m) (mkOrder a.(or_sem) a.(or_started) (a.(or_serving) ++ [i]) a.(or_done)).
Proof.
  intros [Hs Ht Hv Hb Hm He Hi] Hlt. destruct (body_own i (sm_ctx m) Hi Hlt) as (x' & Hx & Hi').
  unfold enter. rewrite Hx. split; cbn; try done. by rewrite Hv, map_app.
Qed.

Lemma with_sem_matches s k m a :
  matches m a -> matches (with_sem s k m) (mkOrder s k a.(or_serving) a.(or_done)).
Proof. intros []. by split. Qed.

Lemma machine_step_refines c e m a :
  matches m a -> order_inv c n a ->
  option_Forall2 matches (sim_step p n e m) (order_step n e a).
Proof.
  intros Hma Ha. pose proof Hma as [Hs Ht Hv Hb Hm He Hi].
  destruct e as [| |i|now]; cbn [sim_step order_step]; rewrite ?Hs, ?Ht.
  - destruct (Nat.ltb_spec (or_started a) n) as [Hn|Hn]; [|constructor].
    destruct (sem_acquire (or_started a) (or_sem a)) as [[] s]; constructor.
    + exact (enter_matches _ _ _ (with_sem_matches s _ m a Hma) Hn).
    + by apply with_sem_matches.
  - unfold sem_resume. destruct (sem_woken (or_sem a)) as [|i woken] eqn:Ew; cbn; constructor.
    apply (enter_matches i _ _ (with_sem_matches _ _ m a Hma)).
    pose proof (oi_queue _ _ _ Ha) as Hq. pose proof (oi_started _ _ _ Ha) as Hk. rewrite Ew in Hq.
    assert (i ∈ seq (admitted a) (or_started a - admitted a)) as Hin by (rewrite <- Hq; by left).
    apply elem_of_seq in Hin. lia.
  - rewrite Hv, take_service_map. destruct (take_worker i (or_serving a)) as [r|]; cbn; constructor.
    split; cbn; try done; [|by apply finish_inv]. by rewrite Hm, map_app.
  - constructor. split; cbn; try done. by apply tick_inv.
Qed.

Lemma machine_steps_refine c es m a :
  matches m a -> order_inv c n a ->
  option_Forall2 matches (sim_steps p n es m) (order_steps n es a).
Proof.
  revert m a. induction es as [|e es IH]; intros m a Hm Ha; [by constructor|]. cbn.
  pose proof (machine_step_refines c e m a Hm Ha) as H. pose proof (order_step_inv c n e a) as Hi.
  destruct H as [m' a' Hm'|]; cbn; [|constructor]. apply IH; [done|]. by apply Hi.
Qed.

Lemma start_matches c x : Inv x -> matches (sim_start c x) (order_start c).
Proof. by split. Qed.

(** The whole run: it is possible exactly when the machine without a scheduler can make
    the same steps, and what [gather] gives are the measurements of the tasks that
    machine has done, in its order. *)
Lemma machine_refines c es x :
  Inv x ->
  match order_steps n es (order_start c) with
  | None => sim_steps p n es (sim_start c x) = None
  | Some a =>
      exists m, sim_steps p n es (sim_start c x) = Some m /\ Inv m.(sm_ctx) /\
        gathered n m = if bool_decide (length a.(or_done) = n)
                       then Some (Ok (map (fun i => p.(p_metric) (own i)) a.(or_done))) else None
  end.
Proof.
  intros Hx. pose proof (machine_steps_refine c es _ _ (start_matches c x Hx) (order_start_inv c n)) as H.
  destruct H as [m a [Hs Ht Hv Hb Hm He Hi]|]; [|done].
  exists m. split; [done|]. split; [done|]. unfold gathered. by rewrite He, Hm, length_map.
Qed.
End Refinement.

(** ** Runs end *)

(** Steps other than the passing of time that are still to come, at most. *)
Definition remaining (n : nat) (a : Order) : nat :=
  3 * (n - a.(or_started)) +
  2 * length (a.(or_sem).(sem_woken) ++ a.(or_sem).(sem_waiters)) + length a.(or_serving).

Definition is_tick (e : sim_event) : bool := match e with Tick _ => true | _ => false end.

Definition work (es : list sim_event) : list sim_event := List.filter (fun e => negb (is_tick e)) es.

Lemma step_remaining c n e a a' :
  order_inv c n a -> order_step n e a = Some a' ->
  remaining n a' + (if is_tick e then 0 else 1) <= remaining n a.
Proof.
  intros [_ _ Hk _ _]. destruct a as [[v ws wk] k sv dn]. unfold remaining. destruct e as [| |i|now]; cbn -[Nat.ltb Nat.sub Nat.mul].
  - destruct (Nat.ltb_spec k n); [|done]. unfold sem_acquire.
    destruct (sem_locked _); cbn -[Nat.sub Nat.mul]; intros [= <-]; cbn -[Nat.sub Nat.mul]; rewrite ?length_app; cbn; lia.
  - unfold sem_resume. cbn. destruct wk as [|i wk]; cbn -[Nat.sub Nat.mul]; [done|]. intros [= <-].
    cbn -[Nat.sub Nat.mul]. destruct (wake_loop_spec v ws wk) as (-> & _ & _).
    rewrite !length_app. cbn. lia.
  - destruct (take_worker i sv) as [r|] eqn:E; cbn -[Nat.sub Nat.mul]; [|done]. intros [= <-].
    apply take_worker_perm, Permutation_length in E. cbn in E. unfold sem_release. cbn.
    destruct ws as [|w ws]; cbn -[Nat.sub Nat.mul]; rewrite ?length_app; cbn -[Nat.sub Nat.mul]; rewrite ?length_app; cbn; lia.
  - intros [= <-]. cbn -[Nat.sub Nat.mul]. lia.
Qed.

Lemma steps_remaining c n es a a' :
  order_inv c n a -> order_steps n es a = Some a' -> length (work es) + remaining n a' <= remaining n a.
Proof.
  revert a. induction es as [|e es IH]; intros a Ha; [cbn; intros [= <-]; lia|]. cbn [order_steps].
  destruct (order_step n e a) as [a1|] eqn:E; cbn [mbind option_bind]; [|done]. intros Hs.
  pose proof (step_remaining c n e a a1 Ha E). apply IH in Hs; [|by eapply order_step_inv].
  unfold work in *. cbn. destruct (is_tick e); cbn in *; lia.
Qed.

(** With at least one slot, some step can happen until all tasks are done. *)
Lemma order_progress c n a :
  0 < c -> order_inv c n a -> length a.(or_done) <> n ->
  exists e a', order_step n e a = Some a' /\ is_tick e = false.
Proof.
  intros Hc [Hs Hq Hk _ Hw] Hd. destruct a as [[v ws wk] k sv dn]. unfold admitted in *.
  cbn -[Nat.sub] in *. destruct (decide (k < n)) as [Hn|Hn].
  { exists Start. cbn -[Nat.ltb]. destruct (Nat.ltb_spec k n); [|lia]. destruct (sem_acquire _ _). eauto. }
  destruct wk as [|i wk].
  2: { exists Resume. cbn. eauto. }
  destruct sv as [|i sv].
  2: { exists (Served i). cbn. rewrite bool_decide_eq_true_2 by done. cbn. eauto. }
  exfalso. cbn -[Nat.sub] in *. assert (ws = []) as -> by (destruct Hw as [?|[?|?]]; [done|lia|done]).
  destruct (k - length dn) eqn:E; [lia|done].
Qed.

(** ** Schedulers with nothing queued *)

(** What a simulation asks of a scheduler: with nothing queued, the request just submitted
    is the one acquired, its id and budget are those it was built with, and nothing
    is queued afterwards. *)
Class ServesOwn (S : Type) `{SchedulerOps S} (idle : S -> Prop) : Prop := {
  own_served c a l st s req :
    idle s -> st !! l = Some req -> sim_request req ->
    exists st' s1 s2 req',
      submit c l st s = (st', s1, Ok tt) /\ acquire a None s1 = (Acquired l, s2) /\ idle s2 /\
      st' !! l = Some req' /\ r_request_id req' = r_request_id req /\ r_max_tokens req' = r_max_tokens req;
  own_completed rid s : idle s -> idle (complete rid true s);
}.

#[global] Instance fcfs_serves_own : ServesOwn FCFSScheduler fcfs_idle.
Proof.
  split; [|done]. intros c a l st s req Hi Hl _. cbn [submit acquire fcfs_ops]. rewrite Hl.
  unfold fcfs_acquire, fcfs_get, fcfs_submit. cbn [f_queue]. rewrite Hi.
  eexists _, _, _, req. split; [reflexivity|]. by split_and!.
Qed.

(** A queue without items and without pending ids. *)
Definition pq_rest (q : PriorityQueue.PriorityQueue loc) : Prop := pq_idle q /\ q.(_pending) = ∅.

Lemma pq_rest_serves (q : PriorityQueue.PriorityQueue loc) now rid p l d t1 t2 t3 :
  pq_rest q ->
  exists q', dequeue_turn d t1 t2 t3 (enqueue now rid p l q) = (Returned (mkItem p now rid l), q') /\ pq_rest q'.
Proof.
  intros [[Hh Hc] Hp]. unfold dequeue_turn, pop_live, enqueue. cbn [_heap]. rewrite Hh.
  cbn. rewrite Hc. cbn. rewrite bool_decide_eq_false_2 by (by apply not_elem_of_empty).
  eexists. split; [reflexivity|]. split; [done|]. cbn. rewrite Hp, insert_empty. apply delete_singleton_eq.
Qed.

Definition oracle_rest (s : OracleSJFScheduler) : Prop := pq_rest s.(o_queue).
Definition sjf_rest (s : SJFScheduler) : Prop := s.(s_use_fallback) = false /\ pq_rest s.(s_queue).

#[global] Instance oracle_serves_own : ServesOwn OracleSJFScheduler oracle_rest.
Proof.
  split; [|done]. intros c a l st s req Hi Hl [Ht _]. cbn [submit acquire oracle_ops].
  unfold oracle_submit. rewrite Hl. destruct (float_of_small_int (r_max_tokens req)) as [p ->]; [lia|].
  unfold oracle_acquire.
  edestruct (pq_rest_serves (o_queue s)) as (q' & Hq & Hr); [exact Hi|].
  eexists _, _, _, _. split; [reflexivity|]. cbn [o_queue o_base]. rewrite Hq.
  split; [reflexivity|]. split; [exact Hr|]. split; [apply lookup_insert_eq|done].
Qed.

#[global] Instance sjf_serves_own predictor : ServesOwn (H := sjf_ops predictor) SJFScheduler sjf_rest.
Proof.
  split; [|done]. intros c a l st s req [Hu Hi] Hl [_ Hp]. cbn [submit acquire sjf_ops].
  unfold sjf_submit, sjf_predict. rewrite Hl, Hp. unfold fallback_active. rewrite Hu.
  edestruct (pq_rest_serves (s_queue s)) as (q' & Hq & Hr); [exact Hi|].
  eexists _, _, _, _. split; [reflexivity|]. unfold sjf_acquire, fallback_active.
  cbn [s_use_fallback set_queue set_pending set_base s_queue]. rewrite Hu, Hq.
  split; [reflexivity|]. split; [split; [exact Hu|exact Hr]|]. split; [apply lookup_insert_eq|done].
Qed.

Section AgingAtRest.
Context (log1p exp : float -> result float).

(** Aging a request that is being served changes its priority field and no queue. *)
Lemma age_one_rest now rid l st s st' s' r :
  sjf_rest s -> age_one log1p exp now rid l st s = (st', s', r) -> sjf_rest s'.
Proof.
  intros [Hu [Hi Hp]]. unfold age_one. destruct (st !! l) as [req|]; [|by intros [= _ <- _]].
  destruct (fltb (s_timeout s) _).
  - intros [= _ <- _]. unfold sjf_cancel, PriorityQueue.cancel. cbn [set_fallback set_pending s_queue].
    rewrite Hp, lookup_empty. rewrite bool_decide_eq_false_2 by (by intros []). by split.
  - destruct (boost _ _ _ _ _) as [np|e]; [|by intros [= _ <- _]].
    destruct (fltb np _); intros [= _ <- _]; [|by split].
    unfold update_priority. rewrite Hp, lookup_empty. by split.
Qed.

Lemma age_all_rest now items st s st' s' r :
  sjf_rest s -> age_all log1p exp now items st s = (st', s', r) -> sjf_rest s'.
Proof.
  revert st s. induction items as [|[rid l] items IH]; intros st s Hs; cbn; [by intros [= _ <- _]|].
  destruct (age_one log1p exp now rid l st s) as [[st1 s1] [[]|e]] eqn:E;
    apply age_one_rest in E; [|done| |done]; [|by intros [= _ <- _]].
  by apply IH.
Qed.

Lemma aging_tick_rest now x : sjf_rest (snd x) -> sjf_rest (snd (aging_tick log1p exp now x)).
Proof.
  intros Hx. unfold aging_tick. destruct (aging_pass log1p exp now (fst x) (snd x)) as [[st s] r] eqn:E.
  exact (age_all_rest _ _ _ _ _ _ _ Hx E).
Qed.
End AgingAtRest.

(** ** Bodies on a resting scheduler *)

(** Draws the random generator can make. *)
Definition draws_ok (draws : nat -> Draw) : Prop := forall i, (20 <= (draws i).(d_max_tokens) <= 200)%Z.

Definition wait_of (d : Draw) : float := fmul (fsub d.(d_acquired) d.(d_enqueue)) (of_int 1000).

(** Task [i] serving its own request. *)
Definition own_service (draws : nat -> Draw) (cost : nat -> float * float) (i : nat) : Service :=
  mkService i (draws i).(d_id) (draws i).(d_max_tokens) (wait_of (draws i)) (cost i).1 (cost i).2.

Lemma small_budget_truthy n p : (20 <= n <= 200)%Z -> float_of_int n = Ok p -> ftruthy p = true.
Proof.
  intros Hn. unfold float_of_int. destruct (of_int n) as [z|s|] eqn:E; intros [= <-]; [|done].
  assert (H : (of_int 20 <= of_int n)%float) by (apply of_int_mono; lia). rewrite E in H.
  destruct z; [|reflexivity..]. revert H. change (of_int 20 <= f0)%float with (fleb (of_int 20) f0 = true).
  vm_compute. discriminate.
Qed.

Section Bodies.
Context {S : Type} `{HO : SchedulerOps S} (idle : S -> Prop) `{HS : !ServesOwn S idle} (draws : nat -> Draw).
Hypothesis Hdraws : draws_ok draws.

Lemma body_serves_own cost i predicted f q x :
  cost i = (f, q) -> idle (snd x) -> ftruthy predicted = true ->
  exists x', submit_and_acquire draws i predicted f q x = (x', Serves (own_service draws cost i)) /\
    idle (snd x').
Proof.
  intros Hcost Hx Hp. unfold submit_and_acquire. set (req := sim_request_of i (draws i) predicted).
  destruct (own_served (d_submit (draws i)) (d_acquire (draws i)) i (<[i := req]> (fst x)) (snd x) req Hx)
    as (st' & s1 & s2 & req' & Hs & Ha & Hi & Hl & Hid & Ht);
    [apply lookup_insert_eq|split; [apply Hdraws|done]|].
  rewrite Hs, Ha, Hl. exists (st', s2). split; [|exact Hi]. f_equal. unfold own_service.
  rewrite Hid, Ht, Hcost. done.
Qed.

Lemma complete_rest sv x : idle (snd x) -> idle (snd (complete_service sv x)).
Proof. apply own_completed. Qed.

Lemma fcfs_body_own i x :
  idle (snd x) ->
  exists x', fcfs_body draws i x = (x', Serves (own_service draws (fun _ => (f0, f0)) i)) /\ idle (snd x').
Proof.
  intros Hx. unfold fcfs_body. destruct (float_of_small_int (d_max_tokens (draws i))) as [p Hp].
  { specialize (Hdraws i). lia. }
  rewrite Hp. apply body_serves_own; [done|done|]. exact (small_budget_truthy _ _ (Hdraws i) Hp).
Qed.

Lemma oracle_body_own i x :
  idle (snd x) ->
  exists x', sjf_body draws None true i x = (x', Serves (own_service draws (fun _ => (f0, f0)) i)) /\ idle (snd x').
Proof.
  intros Hx. unfold sjf_body, sjf_prediction. destruct (float_of_small_int (d_max_tokens (draws i))) as [p Hp].
  { specialize (Hdraws i). lia. }
  rewrite Hp. cbn [rbind]. apply body_serves_own; [done|done|]. exact (small_budget_truthy _ _ (Hdraws i) Hp).
Qed.

Lemma sjf_body_own predict preds i x :
  (forall i, predict i (prompt_of i) = Ok (preds i) /\ ftruthy (predicted_tokens (preds i)) = true) ->
  idle (snd x) ->
  exists x', sjf_body draws (Some predict) false i x =
      (x', Serves (own_service draws (fun i => (feature_latency_ms (preds i), predict_latency_ms (preds i))) i)) /\
    idle (snd x').
Proof.
  intros Hpr Hx. unfold sjf_body, sjf_prediction. destruct (Hpr i) as [Hi Ht]. cbn [rbind]. rewrite Hi. cbn [rbind].
  by apply body_serves_own.
Qed.
End Bodies.

(** ** Properties *)

Section Runs.
Context (log1p exp : float -> result float) (predictor : string -> result PredictionResult)
  (predict : nat -> string -> result PredictionResult) (preds : nat -> PredictionResult)
  (draws : nat -> Draw) (service : Z -> float) (c n : nat) (s : SJFScheduler).
Hypothesis Hdraws : draws_ok draws.
Hypothesis Hpredict : forall i,
  predict i (prompt_of i) = Ok (preds i) /\ ftruthy (predicted_tokens (preds i)) = true.
Hypothesis Hrest : sjf_rest s.

Definition no_cost (_ : nat) : float * float := (f0, f0).
Definition pred_cost (i : nat) : float * float := (feature_latency_ms (preds i), predict_latency_ms (preds i)).

(** The measurement of task [i] when it serves its own request. *)
Definition own_metric (cost : nat -> float * float) (schedule_ms : float) (i : nat) : RequestMetric :=
  service_metric service schedule_ms (Z.of_nat c) (own_service draws cost i).

Abbreviation fcfs_p := (fcfs_program draws service (Z.of_nat c)).
Abbreviation oracle_p := (oracle_program draws service (Z.of_nat c)).
Abbreviation sjf_p := (sjf_program log1p exp predictor draws predict service (Z.of_nat c)).

Lemma sjf_start_rest : sjf_rest (sjf_start s).
Proof. unfold sjf_start. by destruct (s_aging_task s), Hrest. Qed.

(** The generic refinement at the three programs. *)
Record refines {X} (p : Program X) (Inv : X -> Prop) (own : nat -> Service) : Prop := {
  rf_own i : (own i).(sv_worker) = i;
  rf_body i x : Inv x -> i < n -> exists x', p.(p_body) i x = (x', Serves (own i)) /\ Inv x';
  rf_finish sv x : Inv x -> Inv (p.(p_finish) sv x);
  rf_tick now x : Inv x -> Inv (p.(p_tick) now x);
}.

Lemma fcfs_refines : refines fcfs_p (fun x => fcfs_idle x.2) (own_service draws no_cost).
Proof. split; [done| |done|done]. intros i x Hx _. by apply (fcfs_body_own fcfs_idle). Qed.

Lemma oracle_refines : refines oracle_p (fun x => oracle_rest x.2) (own_service draws no_cost).
Proof. split; [done| |done|done]. intros i x Hx _. by apply (oracle_body_own oracle_rest). Qed.

Lemma sjf_refines : refines sjf_p (fun x => sjf_rest x.2) (own_service draws pred_cost).
Proof.
  split; [done| |done|].
  - intros i x Hx _. by apply (sjf_body_own (HO := sjf_ops predictor) sjf_rest).
  - intros now x. apply aging_tick_rest.
Qed.

(** What the machine without a scheduler measures along the same steps. *)
Definition expected (cost : nat -> float * float) (schedule_ms : float) (es : list sim_event) (elapsed : float)
    : option (result (list RequestMetric * float)) :=
  a ← order_steps n es (order_start c);
  if bool_decide (length a.(or_done) = n)
  then Some (Ok (map (own_metric cost schedule_ms) a.(or_done), elapsed)) else None.

Lemma refined_run {X} (p : Program X) Inv own x es :
  refines p Inv own -> Inv x ->
  match order_steps n es (order_start c) with
  | None => sim_steps p n es (sim_start c x) = None
  | Some a =>
      exists m, sim_steps p n es (sim_start c x) = Some m /\ Inv m.(sm_ctx) /\
        gathered n m = if bool_decide (length a.(or_done) = n)
                       then Some (Ok (map (fun i => p.(p_metric) (own i)) a.(or_done))) else None
  end.
Proof. intros [H1 H2 H3 H4]. by apply (machine_refines p n Inv own). Qed.

Lemma simulations_agree es elapsed :
  simulate_fcfs c n service draws es elapsed = expected no_cost f0 es elapsed /\
  simulate_oracle c n service draws es elapsed = expected no_cost (flit 1 10) es elapsed /\
  fst <$> simulate_sjf log1p exp predictor predict s c n service draws es elapsed =
    expected pred_cost (flit 1 10) es elapsed.
Proof.
  unfold simulate_fcfs, simulate_oracle, simulate_sjf, expected.
  pose proof (refined_run _ _ _ (∅, fcfs_init) es fcfs_refines eq_refl) as Hf.
  pose proof (refined_run _ _ _ (∅, oracle_init) es oracle_refines (conj (conj eq_refl eq_refl) eq_refl)) as Ho.
  pose proof (refined_run _ _ _ (∅, sjf_start s) es sjf_refines sjf_start_rest) as Hs.
  destruct (order_steps n es (order_start c)) as [a|]; [|by rewrite Hf, Ho, Hs].
  destruct Hf as (mf & -> & _ & Hf), Ho as (mo & -> & _ & Ho), Hs as (ms & -> & _ & Hs).
  cbn [mbind option_bind]. rewrite Hf, Ho, Hs. by case_bool_decide.
Qed.

(** C27.  The simulated benchmarks measure the semaphore, not the scheduler: with budgets between 20
    and 200, an SJF scheduler with an empty queue that is not in fallback mode, and a predictor that
    never raises and never predicts 0, for every order of the steps, aging passes included, all three simulations give exactly what tasks without a
    scheduler give (each waits for a slot and serves its own request), with the same waits,
    service times, tokens and order of completion; only the reported cost of prediction and
    scheduling differs. *)
Theorem simulations_measure_the_semaphore es elapsed :
  simulate_fcfs c n service draws es elapsed = expected no_cost f0 es elapsed /\
  simulate_oracle c n service draws es elapsed = expected no_cost (flit 1 10) es elapsed /\
  fst <$> simulate_sjf log1p exp predictor predict s c n service draws es elapsed =
    expected pred_cost (flit 1 10) es elapsed.
Proof. apply simulations_agree. Qed.

(** A run in state [m] after the steps [es]: it has made at most three steps per request, holds
    at most [c] slots with no task stuck inside its scheduler, and either can make another
    step or is over, with one measurement for each request. *)
Definition completes {X} (p : Program X) (metric : nat -> RequestMetric) (es : list sim_event) (m : Sim X)
    : Prop :=
  length (work es) <= 3 * n /\ length m.(sm_serving) <= c /\ m.(sm_blocked) = [] /\
  ((exists e m', sim_step p n e m = Some m' /\ is_tick e = false) \/
   (exists ms, gathered n m = Some (Ok ms) /\ ms ≡ₚ map metric (seq 0 n))).

Lemma refined_completes {X} (p : Program X) Inv own x es m :
  refines p Inv own -> Inv x -> 0 < c -> sim_steps p n es (sim_start c x) = Some m ->
  completes p (fun i => p.(p_metric) (own i)) es m.
Proof.
  intros [H1 H2 H3 H4] Hx Hc Hm. pose proof (order_start_inv c n) as Hi.
  pose proof (machine_steps_refine p n Inv own H1 H2 H3 H4 c es _ _ (start_matches p Inv own c x Hx) Hi) as Hr.
  rewrite Hm in Hr. inversion Hr as [m' a Hma E1 Ea|]; subst m'. symmetry in Ea.
  pose proof (order_steps_inv c n es _ _ Hi Ea) as Ha.
  pose proof (steps_remaining c n es _ _ Hi Ea) as Hrem. unfold remaining in Hrem at 2. cbn -[Nat.mul] in Hrem.
  pose proof Hma as [Hs Ht Hv Hb Hd He _]. pose proof Ha as [Hsl _ Hk Hp _]. unfold admitted in *.
  split; [lia|]. split; [rewrite Hv, length_map; lia|]. split; [done|].
  destruct (decide (length (or_done a) = n)) as [Hn|Hn].
  - right. unfold gathered. rewrite He, Hd, length_map, bool_decide_eq_true_2 by done.
    eexists. split; [done|]. apply Permutation_map.
    destruct (or_serving a); [|cbn in Hk; lia]. by rewrite Hn in Hp.
  - left. destruct (order_progress c n a Hc Ha Hn) as (e & a' & Hst & He'). exists e.
    pose proof (machine_step_refines p n Inv own H1 H2 H3 H4 c e m a Hma Ha) as Hr'. rewrite Hst in Hr'.
    inversion Hr' as [m' ? _ Em|]. eauto.
Qed.

(** Every run of a simulated benchmark with at least one slot ends: whatever the order of the
    steps, no task is ever stuck inside the scheduler, at most three steps per request are
    made, some step is possible until the run is over, and then there is exactly one
    successful measurement for each request; for all three schedulers. *)
Theorem simulations_complete es :
  0 < c ->
  (forall m, sim_steps fcfs_p n es (sim_start c (∅, fcfs_init)) = Some m ->
     completes fcfs_p (own_metric no_cost f0) es m) /\
  (forall m, sim_steps oracle_p n es (sim_start c (∅, oracle_init)) = Some m ->
     completes oracle_p (own_metric no_cost (flit 1 10)) es m) /\
  (forall m, sim_steps sjf_p n es (sim_start c (∅, sjf_start s)) = Some m ->
     completes sjf_p (own_metric pred_cost (flit 1 10)) es m).
Proof.
  intros Hc. split_and!; intros m Hm.
  - apply (refined_completes _ _ _ (∅, fcfs_init) es m fcfs_refines); [reflexivity|done..].
  - apply (refined_completes _ _ _ (∅, oracle_init) es m oracle_refines); [|done..].
    split; [split|]; reflexivity.
  - apply (refined_completes _ _ _ (∅, sjf_start s) es m sjf_refines); [|done..]. exact sjf_start_rest.
Qed.
End Runs.

(** *** What the comparison reports *)

(** Clock readings are numbers. *)
Definition clocks_ok (draws : nat -> Draw) : Prop :=
  forall i, is_fin (draws i).(d_enqueue) = true /\ is_fin (draws i).(d_acquired) = true.

Lemma round_ratio_not_nan x d : (0 < d)%Z -> is_nan (round_ratio x d) = false.
Proof.
  intros Hd. assert (H : (round_ratio x d <= round_ratio x d)%float) by (apply round_ratio_mono; [done..|lia]).
  exact (proj1 (fle_not_nan _ _ H)).
Qed.

Lemma of_int_1000 : of_int 1000 = Fin (1000 * 2 ^ grid). Proof. fcompute. Qed.

Lemma wait_not_nan d :
  is_fin d.(d_enqueue) = true -> is_fin d.(d_acquired) = true -> is_nan (wait_of d) = false.
Proof.
  unfold wait_of, fsub. destruct (d_enqueue d) as [a|?|]; try discriminate.
  destruct (d_acquired d) as [b|?|]; try discriminate. intros _ _. cbn [fneg fadd]. rewrite of_int_1000.
  assert (H : is_nan (round_ratio (b + - a) 1) = false) by (by apply round_ratio_not_nan).
  pose proof unit_pos as Hu. destruct (round_ratio (b + - a) 1) as [x|sg|]; cbn [fmul]; [|..|discriminate].
  - by apply round_ratio_not_nan.
  - destruct (Z.eqb_spec (1000 * 2 ^ grid) 0); [lia|]. reflexivity.
Qed.

Lemma service_time_fin t : (20 <= t <= 200)%Z -> is_fin (service_time t) = true.
Proof.
  intros Ht. unfold service_time.
  assert (H0 : (f0 <= of_int t)%float) by (rewrite <- of_int_0; apply of_int_mono; lia).
  assert (H1 : (of_int t <= of_int 200)%float) by (apply of_int_mono; lia).
  assert (Hf : is_fin (of_int t) = true) by (apply (fin_between _ _ H0 H1); fcompute).
  rewrite (fmul_comm (of_int t)). apply (fin_between _ (fmul (of_int 2) (of_int 200))); [| |fcompute].
  - apply fmul_nonneg; [fcompute|done|fcompute|done].
  - apply fmul_mono_r; [fcompute|done|fcompute|fcompute|done].
Qed.

Lemma own_metric_ok draws cost schedule_ms c i :
  draws_ok draws -> clocks_ok draws -> is_nan (cost i).1 = false -> is_nan (cost i).2 = false ->
  is_nan schedule_ms = false -> metric_ok (own_metric draws service_time c cost schedule_ms i).
Proof.
  intros Hd Hc H1 H2 H3. destruct (Hc i) as [Ha Hb]. pose proof (wait_not_nan _ Ha Hb) as Hw.
  pose proof (service_time_fin _ (Hd i)) as Hs. unfold metric_ok, own_metric, service_metric. cbn.
  split_and!; try assumption. destruct (wait_of (draws i)) as [x|sg|]; [|..|discriminate];
    destruct (service_time _) as [y|?|]; try discriminate; cbn [fadd]; [by apply round_ratio_not_nan|reflexivity].
Qed.

Section Rows.
Context (draws : nat -> Draw) (c : nat) (cost : nat -> float * float) (schedule_ms : float).
Hypothesis Hdraws : draws_ok draws.
Abbreviation row := (own_metric draws service_time c cost schedule_ms).

Lemma rows_succeed dn : successes (map row dn) = map row dn.
Proof. apply list_filter_all. intros m (i & -> & _)%list_elem_of_fmap. reflexivity. Qed.

Lemma rows_tokens dn : (0 <= sum_tokens (map row dn) <= 200 * Z.of_nat (length dn))%Z.
Proof.
  induction dn as [|i dn IH]; [cbn; lia|]. cbn [map sum_tokens foldr length].
  fold (sum_tokens (map row dn)). specialize (Hdraws i).
  change (tokens (row i)) with (d_max_tokens (draws i)). lia.
Qed.

(** Whatever was measured, the result counts every request as a success. *)
Lemma rows_aggregate name dn elapsed :
  clocks_ok draws -> (forall i, is_nan (cost i).1 = false /\ is_nan (cost i).2 = false) ->
  is_nan schedule_ms = false -> (Z.of_nat (length dn) <= 2 ^ 40)%Z ->
  exists b, aggregate_metrics name (Z.of_nat c) (map row dn) elapsed = Ok b /\
    b.(n_requests) = length dn /\ b.(n_success) = length dn /\ b.(error_rate) = f0.
Proof.
  intros Hc Hcost Hs Hn. pose proof (rows_tokens dn) as Ht.
  assert (Hp : (2 ^ 53 = 2 ^ 40 * 8192)%Z) by reflexivity.
  destruct (float_of_small_int (sum_tokens (map row dn))) as [t Htok]; [lia|].
  destruct (aggregate_metrics_ok name (Z.of_nat c) (map row dn) elapsed t)
    as (b & Hb & H1 & H2 & _ & _ & _ & _ & H3).
  - apply Forall_map, Forall_forall. intros i _. destruct (Hcost i). by apply own_metric_ok.
  - rewrite length_map. lia.
  - by rewrite rows_succeed.
  - rewrite rows_succeed in H2, H3. rewrite length_map in H1, H2. exists b. auto.
Qed.
End Rows.

(** Two result rows that differ only in the name of the scheduler and the schedule time. *)
Definition same_row (b b' : BenchmarkResult) : Prop :=
  b'.(br_concurrency) = b.(br_concurrency) /\ b'.(n_requests) = b.(n_requests) /\
  b'.(n_success) = b.(n_success) /\ b'.(throughput_rps) = b.(throughput_rps) /\
  b'.(tokens_per_sec) = b.(tokens_per_sec) /\ b'.(e2e_p50_ms) = b.(e2e_p50_ms) /\
  b'.(e2e_p95_ms) = b.(e2e_p95_ms) /\ b'.(e2e_p99_ms) = b.(e2e_p99_ms) /\
  b'.(queue_wait_p50_ms) = b.(queue_wait_p50_ms) /\ b'.(queue_wait_p99_ms) = b.(queue_wait_p99_ms) /\
  b'.(error_rate) = b.(error_rate) /\ b'.(elapsed_sec) = b.(elapsed_sec).

(** The parts of a measurement the rows above are computed from. *)
Definition timing (m : RequestMetric) : bool * float * float * Z :=
  (m.(success), m.(e2e_ms), m.(queue_wait_ms), m.(tokens)).

Lemma map_timing (ms ms' : list RequestMetric) {B} (g : bool * float * float * Z -> B) :
  map timing ms = map timing ms' -> map (fun m => g (timing m)) ms = map (fun m => g (timing m)) ms'.
Proof. intros Ht. rewrite <- !(map_map timing g). by rewrite Ht. Qed.

Lemma rows_timing draws c cost cost' sched sched' dn :
  map timing (map (own_metric draws service_time c cost sched) dn) =
  map timing (map (own_metric draws service_time c cost' sched') dn).
Proof. rewrite !map_map. by apply map_ext. Qed.

Lemma aggregate_same_row name name' conc ms ms' elapsed b b' :
  map timing ms = map timing ms' ->
  aggregate_metrics name conc ms elapsed = Ok b -> aggregate_metrics name' conc ms' elapsed = Ok b' ->
  same_row b b'.
Proof.
  intros Ht. assert (Hl : length ms' = length ms) by (by rewrite <- (length_map timing), <- Ht, length_map).
  assert (Hs : length (successes ms') = length (successes ms) /\ sum_tokens (successes ms') = sum_tokens (successes ms)).
  { clear Hl. revert ms' Ht. induction ms as [|m ms IH]; intros [|m' ms'] Ht; try discriminate; [done|].
    injection Ht as H1 _ _ H2 Ht. destruct (IH ms' Ht) as [I1 I2]. unfold successes in *.
    rewrite !filter_cons, <- H1. case_decide; [|done].
    unfold sum_tokens in *. cbn [length foldr]. by rewrite I1, I2, H2. }
  destruct Hs as [Hs1 Hs2].
  assert (He : forall nd num, pct_of e2e_ms ms' num nd = pct_of e2e_ms ms num nd)
    by (intros; unfold pct_of; do 2 f_equal; exact (eq_sym (map_timing ms ms' (fun t => t.1.1.2) Ht))).
  assert (Hq : forall nd num, pct_of queue_wait_ms ms' num nd = pct_of queue_wait_ms ms num nd)
    by (intros; unfold pct_of; do 2 f_equal; exact (eq_sym (map_timing ms ms' (fun t => t.1.2) Ht))).
  unfold aggregate_metrics. rewrite !He, !Hq, Hs1, Hs2, Hl. intros Hb Hb'.
  repeat match goal with
  | H : rbind ?r _ = Ok _ |- _ => destruct r eqn:?; cbn [rbind] in H; [|discriminate]
  end.
  injection Hb as <-. injection Hb' as <-. unfold same_row. cbn. split_and!; congruence.
Qed.

(** The rows the comparison prints for FCFS, oracle and predicted SJF are the same: for the same
    draws and the same order of steps, when one run is over all three are, each result counts
    every request as a success with error rate 0, and throughput, tokens per second,
    latencies and waits agree in every field. *)
Theorem comparison_rows_equal log1p exp predictor predict preds draws c n es elapsed r :
  draws_ok draws -> clocks_ok draws ->
  (forall i, predict i (prompt_of i) = Ok (preds i) /\ ftruthy (predicted_tokens (preds i)) = true /\
     is_nan (feature_latency_ms (preds i)) = false /\ is_nan (predict_latency_ms (preds i)) = false) ->
  (Z.of_nat n <= 2 ^ 40)%Z ->
  run_fcfs_benchmark c n draws es elapsed = Some r ->
  exists b b' b'',
    r = Ok b /\ run_oracle_benchmark c n draws es elapsed = Some (Ok b') /\
    run_sjf_benchmark log1p exp (Ok predict) predictor c n draws es elapsed = Some (Ok b'') /\
    b.(n_requests) = n /\ b.(n_success) = n /\ b.(error_rate) = f0 /\ same_row b b' /\ same_row b b''.
Proof.
  intros Hd Hc Hp Hn. unfold run_fcfs_benchmark, run_oracle_benchmark, run_sjf_benchmark.
  destruct (sjf_init None true (flit 1 2) 3 (of_int 300)) as [s|] eqn:Es; [|discriminate].
  assert (Hs : sjf_rest s) by (injection Es as <-; repeat split).
  assert (Hp' : forall i, predict i (prompt_of i) = Ok (preds i) /\ ftruthy (predicted_tokens (preds i)) = true)
    by (intros i; destruct (Hp i) as (? & ? & _); done).
  destruct (simulations_agree log1p exp predictor predict preds draws service_time c n s Hd Hp' Hs es elapsed)
    as (-> & -> & ->).
  unfold expected. destruct (order_steps n es (order_start c)) as [a|]; [|discriminate]. cbn [mbind option_bind].
  case_bool_decide as Ha; [|discriminate]. cbn [aggregated fmap option_fmap option_map rbind fst snd].
  rewrite <- Ha in Hn.
  destruct (rows_aggregate draws c no_cost f0 Hd "fcfs" (or_done a) elapsed) as (b & Hb & H1 & H2 & H3);
    [done|by split|reflexivity|done|].
  destruct (rows_aggregate draws c no_cost (flit 1 10) Hd "oracle_sjf" (or_done a) elapsed) as (b' & Hb' & _);
    [done|by split|fcompute|done|].
  destruct (rows_aggregate draws c (pred_cost preds) (flit 1 10) Hd "sjf" (or_done a) elapsed) as (b'' & Hb'' & _);
    [done|intros i; by destruct (Hp i) as (_ & _ & ?)|fcompute|done|].
  intros [= <-]. exists b, b', b''. rewrite Hb, Hb', Hb''. rewrite Ha in H1, H2.
  pose proof (aggregate_same_row _ _ _ _ _ _ _ _ (rows_timing _ _ _ _ _ _ _) Hb Hb') as R'.
  pose proof (aggregate_same_row _ _ _ _ _ _ _ _ (rows_timing _ _ _ _ _ _ _) Hb Hb'') as R''.
  split_and!; [reflexivity|reflexivity|reflexivity|exact H1|exact H2|exact H3|exact R'|exact R''].
Qed.

(** Without a slot nothing is ever measured: every run leaves all started tasks waiting. *)
Lemma no_slot_waits n es a :
  order_steps n es (order_start 0) = Some a -> or_done a = [] /\ or_serving a = [].
Proof.
  intros Ha. assert (H : forall es a a', (or_done a = [] /\ or_serving a = [] /\ sem_value (or_sem a) = 0 /\ sem_woken (or_sem a) = []) ->
    order_steps n es a = Some a' -> or_done a' = [] /\ or_serving a' = []).
  2: { eapply H; [|exact Ha]. done. }
  clear. induction es as [|e es IH]; intros a a' (H1 & H2 & H3 & H4); cbn [order_steps]; [intros [= <-]; done|].
  destruct a as [[v ws wk] k sv dn]. cbn in H1, H2, H3, H4. subst.
  destruct e; cbn -[Nat.ltb]; [|done|done|apply IH; done].
  destruct (k <? n); [|done]. cbn. apply IH. done.
Qed.

(** ** Witnesses *)

Definition demo_draws (i : nat) : Draw :=
  mkDraw (String.append "r" (prompt_of i)) 100 f0 f0 f1 demo_clock demo_aclock.

Definition demo_pred : PredictionResult := mkPrediction (of_int 90) {| values := [] |} f1 f1.

Lemma demo_pred_truthy : ftruthy (predicted_tokens demo_pred) = true.
Proof. fcompute. Qed.

Lemma demo_draws_ok : draws_ok demo_draws.
Proof. intros i. cbn. lia. Qed.

Lemma demo_clocks_ok : clocks_ok demo_draws.
Proof. intros i. split; reflexivity. Qed.

(** Two slots, three requests: the third waits until the first is served. *)
Definition demo_steps : list sim_event :=
  [Start; Start; Start; Tick f1; Served 0; Resume; Served 2; Served 1].

Lemma demo_sjf_rest : sjf_rest demo_sjf.
Proof. split; [reflexivity|]. split; [split|]; reflexivity. Qed.

Lemma simulations_measure_the_semaphore_witness :
  simulate_fcfs 2 3 service_time demo_draws demo_steps f1 =
    expected demo_draws service_time 2 3 no_cost f0 demo_steps f1 /\
  or_done <$> order_steps 3 demo_steps (order_start 2) = Some [0; 2; 1].
Proof.
  destruct (simulations_measure_the_semaphore toy_log1p toy_exp broken_predictor
              (fun _ _ => Ok demo_pred) (fun _ => demo_pred) demo_draws service_time 2 3 demo_sjf
              demo_draws_ok (fun i => conj eq_refl demo_pred_truthy) demo_sjf_rest demo_steps f1) as (H & _ & _).
  split; [exact H|reflexivity].
Defined.

(** The order of the demonstration, without evaluating a scheduler or a float. *)
Lemma demo_order : exists a, order_steps 3 demo_steps (order_start 2) = Some a /\ length (or_done a) = 3.
Proof. eexists. split; reflexivity. Qed.

Lemma demo_machine_runs :
  exists m, sim_steps (fcfs_program demo_draws service_time (Z.of_nat 2)) 3 demo_steps (sim_start 2 (∅, fcfs_init)) = Some m.
Proof.
  pose proof (refined_run 2 3 _ _ _ (∅, fcfs_init) demo_steps
                (fcfs_refines demo_draws service_time 2 3 demo_draws_ok) eq_refl) as H.
  destruct demo_order as (a & Ha & _). rewrite Ha in H. destruct H as (m & Hm & _). by exists m.
Qed.

Lemma demo_benchmark_runs : exists r, run_fcfs_benchmark 2 3 demo_draws demo_steps f1 = Some r.
Proof.
  unfold run_fcfs_benchmark.
  destruct (simulations_agree toy_log1p toy_exp broken_predictor
              (fun _ _ => Ok demo_pred) (fun _ => demo_pred) demo_draws service_time 2 3 demo_sjf
              demo_draws_ok (fun i => conj eq_refl demo_pred_truthy) demo_sjf_rest demo_steps f1) as (-> & _ & _).
  unfold expected. destruct demo_order as (a & -> & Hd). cbn [mbind option_bind].
  rewrite bool_decide_eq_true_2 by exact Hd. eexists. reflexivity.
Qed.

Lemma simulations_complete_witness :
  exists m, sim_steps (fcfs_program demo_draws service_time (Z.of_nat 2)) 3 demo_steps (sim_start 2 (∅, fcfs_init)) = Some m /\
    completes 2 3 (fcfs_program demo_draws service_time (Z.of_nat 2)) (own_metric demo_draws service_time 2 no_cost f0)
      demo_steps m.
Proof.
  destruct demo_machine_runs as [m Hm]. exists m. split; [exact Hm|].
  destruct (simulations_complete toy_log1p toy_exp broken_predictor (fun _ _ => Ok demo_pred)
              (fun _ => demo_pred) demo_draws service_time 2 3 demo_sjf demo_draws_ok
              (fun i => conj eq_refl demo_pred_truthy) demo_sjf_rest demo_steps ltac:(lia)) as (H & _ & _).
  exact (H m Hm).
Defined.

Lemma demo_predictions (i : nat) :
  (fun (_ : nat) (_ : string) => Ok demo_pred) i (prompt_of i) = Ok demo_pred /\
  ftruthy (predicted_tokens demo_pred) = true /\
  is_nan (feature_latency_ms demo_pred) = false /\ is_nan (predict_latency_ms demo_pred) = false.
Proof. split_and!; [reflexivity|exact demo_pred_truthy|fcompute|fcompute]. Qed.

Lemma comparison_rows_equal_witness :
  exists b b', run_fcfs_benchmark 2 3 demo_draws demo_steps f1 = Some (Ok b) /\
    run_oracle_benchmark 2 3 demo_draws demo_steps f1 = Some (Ok b') /\ same_row b b' /\ b.(n_success) = 3.
Proof.
  destruct demo_benchmark_runs as [r E].
  destruct (comparison_rows_equal toy_log1p toy_exp broken_predictor (fun _ _ => Ok demo_pred)
              (fun _ => demo_pred) demo_draws 2 3 demo_steps f1 r demo_draws_ok demo_clocks_ok demo_predictions)
    as (b & b' & b'' & -> & Ho & _ & _ & Hs & _ & Hr & _); [vm_compute; discriminate|exact E|].
  exists b, b'. split; [exact E|]. split; [exact Ho|]. split; [exact Hr|exact Hs].
Defined.

(** A predictor that raises ends the run with its exception and leaves the aging task running:
    the scheduler is stopped only after a run without exceptions. *)
Example failed_run_leaks_aging_task :
  exists s', simulate_sjf toy_log1p toy_exp broken_predictor (fun _ => broken_predictor) demo_sjf 1 1
    service_time demo_draws [Start] f1 = Some (Raise (ValueError "no model"), s') /\ s_aging_task s' = true.
Proof. eexists. split; reflexivity. Qed.
