(* ===== verification/LiveBench.v ===== *)
(** * The live benchmark (benchmarks/run_benchmark.py)

    One level of the benchmark: as many tasks as requests, a semaphore of
    [concurrency] slots around each call of the backend, and [gather].  A task
    never raises ([run_request] catches every exception), so the tasks of a
    level are the machine without a scheduler of Simulation.v; the answers of
    the backend and the clock are arguments. *)
From Stdlib Require Import ZArith Lia.
From stdpp Require Import base option list strings gmap.
From S2P Require Import Prelude PyFloat Bench Simulation.
Local Open Scope string_scope.
Local Open Scope list_scope.
Local Open Scope nat_scope.

Definition LIVE_PROMPTS : list string :=
  ["Explain what a transformer neural network is.";
   "Write a Python function to compute Fibonacci numbers.";
   "What are the main advantages of using vLLM for LLM serving?";
   "Describe the attention mechanism in machine learning.";
   "How does grouped query attention reduce memory usage?"].

(** [PROMPTS[i % len(PROMPTS)]] *)
Definition live_prompt (i : nat) : string := nth (i mod length LIVE_PROMPTS) LIVE_PROMPTS "".

(** What happens around the call of task [i]: the clock before and after it,
    and what the backend answers to a prompt. *)
Record LiveCall := mkLiveCall {
  lc_t0 : float;
  lc_t1 : float;
  lc_backend : string -> reply_kind;
}.

(** [bounded(i)] inside the semaphore. *)
Definition bounded (max_tokens : Z) (calls : nat -> LiveCall) (i : nat) : outcome :=
  run_request max_tokens (calls i).(lc_t0) (calls i).(lc_t1) ((calls i).(lc_backend) (live_prompt i)).

(** [asyncio.gather]: the results in the order of the tasks, once all are done. *)
Definition gathered_results (max_tokens : Z) (calls : nat -> LiveCall) (n : nat) (a : Order)
    : option (list outcome) :=
  if bool_decide (length a.(or_done) = n) then Some (map (bounded max_tokens calls) (seq 0 n)) else None.

(** [run_level] along a sequence of steps of its tasks. *)
Definition run_level_tasks (concurrency n : nat) (max_tokens : Z) (calls : nat -> LiveCall)
    (es : list sim_event) (elapsed : float) : option (result BenchResult) :=
  a ← order_steps n es (order_start concurrency);
  results ← gathered_results max_tokens calls n a;
  Some (run_level (Z.of_nat concurrency) (Z.of_nat n) results elapsed).

(** ** Properties *)

(** Load: along any run of a level with at least one slot no more than
    [concurrency] requests are ever in flight, each task calls the backend at
    most once and in the order of its number, at most three steps per request
    are made, and until all are done another step is possible. *)
Theorem live_level_bounded (c n : nat) es a :
  0 < c -> order_steps n es (order_start c) = Some a ->
  length a.(or_serving) <= c /\
  a.(or_serving) ++ a.(or_done) ≡ₚ seq 0 (length a.(or_serving) + length a.(or_done)) /\
  length (work es) <= 3 * n /\
  (length a.(or_done) = n \/ exists e a', order_step n e a = Some a' /\ is_tick e = false).
Proof.
  intros Hc Ha. pose proof (order_steps_inv c n es _ _ (order_start_inv c n) Ha) as Hi.
  pose proof (steps_remaining c n es _ _ (order_start_inv c n) Ha) as Hr.
  unfold remaining in Hr at 2. cbn -[Nat.mul] in Hr. pose proof Hi as [Hs _ _ Hp _].
  split; [lia|]. split; [exact Hp|]. split; [lia|].
  destruct (decide (length (or_done a) = n)) as [Hn|Hn]; [by left|right].
  by apply (order_progress c n).
Qed.

(** The result of a level does not depend on the order in which its tasks ran
    or finished: a run that completes reports the outcomes of requests
    [0 .. n-1], in that order; one that has not completed reports nothing. *)
Theorem live_level_deterministic (c n : nat) max_tokens calls es elapsed a :
  order_steps n es (order_start c) = Some a ->
  run_level_tasks c n max_tokens calls es elapsed =
    if bool_decide (length a.(or_done) = n) then
      Some (run_level (Z.of_nat c) (Z.of_nat n) (map (bounded max_tokens calls) (seq 0 n)) elapsed)
    else None.
Proof.
  intros Ha. unfold run_level_tasks, gathered_results. rewrite Ha. cbn.
  by case_bool_decide.
Qed.

Definition answered (r : reply_kind) : bool := match r with Reply200 _ => true | _ => false end.

Lemma successes_answered max_tokens calls (l : list nat) :
  length (filter (fun r : outcome => r.1.1 = true) (map (bounded max_tokens calls) l)) =
  length (filter (fun i => answered ((calls i).(lc_backend) (live_prompt i)) = true) l).
Proof.
  induction l as [|i l IH]; [done|]. cbn [map]. rewrite !filter_cons.
  assert (Hb : (bounded max_tokens calls i).1.1 = answered (lc_backend (calls i) (live_prompt i)))
    by (unfold bounded, run_request; by destruct (lc_backend _ _)).
  rewrite Hb. case_decide; cbn; [f_equal|]; exact IH.
Qed.

Lemma fdiv_zero x : fdiv x f0 = Raise ZeroDivisionError.
Proof. by destruct x. Qed.

(** What a level reports when it reports: as many successes as requests the
    backend answered with 200, out of [n]; it raises on an elapsed time of
    zero, and on a level without requests. *)
Theorem live_level_counts (c n : nat) max_tokens calls elapsed b :
  run_level (Z.of_nat c) (Z.of_nat n) (map (bounded max_tokens calls) (seq 0 n)) elapsed = Ok b ->
  b.(lv_n_success) =
    length (filter (fun i => answered ((calls i).(lc_backend) (live_prompt i)) = true) (seq 0 n)) /\
  b.(lv_n_requests) = Z.of_nat n /\ b.(lv_concurrency) = Z.of_nat c /\ elapsed <> f0 /\ 0 < n.
Proof.
  unfold run_level. rewrite successes_answered. intros H.
  apply rbind_Ok in H as (rps & Hr & H). apply rbind_Ok in H as (tot & _ & H).
  apply rbind_Ok in H as (tps & _ & H). apply rbind_Ok in H as (p50 & _ & H).
  apply rbind_Ok in H as (p99 & _ & H). apply rbind_Ok in H as (err & He & H). injection H as <-.
  split; [reflexivity|]. split; [reflexivity|]. split; [reflexivity|]. split.
  - intros ->. by rewrite fdiv_zero in Hr.
  - destruct n; [discriminate He|lia].
Qed.

(** ** Witnesses *)

Definition demo_calls (i : nat) : LiveCall :=
  mkLiveCall (of_int (Z.of_nat i)) (of_int (Z.of_nat i + 1))
    (fun _ => if Nat.eqb i 1 then ReplyError else Reply200 (Some 5%Z)).

(** Three requests on two slots; the second finishes first. *)
Definition demo_level : list sim_event :=
  [Start; Start; Start; Served 1; Resume; Served 0; Served 2].

Lemma live_level_bounded_witness :
  exists a, order_steps 3 [Start; Start; Start] (order_start 2) = Some a /\ length a.(or_serving) <= 2.
Proof.
  eexists. split; [reflexivity|].
  apply (live_level_bounded 2 3 [Start; Start; Start] _); [lia|reflexivity].
Defined.

Lemma live_level_deterministic_witness :
  run_level_tasks 2 3 8 demo_calls demo_level (of_int 4) =
    Some (run_level 2 3 (map (bounded 8 demo_calls) (seq 0 3)) (of_int 4)).
Proof.
  rewrite (live_level_deterministic 2 3 8 demo_calls demo_level (of_int 4)
             (mkOrder (mkSem 2 [] []) 3 [] [1; 0; 2])); reflexivity.
Defined.

Lemma demo_level_reports :
  exists b, run_level 2 3 (map (bounded 8 demo_calls) (seq 0 3)) (of_int 4) = Ok b.
Proof.
  assert (H : match run_level 2 3 (map (bounded 8 demo_calls) (seq 0 3)) (of_int 4) with Ok _ => true | Raise _ => false end = true)
    by (vm_compute; reflexivity).
  destruct (run_level _ _ _ _) as [b|e]; [by exists b|discriminate H].
Qed.

Lemma live_level_counts_witness :
  exists b, run_level 2 3 (map (bounded 8 demo_calls) (seq 0 3)) (of_int 4) = Ok b /\ b.(lv_n_success) = 2.
Proof.
  destruct demo_level_reports as [b E]. exists b. split; [exact E|].
  apply (live_level_counts 2 3 8 demo_calls (of_int 4) b E).
Defined.
