(* ===== verification/App.v ===== *)
(** * The HTTP application (create_app of python/scheduler/gateway.py)

    The routes in the order they are registered, the handlers, and the life of the
    application around them.  Matching a request against the routes is the
    framework's: a router is a parameter, known to try the routes in order.  So are
    the pages of the documentation routes, which the framework registers itself,
    before any of the application's.  The JSON decoder and the backend's answers are
    arguments.  While it serves, the application interleaves the handlers with the
    dispatch loops, the forward tasks, the expiry of waits and the aging task. *)
From Stdlib Require Import ZArith Lia.
From stdpp Require Import base option list strings gmap.
From S2P Require Import Prelude PyFloat Heapq Features Predictor Aging.
From S2P Require Import PriorityQueue BaseScheduler Fcfs Sjf Gateway.
Local Open Scope string_scope.
Local Open Scope list_scope.
Local Open Scope nat_scope.

Inductive http_method := GET | POST | PUT | DELETE | OtherMethod (m : string).

#[global] Instance http_method_eq_dec : EqDecision http_method.
Proof. solve_decision. Defined.

(** A request: its path without the query string, the query string, headers, body. *)
Record HttpRequest := mkHttp {
  rq_method : http_method;
  rq_path : string;
  rq_query : string;
  rq_headers : odict string;
  rq_body : string;
}.

(** What [gw._client.request] is called with. *)
Record ProxyCall := mkCall {
  pc_method : http_method;
  pc_url : string;
  pc_content : string;
  pc_headers : odict string;
}.

Inductive endpoint := Documentation | Health | ReadyPage | Live | MetricsPage | StatsPage | ChatCompletions | Proxy.

#[global] Instance endpoint_eq_dec : EqDecision endpoint.
Proof. solve_decision. Defined.

(** A route matches one path, or ([None]) every path. *)
Record Route := mkRoute {
  rt_methods : list http_method;
  rt_path : option string;
  rt_endpoint : endpoint;
}.

(** What [FastAPI(title=..., version=...)] registers before the handlers below it: with its default
    URLs, and for GET and HEAD. *)
Definition documentation_paths : list string := ["/openapi.json"; "/docs"; "/docs/oauth2-redirect"; "/redoc"].

Definition documentation_routes : list Route :=
  map (fun p => mkRoute [GET; OtherMethod "HEAD"] (Some p) Documentation) documentation_paths.

Definition app_routes : list Route :=
  documentation_routes ++
  [mkRoute [GET] (Some "/health") Health;
   mkRoute [GET] (Some "/ready") ReadyPage;
   mkRoute [GET] (Some "/live") Live;
   mkRoute [GET] (Some "/metrics") MetricsPage;
   mkRoute [GET] (Some "/scheduler/stats") StatsPage;
   mkRoute [POST] (Some "/v1/chat/completions") ChatCompletions;
   mkRoute [GET; POST; PUT; DELETE] None Proxy].

Definition route_matches (m : http_method) (path : string) (r : Route) : bool :=
  bool_decide (m ∈ r.(rt_methods)) &&
  match r.(rt_path) with
  | Some p => bool_decide (p = path)
  | None => true
  end.

(** The documented behaviour of the framework: the first registered route whose method
    and path match handles the request. *)
Class RoutesInOrder (router : list Route -> http_method -> string -> option Route) : Prop :=
  router_first : forall rs m path, router rs m path = List.find (route_matches m path) rs.

Inductive page :=
| StatusIs (s : string)
| ReadyIs (r : ReadyReport)
| MetricsText (text : string)
| StatsAre (s : option SchedulerStats) (depth : nat)
| Content (bytes : string).

(** What a handler ends in: a page with its status, a chat request waiting for its future
    ([submit_chat] in progress), a stream or one broken off by an exception of its
    generator, no route, or an exception of the handler. *)
Inductive http_outcome :=
| Respond (status : Z) (p : page)
| ChatWaits (l : loc)
| ChatStreams (l : loc)
| StreamBroken (e : exn)
| NoRoute
| ServerError (e : exn).

(** What the handlers obtain from outside while they run. *)
Record World := mkWorld {
  w_docs : string -> string;
  w_decode : string -> option Body;
  w_metrics : string;
  w_probe : option Z;
  w_rid : string;
  w_now : float;
  w_clock : submit_clock;
  w_backend : ProxyCall -> result (Z * string);
}.

Section App.
Context {S : Type} `{SchedulerOps S}.

(** [chat_completions] up to its first suspension. *)
Definition chat_completions (w : World) (body : string) (g : Gateway S) : Gateway S * http_outcome :=
  match w.(w_decode) body with
  | None => (g, ServerError (ValueError "JSONDecodeError"))
  | Some b =>
      if is_stream b then
        let '(g', r) := submit_chat_stream w.(w_rid) w.(w_now) w.(w_clock) b g in
        (g', match r with Ok l => ChatStreams l | Raise e => StreamBroken e end)
      else
        let '(g', r) := submit_chat w.(w_rid) w.(w_now) w.(w_clock) b g in
        (g', match r with
             | Ok l => ChatWaits l
             | Raise TimeoutError => Respond 504 (StatusIs "Request timed out")
             | Raise e => ServerError e
             end)
  end.

(** [url = f"/{path}"], where [path] is what follows the first slash. *)
Definition proxy_call (rq : HttpRequest) : ProxyCall :=
  mkCall rq.(rq_method) rq.(rq_path) rq.(rq_body) rq.(rq_headers).

Definition proxy (w : World) (rq : HttpRequest) (g : Gateway S) : http_outcome * list ProxyCall :=
  match g.(_client) with
  | None => (ServerError AssertionError, [])
  | Some _ =>
      let call := proxy_call rq in
      (match w.(w_backend) call with
       | Ok (status, content) => Respond status (Content content)
       | Raise e => ServerError e
       end, [call])
  end.

Definition endpoint_run (w : World) (e : endpoint) (rq : HttpRequest) (g : Gateway S)
    : Gateway S * http_outcome * list ProxyCall :=
  match e with
  | Documentation => (g, Respond 200 (Content (w.(w_docs) rq.(rq_path))), [])
  | Health => (g, Respond 200 (StatusIs "ok"), [])
  | ReadyPage => (g, Respond 200 (ReadyIs (ready w.(w_probe) g)), [])
  | Live => (g, Respond 200 (StatusIs "alive"), [])
  | MetricsPage => (g, Respond 200 (MetricsText w.(w_metrics)), [])
  | StatsPage =>
      (g, match gateway_stats g with
          | Ok (s, d) => Respond 200 (StatsAre s d)
          | Raise e => ServerError e
          end, [])
  | ChatCompletions => (chat_completions w rq.(rq_body) g, [])
  | Proxy => let '(o, calls) := proxy w rq g in (g, o, calls)
  end.

Context (router : list Route -> http_method -> string -> option Route).

Definition app_handle (w : World) (rq : HttpRequest) (g : Gateway S)
    : Gateway S * http_outcome * list ProxyCall :=
  match router app_routes rq.(rq_method) rq.(rq_path) with
  | Some r => endpoint_run w r.(rt_endpoint) rq g
  | None => (g, NoRoute, [])
  end.
End App.

(** ** The life of the application *)




Section Serving.
Context (predictor : string -> result PredictionResult) (log1p exp : float -> result float).
Context (router : list Route -> http_method -> string -> option Route).
#[local] Existing Instance any_ops.



End Serving.


(** [create_app]: the gateway handed in, or one built from the file's configuration. *)
Definition create_app (file : result GatewayConfig) (given : option (Gateway AnyScheduler))
    : result (Gateway AnyScheduler) :=
  rbind file (fun config =>
    match given with
    | Some g => Ok g
    | None => gateway_init config None
    end).

(** ** Properties *)

(** Which handler a request should reach: by method and path, the chat endpoint, one of
    the five local pages, the documentation, or the backend; nothing for other methods. *)
Definition endpoint_of (m : http_method) (path : string) : option endpoint :=
  match m with
  | GET =>
      Some (if bool_decide (path ∈ documentation_paths) then Documentation
            else if bool_decide (path = "/health") then Health
            else if bool_decide (path = "/ready") then ReadyPage
            else if bool_decide (path = "/live") then Live
            else if bool_decide (path = "/metrics") then MetricsPage
            else if bool_decide (path = "/scheduler/stats") then StatsPage else Proxy)
  | POST => Some (if bool_decide (path = "/v1/chat/completions") then ChatCompletions else Proxy)
  | PUT | DELETE => Some Proxy
  | OtherMethod m =>
      if bool_decide (m = "HEAD") && bool_decide (path ∈ documentation_paths) then Some Documentation else None
  end.

Lemma path_test (a b : string) : bool_decide (a = b) = bool_decide (b = a).
Proof. by apply bool_decide_ext. Qed.

(** The documentation routes answer GET and HEAD for their four paths. *)
Lemma documentation_find m path rs :
  List.find (route_matches m path) (documentation_routes ++ rs) =
  if bool_decide (m ∈ [GET; OtherMethod "HEAD"]) && bool_decide (path ∈ documentation_paths)
  then Some (mkRoute [GET; OtherMethod "HEAD"] (Some path) Documentation)
  else List.find (route_matches m path) rs.
Proof.
  unfold documentation_routes. induction documentation_paths as [|p ps IH].
  { cbn [map app]. by rewrite (bool_decide_eq_false_2 (path ∈ [])), andb_false_r by (apply not_elem_of_nil). }
  cbn [map app List.find]. unfold route_matches at 1. cbn [rt_methods rt_path]. rewrite IH.
  destruct (bool_decide (m ∈ _)); [|done]. cbn [andb].
  destruct (decide (p = path)) as [->|Hne].
  - by rewrite !bool_decide_eq_true_2 by (try left; done).
  - rewrite (bool_decide_eq_false_2 (p = path)) by done.
    rewrite (bool_decide_ext (path ∈ p :: ps) (path ∈ ps)); [done|]. rewrite elem_of_cons. naive_solver.
Qed.

Lemma other_method m ms :
  Forall (fun x => forall y, x <> OtherMethod y) ms -> bool_decide (OtherMethod m ∈ ms) = false.
Proof.
  intros H. apply bool_decide_eq_false_2. intros Hin. rewrite Forall_forall in H. by apply (H _ Hin m).
Qed.

Lemma head_method m : bool_decide (OtherMethod m ∈ [GET; OtherMethod "HEAD"]) = bool_decide (m = "HEAD").
Proof.
  apply bool_decide_ext. rewrite !elem_of_cons, elem_of_nil. naive_solver.
Qed.

(** Membership of a method in a closed list is computed. *)
Local Ltac known_methods :=
  repeat match goal with
  | |- context [bool_decide (?m ∈ ?ms)] =>
      first [change (bool_decide (m ∈ ms)) with true | change (bool_decide (m ∈ ms)) with false]
  end.

Lemma routes_endpoint m path :
  rt_endpoint <$> List.find (route_matches m path) app_routes = endpoint_of m path.
Proof.
  unfold app_routes, endpoint_of. rewrite documentation_find.
  generalize (bool_decide (path ∈ documentation_paths)). intros docs.
  unfold route_matches. cbn [List.find rt_methods rt_path].
  destruct m as [| | | |m]; rewrite ?head_method, ?other_method by (repeat constructor; discriminate);
    known_methods; cbn [andb]; rewrite ?(path_test _ path).
  5: by destruct (bool_decide (m = "HEAD")), docs.
  all: destruct docs; cbn [andb]; try reflexivity; repeat (case_bool_decide; [reflexivity|]); reflexivity.
Qed.

Section AppProperties.
Context {S : Type} `{SchedulerOps S} (router : list Route -> http_method -> string -> option Route)
  `{!RoutesInOrder router}.

Lemma app_handle_endpoint w rq (g : Gateway S) :
  app_handle router w rq g =
  match endpoint_of rq.(rq_method) rq.(rq_path) with
  | Some e => endpoint_run w e rq g
  | None => (g, NoRoute, [])
  end.
Proof.
  unfold app_handle. rewrite router_first, <- routes_endpoint. by destruct (List.find _ _).
Qed.

Lemma gateway_stats_total (g : Gateway S) : exists s d, gateway_stats g = Ok (s, d).
Proof.
  unfold gateway_stats. destruct (_scheduler g) as [s|]; [|by eexists _, _].
  destruct (scheduler_stats_total (queue_depth s) (base s)) as (st & -> & _). by eexists _, _.
Qed.

(** C12.  Only the chat endpoint reaches the scheduler.  Every other request leaves the gateway as it
    is: the five local pages and the four documentation pages of the framework answer 200
    themselves, whatever the state of the gateway (/ready probes the backend's health page but
    forwards nothing); methods other than GET, POST, PUT and DELETE are not served, but for HEAD of
    a documentation page; everything else is sent to the backend exactly once, with its method,
    path, headers and body, and answered with the backend's status and content. *)
Theorem only_chat_is_scheduled w rq (g : Gateway S) :
  (rq.(rq_method), rq.(rq_path)) <> (POST, "/v1/chat/completions") ->
  let '(g', o, calls) := app_handle router w rq g in
  g' = g /\
  match endpoint_of rq.(rq_method) rq.(rq_path) with
  | None => o = NoRoute /\ calls = []
  | Some Proxy =>
      match g.(_client) with
      | None => o = ServerError AssertionError /\ calls = []
      | Some _ =>
          calls = [mkCall rq.(rq_method) rq.(rq_path) rq.(rq_body) rq.(rq_headers)] /\
          forall status content, w.(w_backend) (proxy_call rq) = Ok (status, content) ->
            o = Respond status (Content content)
      end
  | Some _ => calls = [] /\ exists p, o = Respond 200 p
  end.
Proof.
  intros Hne. rewrite app_handle_endpoint.
  destruct (endpoint_of (rq_method rq) (rq_path rq)) as [e|] eqn:E; [|done].
  assert (e <> ChatCompletions).
  { intros ->. apply Hne. unfold endpoint_of in E. destruct (rq_method rq); try done; repeat case_bool_decide; cbn in E; congruence. }
  destruct e; cbn [endpoint_run]; try done; try (split; [done|]; split; [done|]; by eexists).
  - destruct (gateway_stats_total g) as (s & d & ->). split; [done|]. split; [done|]. by eexists.
  - unfold proxy. destruct (_client g); [|done]. split; [done|]. split; [done|]. by intros status content ->.
Qed.

(** The query string of a request never reaches the backend. *)
Lemma query_is_dropped w rq q (g : Gateway S) :
  app_handle router w (mkHttp rq.(rq_method) rq.(rq_path) q rq.(rq_headers) rq.(rq_body)) g =
  app_handle router w rq g.
Proof.
  rewrite !app_handle_endpoint. cbn [rq_method rq_path]. by destruct (endpoint_of _ _) as [[]|].
Qed.





End AppProperties.

Section Life.
Context (predictor : string -> result PredictionResult) (log1p exp : float -> result float).
Context (router : list Route -> http_method -> string -> option Route) `{!RoutesInOrder router}.
#[local] Existing Instance any_ops.




End Life.

(** ** Witnesses *)

Definition first_router (rs : list Route) (m : http_method) (path : string) : option Route :=
  List.find (route_matches m path) rs.

#[global] Instance first_router_in_order : RoutesInOrder first_router.
Proof. done. Qed.

Definition demo_world : World :=
  mkWorld (fun _ => "page") (fun _ => None) "" None "id" f0 demo_clock
    (fun call => Ok (201%Z, String.append "echo " call.(pc_url))).

Definition demo_put : HttpRequest := mkHttp PUT "/v1/models" "limit=5" [("host", "gateway")] "{}".

Definition connected_gateway : Gateway FCFSScheduler :=
  mkGateway idle_gateway.(settings) idle_gateway.(_scheduler) (Some GivenClient) false
    idle_gateway.(_workers) idle_gateway.(_running) ∅ 0 ∅ ∅ [] idle_gateway.(gw_metrics).

Lemma only_chat_is_scheduled_witness :
  (rq_method demo_put, rq_path demo_put) <> (POST, "/v1/chat/completions") /\
  (app_handle first_router demo_world demo_put connected_gateway).1.2 = Respond 201 (Content "echo /v1/models").
Proof.
  assert (Hne : (rq_method demo_put, rq_path demo_put) <> (POST, "/v1/chat/completions")) by discriminate.
  split; [exact Hne|].
  pose proof (only_chat_is_scheduled first_router demo_world demo_put connected_gateway Hne) as H.
  destruct (app_handle first_router demo_world demo_put connected_gateway) as [[g' o] calls] eqn:E.
  destruct H as (_ & _ & H). exact (H 201%Z "echo /v1/models" eq_refl).
Defined.




