(* ===== verification/AuditScripts.v ===== *)
(** * The audit scripts (audit_scripts/phase1_static.py and run_audit.py)

    Scripts that run tools over the repository and write logs.  What they obtain from
    outside (the results of commands, directory listings, file contents, parsers) is
    a record of parameters; a script is a computation that writes text and may raise.
    Modelled are the static checks with their exit code and the sequence of phases
    of the audit with its summaries. *)
From Stdlib Require Import ZArith Lia.
From stdpp Require Import base option list sets strings sorting pretty.
From S2P Require Import Prelude PyText Regex.
Local Open Scope string_scope.
Local Open Scope list_scope.
Local Open Scope Z_scope.

(** ** Scripts that write a log *)

(** What has been written, and the result: an uncaught exception ends the script. *)
Definition script (A : Type) : Type := list text * result A.

Definition sret {A} (a : A) : script A := ([], Ok a).
Definition sbind {A B} (m : script A) (k : A -> script B) : script B :=
  match m with
  | (w, Ok a) => let '(w', r) := k a in (w ++ w', r)
  | (w, Raise e) => (w, Raise e)
  end.
Definition lift {A} (r : result A) : script A := ([], r).
Definition write (t : text) : script unit := ([t], Ok tt).

Declare Scope script_scope.
Delimit Scope script_scope with script.
Notation "'do' x <- m ; k" := (sbind m (fun x => k))
  (at level 100, x pattern, m at level 99, k at level 200, right associativity) : script_scope.
Notation "m1 ;; m2" := (sbind m1 (fun _ => m2))
  (at level 100, m2 at level 200, right associativity) : script_scope.
Local Open Scope script_scope.

(** [log(msg)] *)
Definition log (msg : text) : script unit := write (msg ++ [10]).

(** A loop that accumulates. *)
Fixpoint for_each {A B} (xs : list A) (acc : B) (body : A -> B -> script B) : script B :=
  match xs with
  | [] => sret acc
  | x :: xs' => do acc' <- body x acc; for_each xs' acc' body
  end.

(** ** What the scripts obtain *)

Record Proc := mkProc { returncode : Z; stdout : text; stderr : text }.

Inductive suffix := Yaml | Yml | Json | Toml | OtherSuffix.

Record AuditFile := mkFile {
  af_path : string;
  af_is_file : bool;
  af_suffix : suffix;
  af_text : result text;
}.

Record Outside := mkOutside {
  o_now : text;
  o_python : string;
  o_run : list string -> result Proc;
  o_py_files : list string;
  o_tree : list AuditFile;
  o_ref_files : list (string * text);
  o_resolved_exists : text -> bool;
  o_exists : text -> bool;
  o_json : text -> result unit;
  o_tomllib : result (text -> result unit);   (* import tomllib, which Python has from 3.11 on *)
  o_yaml : option (text -> result unit);
  o_exn : exn -> text;
}.

Section Static.
Context {U : Unicode} (o : Outside).

Definition title (s : string) : text := 10 :: codes ("=== " +:+ s +:+ " ===").
Definition number (n : Z) : text := codes (pretty n).
Definition count_of {A} (l : list A) : text := number (Z.of_nat (length l)).

(** ** phase1_static.py *)

Definition git_commands : list (string * list string) :=
  [("git status", ["git"; "status"]); ("git diff --stat", ["git"; "diff"; "--stat"])].

Definition git_section : script unit :=
  for_each git_commands tt (fun '(name, cmd) _ =>
    log (title name) ;;
    do r <- lift (o.(o_run) cmd); log (r.(stdout) ++ r.(stderr))).

(** [".venv_audit" in str(py) or "__pycache__" in str(py)] *)
Definition skipped (py : string) : bool :=
  contains (codes ".venv_audit") (codes py) || contains (codes "__pycache__") (codes py).

Definition compile_command (py : string) : list string := [o.(o_python); "-m"; "py_compile"; py].

Definition compile_one (py : string) (errors : list (string * text)) : script (list (string * text)) :=
  if skipped py then sret errors
  else
    do r <- lift (o.(o_run) (compile_command py));
    if r.(returncode) =? 0 then sret errors
    else
      log (codes ("FAIL: " +:+ py) ++ 10 :: r.(stderr)) ;;
      sret (errors ++ [(py, r.(stderr))]).

Definition compile_section : script (list (string * text)) :=
  log (title "py_compile all .py") ;;
  do errors <- for_each o.(o_py_files) [] compile_one;
  log (codes "COMPILE: " ++ count_of o.(o_py_files) ++ codes " files, " ++ count_of errors ++ codes " errors") ;;
  sret errors.

Definition packages : list string := ["vllm_port"; "python.predictor"; "python.scheduler"].

(** [import {pkg}; print('OK', {pkg!r})] *)
Definition import_command (pkg : string) : list string :=
  [o.(o_python); "-c"; "import " +:+ pkg +:+ "; print('OK', '" +:+ pkg +:+ "')"].

Definition import_section : script unit :=
  log (title "import top-level packages") ;;
  for_each packages tt (fun pkg _ =>
    do r <- lift (o.(o_run) (import_command pkg));
    log (codes (pkg +:+ ": exit=") ++ number r.(returncode) ++ 10 :: r.(stdout) ++ r.(stderr))).

(** The patterns, each as what precedes its group and the group. *)
Definition NotSpace : cset := NotIn SpaceCh.
Definition spaces0 : re := Star (CSet SpaceCh).
Definition quote_chars : cset := Either (Ch 34) (Ch 39).

Definition ref_patterns : list (re * re) :=
  [(Cat (lit "COPY") (Plus (CSet SpaceCh)), Plus (CSet NotSpace));
   (cats [lit "volumes:"; spaces0; CSet (Ch 10); spaces0; lit "-"; spaces0], Plus (CSet NotSpace));
   (cats [lit "models_dir"; Plus (CSet (Either (Ch 58) SpaceCh)); Opt (CSet quote_chars)],
    Plus (CSet (NotIn (Either quote_chars SpaceCh))))].

(** [m.group(1)] of a match that starts at [c]: the first way to match what precedes the
    group after which the group matches, and the group's first match there. *)
Definition group1 (pre grp : re) (c : cursor) : option text :=
  head (omap (fun mid => between mid <$> head (run grp mid)) (run pre c)).

Definition groups (t : text) (p : re * re) : list text :=
  omap (fun m => group1 p.1 p.2 m.1) (finditer (Cat p.1 p.2) t).

(** The set of references, before it is sorted: distinct pairs. *)
Definition refs_of (files : list (string * text)) : list (text * text) :=
  remove_dups (mjoin (map (fun '(src, t) => map (fun ref => (codes src, ref)) (mjoin (map (groups t) ref_patterns))) files)).

Fixpoint text_leb (a b : text) : bool :=
  match a, b with
  | [], _ => true
  | _ :: _, [] => false
  | x :: a', y :: b' => (x <? y) || ((x =? y) && text_leb a' b')
  end.

Definition ref_le (p q : text * text) : Prop :=
  (if bool_decide (p.1 = q.1) then text_leb p.2 q.2 else text_leb p.1 q.1) = true.

#[global] Instance ref_le_dec p q : Decision (ref_le p q).
Proof. unfold ref_le. apply _. Defined.

Definition is_dangling (ref : text) : bool :=
  negb (starts_with (codes "$") ref || starts_with (codes "${") ref) &&
  negb (o.(o_resolved_exists) ref) && negb (o.(o_exists) ref).

Definition dangling_section : script (list (text * text)) :=
  log (title "dangling file references") ;;
  do dangling <- for_each (merge_sort ref_le (refs_of o.(o_ref_files))) [] (fun r dangling =>
    if is_dangling r.2 then
      log (codes "DANGLING: " ++ r.1 ++ codes " -> " ++ r.2) ;; sret (dangling ++ [r])
    else sret dangling);
  log (codes "Dangling refs found: " ++ count_of dangling) ;;
  sret dangling.

Definition ruff_section : script unit :=
  log (title "ruff check . --select=F,E9") ;;
  do r <- lift (o.(o_run) ["ruff"; "check"; "."; "--select=F,E9"]);
  log (r.(stdout) ++ r.(stderr)) ;;
  log (codes "ruff exit code: " ++ number r.(returncode)).

(** The [try] block for one configuration file; [toml] is [tomllib.loads]. *)
Definition parse_try (toml : text -> result unit) (f : AuditFile) : script unit :=
  do t <- lift f.(af_text);
  match f.(af_suffix) with
  | Json => lift (o.(o_json) t)
  | Yaml | Yml =>
      match o.(o_yaml) with
      | None => log (codes ("SKIP yaml (no pyyaml): " +:+ f.(af_path)))
      | Some load => lift (load t)
      end
  | Toml => lift (toml t)
  | OtherSuffix => sret tt
  end.

Definition is_config (s : suffix) : bool := match s with OtherSuffix => false | _ => true end.

Definition parse_one (toml : text -> result unit) (f : AuditFile) (errs : list (string * text)) : script (list (string * text)) :=
  if negb f.(af_is_file) || negb (is_config f.(af_suffix)) then sret errs
  else
    match parse_try toml f with
    | (w, Ok _) => (w, Ok errs)
    | (w, Raise e) =>
        let '(w', r) := log (codes ("PARSE FAIL: " +:+ f.(af_path) +:+ ": ") ++ o.(o_exn) e) ;;
                        sret (errs ++ [(f.(af_path), o.(o_exn) e)]) in
        (w ++ w', r)
    end.

Definition parse_section : script (list (string * text)) :=
  log (title "config file parse validation") ;;
  do toml <- lift o.(o_tomllib);
  do errs <- for_each o.(o_tree) [] (parse_one toml);
  log (codes "Config parse errors: " ++ count_of errs) ;;
  sret errs.

Definition phase1_main : script Z :=
  write (codes "=== PHASE 1 " ++ 8212 :: codes " Static Integrity Pass ===" ++ 10 :: codes "Timestamp: " ++ o.(o_now) ++ [10]) ;;
  git_section ;;
  do errors <- compile_section;
  import_section ;;
  do _ <- dangling_section;
  ruff_section ;;
  do parse_errors <- parse_section;
  sret (if bool_decide (errors = []) && bool_decide (parse_errors = []) then 0 else 1).

(** [sys.exit(main())]: an uncaught exception ends the process with 1. *)
Definition phase1_exit : Z := match phase1_main.2 with Ok code => code | Raise _ => 1 end.
End Static.

(** ** Properties of the static checks *)

Lemma sbind_Ok {A B} (m : script A) (k : A -> script B) b :
  (sbind m k).2 = Ok b <-> exists a, m.2 = Ok a /\ (k a).2 = Ok b.
Proof.
  destruct m as [w [a|e]]; cbn; [|split; [done|by intros (? & ? & _)]].
  destruct (k a) as [w' r] eqn:E; cbn. split; [intros ->; exists a; by rewrite E|].
  intros (a' & [= <-] & H). by rewrite E in H.
Qed.

Section StaticProperties.
Context {U : Unicode} (o : Outside).

(** A loop whose body never raises collects what its body adds. *)
Lemma for_each_collects {A B} (f : A -> option B) (body : A -> list B -> script (list B)) xs acc :
  (forall x acc, x ∈ xs -> (body x acc).2 = Ok (acc ++ option_list (f x))) ->
  (for_each xs acc body).2 = Ok (acc ++ omap f xs).
Proof.
  revert acc. induction xs as [|x xs IH]; intros acc Hb; cbn [for_each]; [by rewrite app_nil_r|].
  apply sbind_Ok. exists (acc ++ option_list (f x)). split; [apply Hb; by left|].
  rewrite IH, <- app_assoc by (intros y acc' Hy; apply Hb; by right). cbn. by destruct (f x).
Qed.

(** A loop that ends without an exception has run each of its turns without one. *)
Lemma for_each_inv {A B} (body : A -> B -> script B) xs acc r :
  (for_each xs acc body).2 = Ok r -> forall x, x ∈ xs -> exists acc' r', (body x acc').2 = Ok r'.
Proof.
  revert acc. induction xs as [|x xs IH]; intros acc E y Hy; [by apply elem_of_nil in Hy|].
  cbn [for_each] in E. apply sbind_Ok in E as (acc' & E1 & E2).
  apply elem_of_cons in Hy as [->|Hy]; [by exists acc, acc'|]. by apply (IH acc').
Qed.

(** A loop without a result succeeds when each turn does. *)
Lemma for_each_unit {A} (body : A -> unit -> script unit) xs :
  (forall x, x ∈ xs -> (body x tt).2 = Ok tt) -> (for_each xs tt body).2 = Ok tt.
Proof.
  induction xs as [|x xs IH]; intros Hb; cbn [for_each]; [done|]. apply sbind_Ok. exists tt.
  split; [apply Hb; by left|]. apply IH. intros y Hy. apply Hb. by right.
Qed.

Definition compile_fails (py : string) : option (string * text) :=
  if skipped py then None
  else match o.(o_run) (compile_command o py) with
       | Ok r => if r.(returncode) =? 0 then None else Some (py, r.(stderr))
       | Raise _ => None
       end.

Definition parse_fails (toml : text -> result unit) (f : AuditFile) : option (string * text) :=
  if negb f.(af_is_file) || negb (is_config f.(af_suffix)) then None
  else match (parse_try o toml f).2 with
       | Ok _ => None
       | Raise e => Some (f.(af_path), o.(o_exn) e)
       end.

(** The commands the script runs, and that each can be started. *)
Definition static_commands : list (list string) :=
  map snd git_commands ++ map (compile_command o) (filter (fun py => skipped py = false) o.(o_py_files)) ++
  map (import_command o) packages ++ [["ruff"; "check"; "."; "--select=F,E9"]].

Definition starts (cmd : list string) : Prop := exists r, o.(o_run) cmd = Ok r.
Definition commands_start : Prop := Forall starts static_commands.

Lemma commands_parts :
  commands_start <->
  (forall name cmd, (name, cmd) ∈ git_commands -> starts cmd) /\
  (forall py, py ∈ o.(o_py_files) -> skipped py = false -> starts (compile_command o py)) /\
  (forall pkg, pkg ∈ packages -> starts (import_command o pkg)) /\ starts ["ruff"; "check"; "."; "--select=F,E9"].
Proof.
  unfold commands_start, static_commands. rewrite !Forall_app, !Forall_map, Forall_singleton, !Forall_forall.
  split; intros (H1 & H2 & H3 & H4); split_and!; try done.
  - intros name cmd Hin. exact (H1 _ Hin).
  - intros py Hin Hs. apply H2, list_elem_of_filter. by split.
  - intros [name cmd] Hin. exact (H1 _ _ Hin).
  - intros py [Hs Hin]%list_elem_of_filter. by apply H2.
Qed.

Lemma compile_section_errors :
  commands_start -> (compile_section o).2 = Ok (omap compile_fails o.(o_py_files)).
Proof.
  intros (_ & Hr & _)%commands_parts. unfold compile_section. apply sbind_Ok. exists tt. split; [done|].
  apply sbind_Ok. eexists. split; [|apply sbind_Ok; by exists tt].
  rewrite (for_each_collects compile_fails); [done|].
  intros py acc Hin. unfold compile_one, compile_fails.
  destruct (skipped py) eqn:Es; [cbn; by rewrite app_nil_r|].
  destruct (Hr py Hin Es) as [r ->]. cbn [lift sbind].
  destruct (returncode r =? 0); cbn; [by rewrite app_nil_r|done].
Qed.

Lemma parse_section_errors toml :
  o.(o_tomllib) = Ok toml -> (parse_section o).2 = Ok (omap (parse_fails toml) o.(o_tree)).
Proof.
  intros Ht. unfold parse_section. apply sbind_Ok. exists tt. split; [done|].
  apply sbind_Ok. exists toml. split; [exact Ht|].
  apply sbind_Ok. eexists. split; [|apply sbind_Ok; by exists tt].
  rewrite (for_each_collects (parse_fails toml)); [done|].
  intros f acc _. unfold parse_one, parse_fails. destruct (negb _ || negb _); [cbn; by rewrite app_nil_r|].
  destruct (parse_try o toml f) as [w [[]|e]]; cbn; [by rewrite app_nil_r|done].
Qed.

Lemma dangling_section_refs :
  (dangling_section o).2 =
  Ok (omap (fun r => if is_dangling o r.2 then Some r else None) (merge_sort ref_le (refs_of o.(o_ref_files)))).
Proof.
  unfold dangling_section. apply sbind_Ok. exists tt. split; [done|].
  apply sbind_Ok. eexists. split; [|apply sbind_Ok; by exists tt].
  rewrite (for_each_collects (fun r => if is_dangling o r.2 then Some r else None)); [done|].
  intros r acc _. destruct (is_dangling o r.2); cbn; [done|by rewrite app_nil_r].
Qed.

Lemma commands_section_ok : commands_start ->
  (git_section o).2 = Ok tt /\ (import_section o).2 = Ok tt /\ (ruff_section o).2 = Ok tt.
Proof.
  intros (Hg & _ & Hi & Hr)%commands_parts. split_and!.
  - apply for_each_unit. intros [name cmd] Hin. apply sbind_Ok. exists tt. split; [done|].
    destruct (Hg name cmd Hin) as [r ->]. done.
  - apply sbind_Ok. exists tt. split; [done|]. apply for_each_unit. intros pkg Hin.
    destruct (Hi pkg Hin) as [r ->]. done.
  - apply sbind_Ok. exists tt. split; [done|]. destruct Hr as [r ->]. done.
Qed.

(** Running a command and going on: the command started. *)
Lemma lift_run_starts {A} cmd (k : Proc -> script A) a : (sbind (lift (o.(o_run) cmd)) k).2 = Ok a -> starts cmd.
Proof. intros H. apply sbind_Ok in H as (r & H & _). by exists r. Qed.

(** A run to the end has started every command and imported the TOML parser. *)
Lemma main_started code : (phase1_main o).2 = Ok code -> commands_start /\ exists toml, o.(o_tomllib) = Ok toml.
Proof.
  intros E. unfold phase1_main in E. apply sbind_Ok in E as ([] & _ & E).
  apply sbind_Ok in E as ([] & Hg & E). apply sbind_Ok in E as (errors & Hc & E).
  apply sbind_Ok in E as ([] & Hi & E). apply sbind_Ok in E as (dang & _ & E).
  apply sbind_Ok in E as ([] & Hr & E). apply sbind_Ok in E as (perr & Hp & _).
  split.
  - apply commands_parts. split; [|split; [|split]].
    + intros name cmd Hin. destruct (for_each_inv _ _ _ _ Hg _ Hin) as (acc & r & H).
      apply sbind_Ok in H as ([] & _ & H). by eapply lift_run_starts.
    + intros py Hin Hs. unfold compile_section in Hc. apply sbind_Ok in Hc as ([] & _ & Hc).
      apply sbind_Ok in Hc as (errs & Hc & _). destruct (for_each_inv _ _ _ _ Hc _ Hin) as (acc & r & H).
      unfold compile_one in H. rewrite Hs in H. by eapply lift_run_starts.
    + intros pkg Hin. unfold import_section in Hi. apply sbind_Ok in Hi as ([] & _ & Hi).
      destruct (for_each_inv _ _ _ _ Hi _ Hin) as (acc & r & H). by eapply lift_run_starts.
    + unfold ruff_section in Hr. apply sbind_Ok in Hr as ([] & _ & Hr). by eapply lift_run_starts.
  - unfold parse_section in Hp. apply sbind_Ok in Hp as ([] & _ & Hp). apply sbind_Ok in Hp as (toml & Hp & _).
    by exists toml.
Qed.

Lemma omap_nonempty {A B} (f : A -> option B) l : omap f l <> [] <-> exists x y, x ∈ l /\ f x = Some y.
Proof.
  split.
  - intros Hn. destruct (omap f l) as [|y ys] eqn:E; [done|].
    assert (y ∈ omap f l) as (x & ? & ?)%list_elem_of_omap by (rewrite E; by left). eauto.
  - intros (x & y & Hx & Hy) Hn. assert (y ∈ omap f l) as H by (apply list_elem_of_omap; eauto).
    rewrite Hn in H. by apply elem_of_nil in H.
Qed.

(** The exit code of a script that gets to its end. *)
Lemma main_code toml :
  commands_start -> o.(o_tomllib) = Ok toml ->
  (phase1_main o).2 = Ok (if bool_decide (omap compile_fails o.(o_py_files) = []) &&
                             bool_decide (omap (parse_fails toml) o.(o_tree) = []) then 0 else 1).
Proof.
  intros Hr Ht. destruct (commands_section_ok Hr) as (Hg & Hi & Hf). unfold phase1_main.
  repeat (apply sbind_Ok; eexists; split; [first
    [reflexivity|exact Hg|exact Hi|exact Hf|exact (compile_section_errors Hr)
    |exact dangling_section_refs|exact (parse_section_errors toml Ht)]|]). done.
Qed.

Lemma compile_fails_iff :
  omap compile_fails o.(o_py_files) <> [] <->
  exists py r, py ∈ o.(o_py_files) /\ skipped py = false /\
    o.(o_run) (compile_command o py) = Ok r /\ returncode r <> 0.
Proof.
  rewrite omap_nonempty. unfold compile_fails. split.
  - intros (py & y & Hin & Hy). destruct (skipped py) eqn:Es; [done|].
    destruct (o_run o _) as [r|] eqn:Er; [|done]. exists py, r.
    revert Hy. by destruct (Z.eqb_spec (returncode r) 0).
  - intros (py & r & Hin & Hs & Hrun & Hne0). exists py, (py, stderr r). rewrite Hs, Hrun.
    split; [done|]. by destruct (Z.eqb_spec (returncode r) 0).
Qed.

Lemma parse_fails_iff toml :
  omap (parse_fails toml) o.(o_tree) <> [] <->
  exists f e, f ∈ o.(o_tree) /\ f.(af_is_file) = true /\ is_config f.(af_suffix) = true /\
    (parse_try o toml f).2 = Raise e.
Proof.
  rewrite omap_nonempty. unfold parse_fails. split.
  - intros (f & y & Hin & Hy). destruct (af_is_file f) eqn:E1, (is_config (af_suffix f)) eqn:E2; try done.
    cbn [negb orb] in Hy. destruct (snd (parse_try o toml f)) as [u|e] eqn:E3; [discriminate|].
    exists f, e. auto.
  - intros (f & e & Hin & H1 & H2 & H3). exists f, (af_path f, o_exn o e). by rewrite H1, H2, H3.
Qed.

(** C39.  The exit code of the static checks is 1 exactly if a command cannot be started (git, ruff or
    the interpreter is missing), the TOML parser cannot be imported (before Python 3.11), a source
    file outside the skipped directories fails to compile, or a configuration file cannot be read or
    parsed; otherwise it is 0.  The exit codes of git, of the imports and of the linter, and dangling
    references, never change it. *)
Theorem static_exit_code :
  (phase1_exit o = 0 \/ phase1_exit o = 1) /\
  (phase1_exit o = 1 <->
     (exists cmd e, cmd ∈ static_commands /\ o.(o_run) cmd = Raise e) \/
     (exists e, o.(o_tomllib) = Raise e) \/
     (exists py r, py ∈ o.(o_py_files) /\ skipped py = false /\
        o.(o_run) (compile_command o py) = Ok r /\ returncode r <> 0) \/
     (exists toml f e, o.(o_tomllib) = Ok toml /\ f ∈ o.(o_tree) /\ f.(af_is_file) = true /\
        is_config f.(af_suffix) = true /\ (parse_try o toml f).2 = Raise e)).
Proof.
  unfold phase1_exit. destruct (decide (Forall (fun cmd => is_ok (o_run o cmd) = true) static_commands)) as [Hs|Hs].
  2: { assert (Hex : exists cmd e, cmd ∈ static_commands /\ o_run o cmd = Raise e).
       { apply not_Forall_Exists in Hs; [|apply _]. apply Exists_exists in Hs as (cmd & Hin & Hc).
         destruct (o_run o cmd) as [r|e] eqn:E; [by destruct Hc; rewrite E|]. by exists cmd, e. }
       destruct (phase1_main o).2 as [code|e] eqn:E; [|by split; [right|split; [left|]]].
       apply main_started in E as [Hst _]. destruct Hex as (cmd & e & Hin & Hc).
       unfold commands_start in Hst. rewrite Forall_forall in Hst. destruct (Hst _ Hin) as [r Hr]. congruence. }
  assert (Hst : commands_start).
  { eapply Forall_impl; [exact Hs|]. intros cmd Hc. cbn beta in Hc. unfold starts. destruct (o_run o cmd) as [r|] eqn:E; [by exists r|discriminate Hc]. }
  destruct (o_tomllib o) as [toml|e0] eqn:Et.
  2: { destruct (phase1_main o).2 as [code|e] eqn:E; [|by split; [right|split; [right; left; exists e0|]]].
       apply main_started in E as [_ [toml Ht]]. congruence. }
  rewrite (main_code toml Hst Et). rewrite <- compile_fails_iff.
  split; [destruct (_ && _); auto|].
  trans (omap compile_fails (o_py_files o) <> [] \/ omap (parse_fails toml) (o_tree o) <> []).
  { repeat case_bool_decide; cbn; naive_solver. }
  rewrite parse_fails_iff. split.
  - intros [H|(f & e & H)]; [auto|]. right. right. right. by exists toml, f, e.
  - intros [(cmd & e & Hin & Hc)|[(e & He)|[H|(toml' & f & e & Ht & H)]]]; [|done|by left|].
    + rewrite Forall_forall in Hs. specialize (Hs _ Hin). by rewrite Hc in Hs.
    + right. injection Ht as <-. by exists f, e.
Qed.
End StaticProperties.

(** ** run_audit.py *)

Section RunAudit.
Context {U : Unicode} (o : Outside).

(** *** Phase 0: what is installed *)

Definition tools : list (string * list string) :=
  [("systeminfo", ["systeminfo"]); ("python", ["python"; "--version"]); ("pip", ["pip"; "--version"]);
   ("node", ["node"; "--version"]); ("go", ["go"; "version"]); ("cmake", ["cmake"; "--version"]);
   ("nvidia-smi", ["nvidia-smi"]); ("pip list", ["pip"; "list"]); ("pip freeze", ["pip"; "freeze"])].

(** The exception of [subprocess.run] for a command that is not installed. *)
Definition FileNotFoundError : exn := OtherError "FileNotFoundError".

(** The lines one tool adds. *)
Definition tool_lines (tool : string * list string) : result (list text) :=
  let '(name, cmd) := tool in
  match o.(o_run) cmd with
  | Ok r =>
      Ok (title name :: (r.(stdout) ++ r.(stderr)) ::
          (if bool_decide (name = "nvidia-smi") && negb (r.(returncode) =? 0)
           then [codes "NO GPU (nvidia-smi failed)"] else []))
  | Raise e =>
      if bool_decide (e = FileNotFoundError)
      then Ok [title name; codes ("NOT FOUND: " +:+ default "" (head cmd))]
      else Raise e
  end.

Definition memory_command : list string :=
  ["powershell"; "-Command";
   "(Get-CimInstance Win32_OperatingSystem | Select TotalVisibleMemorySize,FreePhysicalMemory | Format-List | Out-String)"].

(** The lines of the log; [disk] is what [shutil.disk_usage] gives: free and total bytes. *)
Definition phase0 (disk : result (Z * Z)) : result (list text) :=
  rbind (rmap tool_lines tools) (fun tool_lines =>
  rbind disk (fun '(free, total) =>
  let memory :=
    match o.(o_run) memory_command with
    | Ok r => title "Memory" ++ 10 :: r.(stdout)
    | Raise e => codes "memory query failed: " ++ o.(o_exn) e
    end in
  Ok ([codes "=== PHASE 0 " ++ 8212 :: codes " Environment Fingerprint ==="; codes "Timestamp: " ++ o.(o_now)] ++
      mjoin tool_lines ++
      [title "Disk C:" ++ 10 :: codes "free=" ++ number free ++ codes " total=" ++ number total; memory]))).

(** *** Phase 1: static integrity *)

Definition git_log : script unit :=
  for_each git_commands tt (fun '(name, cmd) _ =>
    do r <- lift (o.(o_run) cmd); log (title name ++ 10 :: r.(stdout) ++ r.(stderr))).

(** [p for p in ROOT.rglob("*.py") if ".venv_audit" not in str(p)] *)
Definition audited : list string :=
  List.filter (fun p => negb (contains (codes ".venv_audit") (codes p))) o.(o_py_files).

Definition compile_log : script unit :=
  log (title "py_compile") ;;
  do errors <- for_each audited [] (fun py errors =>
    do r <- lift (o.(o_run) (compile_command o py));
    if r.(returncode) =? 0 then sret errors
    else log (codes ("FAIL " +:+ py +:+ ": ") ++ r.(stderr)) ;; sret (errors ++ [py]));
  log (codes "Total " ++ count_of audited ++ codes " files, " ++ count_of errors ++ codes " compile errors").

Definition import_log : script unit :=
  log (title "imports") ;;
  for_each ["vllm_port"; "vllm_port.smollm3"] tt (fun m _ =>
    do r <- lift (o.(o_run) [o.(o_python); "-c"; "import " +:+ m +:+ "; print('ok')"]);
    log (codes (m +:+ ": exit=") ++ number r.(returncode) ++ 32 :: r.(stdout) ++ r.(stderr))).

Definition ruff_log : script unit :=
  log (title "ruff F,E9") ;;
  do r <- lift (o.(o_run) ["ruff"; "check"; "."; "--select=F,E9"]);
  log (r.(stdout) ++ r.(stderr) ++ 10 :: codes "exit=" ++ number r.(returncode)).

(** One configuration file: here yaml is imported without a guard, and everything under the
    audit environment is left out. *)
Definition parse_counted (toml yaml : text -> result unit) (f : AuditFile) (n : Z) : script Z :=
  if negb f.(af_is_file) || negb (is_config f.(af_suffix)) then sret n
  else if contains (codes ".venv_audit") (codes f.(af_path)) then sret n
  else
    match rbind f.(af_text) (fun t =>
            match f.(af_suffix) with
            | Json => o.(o_json) t
            | Toml => toml t
            | _ => yaml t
            end) with
    | Ok _ => sret n
    | Raise e => log (codes ("PARSE FAIL " +:+ f.(af_path) +:+ ": ") ++ o.(o_exn) e) ;; sret (n + 1)
    end.

Definition parse_log : script unit :=
  log (title "config parse") ;;
  do toml <- lift o.(o_tomllib);
  do yaml <- lift (match o.(o_yaml) with
                   | Some y => Ok y
                   | None => Raise (OtherError "ModuleNotFoundError")
                   end);
  do n <- for_each o.(o_tree) 0 (parse_counted toml yaml);
  log (codes "parse errors: " ++ number n).

(** [m.group(1).rstrip("/")] and [ref.split("/")[0]] *)
Fixpoint lstrip_char (c : Z) (t : text) : text :=
  match t with
  | x :: t' => if x =? c then lstrip_char c t' else t
  | [] => []
  end.
Definition rstrip_slash (t : text) : text := reverse (lstrip_char 47 (reverse t)).
Fixpoint first_part (t : text) : text :=
  match t with
  | x :: t' => if x =? 47 then [] else x :: first_part t'
  | [] => []
  end.

Definition copy_pattern : re * re := (Cat (lit "COPY") (Plus (CSet SpaceCh)), Plus (CSet NotSpace)).

Definition copy_dangles (ref : text) : bool :=
  negb (o.(o_exists) ref) && negb (o.(o_exists) (first_part ref)) && negb (o.(o_exists) ref).

(** Every COPY of a file ([name] is its name in its directory). *)
Definition dangling_log : script unit :=
  log (title "dangling refs (Docker/compose)") ;;
  do dangling <- for_each (mjoin (map (fun '(name, t) => map (fun g => (name, rstrip_slash g)) (groups t copy_pattern)) o.(o_ref_files)))
    [] (fun '(name, ref) dangling =>
      if copy_dangles ref then
        log (codes ("DANGLING COPY " +:+ name +:+ ": ") ++ ref) ;; sret (dangling ++ [(name, ref)])
      else sret dangling);
  log (codes "dangling: " ++ count_of dangling).

Definition phase1 : script unit :=
  write (codes "=== PHASE 1 ===" ++ 10 :: o.(o_now) ++ [10]) ;;
  git_log ;; compile_log ;; import_log ;; ruff_log ;; parse_log ;; dangling_log.
End RunAudit.

(** *** Phases 2 and 3: installation and tests *)

(** [str.splitlines()]: the line boundaries, and carriage return and line feed as one. *)
Definition is_line_end (c : Z) : bool :=
  in_range 10 13 c || in_range 28 30 c || (c =? 133) || (c =? 8232) || (c =? 8233).

(** [cr]: the last character was a carriage return. *)
Fixpoint splitlines_loop (cr : bool) (line : text) (t : text) : list text :=
  match t with
  | [] => if bool_decide (line = []) then [] else [reverse line]
  | c :: t' =>
      if cr && (c =? 10) then splitlines_loop false line t'
      else if is_line_end c then reverse line :: splitlines_loop (c =? 13) [] t'
      else splitlines_loop false (c :: line) t'
  end.

Definition splitlines (t : text) : list text := splitlines_loop false [] t.

(** [warns[w] = warns.get(w, 0) + 1], in insertion order. *)
Fixpoint tally1 (w : text) (d : list (text * Z)) : list (text * Z) :=
  match d with
  | [] => [(w, 1)]
  | (w', n) :: d' => if bool_decide (w = w') then (w', n + 1) :: d' else (w', n) :: tally1 w d'
  end.

Section Phases.
Context {U : Unicode} (o : Outside).

Definition is_warning (line : text) : bool :=
  contains (codes "Warning") line || contains (codes "warning") (lower line).

Definition tally (lines : list text) : list (text * Z) :=
  fold_left (fun d line => if is_warning line then tally1 (strip line) d else d) lines [].

Definition more_frequent (p q : text * Z) : Prop := q.2 <= p.2.

#[global] Instance more_frequent_dec p q : Decision (more_frequent p q).
Proof. unfold more_frequent. apply _. Defined.

(** [sorted(warns.items(), key=lambda x: -x[1])] *)
Definition ranked (d : list (text * Z)) : list (text * Z) := merge_sort more_frequent d.

Definition warning_line (p : text * Z) : text := number p.2 ++ codes "x " ++ p.1.

(** The files of phase 3 (the log with its last line, the warnings) and the exit code;
    [pytest] is the exit code and what the run wrote into the log. *)
Definition phase3 (pytest : result (Z * text)) : result (text * list text * Z) :=
  rbind pytest (fun '(code, out) =>
  let log := out ++ 10 :: 10 :: codes "=== pytest exit code: " ++ number code ++ codes " ===" ++ [10] in
  Ok (log, map warning_line (ranked (tally (splitlines log))), code)).

Definition pip_install (pip req : string) : list string := [pip; "install"; "-r"; req].

Fixpoint install_loop (pip : string) (reqs : list string) (lines : list text) : result (list text * bool) :=
  match reqs with
  | [] => Ok (lines, true)
  | req :: reqs' =>
      rbind (o.(o_run) (pip_install pip req)) (fun r =>
      let lines' := lines ++ [title ("pip install -r " +:+ req);
                              codes "exit=" ++ number r.(returncode) ++ 10 :: r.(stdout) ++ 10 :: r.(stderr)] in
      if r.(returncode) =? 0 then install_loop pip reqs' lines' else Ok (lines', false))
  end.

(** The log of phase 2 and whether both installations succeeded; [venv] is the creation of the
    environment. *)
Definition phase2 (venv : result unit) (pip : string) : result (list text * bool) :=
  rbind venv (fun _ =>
  install_loop pip ["requirements.txt"; "requirements-dev.txt"]
    [codes "=== PHASE 2 " ++ 8212 :: codes " Clean venv install ==="; o.(o_now)]).

(** What the script as a whole leaves behind: which phases were entered and how it ended. *)
Inductive phase := Phase0 | Phase1 | Phase2 | Phase3.

Definition run_audit (disk : result (Z * Z)) (venv : result unit) (pip : string)
    (pytest : result (Z * text)) : list phase * result unit :=
  match phase0 o disk with
  | Raise e => ([Phase0], Raise e)
  | Ok _ =>
      match (phase1 o).2 with
      | Raise e => ([Phase0; Phase1], Raise e)
      | Ok _ =>
          match phase2 venv pip with
          | Raise e => ([Phase0; Phase1; Phase2], Raise e)
          | Ok (_, false) => ([Phase0; Phase1; Phase2], Ok tt)
          | Ok (_, true) =>
              ([Phase0; Phase1; Phase2; Phase3],
               match phase3 pytest with Ok _ => Ok tt | Raise e => Raise e end)
          end
      end
  end.
End Phases.

(** ** Properties of the audit *)

Lemma tally1_keys w d : NoDup (map fst d) -> NoDup (map fst (tally1 w d)) /\ (forall k, k ∈ map fst (tally1 w d) <-> k = w \/ k ∈ map fst d).
Proof.
  induction d as [|[w' n] d IH]; cbn [tally1 map fst]; intros Hd.
  - split; [apply NoDup_singleton|]. intros k. rewrite elem_of_cons, elem_of_nil. naive_solver.
  - apply NoDup_cons in Hd as [Hn Hd]. destruct (IH Hd) as [H1 H2]. case_bool_decide as E; cbn [map fst].
    + subst. split; [by constructor|]. intros k. rewrite elem_of_cons. naive_solver.
    + split; [constructor; [rewrite H2; naive_solver|done]|]. intros k. rewrite !elem_of_cons, H2. naive_solver.
Qed.

(** The count of [k], 0 if it is not there. *)
Fixpoint tally_of (k : text) (d : list (text * Z)) : Z :=
  match d with
  | [] => 0
  | (w, n) :: d' => if bool_decide (k = w) then n else tally_of k d'
  end.

Lemma tally1_of w k d : tally_of k (tally1 w d) = tally_of k d + (if bool_decide (k = w) then 1 else 0).
Proof.
  induction d as [|[w' n] d IH]; cbn [tally1 tally_of]; [by case_bool_decide|].
  repeat case_bool_decide; subst; cbn [tally_of]; repeat case_bool_decide; subst; try done; try lia.
Qed.

Lemma tally1_sum w d : foldr (fun p acc => p.2 + acc) 0 (tally1 w d) = foldr (fun p acc => p.2 + acc) 0 d + 1.
Proof.
  induction d as [|[w' n] d IH]; cbn [tally1 foldr snd]; [done|].
  case_bool_decide; cbn [foldr snd]; [lia|]. rewrite IH. lia.
Qed.

Section AuditProperties.
Context {U : Unicode} (o : Outside).

Lemma tally_snoc lines line :
  tally (lines ++ [line]) = if is_warning line then tally1 (strip line) (tally lines) else tally lines.
Proof. unfold tally. by rewrite fold_left_app. Qed.

Lemma tally_nodup lines : NoDup (map fst (tally lines)).
Proof.
  induction lines as [|line lines IH] using rev_ind; [constructor|]. rewrite tally_snoc.
  destruct (is_warning line); [|done]. by apply tally1_keys.
Qed.

Lemma count_if_snoc {A} (p : A -> bool) l x : count_if p (l ++ [x]) = count_if p l + (if p x then 1 else 0).
Proof. unfold count_if. rewrite List.filter_app, length_app. cbn. destruct (p x); cbn; lia. Qed.

Lemma tally_count lines k :
  tally_of k (tally lines) = count_if (fun l => is_warning l && bool_decide (k = strip l)) lines.
Proof.
  induction lines as [|line lines IH] using rev_ind; [done|]. rewrite tally_snoc, count_if_snoc, <- IH.
  destruct (is_warning line); cbn [andb]; [apply tally1_of|lia].
Qed.

Definition total (d : list (text * Z)) : Z := foldr (fun p acc => p.2 + acc) 0 d.

Lemma tally_total lines : total (tally lines) = count_if is_warning lines.
Proof.
  induction lines as [|line lines IH] using rev_ind; [done|]. rewrite tally_snoc, count_if_snoc, <- IH.
  destruct (is_warning line); [apply tally1_sum|lia].
Qed.

#[local] Instance total_proper : Proper ((≡ₚ) ==> (=)) total.
Proof. intros d d' H. unfold total. induction H; cbn; lia. Qed.

Lemma ranked_perm d : ranked d ≡ₚ d.
Proof. apply merge_sort_Permutation. Qed.

(** The summary of warnings: every warning line of the log is counted under its stripped text and
    nothing else is; each text appears once; the counts add up to the number of warning
    lines; and the summary lists them with the most frequent first. *)
Theorem warnings_summary lines :
  let s := ranked (tally lines) in
  s ≡ₚ tally lines /\ NoDup (map fst s) /\ StronglySorted more_frequent s /\
  (forall k, tally_of k (tally lines) = count_if (fun l => is_warning l && bool_decide (k = strip l)) lines) /\
  total s = count_if is_warning lines.
Proof.
  cbv zeta. split; [apply ranked_perm|]. split; [rewrite ranked_perm; apply tally_nodup|].
  split; [|split; [apply tally_count|rewrite ranked_perm; apply tally_total]].
  apply Sorted_StronglySorted; [intros x y z; unfold more_frequent; lia|].
  apply Sorted_merge_sort. intros x y. unfold more_frequent. lia.
Qed.

Lemma install_loop_true pip reqs lines lines' :
  install_loop o pip reqs lines = Ok (lines', true) <->
  (exists rs, Forall2 (fun req r => o.(o_run) (pip_install pip req) = Ok r /\ returncode r = 0) reqs rs /\
     lines' = lines ++ mjoin (zip_with (fun req r => [title ("pip install -r " +:+ req);
       codes "exit=" ++ number r.(returncode) ++ 10 :: r.(stdout) ++ 10 :: r.(stderr)]) reqs rs)).
Proof.
  revert lines. induction reqs as [|req reqs IH]; intros lines; cbn [install_loop].
  - split; [intros [= <-]; exists []; split; [constructor|cbn; by rewrite app_nil_r]|].
    intros (rs & Hrs & ->). apply Forall2_nil_inv_l in Hrs as ->. cbn. by rewrite app_nil_r.
  - destruct (o_run o (pip_install pip req)) as [r|e] eqn:Er; cbn [rbind].
    2: { split; [done|]. intros (rs & Hrs & _). apply Forall2_cons_inv_l in Hrs as (r & rs' & [H _] & _). congruence. }
    destruct (Z.eqb_spec (returncode r) 0) as [E|E].
    2: { split; [done|]. intros (rs & Hrs & _). apply Forall2_cons_inv_l in Hrs as (r' & rs' & [H ?] & _). congruence. }
    rewrite IH. split.
    + intros (rs & Hrs & ->). exists (r :: rs). split; [by constructor|]. cbn. by rewrite <- app_assoc.
    + intros (rs & Hrs & ->). apply Forall2_cons_inv_l in Hrs as (r' & rs' & [H ?] & Hrs & ->).
      rewrite Er in H. injection H as <-. exists rs'. split; [done|]. cbn. by rewrite <- app_assoc.
Qed.

Lemma forall_choice {A B} (P : A -> B -> Prop) l : Forall (fun x => exists y, P x y) l -> exists ys, Forall2 P l ys.
Proof. induction 1 as [|x l (y & Hy) _ (ys & Hys)]; [by exists []|]. exists (y :: ys). by constructor. Qed.

(** The tests of the audit run exactly when everything before them succeeded: the fingerprint and
    the static phase did not raise, the environment could be created, and both requirement
    files were installed with exit code 0; a failed installation ends the audit quietly,
    without the second installation or the tests. *)
Theorem tests_need_installation disk venv pip pytest :
  Phase3 ∈ (run_audit o disk venv pip pytest).1 <->
  (exists ls, phase0 o disk = Ok ls) /\ (phase1 o).2 = Ok tt /\ venv = Ok tt /\
  Forall (fun req => exists r, o.(o_run) (pip_install pip req) = Ok r /\ returncode r = 0)
    ["requirements.txt"; "requirements-dev.txt"].
Proof.
  unfold run_audit. destruct (phase0 o disk) as [ls|e].
  2: { split; [set_solver|]. intros ((ls & [=]) & _). }
  destruct (phase1 o).2 as [[]|e].
  2: { split; [set_solver|]. intros (_ & [=] & _). }
  unfold phase2. destruct venv as [[]|e]; cbn [rbind].
  2: { split; [set_solver|]. intros (_ & _ & [=] & _). }
  match goal with |- context [install_loop o pip ?r ?l] => set (l0 := l); set (rq := r) end.
  destruct (install_loop o pip rq l0) as [[lines' []]|e] eqn:E.
  - split; [intros _|set_solver]. split; [by exists ls|]. split; [done|]. split; [done|].
    apply install_loop_true in E as (rs & Hrs & _). clear -Hrs. induction Hrs; constructor; eauto.
  - split; [set_solver|]. intros (_ & _ & _ & H). apply forall_choice in H as (rs & Hrs).
    pose proof (proj2 (install_loop_true pip rq l0 _) (ex_intro _ rs (conj Hrs eq_refl))). congruence.
  - split; [set_solver|]. intros (_ & _ & _ & H). apply forall_choice in H as (rs & Hrs).
    pose proof (proj2 (install_loop_true pip rq l0 _) (ex_intro _ rs (conj Hrs eq_refl))). congruence.
Qed.

(** The references the static checks report: the distinct references of the scanned files that
    name no variable and exist nowhere, whatever the order of the files. *)
Lemma dangling_reported src ref :
  (exists l, (dangling_section o).2 = Ok l /\ (src, ref) ∈ l) <->
  (exists name t p, (name, t) ∈ o.(o_ref_files) /\ p ∈ ref_patterns /\ src = codes name /\ ref ∈ groups t p) /\
  is_dangling o ref = true.
Proof.
  rewrite dangling_section_refs.
  trans ((src, ref) ∈ omap (fun r => if is_dangling o r.2 then Some r else None)
                        (merge_sort ref_le (refs_of (o_ref_files o)))).
  { split; [by intros (l & [= <-] & ?)|eauto]. }
  rewrite list_elem_of_omap. trans ((src, ref) ∈ merge_sort ref_le (refs_of (o_ref_files o)) /\ is_dangling o ref = true).
  { split.
    - intros ([s r] & Hin & Hs). cbn in Hs. destruct (is_dangling o r) eqn:E; [|done]. by injection Hs as <- <-.
    - intros [Hin Hd]. exists (src, ref). cbn. by rewrite Hd. }
  f_equiv. rewrite merge_sort_Permutation. unfold refs_of. rewrite elem_of_remove_dups, list_elem_of_join.
  split.
  - intros (l & Hsr & Hl). apply list_elem_of_fmap in Hl as ([name t] & -> & Hf).
    apply list_elem_of_fmap in Hsr as (g & [= -> ->] & Hg). apply list_elem_of_join in Hg as (gs & Hg & Hgs).
    apply list_elem_of_fmap in Hgs as (p & -> & Hp). by exists name, t, p.
  - intros (name & t & p & Hf & Hp & -> & Hg). eexists. split; [|apply list_elem_of_fmap; exists (name, t); split; [done|exact Hf]].
    apply list_elem_of_fmap. exists ref. split; [done|]. apply list_elem_of_join. eexists. split; [exact Hg|].
    apply list_elem_of_fmap. by exists p.
Qed.

(** The audit's own check never reports a missing file below an existing directory. *)
Lemma missing_file_unreported ref : o.(o_exists) (first_part ref) = true -> copy_dangles o ref = false.
Proof. intros H. unfold copy_dangles. rewrite H. by rewrite andb_false_r. Qed.
End AuditProperties.

(** ** Witnesses *)

Definition demo_outside : Outside :=
  mkOutside [] "python"
    (fun cmd => Ok (mkProc (if bool_decide ("bad.py" ∈ cmd) then 1 else 0) [] (codes "error")))
    ["good.py"; "bad.py"; ".venv_audit/bad.py"]
    [mkFile "a.json" true Json (Ok []); mkFile "b.txt" true OtherSuffix (Ok [])]
    [("docker/Dockerfile", codes "COPY  src/app /app")]
    (fun _ => false) (fun _ => false) (fun _ => Ok tt) (Ok (fun _ => Ok tt)) None (fun _ => []).

(** A file that does not compile, and Python 3.10. *)
Lemma bad_file_exit : phase1_exit demo_outside = 1.
Proof. reflexivity. Qed.

Definition old_python : Outside :=
  mkOutside [] "python" (fun _ => Ok (mkProc 0 [] [])) [] [] [] (fun _ => true) (fun _ => true) (fun _ => Ok tt)
    (Raise (OtherError "ModuleNotFoundError: tomllib")) None (fun _ => []).

Lemma old_python_exit : phase1_exit old_python = 1.
Proof. reflexivity. Qed.

Example copy_groups : groups (codes "COPY  src/app /app") copy_pattern = [codes "src/app"].
Proof. reflexivity. Qed.

Example quoted_group :
  mjoin (map (groups (codes "models_dir: 'models'")) ref_patterns) = [codes "models"].
Proof. reflexivity. Qed.

Example volume_group :
  mjoin (map (groups (codes "volumes:" ++ 10 :: codes "  - ./models:/models")) ref_patterns) = [codes "./models:/models"].
Proof. reflexivity. Qed.
