(* ===== verification/SmokeTests.v ===== *)
(** * The smoke scripts (audit_scripts/phase4_6_7.py and smoke_tests.py)

    Two scripts that exercise the model, the predictor and the gateway and keep
    what they printed in log files.  [phase4_6_7.py] hands program texts to
    [python -c]; [smoke_tests.py] calls the same code as functions, each inside a
    handler that writes the traceback to a file.  A script is a computation
    that prints, writes files and may raise.

    What the scripts depend on of the Python language is modelled: the names a
    program run by [-c] finds defined, how the arguments of a call are bound to a
    signature, which names a module binds, where [nonlocal] is allowed.  The
    modules installed beside the repository, the text of pages and tracebacks
    and the clocks are a record of parameters. *)
From Stdlib Require Import ZArith Lia.
From stdpp Require Import base option list strings gmap pretty.
From S2P Require Import Prelude PyFloat Heapq Features Predictor Aging.
From S2P Require Import PriorityQueue BaseScheduler Fcfs Sjf Gateway SmolLM3 PyText SmolShapes App AuditScripts.
Local Open Scope string_scope.
Local Open Scope list_scope.
Local Open Scope Z_scope.

(** ** Computations that print and write files *)

Inductive effect :=
| Printed (t : text)
| Appended (name : string) (t : text)
| Written (name : string) (t : text).

Definition io (A : Type) : Type := list effect * result A.

Definition iret {A} (a : A) : io A := ([], Ok a).
Definition ibind {A B} (m : io A) (k : A -> io B) : io B :=
  match m with
  | (w, Ok a) => let '(w', r) := k a in (w ++ w', r)
  | (w, Raise e) => (w, Raise e)
  end.
Definition pure {A} (r : result A) : io A := ([], r).
Definition print (t : text) : io unit := ([Printed t], Ok tt).

Declare Scope io_scope.
Delimit Scope io_scope with io.
Notation "x <~ m ; k" := (ibind m (fun x => k))
  (at level 100, m at level 99, k at level 200, right associativity) : io_scope.
Notation "m1 ;~ m2" := (ibind m1 (fun _ => m2))
  (at level 100, m2 at level 200, right associativity) : io_scope.
Local Open Scope io_scope.

(** [try: body except Exception as e: handler] *)
Definition try_except (body : io unit) (handler : exn -> io unit) : io unit :=
  match body with
  | (w, Ok tt) => (w, Ok tt)
  | (w, Raise e) => let '(w', r) := handler e in (w ++ w', r)
  end.

Fixpoint each {A} (xs : list A) (body : A -> io unit) : io unit :=
  match xs with
  | [] => iret tt
  | x :: xs' => body x ;~ each xs' body
  end.

(** The text on standard output. *)
Definition stdout_of (w : list effect) : text :=
  mjoin (map (fun e => match e with Printed t => t ++ [10] | _ => [] end) w).

(** What the effects make of the files of the log directory. *)
Definition apply_effect (files : gmap string text) (e : effect) : gmap string text :=
  match e with
  | Printed _ => files
  | Appended name t => <[name := default [] (files !! name) ++ t]> files
  | Written name t => <[name := t]> files
  end.

Definition files_after (w : list effect) (files : gmap string text) : gmap string text :=
  fold_left apply_effect w files.

(** ** The language *)

Definition NameError (x : string) : exn := OtherError ("NameError: name '" +:+ x +:+ "' is not defined").
Definition ImportError (x : string) : exn := OtherError ("ImportError: cannot import name '" +:+ x +:+ "'").
Definition SyntaxError (m : string) : exn := OtherError ("SyntaxError: " +:+ m).
Definition AttributeError (x : string) : exn := OtherError ("AttributeError: " +:+ x).

(** The names of a fresh main module; a program read from a file also has [__file__]. *)
Definition main_names : list string :=
  ["__name__"; "__doc__"; "__package__"; "__loader__"; "__spec__"; "__builtins__"].

Definition load_name (globals : list string) (x : string) : result unit :=
  if bool_decide (x ∈ globals) then Ok tt else Raise (NameError x).

(** A signature without [self]: each parameter with whether it has a default. *)
Record Signature := mkSignature {
  sig_positional : list (string * bool);
  sig_kwonly : list (string * bool);
}.

(** Binding [n] positional arguments and the keywords [kws]. *)
Definition bind_arguments (s : Signature) (n : nat) (kws : list string) : result unit :=
  let names := map fst (s.(sig_positional) ++ s.(sig_kwonly)) in
  let given := map fst (take n s.(sig_positional)) ++ kws in
  let required := map fst (List.filter (fun p => negb p.2) (s.(sig_positional) ++ s.(sig_kwonly))) in
  if (length s.(sig_positional) <? n)%nat then Raise (TypeError "takes fewer positional arguments")
  else if negb (forallb (fun k => bool_decide (k ∈ names)) kws) then Raise (TypeError "unexpected keyword argument")
  else if negb (bool_decide (NoDup given)) then Raise (TypeError "multiple values for argument")
  else if negb (forallb (fun r => bool_decide (r ∈ given)) required) then Raise (TypeError "missing required argument")
  else Ok tt.

(** The scopes around a statement, innermost first. *)
Inductive scope := FunctionScope (binds : list string) | ClassScope (binds : list string).

(** [nonlocal x] wants an enclosing function that binds [x]; classes and the module do not count. *)
Definition nonlocal_ok (enclosing : list scope) (x : string) : bool :=
  existsb (fun s => match s with FunctionScope b => bool_decide (x ∈ b) | ClassScope _ => false end) enclosing.

(** ** The code under test, as the scripts see it *)

(** The names the modules of the repository that the scripts import always bind. *)
Definition module_binds (m : string) : option (list string) :=
  if bool_decide (m = "vllm_port.smollm3") then
    Some ["annotations"; "Iterable"; "List"; "Optional"; "Tuple"; "Union"; "torch"; "nn"; "_VLLM_AVAILABLE"; "_cfg";
          "SmolLM3MLP"; "SmolLM3Attention"; "SmolLM3DecoderLayer"; "SmolLM3Model"; "SmolLM3ForCausalLM"]
  else if bool_decide (m = "predictor.model") then
    Some ["annotations"; "dataclass"; "Optional"; "torch"; "nn"; "NUM_FEATURES"; "ModelConfig"; "OutputLengthMLP"; "huber_loss"]
  else if bool_decide (m = "predictor.trainer") then
    Some ["annotations"; "dataclass"; "field"; "Path"; "Any"; "Optional"; "np"; "torch"; "nn"; "AdamW"; "CosineAnnealingLR";
          "DataLoader"; "TensorDataset"; "DatasetSplits"; "OutputLengthDataset"; "ModelConfig"; "OutputLengthMLP";
          "huber_loss"; "logging"; "math"; "os"; "random"; "logger"; "TrainConfig"; "TrainMetrics"; "TrainResult";
          "Trainer"; "_regression_metrics"; "pearson_spearman"]
  else if bool_decide (m = "predictor.dataset") then
    Some ["annotations"; "csv"; "hashlib"; "json"; "logging"; "mp"; "dataclass"; "field"; "Path"; "Any"; "Callable"; "Optional";
          "Sequence"; "np"; "FeatureExtractor"; "logger"; "Sample"; "DatasetSplits"; "_hash_prompt";
          "_estimate_tokens"; "OutputLengthDataset"; "_parallel_extract_work"; "parallel_extract"]
  else if bool_decide (m = "predictor.export") then
    Some ["annotations"; "json"; "subprocess"; "asdict"; "dataclass"; "datetime"; "timezone"; "Path"; "Optional"; "np"; "torch";
          "FEATURE_NAMES"; "NUM_FEATURES"; "ModelConfig"; "OutputLengthMLP"; "ExportMetadata"; "export_model"; "_git_sha"]
  else None.

(** [SmolLM3ForCausalLM.__init__] and [forward]. *)
Definition causal_init_signature : Signature :=
  mkSignature [] [("vllm_config", true); ("prefix", true); ("config", true); ("cache_config", true); ("quant_config", true)].

Definition causal_forward_signature : Signature :=
  mkSignature [("input_ids", false); ("positions", false); ("kv_caches", true); ("attn_metadata", true);
               ("intermediate_tensors", true); ("inputs_embeds", true)] [].

(** The requests of the scripts reach an application whose lifespan has not run: the
    client's transport sends requests, not the start-up.  [app.state.gateway] is then unset;
    the pages that do not read it answer as ever. *)
Definition unstarted_run (w : World) (e : endpoint) (rq : HttpRequest) : http_outcome :=
  match e with
  | Documentation => Respond 200 (Content (w.(w_docs) rq.(rq_path)))
  | Health => Respond 200 (StatusIs "ok")
  | Live => Respond 200 (StatusIs "alive")
  | MetricsPage => Respond 200 (MetricsText w.(w_metrics))
  | ChatCompletions =>
      match w.(w_decode) rq.(rq_body) with
      | None => ServerError (ValueError "JSONDecodeError")
      | Some _ => ServerError (AttributeError "gateway")
      end
  | ReadyPage | StatsPage | Proxy => ServerError (AttributeError "gateway")
  end.

(** What the scripts obtain from outside. *)
Record Lab := mkLab {
  l_import : string -> result unit;          (* importing a module, or a name of one *)
  l_launch : result unit;                    (* starting a process *)
  l_now : string -> text;
  l_ms : string -> text;                     (* a rounded duration *)
  l_dtype : text;
  l_finite : text;
  l_traceback : exn -> text;
  l_page : page -> text;
  l_chat_json : string -> string;            (* the JSON of a chat body with this content *)
  l_results : list (result Z) -> text;       (* the representation of a list of answers *)
  l_world : World;
  l_config : result GatewayConfig;
  l_router : list Route -> http_method -> string -> option Route;
  l_answer : http_outcome -> result (Z * page); (* what the client returns for the end of a handler *)
}.

(** The documented behaviour of the in-process transport: an exception of the application
    is raised in the client. *)
Definition raises_app_exceptions (l : Lab) : Prop :=
  forall e, exists e', l.(l_answer) (ServerError e) = Raise e'.

Section Scripts.
Context (l : Lab).

Definition imports (ms : list string) : io unit := each ms (fun m => pure (l.(l_import) m)).

(** [from m import n] *)
Definition import_from (m n : string) : io unit :=
  pure (l.(l_import) m) ;~
  pure (match module_binds m with
        | Some names => if bool_decide (n ∈ names) then Ok tt else Raise (ImportError n)
        | None => l.(l_import) (m +:+ "." +:+ n)
        end).

(** [SmolLM3ForCausalLM(...)] with [n] positional arguments and keywords [kws]. *)
Definition new_model (n : nat) (kws : list string) (cfg : SmolConfig) : io modules :=
  pure (rbind (bind_arguments causal_init_signature n kws) (fun _ => causal_init cfg None "")).

(** [client.get] and [client.post] *)
Definition ask (m : http_method) (path body : string) : io (Z * page) :=
  let rq := mkHttp m path "" [] body in
  pure (l.(l_answer) (match l.(l_router) app_routes m path with
                      | Some r => unstarted_run l.(l_world) r.(rt_endpoint) rq
                      | None => NoRoute
                      end)).

(** [sep.join(ts)] *)
Fixpoint join_text (sep : text) (ts : list text) : text :=
  match ts with
  | [] => []
  | [t] => t
  | t :: ts' => t ++ sep ++ join_text sep ts'
  end.

(** [print(a, b, ...)] and ["\n".join(lines)] *)
Definition print_words (ts : list text) : io unit := print (join_text [32] ts).
Definition lines : list text -> text := join_text [10].
Definition bool_text (b : bool) : text := codes (if b then "True" else "False").

(** ** The checks of the model *)

Definition smoke_config (layers : Z) : SmolConfig :=
  {| hidden_size := Some 256; intermediate_size := Some 512; num_hidden_layers := Some layers;
     num_attention_heads := Some 8; num_key_value_heads := Some 2; head_dim := Some 32; vocab_size := Some 256;
     nope_layer_interval := Some 2; tie_word_embeddings := Some true |}.

(** Making the model from one positional argument and running it on ids of shape [2, 16]. *)
Definition forward_shape : io shape :=
  new_model 1 [] (smoke_config 4) ;~
  pure (bind_arguments causal_forward_signature 1 []) ;~
  hidden <~ pure (model_shape (smoke_config 4) 2 16);
  iret (tail hidden).                       (* [out[0]]: a tensor has no [logits] *)

(** The text of a tuple. *)
Definition shape_text (s : shape) : text :=
  codes "(" ++ match s with [n] => number n ++ codes "," | _ => join_text (codes ", ") (map number s) end ++ codes ")".

(** [data_ptr()] of a weight: each module of the tree has storage of its own. *)
Definition weight_ptr (ms : modules) (name : string) : option nat :=
  fst <$> list_find (fun p => p = name +:+ ".weight") (parameter_names ms).

Definition shares_embedding (ms : modules) : bool :=
  bool_decide (weight_ptr ms "lm_head" = weight_ptr ms "model.embed_tokens").

Definition rope_line (cfg : SmolConfig) (i : nat) : result text :=
  rbind (attention_dims cfg None (Z.of_nat i)) (fun d =>
  Ok (codes "layer " ++ number (Z.of_nat i) ++ codes ": use_rope=" ++ bool_text d.(a_use_rope))).

Definition rope_lines (cfg : SmolConfig) : result (list text) :=
  rmap (rope_line cfg) (seq 0 (Z.to_nat (default 32 cfg.(num_hidden_layers)))).

Definition untied (cfg : SmolConfig) : SmolConfig :=
  {| hidden_size := cfg.(hidden_size); intermediate_size := cfg.(intermediate_size);
     num_hidden_layers := cfg.(num_hidden_layers); num_attention_heads := cfg.(num_attention_heads);
     num_key_value_heads := cfg.(num_key_value_heads); head_dim := cfg.(head_dim); vocab_size := cfg.(vocab_size);
     nope_layer_interval := cfg.(nope_layer_interval); tie_word_embeddings := Some false |}.

(** ** The checks of the gateway *)

Definition page_paths : list string := ["/health"; "/metrics"; "/scheduler/stats"].

Definition chat_path : string := "/v1/chat/completions".

(** [one(i)]: the status, or the text of the exception; fifty of them are gathered. *)
Definition one (i : nat) : result Z :=
  match (ask POST chat_path (l.(l_chat_json) (pretty i))).2 with
  | Ok (status, _) => Ok status
  | Raise e => Raise e
  end.

Definition fifty : list (result Z) := map one (seq 0 50).

(** [sum(1 for x in results if x != 200)] *)
Definition errors_of (rs : list (result Z)) : nat :=
  length (List.filter (fun r => match r with Ok s => negb (s =? 200) | Raise _ => true end) rs).

(** ** phase4_6_7.py: programs given to [python -c] *)

(** [sys.path.insert(0, dirname(dirname(abspath(__file__))))] *)
Definition insert_parent (globals : list string) : io unit := pure (load_name globals "__file__").

Definition model_program : io unit :=
  imports ["sys"; "os"] ;~ insert_parent main_names ;~ imports ["torch"] ;~
  import_from "vllm_port.smollm3" "SmolLM3ForCausalLM" ;~
  logits <~ forward_shape;
  print_words [codes "shape"; shape_text logits] ;~
  print_words [codes "dtype"; l.(l_dtype)] ;~
  print_words [codes "finite"; l.(l_finite)].

(** The imports of the predictor check; the names of the rest are not bound by any module. *)
Definition predictor_imports : io unit :=
  import_from "predictor.model" "OutputLengthMLP" ;~
  import_from "predictor.trainer" "Trainer" ;~ import_from "predictor.trainer" "TrainConfig" ;~
  import_from "predictor.dataset" "SyntheticDataset" ;~
  import_from "predictor.export" "export_onnx".

Definition predictor_program : io unit :=
  imports ["os"; "sys"; "tempfile"; "numpy"; "torch"] ;~ predictor_imports.

Definition visit (path : string) : io unit :=
  r <~ ask GET path "";
  print_words [codes path; number r.1; l.(l_ms) path; codes "ms"] ;~
  print_words [codes "body"; take 300 (l.(l_page) r.2)].

Definition new_app : io (Gateway AnyScheduler) := pure (create_app l.(l_config) None).

Definition gateway_program : io unit :=
  imports ["asyncio"; "json"; "time"; "httpx"] ;~ import_from "httpx" "ASGITransport" ;~ imports ["sys"] ;~
  import_from "scheduler.gateway" "create_app" ;~
  new_app ;~
  each page_paths visit ;~
  r <~ ask POST chat_path (l.(l_chat_json) "x");
  print_words [codes chat_path; number r.1; l.(l_ms) chat_path; codes "ms"] ;~
  print_words [codes "body"; take 500 (l.(l_page) r.2)].

Definition rope_program : io unit :=
  imports ["sys"; "os"] ;~ insert_parent main_names ;~ imports ["torch"] ;~
  import_from "vllm_port.smollm3" "SmolLM3ForCausalLM" ;~ import_from "vllm_port.smollm3" "SmolLM3Model" ;~
  model <~ new_model 1 [] (smoke_config 8);
  rope <~ pure (rope_lines (smoke_config 8));
  each rope print ;~
  print_words [codes "tie_word_embeddings=True data_ptr_match"; bool_text (shares_embedding model)] ;~
  model2 <~ new_model 1 [] (untied (smoke_config 8));
  print_words [codes "tie_word_embeddings=False data_ptr_differ"; bool_text (negb (shares_embedding model2))].

(** The class of this program declares [nonlocal call_count] in a method; the module is compiled
    before anything of it runs. *)
Definition concurrency_program : io unit :=
  if nonlocal_ok [ClassScope ["handle_async_request"]] "call_count" then
    imports ["asyncio"; "time"; "httpx"] ;~ import_from "httpx" "ASGITransport" ;~ imports ["sys"] ;~
    import_from "scheduler.gateway" "create_app" ;~
    new_app ;~
    print_words [codes "50 concurrent statuses sample"; l.(l_results) (take 10 fifty); codes "errors";
                 number (Z.of_nat (errors_of fifty))] ;~
    print_words [codes "elapsed"; l.(l_ms) "elapsed"] ;~
    r <~ ask GET "/scheduler/stats" "";
    print_words [codes "stats"; take 400 (l.(l_page) r.2)]
  else pure (Raise (SyntaxError "no binding for nonlocal 'call_count' found")).

(** [log(name, text)] of this script: append to the file, print the beginning. *)
Definition log_to (name : string) (t : text) : io unit :=
  ([Appended name (t ++ [10]); Printed (take 500 t)], Ok tt).

(** [subprocess.run([PY, "-c", script], capture_output=True)] *)
Definition python_c (program : io unit) : io Proc :=
  pure l.(l_launch) ;~
  iret match program with
       | (w, Ok _) => mkProc 0 (stdout_of w) []
       | (w, Raise e) => mkProc 1 (stdout_of w) (l.(l_traceback) e)
       end.

Definition phase_header (heading : string) : text := codes ("=== " +:+ heading +:+ " ===") ++ 10 :: l.(l_now) heading.

Definition phase_footer (r : Proc) : text :=
  codes "exit=" ++ number r.(returncode) ++ 10 :: r.(stdout) ++ 10 :: r.(stderr).

Definition run_phase (name heading : string) (program : io unit) : io unit :=
  log_to name (phase_header heading) ;~
  r <~ python_c program;
  log_to name (phase_footer r).

Definition phase4_smollm3 := run_phase "phase4_smollm3.log" "Phase 4a SmolLM3 forward" model_program.
Definition phase4_predictor := run_phase "phase4_predictor.log" "Phase 4b predictor train+onnx" predictor_program.
Definition phase4_gateway := run_phase "phase4_gateway.log" "Phase 4c gateway smoke" gateway_program.
Definition phase7_nope_rope := run_phase "phase7_numerical.log" "Phase 7 NoPE/RoPE + tied embeddings" rope_program.
Definition phase6_concurrency := run_phase "phase6_concurrency.log" "Phase 6 concurrency" concurrency_program.

Definition phases_main : io unit :=
  phase4_smollm3 ;~ phase4_predictor ;~ phase4_gateway ;~ phase7_nope_rope ;~ phase6_concurrency.

(** ** smoke_tests.py: the same checks as functions *)

Definition write_log (name : string) (t : text) : io unit := ([Written name t], Ok tt).

(** A test's last steps: its lines to the log and to standard output. *)
Definition report (name : string) (ls : list text) : io unit := write_log name (lines ls) ;~ print (lines ls).

Definition test_smollm3_forward : io unit :=
  imports ["torch"] ;~ import_from "vllm_port.smollm3" "SmolLM3ForCausalLM" ;~
  logits <~ forward_shape;
  report "phase4_smollm3.log"
    [codes "shape=" ++ shape_text logits; codes "dtype=" ++ l.(l_dtype); codes "finite=" ++ l.(l_finite)].

Definition test_predictor_onnx : io unit :=
  imports ["os"; "tempfile"; "numpy"; "torch"] ;~ predictor_imports.

Definition visit_lines (width : nat) (m : http_method) (path body : string) : io (list text) :=
  r <~ ask m path body;
  iret [codes path ++ codes " status=" ++ number r.1 ++ codes " latency_ms=" ++ l.(l_ms) path;
        codes "body=" ++ take width (l.(l_page) r.2)].

Definition test_gateway : io unit :=
  imports ["asyncio"; "time"; "httpx"] ;~ import_from "httpx" "ASGITransport" ;~
  import_from "scheduler.gateway" "create_app" ;~
  new_app ;~
  health <~ visit_lines 400 GET "/health" "";
  metrics <~ visit_lines 400 GET "/metrics" "";
  stats <~ visit_lines 400 GET "/scheduler/stats" "";
  chat <~ visit_lines 500 POST chat_path (l.(l_chat_json) "hello");
  report "phase4_gateway.log" (health ++ metrics ++ stats ++ chat).

Definition test_nope_rope : io unit :=
  import_from "vllm_port.smollm3" "SmolLM3ForCausalLM" ;~
  model <~ new_model 1 [] (smoke_config 8);
  rope <~ pure (rope_lines (smoke_config 8));
  model2 <~ new_model 1 [] (untied (smoke_config 8));
  report "phase7_numerical.log"
    (rope ++ [codes "tie_word_embeddings=True data_ptr_match=" ++ bool_text (shares_embedding model);
              codes "tie_word_embeddings=False data_ptr_differ=" ++ bool_text (negb (shares_embedding model2))]).

Definition test_concurrency : io unit :=
  imports ["asyncio"; "time"; "httpx"] ;~ import_from "httpx" "ASGITransport" ;~
  import_from "scheduler.gateway" "create_app" ;~
  new_app ;~
  r <~ ask GET "/scheduler/stats" "";
  report "phase6_concurrency.log"
    [codes "50_concurrent_errors=" ++ number (Z.of_nat (errors_of fifty));
     codes "sample_statuses=" ++ l.(l_results) (take 10 fifty);
     codes "elapsed_s=" ++ l.(l_ms) "elapsed"; codes "stats=" ++ take 400 (l.(l_page) r.2)].

Definition smoke_tests : list (string * io unit) :=
  [("test_smollm3_forward", test_smollm3_forward); ("test_predictor_onnx", test_predictor_onnx);
   ("test_gateway", test_gateway); ("test_nope_rope", test_nope_rope); ("test_concurrency", test_concurrency)].

Definition run_test (t : string * io unit) : io unit :=
  try_except
    (print (codes ("=== " +:+ t.1 +:+ " ===")) ;~ t.2 ;~ print (codes (t.1 +:+ " OK")))
    (fun e => write_log (t.1 +:+ ".err.log") (l.(l_traceback) e) ;~ print (l.(l_traceback) e)).

Definition smoke_main : io unit := each smoke_tests run_test.
End Scripts.

(** ** Properties *)

(** What the log of one phase gains. *)
Definition phase_effects (l : Lab) (p : string * string) (r : Proc) : list effect :=
  let t1 := phase_header l p.2 in let t2 := phase_footer r in
  [Appended p.1 (t1 ++ [10]); Printed (take 500 t1); Appended p.1 (t2 ++ [10]); Printed (take 500 t2)].

Definition phase_table : list (string * string) :=
  [("phase4_smollm3.log", "Phase 4a SmolLM3 forward"); ("phase4_predictor.log", "Phase 4b predictor train+onnx");
   ("phase4_gateway.log", "Phase 4c gateway smoke"); ("phase7_numerical.log", "Phase 7 NoPE/RoPE + tied embeddings");
   ("phase6_concurrency.log", "Phase 6 concurrency")].

(** What the failure of one test leaves. *)
Definition failure_effects (l : Lab) (name : string) (e : exn) : list effect :=
  [Printed (codes ("=== " +:+ name +:+ " ===")); Written (name +:+ ".err.log") (l.(l_traceback) e);
   Printed (l.(l_traceback) e)].

(** Computations that fail, whatever they do before, and those that do nothing before. *)
Definition fails {A} (m : io A) : Prop := exists w e, m = (w, Raise e).
Definition silent {A} (m : io A) : Prop := m.1 = [].
Definition dies {A} (m : io A) : Prop := exists e, m = ([], Raise e).

Lemma fails_bind {A B} (m : io A) (k : A -> io B) : (forall a, fails (k a)) -> fails (ibind m k).
Proof.
  intros Hk. destruct m as [w [a|e]]; cbn; [|by exists w, e].
  destruct (Hk a) as (w' & e & ->). by exists (w ++ w'), e.
Qed.

Lemma fails_first {A B} (m : io A) (k : A -> io B) : fails m -> fails (ibind m k).
Proof. intros (w & e & ->). by exists w, e. Qed.

Lemma dies_bind {A B} (m : io A) (k : A -> io B) : silent m -> (forall a, dies (k a)) -> dies (ibind m k).
Proof.
  destruct m as [w [a|e]]; cbn; intros Hm Hk; unfold silent in Hm; cbn in Hm; subst w; [|by exists e].
  destruct (Hk a) as (e & ->). by exists e.
Qed.

Lemma dies_first {A B} (m : io A) (k : A -> io B) : dies m -> dies (ibind m k).
Proof. intros (e & ->). by exists e. Qed.

Lemma silent_pure {A} (r : result A) : silent (pure r).
Proof. done. Qed.

Lemma silent_bind {A B} (m : io A) (k : A -> io B) : silent m -> (forall a, silent (k a)) -> silent (ibind m k).
Proof.
  destruct m as [w [a|e]]; cbn; intros Hm Hk; unfold silent in Hm; cbn in Hm; subst w; [|done].
  specialize (Hk a). unfold silent in *. by destruct (k a).
Qed.

Lemma silent_each {A} (xs : list A) body : (forall x, silent (body x)) -> silent (each xs body).
Proof. intros Hb. induction xs as [|x xs IH]; [done|]. by apply silent_bind. Qed.

Create HintDb smoke.
#[local] Hint Resolve silent_pure silent_bind silent_each : smoke.

Section Runs.
Context (l : Lab).

Lemma silent_imports ms : silent (imports l ms).
Proof. by apply silent_each. Qed.
Lemma silent_import_from m n : silent (import_from l m n).
Proof. unfold import_from. auto with smoke. Qed.
Lemma silent_ask m p b : silent (ask l m p b).
Proof. done. Qed.
Lemma silent_visit n m p b : silent (visit_lines l n m p b).
Proof. by apply silent_bind. Qed.
Lemma silent_app : silent (new_app l).
Proof. done. Qed.
#[local] Hint Resolve silent_imports silent_import_from silent_ask silent_visit silent_app : smoke.

(** The constructor takes keywords only. *)
Lemma positional_config_dies cfg : dies (new_model 1 [] cfg).
Proof. by eexists. Qed.

Lemma forward_dies : dies forward_shape.
Proof. apply dies_first, positional_config_dies. Qed.

(** No module binds the data set class the predictor checks import. *)
Lemma predictor_imports_die : dies (predictor_imports l).
Proof.
  unfold predictor_imports. do 3 (apply dies_bind; [auto with smoke|intros _]). apply dies_first.
  apply dies_bind; [apply silent_pure|intros _]. by eexists.
Qed.

Lemma no_file_dies : dies (insert_parent main_names).
Proof. by eexists. Qed.

(** A program run by [-c] has no [__file__]. *)
Lemma model_program_dies : dies (model_program l).
Proof. apply dies_bind; [auto with smoke|intros _]. apply dies_first, no_file_dies. Qed.

Lemma rope_program_dies : dies (rope_program l).
Proof. apply dies_bind; [auto with smoke|intros _]. apply dies_first, no_file_dies. Qed.

Lemma predictor_program_dies : dies (predictor_program l).
Proof. apply dies_bind; [auto with smoke|intros _]. apply predictor_imports_die. Qed.

Lemma concurrency_program_dies : dies (concurrency_program l).
Proof. by eexists. Qed.

Context `{!RoutesInOrder l.(l_router)} (Hraise : raises_app_exceptions l).

(** The statistics page reads the gateway of an application that was never started. *)
Lemma stats_page_dies : dies (ask l GET "/scheduler/stats" "").
Proof.
  unfold ask. pose proof (routes_endpoint GET "/scheduler/stats") as H. rewrite <- router_first in H.
  destruct (l_router l app_routes GET "/scheduler/stats") as [r|]; [|discriminate H].
  assert (Hr : rt_endpoint r = StatsPage) by (injection H as ->; reflexivity). rewrite Hr.
  destruct (Hraise (AttributeError "gateway")) as (e & He). exists e. cbn. by rewrite He.
Qed.

Lemma gateway_program_fails : fails (gateway_program l).
Proof.
  unfold gateway_program, page_paths. do 5 (apply fails_bind; intros _). apply fails_first.
  cbn [each]. do 2 (apply fails_bind; intros _). apply fails_first. unfold visit. apply fails_first.
  destruct stats_page_dies as (e & ->). by exists [], e.
Qed.

Lemma smoke_tests_die : Forall (fun t => dies t.2) (smoke_tests l).
Proof.
  unfold smoke_tests. rewrite !Forall_cons. split_and!; cbn [snd]; [..|by apply Forall_nil].
  - do 2 (apply dies_bind; [auto with smoke|intros _]). apply dies_first, forward_dies.
  - apply dies_bind; [auto with smoke|intros _]. apply predictor_imports_die.
  - unfold test_gateway. do 4 (apply dies_bind; [auto with smoke|intros _]).
    do 2 (apply dies_bind; [auto with smoke|intros ?]). apply dies_first, dies_first, stats_page_dies.
  - apply dies_bind; [auto with smoke|intros _]. apply dies_first, positional_config_dies.
  - do 4 (apply dies_bind; [auto with smoke|intros _]). apply dies_first, stats_page_dies.
Qed.

Lemma run_test_dies t : dies t.2 -> exists e, run_test l t = (failure_effects l t.1 e, Ok tt).
Proof. intros (e & He). exists e. unfold run_test. rewrite He. reflexivity. Qed.
End Runs.

Lemma run_phase_effects (l : Lab) p program :
  l.(l_launch) = Ok tt ->
  exists r, run_phase l p.1 p.2 program = (phase_effects l p r, Ok tt) /\
    (fails program -> r.(returncode) = 1) /\ (dies program -> r.(stdout) = []).
Proof.
  intros Hl. unfold run_phase, python_c. rewrite Hl. cbn. eexists. split; [reflexivity|]. split.
  - by intros (w & e & ->).
  - by intros (e & ->).
Qed.

Lemma dies_fails {A} (m : io A) : dies m -> fails m.
Proof. intros (e & ->). by exists [], e. Qed.

(** C40.  None of the five phases of phase4_6_7.py ever passes, whatever is installed and whatever
    the clocks, files and backends do: each program handed to the interpreter ends with exit
    code 1 ([__file__] is not defined under [-c], the data set class does not exist, the
    statistics page needs a started application, [nonlocal] of a module-level name does not
    compile), four of them before printing anything.  The script itself appends to each log its
    header and that exit code, in order, and ends normally. *)
Theorem phases_never_pass (l : Lab) :
  RoutesInOrder l.(l_router) -> raises_app_exceptions l -> l.(l_launch) = Ok tt ->
  exists rs, phases_main l = (mjoin (zip_with (phase_effects l) phase_table rs), Ok tt) /\
    length rs = 5%nat /\ Forall (fun r => r.(returncode) = 1) rs /\
    forall i r, rs !! i = Some r -> i <> 2%nat -> r.(stdout) = [].
Proof.
  intros Hr Hx Hl.
  destruct (run_phase_effects l ("phase4_smollm3.log", "Phase 4a SmolLM3 forward") (model_program l) Hl)
    as (r1 & E1 & C1 & O1).
  destruct (run_phase_effects l ("phase4_predictor.log", "Phase 4b predictor train+onnx") (predictor_program l) Hl)
    as (r2 & E2 & C2 & O2).
  destruct (run_phase_effects l ("phase4_gateway.log", "Phase 4c gateway smoke") (gateway_program l) Hl)
    as (r3 & E3 & C3 & _).
  destruct (run_phase_effects l ("phase7_numerical.log", "Phase 7 NoPE/RoPE + tied embeddings") (rope_program l) Hl)
    as (r4 & E4 & C4 & O4).
  destruct (run_phase_effects l ("phase6_concurrency.log", "Phase 6 concurrency") (concurrency_program l) Hl)
    as (r5 & E5 & C5 & O5).
  exists [r1; r2; r3; r4; r5]. split; [|split; [done|split]].
  - unfold phases_main, phase4_smollm3, phase4_predictor, phase4_gateway, phase7_nope_rope, phase6_concurrency.
    cbn [fst snd] in E1, E2, E3, E4, E5. rewrite E1, E2, E3, E4, E5. reflexivity.
  - rewrite !Forall_cons. split_and!; [..|by apply Forall_nil]; auto using dies_fails, gateway_program_fails,
      model_program_dies, predictor_program_dies, rope_program_dies, concurrency_program_dies.
  - intros i r Hi Hne. repeat (destruct i as [|i]; cbn in Hi; [injection Hi as <-|]);
      try discriminate; try done;
      auto using model_program_dies, predictor_program_dies, rope_program_dies, concurrency_program_dies.
Qed.

(** No smoke test passes either: each of the five functions raises (the model's constructor takes
    keywords only, the data set class does not exist, the application was never started), its
    traceback is written to its own file, none of the result logs is written, and the script ends
    normally. *)
Theorem smoke_tests_never_pass (l : Lab) :
  RoutesInOrder l.(l_router) -> raises_app_exceptions l ->
  exists es, smoke_main l =
      (mjoin (zip_with (failure_effects l) (map fst (smoke_tests l)) es), Ok tt) /\
    length es = 5%nat /\
    forall files name, name ∈ map fst phase_table -> files_after (smoke_main l).1 files !! name = files !! name.
Proof.
  intros Hr Hx. pose proof (smoke_tests_die l Hx) as Hd.
  unfold smoke_tests in Hd. rewrite !Forall_cons in Hd. destruct Hd as (D1 & D2 & D3 & D4 & D5 & _).
  destruct (run_test_dies l _ D1) as (e1 & E1). destruct (run_test_dies l _ D2) as (e2 & E2).
  destruct (run_test_dies l _ D3) as (e3 & E3). destruct (run_test_dies l _ D4) as (e4 & E4).
  destruct (run_test_dies l _ D5) as (e5 & E5).
  assert (H : smoke_main l = (mjoin (zip_with (failure_effects l) (map fst (smoke_tests l)) [e1; e2; e3; e4; e5]), Ok tt)).
  { unfold smoke_main, smoke_tests. cbn [each]. rewrite E1, E2, E3, E4, E5. reflexivity. }
  exists [e1; e2; e3; e4; e5]. split; [exact H|]. split; [done|].
  intros files name Hn. rewrite H. unfold files_after. cbn.
  rewrite !lookup_insert_ne; [done|..]; intros <-; by vm_compute in Hn; set_solver.
Qed.

(** A freshly constructed model never shares its two embedding matrices, whatever the
    configuration says: the check of the scripts would print [False] for tied embeddings, since
    only [load_weights] ties them. *)
Theorem fresh_model_not_tied cfg tp prefix ms :
  causal_init cfg tp prefix = Ok ms -> shares_embedding ms = false.
Proof.
  unfold causal_init. destruct (model_init cfg tp _) as [model|e]; cbn; [|discriminate].
  intros [= <-]. unfold shares_embedding, weight_ptr. apply bool_decide_eq_false_2.
  destruct (list_find (fun p => p = "lm_head" +:+ ".weight") _) as [[i x]|] eqn:E1.
  - destruct (list_find (fun p => p = "model.embed_tokens" +:+ ".weight") _) as [[j y]|] eqn:E2; [|done].
    apply list_find_Some in E1 as (H1 & -> & _). apply list_find_Some in E2 as (H2 & -> & _).
    cbn. intros [= <-]. rewrite H1 in H2. discriminate.
  - exfalso. apply list_find_None in E1. rewrite Forall_forall in E1.
    apply (E1 "lm_head.weight"); [|reflexivity]. rewrite parameter_names_app. apply elem_of_app. right.
    destruct (in_vllm tp); by left.
Qed.

(** ** Witnesses *)

Definition demo_lab : Lab := {|
  l_import _ := Ok tt;
  l_launch := Ok tt;
  l_now _ := codes "2025-01-01T00:00:00";
  l_ms _ := codes "1.5";
  l_dtype := codes "torch.float32";
  l_finite := codes "True";
  l_traceback e := codes "Traceback";
  l_page _ := codes "{}";
  l_chat_json s := s;
  l_results _ := codes "[]";
  l_world := demo_world;
  l_config := Raise (OtherError "FileNotFoundError");
  l_router := first_router;
  l_answer o := match o with Respond s p => Ok (s, p) | ServerError e => Raise e | _ => Raise TimeoutError end;
|}.

Lemma phases_never_pass_witness :
  exists rs, phases_main demo_lab = (mjoin (zip_with (phase_effects demo_lab) phase_table rs), Ok tt) /\
    length rs = 5%nat.
Proof.
  destruct (phases_never_pass demo_lab) as (rs & H & Hl & _).
  - intros rs m path. reflexivity.
  - intros e. exists e. reflexivity.
  - reflexivity.
  - exists rs. exact (conj H Hl).
Defined.

Lemma smoke_tests_never_pass_witness :
  files_after (smoke_main demo_lab).1 ∅ !! "phase4_gateway.log" = None.
Proof.
  destruct (smoke_tests_never_pass demo_lab) as (es & _ & _ & H).
  - intros rs m path. reflexivity.
  - intros e. exists e. reflexivity.
  - rewrite H; [reflexivity|]. right. right. left.
Defined.

Lemma fresh_model_not_tied_witness :
  exists ms, causal_init (smoke_config 2) None "" = Ok ms /\ shares_embedding ms = false.
Proof.
  eexists. split; [reflexivity|]. apply (fresh_model_not_tied (smoke_config 2) None "" _). reflexivity.
Defined.

(** What the rotation check would print for the first layers. *)
Example rope_report :
  rope_lines (smoke_config 2) = Ok [codes "layer 0: use_rope=True"; codes "layer 1: use_rope=False"].
Proof. reflexivity. Qed.
