(* ===== verification/Dispatch.v ===== *)
(** * Delivery of requests by the gateway (python/scheduler/gateway.py)

    What the gateway promises about each request, for any scheduler that hands
    a queued object out at most once ([QueueLaws]): the backend is called at
    most once per accepted request, whatever the interleaving of clients,
    dispatchers, timeouts and answers.  FCFS and oracle scheduling satisfy the
    laws; SJF with its aging task does not, and a run shows what that costs.
    For FCFS the order of service and its progress are exact. *)
From Stdlib Require Import ZArith Lia.
From stdpp Require Import base option list strings gmap.
From S2P Require Import Prelude PyFloat Heapq Features Predictor Aging.
From S2P Require Import PriorityQueue BaseScheduler Fcfs Sjf Gateway.
Local Open Scope string_scope.
Local Open Scope list_scope.
Local Open Scope nat_scope.

(** ** The interface *)

(** The objects a scheduler may still hand out. *)
Class Queued (S : Type) := queued : S -> list loc.

Definition acquired (o : acquire_outcome) : list loc :=
  match o with Acquired l => [l] | _ => [] end.

Class QueueLaws (S : Type) `{SchedulerOps S, Queued S} : Prop := {
  submit_queued c l st s st' s' :
    submit c l st s = (st', s', Ok tt) -> queued s' ≡ₚ l :: queued s;
  submit_raised c l st s st' s' e :
    submit c l st s = (st', s', Raise e) -> queued s' ≡ₚ queued s;
  acquire_queued c t s o s' :
    acquire c t s = (o, s') -> acquired o ++ queued s' ⊆+ queued s;
  complete_queued rid ok s : queued (complete rid ok s) = queued s;
  cancel_queued rid s b s' : cancel_request rid s = (b, s') -> queued s' = queued s;
}.

#[global] Instance fcfs_queued : Queued FCFSScheduler := f_queue.

#[global] Instance fcfs_queue_laws : QueueLaws FCFSScheduler.
Proof.
  split; unfold queued, fcfs_queued; simpl.
  - intros c l st s st' s' E. destruct (st !! l); simplify_eq. simpl. by rewrite Permutation_app_comm.
  - intros c l st s st' s' e E. by destruct (st !! l); simplify_eq.
  - intros c t s o s' E. pose proof (fcfs_step_fifo (FAcquire t) s) as Hf. simpl in Hf. rewrite E in Hf.
    specialize (Hf _ _ eq_refl). rewrite app_nil_r in Hf. rewrite <- Hf. by destruct o.
  - done.
  - intros rid s b s' E. unfold fcfs_cancel in E. by case_bool_decide; simplify_eq.
Qed.

(** Popping takes items out of the heap and adds none. *)
Lemma pop_loop_heap fuel now (q : pq) r q' :
  pop_loop fuel now q = (r, q') -> option_list r ++ q'.(_heap) ⊆+ q.(_heap).
Proof.
  revert q. induction fuel as [|fuel IH]; intros q E; simpl in E; [by simplify_eq|].
  destruct (heappop item_lt (_heap q)) as [[item h]|] eqn:Ep; [|by simplify_eq].
  apply heappop_perm in Ep. rewrite Ep. case_bool_decide.
  - apply IH in E. simpl in E. rewrite E. by apply submseteq_cons.
  - by simplify_eq.
Qed.

#[global] Instance oracle_queued : Queued OracleSJFScheduler := fun s => map payload s.(o_queue).(_heap).

#[global] Instance oracle_queue_laws : QueueLaws OracleSJFScheduler.
Proof.
  split; unfold queued, oracle_queued; simpl.
  - intros c l st s st' s' E. unfold oracle_submit in E.
    repeat case_match; simplify_eq. simpl. by rewrite heappush_perm.
  - intros c l st s st' s' e E. unfold oracle_submit in E. by repeat case_match; simplify_eq.
  - intros c t s o s' E. unfold oracle_acquire in E.
    destruct (dequeue_turn _ _ _ _ _) as [o' q'] eqn:Ed. injection E as <- <-. simpl.
    apply dequeue_turn_pop in Ed as (r & Ep & Hret & Hnone). apply pop_loop_heap in Ep.
    apply submseteq_Permutation in Ep as [k Ep]. rewrite Ep, !map_app.
    replace (acquired (of_outcome o')) with (map payload (option_list r)).
    2: { destruct r as [it|]; [by rewrite (Hret it)|]. destruct o' as [it| |]; try done. by destruct (Hnone eq_refl it). }
    by apply submseteq_inserts_r.
  - done.
  - intros rid s b s' E. unfold oracle_cancel in E.
    pose proof (cancel_heap rid (o_queue s)) as Hh.
    destruct (PriorityQueue.cancel rid (o_queue s)). simplify_eq. simpl in *. by rewrite Hh.
Qed.

(** ** At most one call of the backend *)

Section AtMostOnce.
Context {S : Type} `{QueueLaws S}.
Implicit Types (g : Gateway S).

(** Objects of the tasks that have not called the backend yet. *)
Definition starting (ts : list task) : list loc :=
  ts ≫= (fun t => match t with Starting l => [l] | Sent _ _ _ => [] end).

(** Objects the backend may still be called for. *)
Definition outstanding g : list loc := starting g.(tasks) ++ from_option queued [] g.(_scheduler).

(** The object a step calls the backend for, and the one it accepts. *)
Definition calls (o : gw_op) g : list loc :=
  match o with
  | OBegin i _ =>
      match g.(tasks) !! i, g.(_client) with
      | Some (Starting l), Some _ => if g.(g_store) !! l is Some _ then [l] else []
      | _, _ => []
      end
  | _ => []
  end.

Definition accepts_loc (o : gw_op) g : list loc :=
  match o with
  | OSubmit rid now c body =>
      match snd (submit_chat rid now c body g) with Ok l => [l] | Raise _ => [] end
  | OSubmitStream rid now c body =>
      match snd (submit_chat_stream rid now c body g) with Ok l => [l] | Raise _ => [] end
  | _ => []
  end.

(** Along a run: the objects the backend is called for, in order, and the
    objects accepted. *)
Fixpoint called (os : list gw_op) g : list loc :=
  match os with
  | [] => []
  | o :: os' => calls o g ++ called os' (gw_step o g)
  end.

Fixpoint accepted_locs (os : list gw_op) g : list loc :=
  match os with
  | [] => []
  | o :: os' => accepts_loc o g ++ accepted_locs os' (gw_step o g)
  end.

Lemma starting_app ts ts' : starting (ts ++ ts') = starting ts ++ starting ts'.
Proof. apply bind_app. Qed.

Lemma starting_delete i ts :
  starting (delete i ts) ⊆+ starting ts.
Proof.
  destruct (ts !! i) as [x|] eqn:E.
  - unfold starting. rewrite <- (take_drop_middle ts i x E) at 2.
    rewrite delete_take_drop, !bind_app. simpl. apply submseteq_app; [done|]. by apply submseteq_inserts_l.
  - apply lookup_ge_None in E. rewrite delete_take_drop, take_ge, drop_ge by lia. by rewrite app_nil_r.
Qed.

Lemma starting_sent i l t0 b ts :
  ts !! i = Some (Starting l) -> l :: starting (<[i := Sent l t0 b]> ts) ≡ₚ starting ts.
Proof.
  intros E. pose proof (lookup_lt_Some _ _ _ E) as Hi. unfold starting.
  rewrite <- (take_drop_middle ts i _ E) at 2. rewrite insert_take_drop by done.
  rewrite !bind_app. simpl. by rewrite Permutation_middle.
Qed.

Lemma step_outstanding o g : calls o g ++ outstanding (gw_step o g) ⊆+ outstanding g ++ accepts_loc o g.
Proof.
  destruct o as [rid now c body|rid now c body|l|c|i t0|i ch|i now a|q]; cbn [calls accepts_loc gw_step].
  - unfold submit_chat, outstanding. destruct (_scheduler g) as [s|] eqn:Es; [|simpl; by rewrite !app_nil_r].
    destruct (submit _ _ _ _) as [[st' s'] [[]|e]] eqn:E; simpl.
    + apply submit_queued in E. rewrite E, <- app_assoc. apply submseteq_app; [done|].
      by rewrite Permutation_app_comm.
    + apply submit_raised in E. by rewrite E, app_nil_r.
  - unfold submit_chat_stream, outstanding.
    destruct (_scheduler g) as [s|] eqn:Es; [|simpl; by rewrite !app_nil_r].
    destruct (submit _ _ _ _) as [[st' s'] [[]|e]] eqn:E; simpl.
    + apply submit_queued in E. rewrite E, <- app_assoc. apply submseteq_app; [done|].
      by rewrite Permutation_app_comm.
    + apply submit_raised in E. by rewrite E, app_nil_r.
  - rewrite app_nil_r. unfold submit_timeout, outstanding.
    destruct (_scheduler g) as [s|] eqn:Es; [|by rewrite Es].
    destruct (g_store g !! l) as [req|]; [|by rewrite Es]. simpl.
    destruct (cancel_request _ s) as [b s'] eqn:E. simpl. by rewrite (cancel_queued _ _ _ _ E).
  - rewrite app_nil_r. unfold dispatch_turn, outstanding. destruct (_running g); [|done].
    destruct (_scheduler g) as [s|] eqn:Es; [|by rewrite Es].
    destruct (acquire c (Some f1) s) as [o s'] eqn:E. apply acquire_queued in E. simpl.
    rewrite starting_app, <- app_assoc. apply submseteq_app; [done|]. rewrite <- E. by destruct o.
  - rewrite app_nil_r. unfold forward_begin.
    destruct (tasks g !! i) as [[l|l t1 b]|] eqn:Et; [|done..].
    destruct (g_store g !! l) as [req|]; simpl; [|by destruct (_client g)].
    destruct (_client g); simpl; unfold outstanding; simpl.
    + change (l :: ?x ++ ?y) with ((l :: x) ++ y). by rewrite starting_sent by done.
    + apply submseteq_app; [apply starting_delete|done].
  - rewrite app_nil_r. unfold forward_chunk. by repeat case_match.
  - rewrite app_nil_r. unfold forward_finish.
    destruct (tasks g !! i) as [[l|l t1 b]|] eqn:Et; [done| |done].
    destruct (_scheduler g) as [s|] eqn:Es; [|done].
    destruct (g_store g !! l) as [req|]; [|done]. destruct (answer_fits _ _); [|done].
    destruct (forward_try _ _ _ _ _) as [[fs ss] e]. simpl. unfold outstanding. rewrite Es. simpl.
    rewrite complete_queued. apply submseteq_app; [apply starting_delete|done].
  - rewrite app_nil_r. unfold stream_next. by repeat case_match.
Qed.

Lemma run_outstanding os g :
  called os g ++ outstanding (gw_run os g) ⊆+ outstanding g ++ accepted_locs os g.
Proof.
  unfold gw_run. revert g. induction os as [|o os IH]; intros g; simpl; [by rewrite app_nil_r|].
  rewrite <- app_assoc. etrans; [apply submseteq_app; [reflexivity|apply IH]|].
  rewrite !app_assoc. apply submseteq_app; [apply step_outstanding|reflexivity].
Qed.

(** Accepted objects are numbered upwards. *)
Lemma accepts_next o g :
  g_next (gw_step o g) = g_next g /\ accepts_loc o g = [] \/
  g_next (gw_step o g) = g_next g + 1 /\ (accepts_loc o g = [] \/ accepts_loc o g = [g_next g]).
Proof.
  destruct o as [rid now c body|rid now c body|l|c|i t0|i ch|i now a|q]; cbn [accepts_loc gw_step].
  - right. unfold submit_chat. repeat case_match; simpl in *; simplify_eq; auto.
  - right. unfold submit_chat_stream. repeat case_match; simpl in *; simplify_eq; auto.
  - left. unfold submit_timeout. by repeat case_match.
  - left. unfold dispatch_turn. by repeat case_match.
  - left. unfold forward_begin. by repeat case_match.
  - left. unfold forward_chunk. by repeat case_match.
  - left. unfold forward_finish. by repeat case_match.
  - left. unfold stream_next. by repeat case_match.
Qed.

Lemma accepted_fresh os g :
  NoDup (accepted_locs os g) /\ Forall (fun l => g_next g <= l) (accepted_locs os g).
Proof.
  revert g. induction os as [|o os IH]; intros g; simpl; [split; constructor|].
  destruct (IH (gw_step o g)) as [Hnd Hf]. destruct (accepts_next o g) as [[Hn ->]|[Hn Ha]].
  - rewrite Hn in Hf. done.
  - rewrite Hn in Hf.
    assert (Hf' : Forall (fun l => g_next g <= l) (accepted_locs os (gw_step o g)))
      by (eapply Forall_impl; [exact Hf|]; simpl; lia).
    destruct Ha as [->| ->]; [done|]. simpl. split; constructor; [|done|lia|done].
    intros Hin. rewrite Forall_forall in Hf. apply Hf in Hin. lia.
Qed.

(** C5.  At most once: on a gateway that starts empty, whatever clients,
    dispatchers, timeouts and backend answers interleave, the backend is
    called at most once per request, only for requests that were accepted, and
    never for one still in a queue or in a task that has not called yet. *)
Theorem gateway_calls_at_most_once (os : list gw_op) g :
  outstanding g = [] ->
  NoDup (called os g ++ outstanding (gw_run os g)) /\ called os g ⊆ accepted_locs os g.
Proof.
  intros Hempty. pose proof (run_outstanding os g) as Hs. rewrite Hempty in Hs. simpl in Hs.
  split.
  { apply submseteq_Permutation in Hs as [k Hk]. pose proof (proj1 (accepted_fresh os g)) as Hnd.
    rewrite Hk in Hnd. by apply NoDup_app in Hnd as [? _]. }
  intros l Hl. apply (elem_of_submseteq _ _ _ (proj2 (elem_of_app _ _ _) (or_introl Hl)) Hs).
Qed.
End AtMostOnce.

(** ** First come, first served *)

Section Order.
Implicit Types (g : Gateway FCFSScheduler) (s : FCFSScheduler).

(** The object a dispatcher's turn starts a task for. *)
Definition starts (o : gw_op) g : list loc :=
  match o, g.(_scheduler) with
  | ODispatch c, Some s => if g.(_running) then acquired (fst (acquire c (Some f1) s)) else []
  | _, _ => []
  end.

Fixpoint started (os : list gw_op) g : list loc :=
  match os with
  | [] => []
  | o :: os' => starts o g ++ started os' (gw_step o g)
  end.

Definition is_dispatch (o : gw_op) : bool := match o with ODispatch _ => true | _ => false end.
Definition dispatches (os : list gw_op) : nat := length (filter (fun o => is_dispatch o = true) os).

Lemma dispatches_cons o os : dispatches (o :: os) = (if is_dispatch o then 1 else 0) + dispatches os.
Proof. unfold dispatches. rewrite filter_cons. by destruct (is_dispatch o). Qed.

(** One step keeps the queue in order, and a dispatcher's turn takes its head. *)
Record ordered_step (o : gw_op) g s : Prop := {
  os_queue : exists s', (gw_step o g).(_scheduler) = Some s' /\
    starts o g ++ s'.(f_queue) = s.(f_queue) ++ accepts_loc o g;
  os_running : (gw_step o g).(_running) = g.(_running);
  os_progress : is_dispatch o = true -> g.(_running) = true ->
    length (starts o g) = Nat.min 1 (length s.(f_queue));
}.

Lemma acquire_one s :
  fcfs_acquire (Some f1) s = fcfs_get (Some f1) s.
Proof.
  unfold fcfs_acquire. replace (ftruthy f1) with true by fcompute.
  by replace (fleb f1 f0) with false by fcompute.
Qed.

Lemma cancel_queue rid s : f_queue (snd (fcfs_cancel rid s)) = f_queue s.
Proof. unfold fcfs_cancel. by case_bool_decide. Qed.

Lemma step_ordered o g s : g.(_scheduler) = Some s -> ordered_step o g s.
Proof.
  intros Hs. destruct o as [rid now c body|rid now c body|l|c|i t0|i ch|i now a|q];
    (split; [| |try (intros Hd; discriminate Hd)]);
    cbn [gw_step accepts_loc]; unfold starts; rewrite ?Hs, ?app_nil_r; cbn [app].
  - unfold submit_chat. rewrite Hs. cbn [submit fcfs_ops]. rewrite lookup_insert_eq. simpl. eauto.
  - unfold submit_chat. rewrite Hs. cbn [submit fcfs_ops]. by rewrite lookup_insert_eq.
  - unfold submit_chat_stream. rewrite Hs. cbn [submit fcfs_ops]. rewrite lookup_insert_eq. simpl. eauto.
  - unfold submit_chat_stream. rewrite Hs. cbn [submit fcfs_ops]. by rewrite lookup_insert_eq.
  - unfold submit_timeout. rewrite Hs. destruct (g_store g !! l); simpl; [|eauto].
    eexists. split; [done|]. apply cancel_queue.
  - unfold submit_timeout. by repeat case_match.
  - unfold dispatch_turn. rewrite Hs. cbn [acquire fcfs_ops]. rewrite acquire_one. unfold fcfs_get.
    destruct (_running g); [|eauto]. destruct (f_queue s) eqn:Eq; simpl; eauto.
  - unfold dispatch_turn. rewrite Hs. destruct (_running g) eqn:Er; [|done].
    by destruct (acquire c (Some f1) s).
  - intros _ ->. cbn [acquire fcfs_ops]. rewrite acquire_one. unfold fcfs_get. by destruct (f_queue s).
  - unfold forward_begin. repeat case_match; simpl; eauto.
  - unfold forward_begin. by repeat case_match.
  - unfold forward_chunk. repeat case_match; simpl; eauto.
  - unfold forward_chunk. by repeat case_match.
  - unfold forward_finish. rewrite Hs. repeat case_match; simpl; eauto.
  - unfold forward_finish. by repeat case_match.
  - unfold stream_next. repeat case_match; simpl; eauto.
  - unfold stream_next. by repeat case_match.
Qed.

Lemma run_ordered os g s :
  g.(_scheduler) = Some s -> g.(_running) = true ->
  exists s', (gw_run os g).(_scheduler) = Some s' /\
    started os g ++ s'.(f_queue) = s.(f_queue) ++ accepted_locs os g /\
    Nat.min (dispatches os) (length s.(f_queue)) <= length (started os g).
Proof.
  unfold gw_run. revert g s. induction os as [|o os IH]; intros g s Hs Hr; simpl.
  { exists s. rewrite app_nil_r. split; [done|]. split; [done|]. lia. }
  destruct (step_ordered o g s Hs) as [(s1 & Hs1 & Hq1) Hr1 Hp]. rewrite Hr in Hr1.
  destruct (IH (gw_step o g) s1 Hs1 Hr1) as (s2 & Hs2 & Hq2 & Hm). exists s2.
  split; [exact Hs2|]. split; [by rewrite <- app_assoc, Hq2, app_assoc, Hq1, <- app_assoc|].
  apply (f_equal length) in Hq1. rewrite !length_app in *. rewrite dispatches_cons.
  destruct (is_dispatch o); [specialize (Hp eq_refl Hr); lia|lia].
Qed.

(** C11.  Progress and order: on a running FCFS gateway the request at position [i]
    of the queue is the [i]-th one a task is started for, once more than [i]
    dispatcher turns have run, whichever dispatchers run them and whatever
    clients, timeouts and answers come in between; and at any time what was
    started, followed by what is queued, is what was queued followed by what
    was accepted. *)
Theorem gateway_serves_in_order (os : list gw_op) g s :
  g.(_scheduler) = Some s -> g.(_running) = true ->
  (forall i l, s.(f_queue) !! i = Some l -> i < dispatches os -> started os g !! i = Some l) /\
  exists s', (gw_run os g).(_scheduler) = Some s' /\
    started os g ++ s'.(f_queue) = s.(f_queue) ++ accepted_locs os g.
Proof.
  intros Hs Hr. destruct (run_ordered os g s Hs Hr) as (s' & Hs' & Hq & Hm).
  split; [|by exists s']. intros i l Hl Hi. pose proof (lookup_lt_Some _ _ _ Hl) as Hlt.
  rewrite <- (lookup_app_l (started os g) (f_queue s')) by lia.
  rewrite Hq. by rewrite lookup_app_l.
Qed.
End Order.

(** ** What aging does to that promise *)

Section SjfGateway.
Context (predictor : string -> result PredictionResult) (log1p exp : float -> result float).
#[local] Existing Instance sjf_ops.

(** A pass of the aging task of the gateway's scheduler. *)
Definition gateway_aging (now : float) (g : Gateway SJFScheduler) : Gateway SJFScheduler :=
  match g.(_scheduler) with
  | None => g
  | Some s =>
      let '(st, s', _) := aging_pass log1p exp now g.(g_store) s in
      mkGateway g.(settings) (Some s') g.(_client) g.(_owns_client) g.(_workers) g.(_running)
        st g.(g_next) g.(futures) g.(streams) g.(tasks) g.(gw_metrics)
  end.
End SjfGateway.

(** ** Witnesses *)

Definition three_clients : list gw_op :=
  [OSubmit "r1" f0 demo_clock (demo_body false); OSubmitStream "r2" f0 demo_clock (demo_body true);
   ODispatch demo_aclock; OBegin 0 f0; OTimeout 0; ODispatch demo_aclock; OBegin 1 f0;
   OFinish 0 f0 (Failed "late"); OSubmit "r3" f0 demo_clock (demo_body false)].

Lemma gateway_calls_at_most_once_witness :
  NoDup (called three_clients idle_gateway ++ outstanding (gw_run three_clients idle_gateway)) /\
  called three_clients idle_gateway ⊆ accepted_locs three_clients idle_gateway.
Proof. apply (gateway_calls_at_most_once three_clients idle_gateway). reflexivity. Defined.

(** One request waits in the queue. *)
Definition one_queued : Gateway FCFSScheduler :=
  gw_step (OSubmit "r0" f0 demo_clock (demo_body false)) idle_gateway.

Lemma gateway_serves_in_order_witness : started three_clients one_queued !! 0 = Some 0.
Proof.
  apply (proj1 (gateway_serves_in_order three_clients one_queued (fcfs_submit "r0" 0 fcfs_init)
                  eq_refl eq_refl)).
  - reflexivity.
  - vm_compute. lia.
Defined.

(** A gateway with an SJF scheduler. *)
Definition sjf_gateway : Gateway SJFScheduler :=
  mkGateway (mkSettings no_config "http://localhost:8000" "m" SJF 1 (of_int 300) (of_int 5))
    (Some demo_sjf) (Some GivenClient) false [true] true ∅ 0 ∅ ∅ []
    (mkMetrics 0 0 0 0 None [] []).

Definition nine_tokens (_ : string) : result PredictionResult :=
  Ok (mkPrediction (of_int 9) (mkFeatures []) f0 f0).

#[local] Existing Instance sjf_ops.

(** Under SJF one aging pass is enough to break it: one request, submitted
    once, is handed to two dispatchers and sent to the backend twice. *)
Theorem aged_request_sent_twice :
  let g0 := gw_step (H := sjf_ops nine_tokens) (OSubmit "r1" f0 demo_clock (demo_body false)) sjf_gateway in
  let g1 := gateway_aging toy_log1p toy_exp (of_int 20) g0 in
  called (H := sjf_ops nine_tokens)
    [ODispatch demo_aclock; ODispatch demo_aclock; OBegin 0 f0; OBegin 1 f0] g1 = [0; 0].
Proof. vm_compute. reflexivity. Qed.
