(* ===== verification/Starvation.v ===== *)
(** * Starvation freedom (python/scheduler/priority_queue.py, sjf_scheduler.py)

    What aging is there for: a queued request is eventually delivered, however
    many shorter requests arrive after it.  First for the queue alone (an item
    nothing newer precedes is overtaken by the items already ahead of it, and
    by nothing else), then for the scheduler with its aging loop, and last for
    the configuration the repository ships, under which aging is too weak for
    that argument. *)
From Stdlib Require Import ZArith Lia.
From stdpp Require Import base option list strings gmap.
From S2P Require Import Prelude PyFloat Heapq Features Predictor Aging.
From S2P Require Import PriorityQueue BaseScheduler Fcfs Sjf FloatBounds.
Local Open Scope string_scope.
Local Open Scope list_scope.
Local Open Scope nat_scope.
Local Open Scope py_scope.

(** ** The queue: bounded overtaking *)

Lemma flt_irrefl p : ~ (p < p)%float.
Proof. intros H. assert (E : fltb p p = true) by exact H. by rewrite fltb_irrefl in E. Qed.

Section Overtaking.
Context {T : Type}.
Implicit Types (x : PrioritizedItem T) (q : PriorityQueue T).

(** Calls that neither cancel [x] nor bring an item before it. *)
Definition harmless x (o : op T) : Prop :=
  valid_op o /\
  match o with
  | Enqueue now rid prio p => item_lt x (mkItem prio now rid p) = true
  | Dequeue _ => True
  | Cancel rid => rid <> x.(request_id)
  | Update _ prio => (x.(priority) < prio)%float
  end.

(** The items of a heap that are not strictly after [x], [x] included. *)
Definition ahead x (h : list (PrioritizedItem T)) : nat :=
  length (filter (fun y => item_lt x y = false) h).

Definition is_dequeue (o : op T) : bool := match o with Dequeue _ => true | _ => false end.

Definition dequeues (os : list (op T)) : nat := length (filter (fun o => is_dequeue o = true) os).

#[global] Instance ahead_perm x : Proper ((≡ₚ) ==> eq) (ahead x).
Proof. intros h h' H. unfold ahead. by rewrite H. Qed.

Lemma ahead_app x h h' : ahead x (h ++ h') = ahead x h + ahead x h'.
Proof. unfold ahead. by rewrite filter_app, length_app. Qed.

Lemma ahead_after x y h : item_lt x y = true -> ahead x (y :: h) = ahead x h.
Proof. intros H. unfold ahead. rewrite filter_cons_False; congruence. Qed.

Lemma ahead_le_length x h : ahead x h <= length h.
Proof. apply length_filter. Qed.

(** [x] waits: it is in the heap and not cancelled. *)
Definition queued x q : Prop := x ∈ q.(_heap) /\ x.(request_id) ∉ q.(_cancelled).

(** A dequeue returns [x], or an item that was ahead of it. *)
Lemma pop_overtaking now q r q' x :
  queue_inv q -> queued x q -> pop_live now q = (r, q') ->
  r = Some x \/ (queued x q' /\ S (ahead x q'.(_heap)) <= ahead x q.(_heap)).
Proof.
  intros Hi [Hx Hl] H.
  apply pop_live_spec in H as [[sk [Hperm Hc Hsk _ _ _ Hm Hn _ _ _]] _]; [|done].
  rewrite Hperm in Hx. rewrite !elem_of_app in Hx. destruct Hx as [Hx|[Hx|Hx]].
  - rewrite Forall_forall in Hsk. by apply Hsk in Hx.
  - left. destruct r; [|by apply elem_of_nil in Hx]. by apply list_elem_of_singleton in Hx as <-.
  - destruct r as [it|]; [|rewrite Hn in Hx by done; by apply elem_of_nil in Hx].
    right. split; [split; [done|rewrite Hc; set_solver]|].
    rewrite Hperm, !ahead_app. pose proof (Hm it x eq_refl Hx) as Hab. unfold above in Hab.
    unfold ahead at 3. simpl. rewrite filter_cons_True by done. simpl. lia.
Qed.

Lemma item_lt_priority x y : (x.(priority) < y.(priority))%float -> item_lt x y = true.
Proof.
  intros H. unfold item_lt. destruct (feqb _ _) eqn:E; [|exact H].
  apply feqb_eq in E. rewrite E in H. by apply flt_irrefl in H.
Qed.

(** Every other call leaves [x] where it is, with no more items ahead. *)
Lemma step_overtaking o q r q' x :
  harmless x o -> queue_inv q -> queued x q -> step o q = (r, q') ->
  r = Popped (Some x) \/
  (queued x q' /\ ahead x q'.(_heap) + (if is_dequeue o then 1 else 0) <= ahead x q.(_heap)).
Proof.
  intros [Hv Hh] Hi Hx H. destruct o as [now rid prio p|now|rid|rid prio]; simpl in *.
  - right. simplify_eq. destruct Hx as [Hx Hl]. split; [split; [by apply heappush_elem; right|done]|].
    simpl. rewrite heappush_perm, ahead_after by done. lia.
  - destruct (pop_live now q) as [r' q1] eqn:E. simplify_eq.
    destruct (pop_overtaking _ _ _ _ _ Hi Hx E) as [->|[? ?]]; [by left|right; split; [done|lia]].
  - right. destruct Hx as [Hx Hl]. unfold cancel in H. case_bool_decide; simplify_eq; simpl;
      (split; [|lia]); split; simpl; set_solver.
  - right. destruct Hx as [Hx Hl]. unfold update_priority in H.
    destruct (_pending q !! rid); simplify_eq; simpl; [|by split; [split|lia]].
    split; [split; simpl; [by apply heappush_elem; right|set_solver]|].
    rewrite heappush_perm, ahead_after by (by apply item_lt_priority). lia.
Qed.

Lemma run_overtaking os q rs q' x :
  Forall (harmless x) os -> queue_inv q -> queued x q -> run os q = (rs, q') ->
  Popped (Some x) ∈ rs \/ (queued x q' /\ ahead x q'.(_heap) + dequeues os <= ahead x q.(_heap)).
Proof.
  intros Hos. revert q rs. induction Hos as [|o os Ho _ IH]; intros q rs Hi Hx H; simpl in H.
  { simplify_eq. right. split; [done|]. unfold dequeues. simpl. lia. }
  destruct (step o q) as [r q1] eqn:Es. destruct (run os q1) as [rs' q2] eqn:Er. simplify_eq.
  pose proof (step_inv _ _ _ _ (proj1 Ho) Hi Es) as Hi1.
  destruct (step_overtaking _ _ _ _ _ Ho Hi Hx Es) as [->|[Hx1 Hle]]; [left; left|].
  destruct (IH q1 rs' Hi1 Hx1 Er) as [Hin|[Hx' Hle']]; [by left; right|right]. split; [done|].
  unfold dequeues in *. destruct (is_dequeue o) eqn:Ed.
  - rewrite filter_cons_True by done. simpl. lia.
  - rewrite filter_cons_False by congruence. lia.
Qed.

(** An item that is ahead of nobody's but its own turn is not waiting. *)
Lemma ahead_pos x q : valid_item x -> queued x q -> 1 <= ahead x q.(_heap).
Proof.
  intros [Hp Ht] [Hx _]. unfold ahead.
  enough (x ∈ filter (fun y => item_lt x y = false) q.(_heap)) as Hin
    by (destruct (filter _ _); [by apply elem_of_nil in Hin|simpl; lia]).
  apply list_elem_of_filter. split; [|done]. unfold item_lt.
  by rewrite feqb_refl, fltb_irrefl.
Qed.

(** C20.  Bounded overtaking: an item that is in the heap and not cancelled is
    returned by one of the next [n] dequeues, [n] the number of items that are
    not strictly after it (itself included), whatever else happens in between,
    as long as nobody cancels it and whatever is pushed comes after it. *)
Theorem bounded_overtaking os q rs q' x :
  queue_inv q -> queued x q -> Forall (harmless x) os -> run os q = (rs, q') ->
  ahead x q.(_heap) <= dequeues os -> Popped (Some x) ∈ rs.
Proof.
  intros Hi Hx Hos H Hle. pose proof Hi as [_ HV _ _ _]. rewrite Forall_forall in HV.
  pose proof (HV _ (proj1 Hx)) as Hv.
  destruct (run_overtaking _ _ _ _ _ Hos Hi Hx H) as [?|[Hx' Hle']]; [done|].
  pose proof (ahead_pos _ _ Hv Hx'). lia.
Qed.
End Overtaking.

(** ** Taking whole tokens off a priority *)

(** The largest priority the argument covers: 2^20 tokens, eight times the
    longest context of the models served. *)
Definition max_tokens_bound : Z := 2 ^ 20.

(** The integer steps of a priority are exact. *)
Lemma fsub_of_int n : (0 <= n < max_tokens_bound)%Z -> fsub (of_int (n + 1)) f1 = of_int n.
Proof.
  unfold max_tokens_bound. intros Hn. rewrite f1_def, !of_int_exact by lia. cbn [fsub fadd fneg].
  replace ((n + 1) * 2 ^ grid + - 2 ^ grid)%Z with (n * 2 ^ grid)%Z by lia.
  apply round_ratio_fixed, wf_scaled; [lia|]. rewrite grid_def. lia.
Qed.

Lemma half_token : flit 1 2 = Fin (2 ^ (grid - 1)).
Proof. fcompute. Qed.

(** One whole token clears the threshold of the aging loop. *)
Lemma token_clears_gain p :
  wf_float p = true -> (f1 <= p)%float -> (p <= of_int max_tokens_bound)%float ->
  (fsub p f1 < fsub p min_gain)%float.
Proof.
  unfold max_tokens_bound. intros Hw H1 Hn. rewrite of_int_exact in Hn by lia.
  destruct (fin_between_inv p _ ltac:(eapply fle_trans; [|exact H1]; fcompute) Hn) as (z & -> & Hz).
  rewrite f1_def in *. apply fle_Fin in H1, Hn.
  assert (Hg : (2 ^ 20 * 2 ^ grid = 2 ^ (grid + 20))%Z) by (rewrite grid_def; lia).
  assert (Hh : (2 ^ grid = 2 * 2 ^ (grid - 1))%Z) by (rewrite grid_def; lia).
  assert (Hp : (0 < 2 ^ (grid - 1))%Z) by (rewrite grid_def; lia).
  apply flt_le_trans with (fsub (Fin z) (flit 1 2)).
  - rewrite half_token, !fsub_exact; [apply flt_Fin; lia|done|lia|lia| |done|lia|lia|].
    + exists (2 ^ 31)%Z. rewrite grid_def. lia.
    + exists (2 ^ 32)%Z. rewrite grid_def. lia.
  - apply fsub_anti_r; [done|]. fcompute.
Qed.

(** [p] is below one token, or at most [n] tokens. *)
Definition below (n : nat) (p : float) : Prop :=
  (p < f1)%float \/ (p <= of_int (Z.of_nat n))%float.

Lemma below_0 p : below 0 p -> (p < f1)%float.
Proof.
  intros [?|H]; [done|]. eapply fle_lt_trans; [exact H|]. fcompute.
Qed.

Lemma below_le n m p : n <= m -> below n p -> below m p.
Proof.
  intros Hnm [?|H]; [by left|right]. eapply fle_trans; [exact H|]. apply of_int_mono. lia.
Qed.

(** The priority after a turn of the aging loop. *)
Definition aged_priority (p p' : float) : float :=
  if fltb p' (fsub p min_gain) then p' else p.

Lemma aged_wf p b : wf_float p = true -> wf_float (aged_priority p (fsub p b)) = true.
Proof. intros H. unfold aged_priority. destruct (fltb _ _); [apply fsub_wf|done]. Qed.

Lemma gain_le p p' : wf_float p = true -> fltb p' (fsub p min_gain) = true -> (p' <= p)%float.
Proof.
  intros Hw H. destruct p as [z|[]|].
  - apply flt_le. eapply flt_le_trans; [exact H|]. apply fsub_le; [done|done|fcompute].
  - by destruct p' as [?|[]|].
  - apply fle_pos_inf. by destruct p'.
  - by destruct p' as [?|[]|].
Qed.

(** A boost of at least one token lowers the level by one. *)
Lemma below_aged n p b :
  (Z.of_nat n < max_tokens_bound)%Z -> wf_float p = true -> (f1 <= b)%float ->
  below (S n) p -> below n (aged_priority p (fsub p b)).
Proof.
  intros Hn Hw Hb H. unfold aged_priority. destruct H as [H|H].
  { destruct (fltb _ _) eqn:E; [|by left].
    left. eapply fle_lt_trans; [|exact H]. by apply gain_le. }
  destruct (fleb f1 p) eqn:E1.
  - assert (Hf : is_fin p = true).
    { apply (fin_between p (of_int (Z.of_nat (S n)))); [|done|].
      - eapply fle_trans; [|exact E1]. fcompute.
      - unfold max_tokens_bound in Hn. by rewrite of_int_exact by lia. }
    assert (Hc : (fsub p b < fsub p min_gain)%float).
    { eapply fle_lt_trans; [by apply fsub_anti_r|]. apply token_clears_gain; [done|exact E1|].
      eapply fle_trans; [exact H|]. apply of_int_mono. unfold max_tokens_bound in *. lia. }
    replace (fltb (fsub p b) (fsub p min_gain)) with true by (symmetry; exact Hc).
    right. eapply fle_trans; [by apply fsub_anti_r|].
    rewrite <- fsub_of_int by lia. replace (Z.of_nat n + 1)%Z with (Z.of_nat (S n)) by lia.
    apply fsub_mono_l; [fcompute|exact H].
  - assert (Hn1 : is_nan f1 = false) by fcompute.
    pose proof (proj1 (fleb_false f1 p Hn1 (proj1 (fle_not_nan _ _ H))) E1) as E2.
    destruct (fltb _ _) eqn:E; [|left; exact E2].
    left. eapply fle_lt_trans; [|exact E2]. by apply gain_le.
Qed.

Lemma below_aged_same n p b : wf_float p = true -> below n p -> below n (aged_priority p (fsub p b)).
Proof.
  intros Hw H. unfold aged_priority. destruct (fltb _ _) eqn:E; [|done].
  apply gain_le in E; [|done]. destruct H as [H|H].
  - left. by eapply fle_lt_trans.
  - right. by eapply fle_trans.
Qed.

(** ** A request that waits *)

(** Request [rid], the object at [l], waits in the queue with priority [p]. *)
Record item_waits (rid : string) (l : loc) (p : float) (q : pq) : Prop := {
  iw_inv : queue_inv q;
  iw_item : exists it, it ∈ q.(_heap) /\ it.(request_id) = rid /\ it.(payload) = l /\
    it.(priority) = p;
  iw_payload it : it ∈ q.(_heap) -> it.(request_id) = rid -> it.(payload) = l;
  iw_live : rid ∉ q.(_cancelled);
  iw_pending : is_Some (q.(_pending) !! rid);
}.

Section ItemWaits.
Context (rid : string) (l : loc).
Implicit Types (p : float) (q : pq).

Lemma iw_enqueue p now rid' p' l' q :
  rid' <> rid -> is_nan now = false -> is_nan p' = false ->
  item_waits rid l p q -> item_waits rid l p (enqueue now rid' p' l' q).
Proof.
  intros Hne Hn Hp [Hi (it & Hit & ?) Hpl Hl Hpd]. split; [by apply enqueue_inv| | |done|]; simpl.
  - exists it. split; [by apply heappush_elem; right|done].
  - intros it' [->|Hin]%heappush_elem Hr; [done|by apply Hpl].
  - by rewrite lookup_insert_ne.
Qed.

Lemma iw_cancel p rid' q :
  rid' <> rid -> item_waits rid l p q -> item_waits rid l p (snd (PriorityQueue.cancel rid' q)).
Proof.
  intros Hne [Hi (it & Hit & ?) Hpl Hl Hpd].
  pose proof (cancel_inv rid' q _ _ Hi (surjective_pairing _)) as Hi'.
  unfold PriorityQueue.cancel in *. case_bool_decide; split; eauto; simpl. set_solver.
Qed.

Lemma update_priority_nan rid' p' q :
  is_nan p' = false -> queue_inv q -> queue_inv (snd (update_priority rid' p' q)).
Proof. intros Hp Hi. by apply (update_priority_inv rid' p' q _ _ Hp Hi (surjective_pairing _)). Qed.

Lemma iw_update_other p rid' p' q :
  rid' <> rid -> is_nan p' = false ->
  item_waits rid l p q -> item_waits rid l p (snd (update_priority rid' p' q)).
Proof.
  intros Hne Hp [Hi (it & Hit & ?) Hpl Hl Hpd]. pose proof (update_priority_nan rid' p' q Hp Hi).
  unfold update_priority in *. destruct (_pending q !! rid') as [old|]; simpl in *; [|by split; eauto].
  split; simpl; [done| | |set_solver|by rewrite lookup_insert_ne].
  - exists it. split; [by apply heappush_elem; right|done].
  - intros it' [->|Hin]%heappush_elem Hr; [done|by apply Hpl].
Qed.

Lemma iw_update p p' q :
  is_nan p' = false -> item_waits rid l p q -> item_waits rid l p' (snd (update_priority rid p' q)).
Proof.
  intros Hp [Hi _ Hpl Hl [old Hpd]]. pose proof (update_priority_nan rid p' q Hp Hi).
  destruct (inv_pending _ Hi _ _ Hpd) as [Hold Hid]. pose proof (Hpl _ Hold Hid) as Hol.
  unfold update_priority in *. rewrite Hpd in *. simpl in *.
  split; simpl; [done| | |set_solver|by rewrite lookup_insert_eq].
  - eexists. split; [apply heappush_elem; by left|done].
  - intros it' [->|Hin]%heappush_elem Hr; [done|by apply Hpl].
Qed.

Lemma iw_pop now p q r q' :
  item_waits rid l p q -> pop_live now q = (r, q') ->
  (exists it, r = Some it /\ it.(payload) = l) \/ item_waits rid l p q'.
Proof.
  intros [Hi (it & Hit & Hid & Hpy & Hpr) Hpl Hl Hpd] H.
  destruct (pop_live_spec _ _ _ _ Hi H) as [[sk [Hperm Hc Hsk _ Hp _ _ _ _ _ _]] Hi'].
  assert (Hlive : forall x, x ∈ sk -> x.(request_id) <> rid).
  { rewrite Forall_forall in Hsk. intros x Hx <-. by apply Hsk in Hx. }
  assert (Hcase : (exists x, r = Some x /\ x.(request_id) = rid) \/
                  (forall x, r = Some x -> x.(request_id) <> rid)).
  { destruct r as [x|]; [|by right]. destruct (decide (x.(request_id) = rid)); [left; eauto|right].
    by intros ? [= <-]. }
  destruct Hcase as [(x & -> & Hx)|Hn].
  { left. exists x. split; [done|]. apply Hpl; [|done]. rewrite Hperm. set_solver. }
  right. split; [done| | |rewrite Hc; set_solver|].
  - exists it. split; [|done]. rewrite Hperm, !elem_of_app in Hit.
    destruct Hit as [Hin|[Hin|Hin]]; [by apply Hlive in Hin| |done].
    destruct r as [x|]; [|by apply elem_of_nil in Hin].
    apply list_elem_of_singleton in Hin as <-. by destruct (Hn it).
  - intros x Hx. apply Hpl. rewrite Hperm. set_solver.
  - rewrite Hp. case_bool_decide as Hin; [|done].
    rewrite map_app, elem_of_app in Hin. destruct Hin as [Hin|Hin].
    + apply list_elem_of_fmap in Hin as (x & Hx & Hin). by apply Hlive in Hin.
    + destruct r as [x|]; [|by apply elem_of_nil in Hin].
      apply list_elem_of_singleton in Hin. by destruct (Hn x).
Qed.
End ItemWaits.

(** ** The scheduler *)

Section Scheduler.
Context (predictor : string -> result PredictionResult).
Context (log1p exp : float -> result float).
Context (c : AgingConfig) (timeout : float) (rid : string) (l : loc) (e : float).

Definition rid_at (st : store) (l' : loc) : option string := r_request_id <$> st !! l'.

(** A prediction a caller stored in a request is at least one token. *)
Definition predictions_ok (st : store) : Prop :=
  forall l' req, st !! l' = Some req -> ftruthy req.(r_predicted_tokens) = true ->
    (f1 <= req.(r_predicted_tokens))%float.

(** Request [rid], the object at [l], enqueued at [e], waits with priority [p]
    in a scheduler that is not in fallback mode, ages linearly with [c] and
    drops requests after [timeout]. *)
Record waits (p : float) (st : store) (s : SJFScheduler) : Prop := {
  w_fallback : fallback_active s = None;
  w_aging : s.(s_aging) = LinearAging c;
  w_timeout : s.(s_timeout) = timeout;
  w_queue : item_waits rid l p s.(s_queue);
  w_get : od_get rid s.(s_pending) = Some l;
  w_keys : NoDup (od_keys s.(s_pending));
  w_entries rid' l' : od_get rid' s.(s_pending) = Some l' -> rid_at st l' = Some rid';
  w_unique l' : rid_at st l' = Some rid -> l' = l;
  w_req : exists req, st !! l = Some req /\ req.(r_priority) = p /\ req.(r_enqueue_time) = e;
  w_wf : wf_float p = true;
  w_predictions : predictions_ok st;
}.

(** Calls about other requests, with clocks that are numbers, and no reload. *)
Definition about_others (o : sjf_op) : Prop :=
  match o with
  | SSubmit cl l' => l' <> l /\ is_nan cl.(sc_now) = false
  | SComplete rid' _ | SCancel rid' => rid' <> rid
  | SReload _ => False
  | _ => True
  end.

Definition is_aging (o : sjf_op) : bool := match o with SAging _ => true | _ => false end.
Definition is_acquire (o : sjf_op) : bool := match o with SAcquire _ _ => true | _ => false end.

(** Updating a request object keeps its id. *)
Lemma rid_at_insert st l' req req' l'' :
  st !! l' = Some req -> r_request_id req' = r_request_id req ->
  rid_at (<[l' := req']> st) l'' = rid_at st l''.
Proof.
  intros Hl Hr. unfold rid_at. destruct (decide (l'' = l')) as [->|].
  - rewrite lookup_insert_eq, Hl. simpl. by rewrite Hr.
  - by rewrite lookup_insert_ne.
Qed.

Lemma predictions_insert st l' req :
  predictions_ok st ->
  (ftruthy req.(r_predicted_tokens) = true -> (f1 <= req.(r_predicted_tokens))%float) ->
  predictions_ok (<[l' := req]> st).
Proof.
  intros H Hr l'' r. rewrite lookup_insert. case_decide; [intros [= <-]; auto|apply H].
Qed.

Definition set_priority_frame (st : store) (p : float) (l' : loc) (req : ScheduledRequest) :
  predictions_ok st -> st !! l' = Some req -> predictions_ok (<[l' := set_priority p req]> st) :=
  fun H Hl => predictions_insert st l' (set_priority p req) H (H l' req Hl).

Lemma fltb_not_nan_l x y : fltb x y = true -> is_nan x = false.
Proof. by destruct x, y. Qed.

Lemma fltb_not_nan_r x y : fltb x y = true -> is_nan y = false.
Proof. by destruct x, y. Qed.

Lemma waits_cancel p st s rid' : rid' <> rid -> waits p st s -> waits p st (snd (sjf_cancel rid' s)).
Proof.
  intros Hne [Hf Ha Ht Hq Hg Hk He Hu Hr Hwf Hpr].
  destruct (sjf_cancel_parts rid' s) as ((Ha1 & Ht1 & _ & Hu1) & Hp1 & Hq1 & Hf1).
  split; rewrite ?Hp1, ?Hq1, ?Ha1, ?Ht1; try done.
  - unfold fallback_active in *. rewrite Hu1, Hf1. destruct (s_use_fallback s); [|done]. by rewrite Hf.
  - by apply iw_cancel.
  - by rewrite od_get_pop_ne.
  - by apply od_pop_nodup.
  - intros r l2 H2. apply He. by apply od_get_pop_sub in H2.
Qed.

(** The turn of another entry in an aging pass. *)
Lemma waits_age_other now rid' l' p st s :
  rid' <> rid -> waits p st s -> rid_at st l' = Some rid' ->
  exists st' s', age_one log1p exp now rid' l' st s = (st', s', Ok tt) /\ waits p st' s' /\
    (forall l'', rid_at st' l'' = rid_at st l'').
Proof.
  intros Hne Hw Hr. destruct Hw as [Hf Ha Ht Hq Hg Hk He Hu (req0 & Hl0 & Hp0 & He0) Hwf Hpr].
  assert (Hll : l <> l').
  { intros <-. pose proof (He _ _ Hg) as Hr'. congruence. }
  unfold age_one. unfold rid_at in Hr. destruct (st !! l') as [req|] eqn:El; [|done].
  destruct (fltb (s_timeout s) _).
  { eexists _, _. split; [done|]. split; [|done]. apply waits_cancel; [done|]. split; eauto. }
  rewrite Ha. cbn [boost linear_boost]. unfold linear_boost. destruct (fltb (fsub _ _) _) eqn:Eg.
  - eexists _, _. split; [done|]. split.
    2: { intros l2. by apply (rid_at_insert st l' req). }
    split; simpl; try done.
    + apply iw_update_other; [done| |done]. by eapply fltb_not_nan_l.
    + intros r l2 H2. rewrite (rid_at_insert st l' req) by done. by apply He.
    + intros l2. rewrite (rid_at_insert st l' req) by done. apply Hu.
    + exists req0. by rewrite lookup_insert_ne.
    + by apply set_priority_frame.
  - eexists _, _. split; [done|]. split; [|done]. split; eauto.
Qed.

(** What one pass at [now] makes of the priority of the request. *)
Definition pass_boost (now : float) : float := fmin (fmul c.(factor) (fsub now e)) c.(max_boost).
Definition after_pass (now p : float) : float := aged_priority p (fsub p (pass_boost now)).

(** The pass at [now] does not find the request timed out. *)
Definition in_time (now : float) : Prop := fltb timeout (fsub now e) = false.

(** Its own turn. *)
Lemma waits_age_own now p st s :
  in_time now -> waits p st s ->
  exists st' s', age_one log1p exp now rid l st s = (st', s', Ok tt) /\
    waits (after_pass now p) st' s' /\ (forall l'', rid_at st' l'' = rid_at st l'').
Proof.
  intros Hin [Hf Ha Ht Hq Hg Hk He Hu (req & Hl & Hp & Hen) Hwf Hpr].
  unfold age_one. rewrite Hl, Ht, Hen, Hin, Ha, Hp. cbn [boost linear_boost]. unfold linear_boost.
  unfold after_pass, aged_priority, pass_boost. destruct (fltb _ _) eqn:Eg.
  - eexists _, _. split; [done|]. split; [|intros l2; by apply (rid_at_insert st l req)].
    split; simpl; try done.
    + eapply iw_update; [by eapply fltb_not_nan_l|done].
    + intros r l2 H2. rewrite (rid_at_insert st l req) by done. by apply He.
    + intros l2. rewrite (rid_at_insert st l req) by done. apply Hu.
    + exists (set_priority (fsub p (fmin (fmul (factor c) (fsub now e)) (max_boost c))) req).
      by rewrite lookup_insert_eq.
    + apply fsub_wf.
    + by apply set_priority_frame.
  - eexists _, _. split; [done|]. split; [|done]. split; eauto.
Qed.

(** A pass over entries that are those of the objects. *)
Lemma waits_age_all now p items st s :
  in_time now -> NoDup (od_keys items) ->
  (forall rid' l', (rid', l') ∈ items -> rid_at st l' = Some rid') -> waits p st s ->
  exists st' s', age_all log1p exp now items st s = (st', s', Ok tt) /\
    waits (if bool_decide (rid ∈ od_keys items) then after_pass now p else p) st' s'.
Proof.
  intros Hin. revert p st s. induction items as [|[rid' l'] items IH]; intros p st s Hnd Hr Hw.
  { exists st, s. done. }
  cbn [od_keys map fst] in *. apply NoDup_cons in Hnd as [Hni Hnd].
  assert (Hr' : rid_at st l' = Some rid') by (apply Hr; left).
  cbn [age_all]. destruct (decide (rid' = rid)) as [->|Hne].
  - assert (l' = l) as -> by (by apply (w_unique _ _ _ Hw)).
    destruct (waits_age_own now p st s Hin Hw) as (st1 & s1 & -> & Hw1 & Hfr).
    destruct (fun H => IH _ st1 s1 Hnd H Hw1) as (st' & s' & E & Hw').
    { intros r l2 H2. rewrite Hfr. apply Hr. by right. }
    exists st', s'. split; [done|]. rewrite bool_decide_eq_false_2 in Hw' by done.
    rewrite bool_decide_eq_true_2 by left. done.
  - destruct (waits_age_other now rid' l' p st s Hne Hw Hr') as (st1 & s1 & -> & Hw1 & Hfr).
    destruct (fun H => IH _ st1 s1 Hnd H Hw1) as (st' & s' & E & Hw').
    { intros r l2 H2. rewrite Hfr. apply Hr. by right. }
    exists st', s'. split; [done|]. revert Hw'. repeat case_bool_decide; try done; set_solver.
Qed.

Lemma waits_pass now p st s :
  in_time now -> waits p st s ->
  exists st' s', aging_pass log1p exp now st s = (st', s', Ok tt) /\ waits (after_pass now p) st' s'.
Proof.
  intros Hin Hw. unfold aging_pass.
  destruct (waits_age_all now p (s_pending s) st s Hin) as (st' & s' & E & Hw'); [apply Hw| |done|].
  - intros r l' Hel. apply (w_entries _ _ _ Hw), od_elem_get; [apply Hw|done].
  - exists st', s'. split; [done|]. rewrite bool_decide_eq_true_2 in Hw'; [done|].
    apply (list_elem_of_fmap_2 fst _ _ (od_get_elem _ _ _ (w_get _ _ _ Hw))).
Qed.

(** The predictor answers, with at least one token. *)
Hypothesis predictor_ok : forall prompt, exists pred,
  predictor prompt = Ok pred /\ (f1 <= pred.(predicted_tokens))%float.

(** What a submission does then: the request is queued, with its scheduling
    value as its priority, which is at least one token. *)
Lemma healthy_submit_priority cl l' st s req p :
  fallback_active s = None -> predictions_ok st -> st !! l' = Some req ->
  submit_priority predictor req = Ok p ->
  (f1 <= p)%float /\ exists b ms,
    sjf_submit predictor cl l' st s =
      (<[l' := set_schedule_ms ms (set_priority p (set_predicted p req))]> st,
       set_base b (set_queue (enqueue cl.(sc_now) req.(r_request_id) p l' s.(s_queue))
         (set_pending (od_set req.(r_request_id) l' s.(s_pending)) s)), Ok tt).
Proof.
  intros Hf Hp Hl Hsp. unfold submit_priority in Hsp. unfold sjf_submit, sjf_predict. rewrite Hl.
  destruct (ftruthy (r_predicted_tokens req)) eqn:Et.
  - injection Hsp as <-. split; [exact (Hp l' req Hl Et)|]. rewrite Hf. eexists _, _. reflexivity.
  - destruct (predictor_ok (r_prompt req)) as (pred & Epr & H1). rewrite Epr in Hsp |- *.
    injection Hsp as <-. split; [exact H1|].
    match goal with |- context [fallback_active ?s1] =>
      replace (fallback_active s1) with (@None FCFSScheduler) by done end.
    eexists _, _. reflexivity.
Qed.

Lemma healthy_submit cl l' st s req :
  fallback_active s = None -> predictions_ok st -> st !! l' = Some req ->
  exists p b ms, (f1 <= p)%float /\
    sjf_submit predictor cl l' st s =
      (<[l' := set_schedule_ms ms (set_priority p (set_predicted p req))]> st,
       set_base b (set_queue (enqueue cl.(sc_now) req.(r_request_id) p l' s.(s_queue))
         (set_pending (od_set req.(r_request_id) l' s.(s_pending)) s)), Ok tt).
Proof.
  intros Hf Hp Hl. assert (Hs : exists p, submit_priority predictor req = Ok p).
  { unfold submit_priority. destruct (ftruthy _); [by eexists|].
    destruct (predictor_ok (r_prompt req)) as (pred & -> & _). by eexists. }
  destruct Hs as [p Hs]. destruct (healthy_submit_priority cl l' st s req p Hf Hp Hl Hs) as (H1 & b & ms & E).
  exists p, b, ms. split; [exact H1|exact E].
Qed.

Lemma waits_submit cl l' p st s st' s' r :
  l' <> l -> is_nan cl.(sc_now) = false -> waits p st s ->
  sjf_submit predictor cl l' st s = (st', s', r) -> waits p st' s'.
Proof.
  intros Hne Hn Hw E. destruct (st !! l') as [req|] eqn:El.
  2: { unfold sjf_submit in E. rewrite El in E. by simplify_eq. }
  destruct (healthy_submit cl l' st s req) as (p' & b & ms & Hp1 & Es); [apply Hw..|done|].
  rewrite Es in E. injection E as <- <- <-. clear Es.
  assert (Hn' : is_nan p' = false) by exact (proj2 (fle_not_nan _ _ Hp1)).
  assert (Hpr' : predictions_ok (<[l' := set_schedule_ms ms (set_priority p' (set_predicted p' req))]> st))
    by (apply predictions_insert; [exact (w_predictions _ _ _ Hw)|intros _; exact Hp1]).
  clear Hp1. destruct Hw as [Hf Ha Ht Hq Hg Hk He Hu (req0 & Hl0 & Hr0) Hwf Hpr].
  assert (Hrid : r_request_id req <> rid).
  { intros Hr. apply Hne, Hu. unfold rid_at. rewrite El. simpl. by rewrite Hr. }
  split; simpl; try done.
  - by apply iw_enqueue.
  - rewrite od_get_set, bool_decide_eq_false_2; [done|congruence].
  - by apply od_set_nodup.
  - intros r' l2. rewrite od_get_set, (rid_at_insert st l' req) by done. case_bool_decide; [|apply He].
    intros [= <-]. subst. unfold rid_at. by rewrite El.
  - intros l2. rewrite (rid_at_insert st l' req) by done. apply Hu.
  - exists req0. by rewrite lookup_insert_ne.
Qed.

Lemma waits_acquire cl t p st s o s' :
  waits p st s -> sjf_acquire cl t s = (o, s') -> o = Acquired l \/ waits p st s'.
Proof.
  intros [Hf Ha Ht Hq Hg Hk He Hu Hr Hwf Hpr] E. unfold sjf_acquire in E. rewrite Hf in E.
  destruct (dequeue_turn _ _ _ _ _) as [o' q'] eqn:Ed. simplify_eq.
  apply dequeue_turn_pop in Ed as (r & Ep & Hret & _).
  destruct (iw_pop _ _ _ _ _ _ _ Hq Ep) as [(it & -> & Hl)|Hw].
  - left. rewrite (Hret it) by done. simpl. by rewrite Hl.
  - right. by split.
Qed.

Lemma waits_complete p st s rid' ok : rid' <> rid -> waits p st s -> waits p st (sjf_complete rid' ok s).
Proof.
  intros Hne [Hf Ha Ht Hq Hg Hk He Hu Hr Hwf Hpr]. split; simpl; try done.
  - unfold fallback_active in *. simpl. destruct (s_use_fallback s); [|done]. by rewrite Hf.
  - by rewrite od_get_pop_ne.
  - by apply od_pop_nodup.
  - intros r l2 H2. apply He. by apply od_get_pop_sub in H2.
Qed.

(** The priority after a call. *)
Definition priority_after (o : sjf_op) (p : float) : float :=
  match o with SAging now => after_pass now p | _ => p end.

Definition in_time_op (o : sjf_op) : Prop :=
  match o with SAging now => in_time now | _ => True end.

(** One call: the request is delivered, or it still waits, with a priority
    only an aging pass changes. *)
Lemma waits_step o p st s ev st' s' :
  about_others o -> in_time_op o -> waits p st s ->
  sjf_step predictor log1p exp o st s = (ev, (st', s')) ->
  ev = Delivered l \/ waits (priority_after o p) st' s'.
Proof.
  intros Ho Ht Hw E. destruct o as [cl l'|cl t|rid' ok|rid'|now|config| |]; simpl in *.
  - right. destruct Ho as [Hne Hn]. destruct (sjf_submit predictor cl l' st s) as [[st1 s1] r] eqn:Es.
    apply (waits_submit _ _ p) in Es; [|done..]. destruct r; by simplify_eq.
  - destruct (sjf_acquire cl t s) as [o s1] eqn:Ea.
    destruct (waits_acquire _ _ _ _ _ _ _ Hw Ea) as [->|Hw1]; [left; by simplify_eq|right].
    destruct o; by simplify_eq.
  - right. simplify_eq. by apply waits_complete.
  - right. simplify_eq. by apply waits_cancel.
  - right. destruct (waits_pass now p st s Ht Hw) as (st1 & s1 & E1 & Hw1).
    rewrite E1 in E. simpl in E. by simplify_eq.
  - done.
  - right. simplify_eq. unfold sjf_start. destruct (s_aging_task s); [done|]. by destruct Hw.
  - right. simplify_eq. unfold sjf_stop. destruct (s_aging_task s); [|done]. by destruct Hw.
Qed.

Definition passes (os : list sjf_op) : nat := length (filter (fun o => is_aging o = true) os).
Definition acquires (os : list sjf_op) : nat := length (filter (fun o => is_acquire o = true) os).

Lemma passes_cons o os : passes (o :: os) = (if is_aging o then 1 else 0) + passes os.
Proof. unfold passes. rewrite filter_cons. by destruct (is_aging o). Qed.

Lemma acquires_cons o os : acquires (o :: os) = (if is_acquire o then 1 else 0) + acquires os.
Proof. unfold acquires. rewrite filter_cons. by destruct (is_acquire o). Qed.

Lemma delivered_cons ev es : delivered (ev :: es) = delivered [ev] ++ delivered es.
Proof. by destruct ev. Qed.

Lemma delivered_here es : l ∈ delivered (Delivered l :: es).
Proof. left. Qed.

Lemma delivered_later ev es : l ∈ delivered es -> l ∈ delivered (ev :: es).
Proof. intros H. rewrite delivered_cons. apply elem_of_app. by right. Qed.

(** A pass that finds the request in time and takes at least a token off. *)
Definition lifts (o : sjf_op) : Prop :=
  match o with SAging now => in_time now /\ (f1 <= pass_boost now)%float | _ => True end.

(** While passes lift it, the request is delivered or gains a token a pass. *)
Lemma waits_run os n p st s es st' s' :
  Forall about_others os -> Forall lifts os -> waits p st s ->
  below n p -> (Z.of_nat n <= max_tokens_bound)%Z ->
  sjf_run predictor log1p exp os st s = (es, (st', s')) ->
  l ∈ delivered es \/ exists p', waits p' st' s' /\ below (n - passes os) p'.
Proof.
  intros Ho Hs. revert n p st s es. induction Ho as [|o os Ho _ IH]; intros n p st s es Hw Hb Hn E; simpl in E.
  { simplify_eq. right. exists p. by rewrite Nat.sub_0_r. }
  apply Forall_cons in Hs as [Hl Hs]. specialize (IH Hs).
  destruct (sjf_step _ _ _ o st s) as [ev [st1 s1]] eqn:E1.
  destruct (sjf_run _ _ _ os st1 s1) as [es' z] eqn:E2. injection E as <- ->.
  assert (Ht : in_time_op o) by (destruct o; try exact I; exact (proj1 Hl)).
  destruct (waits_step _ _ _ _ _ _ _ Ho Ht Hw E1) as [->|Hw1]; [left; apply delivered_here|].
  assert (Hb1 : below (n - (if is_aging o then 1 else 0)) (priority_after o p)).
  { destruct o; cbn [is_aging priority_after]; try (rewrite Nat.sub_0_r; exact Hb).
    pose proof (w_wf _ _ _ Hw) as Hwf. destruct n as [|n]; [exact (below_aged_same 0 p _ Hwf Hb)|].
    cbn [Nat.sub]. rewrite Nat.sub_0_r. apply below_aged; [lia|exact Hwf|exact (proj2 Hl)|exact Hb]. }
  destruct (IH _ _ _ _ _ Hw1 Hb1 ltac:(lia) E2) as [Hd|(p' & Hw' & Hb')].
  - left. by apply delivered_later.
  - right. exists p'. split; [exact Hw'|]. rewrite passes_cons.
    by replace (n - _) with (n - (if is_aging o then 1 else 0) - passes os) by lia.
Qed.

(** A pass only adds to the heap. *)
Lemma age_one_heap now rid' l' st s :
  exists added, _heap (s_queue (snd (fst (age_one log1p exp now rid' l' st s)))) ≡ₚ added ++ _heap (s_queue s).
Proof.
  unfold age_one. destruct (st !! l') as [req|]; [|by exists []].
  destruct (fltb (s_timeout s) _).
  { exists []. cbn [fst snd]. destruct (sjf_cancel_parts rid' s) as (_ & _ & -> & _). by rewrite cancel_heap. }
  destruct (boost _ _ _ _ _) as [p'|]; [|by exists []]. destruct (fltb p' _); [|by exists []].
  cbn [fst snd s_queue set_queue]. unfold update_priority.
  destruct (_pending (s_queue s) !! rid') as [old|]; [|by exists []].
  eexists [_]. cbn [snd _heap app]. apply heappush_perm.
Qed.

Lemma age_all_heap now items st s :
  exists added, _heap (s_queue (snd (fst (age_all log1p exp now items st s)))) ≡ₚ added ++ _heap (s_queue s).
Proof.
  revert st s. induction items as [|[rid' l'] items IH]; intros st s; [by exists []|]. cbn [age_all].
  destruct (age_one_heap now rid' l' st s) as [a1 H1].
  destruct (age_one _ _ _ _ _ _ _) as [[st1 s1] [[]|x]]; cbn [fst snd] in *; [|by exists a1].
  destruct (IH st1 s1) as [a2 H2]. exists (a2 ++ a1). by rewrite H2, H1, app_assoc.
Qed.

(** The items the aging passes of a run push onto the heap. *)
Fixpoint pushes (os : list sjf_op) (st : store) (s : SJFScheduler) : nat :=
  match os with
  | [] => 0
  | o :: os' =>
      let z := snd (sjf_step predictor log1p exp o st s) in
      (if is_aging o then length (_heap (s_queue (snd z))) - length (_heap (s_queue s)) else 0) +
      pushes os' (fst z) (snd z)
  end.

(** An item of the request below every fresh priority is overtaken only by
    what is ahead of it already, and by what passes push. *)
Lemma waits_ahead o x p st s ev st' s' :
  about_others o -> in_time_op o -> waits p st s ->
  queued x s.(s_queue) -> x.(payload) = l -> x.(request_id) = rid -> (x.(priority) < f1)%float ->
  sjf_step predictor log1p exp o st s = (ev, (st', s')) ->
  ev = Delivered l \/
  (queued x s'.(s_queue) /\
   ahead x s'.(s_queue).(_heap) + (if is_acquire o then 1 else 0) <=
   ahead x s.(s_queue).(_heap) +
     (if is_aging o then length (_heap (s_queue s')) - length (_heap (s_queue s)) else 0)).
Proof.
  intros Ho Ha Hw Hx Hxl Hxr Hxp E.
  assert (Hage : forall now, o = SAging now -> queued x (s_queue s') /\
    ahead x (_heap (s_queue s')) <= ahead x (_heap (s_queue s)) + (length (_heap (s_queue s')) - length (_heap (s_queue s)))).
  { intros now ->. destruct (waits_step _ _ _ _ _ _ _ Ho Ha Hw E) as [->|Hw1]; [discriminate E|].
    cbn [sjf_step] in E. injection E as _ E. destruct (age_all_heap now (s_pending s) st s) as [added Hadd].
    unfold aging_pass in E. rewrite E in Hadd. cbn [snd] in Hadd. destruct Hx as [Hx _]. split.
    - split; [rewrite Hadd; by apply elem_of_app; right|rewrite Hxr; apply Hw1].
    - rewrite !Hadd, ahead_app, length_app. pose proof (ahead_le_length x added). lia. }
  assert (Hsame : queued x (s_queue s) /\
    ahead x (_heap (s_queue s)) + 0 <= ahead x (_heap (s_queue s)) + 0) by (split; [done|lia]).
  destruct o as [cl l'|cl t|rid' ok|rid'|now|config| |]; cbn [sjf_step is_acquire is_aging about_others] in *; try done.
  - right. destruct (sjf_submit predictor cl l' st s) as [[st1 s1] r] eqn:Es.
    assert (E' : s' = s1) by (destruct r; congruence). subst s'. clear E.
    destruct (st !! l') as [req|] eqn:El.
    2: { unfold sjf_submit in Es. rewrite El in Es. injection Es as <- <- <-. exact Hsame. }
    destruct (healthy_submit cl l' st s req) as (p' & b & ms & Hp1 & E1); [apply Hw..|exact El|].
    rewrite E1 in Es. injection Es as <- <- <-. cbn [s_queue set_base set_queue enqueue _heap]. 
    assert (Hlt : item_lt x (mkItem p' (sc_now cl) (r_request_id req) l') = true)
      by (apply item_lt_priority; exact (flt_le_trans _ _ _ Hxp Hp1)).
    clear Hp1 E1. destruct Hx as [Hx Hl]. split; [split; [by apply heappush_elem; right|done]|].
    rewrite heappush_perm, ahead_after by exact Hlt. lia.
  - destruct (sjf_acquire cl t s) as [o s1] eqn:Ea. unfold sjf_acquire in Ea.
    rewrite (w_fallback _ _ _ Hw) in Ea. destruct (dequeue_turn _ _ _ _ _) as [o' q'] eqn:Ed.
    injection Ea as <- <-. apply dequeue_turn_pop in Ed as (r & Ep & Hret & _).
    destruct (pop_overtaking _ _ _ _ x (iw_inv _ _ _ _ (w_queue _ _ _ Hw)) Hx Ep) as [->|[Hx1 Hle]].
    + left. rewrite (Hret x) in E by done. cbn [of_outcome] in E. congruence.
    + right. assert (E' : s' = set_queue q' s) by (destruct (of_outcome o'); congruence).
      subst s'. cbn [s_queue set_queue]. split; [exact Hx1|lia].
  - right. injection E as _ _ <-. exact Hsame.
  - right. injection E as _ _ <-. destruct (sjf_cancel_parts rid' s) as (_ & _ & Hq & _).
    rewrite Hq, cancel_heap. destruct Hx as [Hx Hl]. split; [|lia]. split; [by rewrite cancel_heap|].
    unfold PriorityQueue.cancel. case_bool_decide; simpl; [|done]. rewrite Hxr. rewrite Hxr in Hl. set_solver.
  - right. rewrite Nat.add_0_r. exact (Hage now eq_refl).
  - right. injection E as _ _ <-. unfold sjf_start. destruct (s_aging_task s); exact Hsame.
  - right. injection E as _ _ <-. unfold sjf_stop. destruct (s_aging_task s); exact Hsame.
Qed.

Lemma waits_served os x p st s es st' s' :
  Forall about_others os -> Forall in_time_op os -> waits p st s ->
  queued x s.(s_queue) -> x.(payload) = l -> x.(request_id) = rid -> (x.(priority) < f1)%float ->
  sjf_run predictor log1p exp os st s = (es, (st', s')) ->
  l ∈ delivered es \/ (queued x s'.(s_queue) /\ queue_inv s'.(s_queue) /\
    ahead x s'.(s_queue).(_heap) + acquires os <= ahead x s.(s_queue).(_heap) + pushes os st s).
Proof.
  intros Ho Hs Hw Hx Hxl Hxr Hxp. revert p st s es Hw Hx.
  induction Ho as [|o os Ho _ IH]; intros p st s es Hw Hx E; cbn [sjf_run] in E.
  { injection E as <- <- <-. right. split; [exact Hx|]. split; [apply Hw|]. unfold acquires. simpl. lia. }
  apply Forall_cons in Hs as [Ha Hs]. specialize (IH Hs).
  destruct (sjf_step _ _ _ o st s) as [ev [st1 s1]] eqn:E1.
  destruct (sjf_run _ _ _ os st1 s1) as [es' z] eqn:E2. injection E as <- ->.
  destruct (waits_step _ _ _ _ _ _ _ Ho Ha Hw E1) as [->|Hw1]; [left; apply delivered_here|].
  destruct (waits_ahead _ _ _ _ _ _ _ _ Ho Ha Hw Hx Hxl Hxr Hxp E1) as [->|[Hx1 Hle]];
    [left; apply delivered_here|].
  destruct (IH _ _ _ _ Hw1 Hx1 E2) as [Hd|(Hx' & Hi' & Hle')]; [left; by apply delivered_later|right].
  split; [exact Hx'|]. split; [exact Hi'|]. rewrite acquires_cons. cbn [pushes]. rewrite E1. cbn [fst snd]. lia.
Qed.

(** A waiting request of at most [n] tokens is delivered once [n] passes have
    lifted it and the queue of that moment, with what later passes push, has
    been served to its end. *)
Lemma waiting_request_delivered n p os1 os2 st s es1 st1 s1 es2 st2 s2 :
  waits p st s -> (p <= of_int (Z.of_nat n))%float -> (Z.of_nat n <= max_tokens_bound)%Z ->
  Forall about_others os1 -> Forall lifts os1 -> n <= passes os1 ->
  sjf_run predictor log1p exp os1 st s = (es1, (st1, s1)) ->
  Forall about_others os2 -> Forall in_time_op os2 ->
  PriorityQueue.queue_depth s1.(s_queue) + pushes os2 st1 s1 <= acquires os2 ->
  sjf_run predictor log1p exp os2 st1 s1 = (es2, (st2, s2)) ->
  l ∈ delivered (es1 ++ es2).
Proof.
  intros Hw Hp Hn Ho1 Hl1 Hn1 E1 Ho2 Ha2 Hq2 E2. unfold delivered. rewrite omap_app, elem_of_app.
  destruct (waits_run _ n p _ _ _ _ _ Ho1 Hl1 Hw (or_intror Hp) Hn E1) as [Hd|(p' & Hw' & Hb)]; [by left|].
  replace (n - passes os1) with 0 in Hb by lia. apply below_0 in Hb.
  destruct (iw_item _ _ _ _ (w_queue _ _ _ Hw')) as (x & Hx & Hxr & Hxl & Hxp). rewrite <- Hxp in Hb.
  assert (Hqx : queued x (s_queue s1)) by (split; [exact Hx|rewrite Hxr; apply Hw']).
  destruct (waits_served _ x _ _ _ _ _ _ Ho2 Ha2 Hw' Hqx Hxl Hxr Hb E2) as [Hd|(Hx' & Hi' & Hle)]; [by right|].
  pose proof (inv_valid _ Hi') as HV. rewrite Forall_forall in HV.
  pose proof (ahead_pos x _ (HV _ (proj1 Hx')) Hx').
  pose proof (ahead_le_length x (_heap (s_queue s1))). unfold PriorityQueue.queue_depth in *. lia.
Qed.
End Scheduler.

(** ** The scheduler's invariant *)

Section Consistency.
Context (predictor : string -> result PredictionResult).
Context (log1p exp : float -> result float).

(** Predictions stored in requests are numbers. *)
Definition predictions_numbers (st : store) : Prop :=
  forall l req, st !! l = Some req -> is_nan req.(r_predicted_tokens) = false.

Lemma numbers_insert st l req :
  predictions_numbers st -> is_nan req.(r_predicted_tokens) = false -> predictions_numbers (<[l := req]> st).
Proof. intros H Hr l' r. rewrite lookup_insert. case_decide; [by intros [= <-]|apply H]. Qed.

(** The priority queue is well formed, its items and the pending dictionary
    name request objects by their own ids, and stored predictions are numbers. *)
Record sjf_inv (st : store) (s : SJFScheduler) : Prop := {
  si_queue : queue_inv s.(s_queue);
  si_items it : it ∈ s.(s_queue).(_heap) -> rid_at st it.(payload) = Some it.(request_id);
  si_keys : NoDup (od_keys s.(s_pending));
  si_entries rid l : od_get rid s.(s_pending) = Some l -> rid_at st l = Some rid;
  si_numbers : predictions_numbers st;
}.

(** A change that leaves the queue's items among the old ones, and the
    dictionary's entries too. *)
Lemma sjf_inv_shrink st s s' :
  sjf_inv st s -> queue_inv s'.(s_queue) ->
  (forall it, it ∈ s'.(s_queue).(_heap) -> it ∈ s.(s_queue).(_heap)) ->
  (s'.(s_pending) = s.(s_pending) \/ exists rid, s'.(s_pending) = od_pop rid s.(s_pending)) ->
  sjf_inv st s'.
Proof.
  intros [Hq Hi Hk He Hp] Hq' Hsub Hpd. split; [done|auto| | |done].
  - destruct Hpd as [->|[rid ->]]; [done|by apply od_pop_nodup].
  - intros r l H. apply He. destruct Hpd as [E|[rid E]]; rewrite E in H; [done|].
    by apply od_get_pop_sub in H.
Qed.

(** A change of one object that keeps its id. *)
Lemma sjf_inv_object st l req req' s :
  st !! l = Some req -> r_request_id req' = r_request_id req ->
  is_nan req'.(r_predicted_tokens) = false -> sjf_inv st s -> sjf_inv (<[l := req']> st) s.
Proof.
  intros Hl Hr Hp [Hq Hi Hk He Hn]. split; [done| |done| |by apply numbers_insert].
  - intros it. rewrite (rid_at_insert st l req) by done. apply Hi.
  - intros r l'. rewrite (rid_at_insert st l req) by done. apply He.
Qed.

Lemma sjf_inv_update st s rid p :
  is_nan p = false -> sjf_inv st s ->
  sjf_inv st (set_queue (snd (update_priority rid p s.(s_queue))) s).
Proof.
  intros Hn [Hq Hi Hk He Hp]. pose proof (update_priority_nan rid p _ Hn Hq) as Hq'.
  split; cbn [s_queue set_queue s_pending]; [exact Hq'| |exact Hk|exact He|exact Hp].
  intros it. unfold update_priority. destruct (_pending (s_queue s) !! rid) as [old|] eqn:E; [|apply Hi].
  cbn [snd _heap]. rewrite heappush_elem. intros [->|Hit]; [|by apply Hi].
  destruct (inv_pending _ Hq _ _ E) as [Hin Hid]. simpl. rewrite <- Hid. by apply Hi.
Qed.

Lemma sjf_inv_cancel st s rid : sjf_inv st s -> sjf_inv st (snd (sjf_cancel rid s)).
Proof.
  intros Hv. destruct (sjf_cancel_parts rid s) as (_ & Hp & Hq & _).
  apply (sjf_inv_shrink st s); [done| | |right; eauto]; rewrite Hq.
  - apply (cancel_inv rid (s_queue s) _ _ (si_queue _ _ Hv) (surjective_pairing _)).
  - intros it. by rewrite cancel_heap.
Qed.

Lemma sjf_inv_age_one now rid l st s st' s' r :
  sjf_inv st s -> age_one log1p exp now rid l st s = (st', s', r) -> sjf_inv st' s'.
Proof.
  intros Hv E. unfold age_one in E. destruct (st !! l) as [req|] eqn:El; [|by injection E as <- <- _].
  destruct (fltb (s_timeout s) _); [injection E as <- <- _; by apply sjf_inv_cancel|].
  destruct (boost _ _ _ _ _) as [p|]; [|by injection E as <- <- _].
  destruct (fltb p _) eqn:Eg; [|by injection E as <- <- _]. injection E as <- <- _.
  apply (sjf_inv_object st l req); [done|done|exact (si_numbers _ _ Hv l req El)|].
  apply sjf_inv_update; [by eapply fltb_not_nan_l|done].
Qed.

Lemma sjf_inv_age_all now items st s st' s' r :
  sjf_inv st s -> age_all log1p exp now items st s = (st', s', r) -> sjf_inv st' s'.
Proof.
  revert st s. induction items as [|[rid l] items IH]; intros st s Hv E; cbn [age_all] in E;
    [by injection E as <- <- _|].
  destruct (age_one _ _ _ _ _ _ _) as [[st1 s1] [u|x]] eqn:E1; apply sjf_inv_age_one in E1; [|done| |done].
  - by apply (IH _ _ E1).
  - by injection E as <- <- _.
Qed.

(** A prediction the predictor returns is a number; it may raise. *)
Hypothesis predictor_number : forall prompt pred,
  predictor prompt = Ok pred -> is_nan pred.(predicted_tokens) = false.

(** The scheduling value is a number; making it may switch to the fallback, and leaves queue and
    dictionary alone. *)
Lemma predict_parts req s p s1 :
  is_nan req.(r_predicted_tokens) = false -> sjf_predict predictor req s = Ok (p, s1) ->
  is_nan p = false /\ s1.(s_queue) = s.(s_queue) /\ s1.(s_pending) = s.(s_pending).
Proof.
  intros Hn Ep. pose proof (sjf_predict_spec _ _ _ _ _ Ep) as (_ & Hq & Hp & _). split; [|by split].
  unfold sjf_predict in Ep. destruct (ftruthy _); [by injection Ep as <- _|].
  destruct (predictor _) as [pred|] eqn:Er; [injection Ep as <- _; by eapply predictor_number|].
  apply rbind_Ok in Ep as (p' & Hp' & Ep). injection Ep as <- _. by eapply float_of_int_number.
Qed.

Lemma sjf_inv_enqueue st s now l req p b :
  sjf_inv st s -> st !! l = Some req -> is_nan now = false -> is_nan p = false ->
  sjf_inv st (set_base b (set_queue (enqueue now req.(r_request_id) p l s.(s_queue))
                (set_pending (od_set req.(r_request_id) l s.(s_pending)) s))).
Proof.
  intros [Hq Hi Hk He Hn] Hl Hnow Hp.
  assert (Hrid : rid_at st l = Some req.(r_request_id)) by (unfold rid_at; by rewrite Hl).
  split; cbn [s_queue s_pending set_base set_queue set_pending enqueue _heap]; [by apply enqueue_inv| | | |done].
  - intros it [->|Hit]%heappush_elem; [exact Hrid|by apply Hi].
  - by apply od_set_nodup.
  - intros r' l'. rewrite od_get_set. case_bool_decide; [|apply He]. intros [= <-]. by subst.
Qed.

Lemma sjf_inv_submit cl l st s st' s' r :
  is_nan cl.(sc_now) = false -> sjf_inv st s ->
  sjf_submit predictor cl l st s = (st', s', r) -> sjf_inv st' s'.
Proof.
  intros Hn Hv E. unfold sjf_submit in E. destruct (st !! l) as [req|] eqn:El; [|by injection E as <- <- _].
  destruct (sjf_predict predictor req s) as [[p s1]|] eqn:Ep; [|by injection E as <- <- _].
  destruct (predict_parts _ _ _ _ (si_numbers _ _ Hv l req El) Ep) as (Hnp & Hq1 & Hp1).
  injection E as <- <- _.
  set (req' := set_schedule_ms _ _).
  assert (Hv1 : sjf_inv (<[l := req']> st) s1).
  { apply (sjf_inv_object st l req); [exact El|done|exact Hnp|].
    apply (sjf_inv_shrink st s); [exact Hv|rewrite Hq1; apply Hv|by rewrite Hq1|by left]. }
  destruct (fallback_active s1) as [f|].
  - apply (sjf_inv_shrink _ s1); [exact Hv1|apply Hv1|done|by left].
  - apply (sjf_inv_enqueue _ s1 (sc_now cl) l req' p); [exact Hv1|apply lookup_insert_eq|exact Hn|exact Hnp].
Qed.

Definition clock_ok (o : sjf_op) : Prop :=
  match o with SSubmit cl _ => is_nan cl.(sc_now) = false | _ => True end.

Lemma sjf_step_inv o st s ev st' s' :
  clock_ok o -> sjf_inv st s -> sjf_step predictor log1p exp o st s = (ev, (st', s')) -> sjf_inv st' s'.
Proof.
  intros Ho Hv E. destruct o as [cl l|cl t|rid ok|rid|now|config| |]; cbn [sjf_step clock_ok] in *.
  - destruct (sjf_submit predictor cl l st s) as [[st1 s1] r] eqn:Es.
    apply sjf_inv_submit in Es; [|done..]. destruct r; by simplify_eq.
  - destruct (sjf_acquire cl t s) as [o s1] eqn:Ea.
    assert (E' : st' = st /\ s' = s1) by (destruct o; by simplify_eq). destruct E' as [-> ->]. clear E.
    unfold sjf_acquire in Ea. destruct (fallback_active s) as [f|].
    + destruct (fcfs_acquire t f). simplify_eq. by apply (sjf_inv_shrink st s); [|apply Hv| |left].
    + destruct (dequeue_turn _ _ _ _ _) as [o' q'] eqn:Ed. simplify_eq.
      apply dequeue_turn_inv in Ed as (r & sk & [Hperm _ _ _ _ _ _ _ _ _ _] & Hi & _); [|apply Hv].
      apply (sjf_inv_shrink st s); [done|done| |by left]. intros it Hit. rewrite Hperm, !elem_of_app. auto.
  - injection E as _ <- <-. apply (sjf_inv_shrink st s); [done|apply Hv|done|right; by exists rid].
  - injection E as _ <- <-. by apply sjf_inv_cancel.
  - injection E as _ E. destruct (aging_pass _ _ _ _ _) as [[st1 s1] r] eqn:Ea. simpl in E. simplify_eq.
    by apply sjf_inv_age_all in Ea.
  - injection E as _ <- <-. destruct (on_reload_parts config s) as (_ & _ & Hq & Hp & _).
    apply (sjf_inv_shrink st s); [done|rewrite Hq; apply Hv|by rewrite Hq|by left].
  - injection E as _ <- <-. unfold sjf_start. destruct (s_aging_task s); [done|]. by destruct Hv.
  - injection E as _ <- <-. unfold sjf_stop. destruct (s_aging_task s); [|done]. by destruct Hv.
Qed.

Lemma sjf_run_inv os st s es st' s' :
  Forall clock_ok os -> sjf_inv st s -> sjf_run predictor log1p exp os st s = (es, (st', s')) ->
  sjf_inv st' s'.
Proof.
  intros Hc. revert st s es. induction Hc as [|o os Ho _ IH]; intros st s es Hv E; cbn [sjf_run] in E.
  { by simplify_eq. }
  destruct (sjf_step _ _ _ o st s) as [ev [st1 s1]] eqn:E1.
  destruct (sjf_run _ _ _ os st1 s1) as [es' z] eqn:E2. injection E as <- ->.
  eapply IH; [by eapply sjf_step_inv|done].
Qed.
End Consistency.

(** ** Submission to delivery *)

Section Delivery.
Context (predictor : string -> result PredictionResult).
Context (log1p exp : float -> result float).
Context (c : AgingConfig) (timeout : float) (rid : string) (l : loc) (e : float).

(** The request at [l], of a new id [rid] and with scheduling value [p], is
    about to be submitted to a scheduler that serves from its priority queue
    and ages linearly with [c]. *)
Record fresh_request (cl : submit_clock) (p : float) (st : store) (s : SJFScheduler) : Prop := {
  fr_inv : sjf_inv st s;
  fr_fallback : fallback_active s = None;
  fr_aging : s.(s_aging) = LinearAging c;
  fr_timeout : s.(s_timeout) = timeout;
  fr_req : exists req, st !! l = Some req /\ req.(r_request_id) = rid /\
    req.(r_enqueue_time) = e /\ submit_priority predictor req = Ok p;
  fr_unique l' : rid_at st l' = Some rid -> l' = l;
  fr_live : rid ∉ s.(s_queue).(_cancelled);
  fr_clock : is_nan cl.(sc_now) = false;
  fr_wf : wf_float p = true;
  fr_predictions : predictions_ok st;
}.

Hypothesis predictor_ok : forall prompt, exists pred,
  predictor prompt = Ok pred /\ (f1 <= pred.(predicted_tokens))%float.

Lemma predictor_ok_number prompt pred : predictor prompt = Ok pred -> is_nan pred.(predicted_tokens) = false.
Proof.
  intros E. destruct (predictor_ok prompt) as (pred' & E' & H1). rewrite E in E'. injection E' as <-.
  exact (proj2 (fle_not_nan _ _ H1)).
Qed.

Lemma submit_waits cl p st s :
  fresh_request cl p st s ->
  exists st' s', sjf_submit predictor cl l st s = (st', s', Ok tt) /\
    waits c timeout rid l e p st' s'.
Proof.
  intros [Hv Hf Ha Ht (req & Hl & Hr & He & Hsp) Hu Hlive Hn Hwf Hpr].
  destruct (sjf_submit predictor cl l st s) as [[st1 s1] r1] eqn:Es.
  pose proof (sjf_inv_submit _ predictor_ok_number _ _ _ _ _ _ _ Hn Hv Es) as Hv'.
  destruct (healthy_submit_priority predictor predictor_ok cl l st s req p Hf Hpr Hl Hsp) as (H1 & b & ms & Es'). rewrite Es in Es'. injection Es' as -> -> ->. clear Es.
  eexists _, _. split; [reflexivity|]. rewrite Hr in *.
  assert (Hu' : forall l', rid_at (<[l := set_schedule_ms ms (set_priority p (set_predicted p req))]> st) l'
                  = Some rid -> l' = l).
  { intros l'. rewrite (rid_at_insert st l req) by done. apply Hu. }
  destruct Hv' as [Hq' Hi' Hk' He' _].
  assert (Hpr' : predictions_ok (<[l := set_schedule_ms ms (set_priority p (set_predicted p req))]> st))
    by (apply predictions_insert; [exact Hpr|intros _; exact H1]).
  clear H1. split; try done.
  - split; [exact Hq'| |intros it Hit Hid; apply Hu'; by rewrite <- Hid; apply Hi'|exact Hlive|].
    + eexists. split; [by apply heappush_elem; left|done].
    + cbn. by rewrite lookup_insert_eq.
  - cbn. by rewrite od_get_set, bool_decide_eq_true_2.
  - eexists. rewrite lookup_insert_eq. split; [done|]. split; [done|exact He].
Qed.

(** C16.  Starvation freedom under a linear policy that takes at least one
    token off per pass: a request submitted with a scheduling value of at most
    [n] tokens is delivered after [n] aging passes, followed by as many
    acquires as the queue then holds items, plus one for each item that later
    passes push: requests submitted after those [n] passes, however many and
    however short, do not delay it.  [os1] and [os2] are any calls about other
    requests (submissions, acquires, completions, cancellations, passes, starts
    and stops, no reload); each pass must find the request within its timeout,
    and those of [os1] must take a token off it.  The predictor always answers,
    with at least one token. *)
Theorem aging_prevents_starvation cl n p os1 os2 st s es1 st1 s1 es2 st2 s2 :
  fresh_request cl p st s -> (p <= of_int (Z.of_nat n))%float -> (Z.of_nat n <= max_tokens_bound)%Z ->
  Forall (about_others rid l) (os1 ++ os2) ->
  Forall (lifts c timeout e) os1 -> n <= passes os1 ->
  sjf_run predictor log1p exp (SSubmit cl l :: os1) st s = (es1, (st1, s1)) ->
  Forall (in_time_op timeout e) os2 ->
  PriorityQueue.queue_depth s1.(s_queue) + pushes predictor log1p exp os2 st1 s1 <= acquires os2 ->
  sjf_run predictor log1p exp os2 st1 s1 = (es2, (st2, s2)) ->
  l ∈ delivered (es1 ++ es2).
Proof.
  intros Hfr Hp Hn [Ho1 Ho2]%Forall_app Hl1 Hn1 E1 Ha2 Hq2 E2.
  destruct (submit_waits cl p st s Hfr) as (st0 & s0 & Es & Hw).
  cbn [sjf_run sjf_step] in E1. rewrite Es in E1.
  destruct (sjf_run _ _ _ os1 st0 s0) as [es0 z] eqn:E0. injection E1 as <- ->.
  change ((Accepted l :: es0) ++ es2) with ([Accepted l] ++ (es0 ++ es2)). apply delivered_later.
  by apply (waiting_request_delivered predictor log1p exp c timeout rid l e predictor_ok n p os1 os2
           st0 s0 es0 st1 s1 es2 st2 s2).
Qed.
End Delivery.

(** ** The shipped configuration *)

Section Shipped.
Context (predictor : string -> result PredictionResult).
Context (log1p exp : float -> result float).
Context (rid : string) (l : loc).

(** configs/scheduler.yaml: linear, factor 0.001 per second of waiting, cap
    500, requests dropped after 300 s. *)
Definition shipped_timeout : float := of_int 300.

Definition half_tokens (m : nat) : float := flit (Z.of_nat m) 2.

Lemma half_tokens_exact m :
  (Z.of_nat m < 2 ^ 53)%Z -> half_tokens m = Fin (Z.of_nat m * 2 ^ (grid - 1)).
Proof.
  intros Hm. unfold half_tokens. rewrite flit_def.
  assert (Hg : (2 ^ grid = 2 * 2 ^ (grid - 1))%Z) by (rewrite grid_def; lia).
  assert (E : round_ratio (Z.of_nat m * 2 ^ grid) 2 = round_ratio (Z.of_nat m * 2 ^ (grid - 1)) 1).
  { apply fle_antisym; apply round_ratio_mono; lia. }
  rewrite E. apply round_ratio_fixed, wf_scaled; [lia|]. rewrite grid_def. lia.
Qed.

Lemma half_tokens_step m p :
  (Z.of_nat (S m) < 2 ^ 53)%Z -> (half_tokens (S m) <= p)%float ->
  (half_tokens m <= fsub p (flit 1 2))%float.
Proof.
  intros Hm Hp. apply fle_trans with (fsub (half_tokens (S m)) (flit 1 2));
    [|apply fsub_mono_l; [fcompute|exact Hp]].
  rewrite !half_tokens_exact, half_token by lia. cbn [fsub fadd fneg].
  replace (Z.of_nat (S m) * 2 ^ (grid - 1) + - 2 ^ (grid - 1))%Z
    with (Z.of_nat m * 2 ^ (grid - 1))%Z by lia.
  rewrite round_ratio_fixed; [apply fle_Fin; lia|]. apply wf_scaled; [lia|]. rewrite grid_def. lia.
Qed.

Lemma half_tokens_mono m m' : m <= m' -> (half_tokens m <= half_tokens m')%float.
Proof.
  intros H. unfold half_tokens. rewrite !flit_def. apply round_ratio_mono; [done|done|].
  pose proof unit_pos. nia.
Qed.

(** A subtraction that clears the threshold is one of finite numbers. *)
Lemma gain_finite p b :
  fltb (fsub p b) (fsub p min_gain) = true -> is_fin p = true /\ b <> Inf true /\ is_nan b = false.
Proof.
  intros H. assert (Hg : is_fin min_gain = true) by fcompute.
  destruct min_gain as [g|?|]; [clear Hg|done..].
  destruct p as [z|[]|], b as [y|[]|]; cbn [fsub fadd fneg negb Bool.eqb] in H; try done.
  - destruct (round_ratio _ _) as [?|[]|]; done.
Qed.

Lemma fmin_le_first x y : is_nan (fmin x y) = false -> (fmin x y <= x)%float.
Proof.
  unfold fmin. destruct (fltb y x) eqn:E; intros H; [by apply flt_le|by apply fle_refl].
Qed.

(** Within the timeout a boost is at most half a token. *)
Lemma shipped_boost w p p' :
  fltb shipped_timeout w = false ->
  boost log1p exp (LinearAging default_aging_config) w p = Ok p' ->
  fltb p' (fsub p min_gain) = true -> (fsub p (flit 1 2) <= p')%float.
Proof.
  cbn [boost linear_boost]. unfold linear_boost. cbn [factor max_boost default_aging_config].
  intros Ht E Hg. injection E as <-.
  destruct (gain_finite _ _ Hg) as (Hp & Hni & Hnn). clear Hg.
  apply fsub_anti_r; [exact Hp|].
  assert (Hb : (fmin (fmul (flit 1 1000) w) (of_int 500) <= fmul (flit 1 1000) w)%float).
  { apply fmin_le_first. exact Hnn. }
  eapply fle_trans; [exact Hb|]. clear Hb.
  apply fle_trans with (fmul (flit 1 1000) (of_int 300)); [|fcompute].
  destruct w as [z|[]|].
  - apply fmul_mono_r; [fcompute|done|fcompute|fcompute|]. apply fltb_false; [exact (of_int_not_nan 300)|reflexivity|exact Ht].
  - destruct Hni. fcompute.
  - exfalso. revert Ht. vm_compute. discriminate.
  - exfalso. revert Hnn. vm_compute. discriminate.
Qed.

(** The request at [l] under id [rid], in a scheduler with the shipped aging
    and timeout: its priority, and that of each of its items in the heap, is at
    least [m] half tokens. *)
Record floor_at (m : nat) (st : store) (s : SJFScheduler) : Prop := {
  fl_inv : sjf_inv st s;
  fl_aging : s.(s_aging) = LinearAging default_aging_config;
  fl_timeout : s.(s_timeout) = shipped_timeout;
  fl_rid : rid_at st l = Some rid;
  fl_unique l' : rid_at st l' = Some rid -> l' = l;
  fl_floor : exists req, st !! l = Some req /\ (half_tokens m <= req.(r_priority))%float;
  fl_items it : it ∈ s.(s_queue).(_heap) -> it.(payload) = l -> (half_tokens m <= it.(priority))%float;
}.

(** A change of the scheduler that adds nothing to the heap. *)
Lemma floor_frame m st s s' :
  floor_at m st s -> sjf_inv st s' -> s'.(s_aging) = s.(s_aging) -> s'.(s_timeout) = s.(s_timeout) ->
  (forall it, it ∈ s'.(s_queue).(_heap) -> it ∈ s.(s_queue).(_heap)) -> floor_at m st s'.
Proof.
  intros [Hi Ha Ht Hr Hu Hf Hit] Hi' Ha' Ht' Hsub.
  split; [exact Hi'|congruence|congruence|exact Hr|exact Hu|exact Hf|].
  intros it Hin. apply Hit, Hsub, Hin.
Qed.

Lemma floor_weaken m m' st s : m <= m' -> floor_at m' st s -> floor_at m st s.
Proof.
  intros H [Hi Ha Ht Hr Hu (req & Hl & Hf) Hit]. pose proof (half_tokens_mono m m' H) as Hm.
  split; [exact Hi|exact Ha|exact Ht|exact Hr|exact Hu| |].
  - exists req. split; [exact Hl|]. exact (fle_trans _ _ _ Hm Hf).
  - intros it Hin Hpy. exact (fle_trans _ _ _ Hm (Hit it Hin Hpy)).
Qed.

(** The heap after an update: the old items, and one for the id's object. *)
Lemma update_priority_items rid' p st (s : SJFScheduler) it :
  sjf_inv st s -> it ∈ (snd (update_priority rid' p s.(s_queue))).(_heap) ->
  it ∈ s.(s_queue).(_heap) \/ (it.(priority) = p /\ rid_at st it.(payload) = Some rid').
Proof.
  intros [Hq Hi _ _ _]. unfold update_priority.
  destruct (_pending (s_queue s) !! rid') as [old|] eqn:E; [|by left].
  cbn [snd _heap]. intros [->|H]%heappush_elem; [right|by left]. split; [reflexivity|].
  destruct (inv_pending _ Hq _ _ E) as [Hin Hid]. cbn [payload]. rewrite <- Hid. by apply Hi.
Qed.

(** One entry of a pass: another object's turn leaves the floor alone, its own
    takes half a token at most. *)
Lemma floor_age_one now rid' l' m st s st' s' r :
  (Z.of_nat (S m) < 2 ^ 53)%Z -> rid_at st l' = Some rid' ->
  floor_at (if bool_decide (l' = l) then S m else m) st s ->
  age_one log1p exp now rid' l' st s = (st', s', r) ->
  floor_at m st' s' /\ (forall l2, rid_at st' l2 = rid_at st l2).
Proof.
  intros Hm Hr' Hfl E. pose proof (sjf_inv_age_one _ _ _ _ _ _ _ _ _ _ (fl_inv _ _ _ Hfl) E) as Hi'.
  assert (Hw : floor_at m st s) by (eapply floor_weaken; [|exact Hfl]; case_bool_decide; lia).
  unfold age_one in E. unfold rid_at in Hr'. destruct (st !! l') as [req'|] eqn:El; [|discriminate Hr'].
  destruct (fltb (s_timeout s) _) eqn:Et.
  { injection E as <- <- _. split; [|done]. destruct (sjf_cancel_parts rid' s) as ((Ha & Ht & _) & _ & Hq & _).
    apply (floor_frame _ _ s); [exact Hw|exact Hi'|exact Ha|exact Ht|]. intros it. by rewrite Hq, cancel_heap. }
  destruct (boost _ _ _ _ _) as [p|] eqn:Eb; [|by injection E as <- <- _].
  destruct (fltb p _) eqn:Eg; [|by injection E as <- <- _]. injection E as <- <- _.
  assert (Hrid : forall l2, rid_at (<[l' := set_priority p req']> st) l2 = rid_at st l2)
    by (intros l2; by apply (rid_at_insert st l' req')).
  split; [|exact Hrid]. rewrite (fl_aging _ _ _ Hfl) in Eb. rewrite (fl_timeout _ _ _ Hfl) in Et.
  assert (Hown : l' = l -> (half_tokens m <= p)%float).
  { intros ->. rewrite bool_decide_eq_true_2 in Hfl by done.
    destruct (fl_floor _ _ _ Hfl) as (req & Hl & Hf). rewrite Hl in El. injection El as ->.
    eapply fle_trans; [apply half_tokens_step; [exact Hm|exact Hf]|]. exact (shipped_boost _ _ _ Et Eb Eg). }
  clear Hfl Et Eb Eg. pose proof Hw as [Hi Ha Ht Hr Hu (req & Hl & Hf) Hit].
  split; cbn [s_aging s_timeout s_queue set_queue];
    [exact Hi'|exact Ha|exact Ht|by rewrite Hrid|intros l2; rewrite Hrid; apply Hu| |].
  - destruct (decide (l' = l)) as [->|Hne].
    + exists (set_priority p req'). rewrite lookup_insert_eq. split; [reflexivity|]. by apply Hown.
    + exists req. rewrite lookup_insert_ne by exact Hne. split; [exact Hl|exact Hf].
  - intros it Hin Hpy. apply (update_priority_items _ _ st) in Hin as [Hin|[-> Hid]]; [exact (Hit it Hin Hpy)| |exact Hi].
    apply Hown, Hu. rewrite Hpy, Hr in Hid. injection Hid as <-. unfold rid_at. by rewrite El.
Qed.

(** The entries of a pass's list are those of the objects. *)
Definition own_entries (items : odict loc) (st : store) : Prop :=
  forall rid' l', (rid', l') ∈ items -> rid_at st l' = Some rid'.

Lemma floor_age_others now items m st s st' s' r :
  (Z.of_nat (S m) < 2 ^ 53)%Z -> l ∉ map snd items -> own_entries items st ->
  floor_at m st s -> age_all log1p exp now items st s = (st', s', r) -> floor_at m st' s'.
Proof.
  intros Hm. revert st s. induction items as [|[r1 l1] items IH]; intros st s Hn Ho Hfl E.
  { by injection E as <- <- _. }
  cbn [map snd age_all] in *. apply not_elem_of_cons in Hn as [Hne Hn].
  destruct (age_one _ _ _ _ _ _ _) as [[st1 s1] r2] eqn:E1.
  apply (floor_age_one _ _ _ m) in E1 as [Hfl1 Hrid];
    [|exact Hm|apply Ho; by left|by rewrite bool_decide_eq_false_2].
  destruct r2 as [u|x]; [|by injection E as <- <- _].
  apply (IH st1 s1); [exact Hn| |exact Hfl1|exact E]. intros r' l' Hin. rewrite Hrid. apply Ho. by right.
Qed.

(** A pass visits [l] at most once. *)
Lemma floor_age_all now items m st s st' s' r :
  (Z.of_nat (S m) < 2 ^ 53 - 1)%Z -> NoDup (od_keys items) -> own_entries items st ->
  floor_at (S m) st s -> age_all log1p exp now items st s = (st', s', r) -> floor_at m st' s'.
Proof.
  intros Hm. revert st s. induction items as [|[r1 l1] items IH]; intros st s Hnd Ho Hfl E.
  { injection E as <- <- _. apply (floor_weaken _ (S m)); [lia|exact Hfl]. }
  cbn [od_keys map fst age_all] in *. apply NoDup_cons in Hnd as [Hni Hnd].
  assert (Hr1 : rid_at st l1 = Some r1) by (apply Ho; by left).
  assert (Hrest : forall st1, (forall l2, rid_at st1 l2 = rid_at st l2) -> own_entries items st1)
    by (intros st1 Hrid r' l' Hin; rewrite Hrid; apply Ho; by right).
  destruct (age_one _ _ _ _ _ _ _) as [[st1 s1] r2] eqn:E1.
  destruct (decide (l1 = l)) as [->|Hl1].
  - assert (Hn : l ∉ map snd items).
    { intros Hin. apply list_elem_of_fmap in Hin as ([r' l'] & -> & Hin). cbn [snd] in *.
      pose proof (Hrest st (fun _ => eq_refl) _ _ Hin) as Hr'. rewrite Hr1 in Hr'. injection Hr' as <-.
      by apply Hni, (list_elem_of_fmap_2 fst _ _ Hin). }
    apply (floor_age_one _ _ _ m) in E1 as [Hfl1 Hrid]; [|lia|exact Hr1|by rewrite bool_decide_eq_true_2].
    destruct r2 as [u|x]; [|by injection E as <- <- _].
    apply (floor_age_others now items m st1 s1 _ _ r); [lia|exact Hn|by apply Hrest|exact Hfl1|exact E].
  - apply (floor_age_one _ _ _ (S m)) in E1 as [Hfl1 Hrid]; [|lia|exact Hr1|by rewrite bool_decide_eq_false_2].
    destruct r2 as [u|x]; [by apply (IH st1 s1); [|apply Hrest| |]|].
    injection E as <- <- _. apply (floor_weaken _ (S m)); [lia|exact Hfl1].
Qed.

(** Calls that do not submit the object again and do not reload, with clocks that are numbers. *)
Definition no_resubmit (o : sjf_op) : Prop :=
  match o with
  | SSubmit cl l' => l' <> l /\ is_nan cl.(sc_now) = false
  | SReload _ => False
  | _ => True
  end.

Hypothesis predictor_number : forall prompt pred,
  predictor prompt = Ok pred -> is_nan pred.(predicted_tokens) = false.

(** What a submission touches, whatever the predictor does. *)
Lemma submit_parts cl l' st s st' s' r :
  sjf_submit predictor cl l' st s = (st', s', r) ->
  s'.(s_aging) = s.(s_aging) /\ s'.(s_timeout) = s.(s_timeout) /\
  (forall it, it ∈ s'.(s_queue).(_heap) -> it ∈ s.(s_queue).(_heap) \/ it.(payload) = l') /\
  (forall l2, l2 <> l' -> st' !! l2 = st !! l2) /\ (forall l2, rid_at st' l2 = rid_at st l2).
Proof.
  intros E. unfold sjf_submit in E. destruct (st !! l') as [req|] eqn:El; [|simplify_eq; by split_and!; auto].
  destruct (sjf_predict predictor req s) as [[p s1]|x] eqn:Ep; [|simplify_eq; by split_and!; auto].
  assert (Hs1 : s1.(s_aging) = s.(s_aging) /\ s1.(s_timeout) = s.(s_timeout) /\ s1.(s_queue) = s.(s_queue)).
  { unfold sjf_predict in Ep. destruct (ftruthy _); [by simplify_eq|].
    destruct (predictor _); [by simplify_eq|].
    apply rbind_Ok in Ep as (p' & _ & ?). simplify_eq. by destruct (s_fcfs_fallback s). }
  destruct Hs1 as (Ha & Ht & Hq). injection E as <- <- _.
  split_and!; [by destruct (fallback_active s1)|by destruct (fallback_active s1)| | |].
  - intros it. destruct (fallback_active s1); cbn; [rewrite Hq; by left|].
    intros [->|H]%heappush_elem; [by right|left]. by rewrite <- Hq.
  - intros l2 Hne. by rewrite lookup_insert_ne.
  - intros l2. by apply (rid_at_insert st l' req).
Qed.

Lemma floor_step o m st s ev st' s' :
  (Z.of_nat m < 2 ^ 53 - 1)%Z -> (if is_aging o then 1 else 0) <= m -> no_resubmit o ->
  floor_at m st s -> sjf_step predictor log1p exp o st s = (ev, (st', s')) ->
  floor_at (m - if is_aging o then 1 else 0) st' s'.
Proof.
  intros Hm Hm1 Ho Hfl E.
  assert (Hi' : sjf_inv st' s').
  { apply (sjf_step_inv predictor log1p exp predictor_number o st s ev); [|apply Hfl|exact E].
    destruct o; try exact I. exact (proj2 Ho). }
  destruct o as [cl l'|cl t|rid' ok|rid'|now|config| |]; cbn [sjf_step is_aging no_resubmit] in *;
    rewrite ?Nat.sub_0_r; [..|done|idtac|idtac].
  - destruct (sjf_submit predictor cl l' st s) as [[st1 s1] r] eqn:Es.
    assert (E' : st' = st1 /\ s' = s1) by (destruct r; by injection E as _ <- <-).
    destruct E' as [-> ->]. clear E. apply submit_parts in Es as (Ha & Ht & Hh & Hst & Hrid).
    destruct Hfl as [_ Ha0 Ht0 Hr Hu (req & Hl & Hf) Hit].
    split; [exact Hi'|congruence|congruence|by rewrite Hrid|intros l2; rewrite Hrid; apply Hu| |].
    + exists req. rewrite Hst by (apply not_eq_sym, Ho). split; [exact Hl|exact Hf].
    + intros it Hin Hpy. apply Hh in Hin as [Hin|Hin]; [exact (Hit it Hin Hpy)|]. destruct Ho as [Hne _]. congruence.
  - destruct (sjf_acquire cl t s) as [o s1] eqn:Ea.
    assert (E' : st' = st /\ s' = s1) by (destruct o; by injection E as _ <- <-).
    destruct E' as [-> ->]. clear E. unfold sjf_acquire in Ea.
    destruct (fallback_active s) as [f|].
    { destruct (fcfs_acquire _ _). injection Ea as _ <-. by apply (floor_frame _ _ s). }
    destruct (dequeue_turn _ _ _ _ _) as [o' q'] eqn:Ed. injection Ea as _ <-.
    apply dequeue_turn_inv in Ed as (r & sk & [Hperm _ _ _ _ _ _ _ _ _ _] & _ & _); [|apply Hfl].
    apply (floor_frame _ _ s); [exact Hfl|exact Hi'|done|done|].
    intros it Hin. rewrite Hperm, !elem_of_app. right. by right.
  - injection E as _ <- <-. by apply (floor_frame _ _ s).
  - injection E as _ <- <-. destruct (sjf_cancel_parts rid' s) as ((Ha & Ht & _) & _ & Hq & _).
    apply (floor_frame _ _ s); [exact Hfl|exact Hi'|done|done|]. intros it. by rewrite Hq, cancel_heap.
  - injection E as _ E. unfold aging_pass in E.
    destruct (age_all _ _ _ _ _ _) as [[st1 s1] r] eqn:Ea. injection E as <- <-.
    apply floor_age_all with (m := m - 1) in Ea; [exact Ea|lia|apply Hfl| |].
    + intros r' l' Hin. apply (si_entries _ _ (fl_inv _ _ _ Hfl)), od_elem_get; [apply Hfl|exact Hin].
    + apply (floor_weaken _ m); [lia|exact Hfl].
  - injection E as _ <- <-. unfold sjf_start in *. destruct (s_aging_task s); [exact Hfl|by apply (floor_frame _ _ s)].
  - injection E as _ <- <-. unfold sjf_stop in *. destruct (s_aging_task s); [by apply (floor_frame _ _ s)|exact Hfl].
Qed.

Lemma floor_run os m st s es st' s' :
  (Z.of_nat m < 2 ^ 53 - 1)%Z -> passes os <= m -> Forall no_resubmit os ->
  floor_at m st s -> sjf_run predictor log1p exp os st s = (es, (st', s')) ->
  floor_at (m - passes os) st' s'.
Proof.
  intros Hm Hps Ho. revert m Hm Hps st s es. induction Ho as [|o os Ho _ IH]; intros m Hm Hps st s es Hfl E; cbn [sjf_run] in E.
  { injection E as <- <- <-. by rewrite Nat.sub_0_r. }
  destruct (sjf_step _ _ _ o st s) as [ev [st1 s1]] eqn:E1.
  destruct (sjf_run _ _ _ os st1 s1) as [es' z] eqn:E2. injection E as <- ->.
  rewrite passes_cons in *.
  apply (floor_step _ m) in E1; [|lia|lia|done..].
  apply (IH (m - if is_aging o then 1 else 0)) in E2; [|lia|lia|done].
  by replace (m - (_ + _)) with (m - (if is_aging o then 1 else 0) - passes os) by lia.
Qed.

(** Served from the heap, the request at the floor waits for whatever lives
    below it. *)
Lemma floor_not_served m st s cl t it :
  floor_at m st s -> fallback_active s = None -> queued it s.(s_queue) ->
  (it.(priority) < half_tokens m)%float -> fst (sjf_acquire cl t s) <> Acquired l.
Proof.
  intros Hfl Hfb [Hin Hlive] Hlt Hacq. unfold sjf_acquire in Hacq. rewrite Hfb in Hacq.
  destruct (dequeue_turn _ _ _ _ _) as [o q'] eqn:Ed. cbn [fst] in Hacq.
  destruct o as [x| |]; [|discriminate Hacq..]. injection Hacq as Hx.
  apply dequeue_turn_inv in Ed as (r & sk & [Hperm _ Hsk _ _ _ Hm _ _ _ _] & _ & Hret); [|apply Hfl].
  specialize (Hret x eq_refl) as ->.
  assert (Hxf : (half_tokens m <= x.(priority))%float).
  { apply (fl_items _ _ _ Hfl); [|exact Hx]. rewrite Hperm, !elem_of_app. right. left. left. }
  rewrite Hperm, !elem_of_app in Hin. destruct Hin as [Hin|[Hin|Hin]].
  - rewrite Forall_forall in Hsk. by apply Hsk in Hin.
  - apply list_elem_of_singleton in Hin as ->. exact (flt_irrefl _ (flt_le_trans _ _ _ Hlt Hxf)).
  - pose proof (Hm x it eq_refl Hin) as Hab. unfold above in Hab.
    rewrite (item_lt_priority it x) in Hab; [discriminate Hab|]. exact (flt_le_trans _ _ _ Hlt Hxf).
Qed.
End Shipped.

Lemma half_tokens_double n : half_tokens (2 * n) = of_int (Z.of_nat n).
Proof.
  unfold half_tokens. rewrite flit_def, of_int_def.
  replace (Z.of_nat (2 * n)) with (2 * Z.of_nat n)%Z by lia.
  apply fle_antisym; apply round_ratio_mono; lia.
Qed.

(** C17.  The shipped configuration (linear, 0.001 a second, cap 500, timeout
    300 s) is too weak for that argument: a pass takes at most half a token off
    a request before it is dropped, so after [k <= 2 n] passes a request that
    started at [n] tokens still has priority [n - k/2] or more, and as long as
    the scheduler serves from its queue no acquire returns it while an item
    that is not cancelled waits below that: requests predicted shorter by more
    than half a token per pass all overtake it.  The calls are any but reloads
    and another submission of the request; the predictor may raise. *)
Theorem shipped_aging_too_weak predictor log1p exp rid l n os st s es st' s' req :
  (forall prompt pred, predictor prompt = Ok pred -> is_nan pred.(predicted_tokens) = false) ->
  sjf_inv st s -> s.(s_aging) = LinearAging default_aging_config -> s.(s_timeout) = shipped_timeout ->
  st !! l = Some req -> req.(r_request_id) = rid -> (forall l', rid_at st l' = Some rid -> l' = l) ->
  (of_int (Z.of_nat n) <= req.(r_priority))%float ->
  (forall it, it ∈ s.(s_queue).(_heap) -> it.(payload) = l -> (of_int (Z.of_nat n) <= it.(priority))%float) ->
  (Z.of_nat n <= max_tokens_bound)%Z -> passes os <= 2 * n ->
  Forall (no_resubmit l) os -> sjf_run predictor log1p exp os st s = (es, (st', s')) ->
  let least := half_tokens (2 * n - passes os) in
  (exists req', st' !! l = Some req' /\ (least <= req'.(r_priority))%float) /\
  (forall cl t it, fallback_active s' = None -> queued it s'.(s_queue) -> (it.(priority) < least)%float ->
     fst (sjf_acquire cl t s') <> Acquired l).
Proof.
  unfold max_tokens_bound. intros Hpn Hi Ha Ht Hl Hr Hu Hp Hit Hn Hps Hos E. rewrite <- half_tokens_double in Hp, Hit.
  assert (Hfl : floor_at rid l (2 * n - passes os) st' s').
  { apply (floor_run predictor log1p exp rid l Hpn os (2 * n) st s es st' s'); [lia|exact Hps|exact Hos| |exact E].
    split; [exact Hi|exact Ha|exact Ht| |exact Hu| |exact Hit].
    - unfold rid_at. rewrite Hl. cbn. by rewrite Hr.
    - exists req. split; [exact Hl|exact Hp]. }
  split; [exact (fl_floor _ _ _ _ _ Hfl)|]. intros cl t it. exact (floor_not_served rid l _ _ _ cl t it Hfl).
Qed.

(** C19.  Whatever is called from the scheduler's creation on (submissions, acquires,
    completions, cancellations, aging passes of any policy, reloads), the
    queue stays well formed, every item of it and every entry of the pending
    dictionary names an object with that very id, and the dictionary holds an
    id once: the two structures an aging pass walks never disagree about who a
    request is.  The predictor may raise, so the fallback is covered; its
    predictions and those stored in requests are numbers, and so are the clock
    readings of submissions. *)
Theorem sjf_invariant predictor log1p exp cfg fb iv mr to os st s0 es st' s' :
  (forall prompt pred, predictor prompt = Ok pred -> is_nan pred.(predicted_tokens) = false) ->
  sjf_init cfg fb iv mr to = Ok s0 -> predictions_numbers st -> Forall clock_ok os ->
  sjf_run predictor log1p exp os st s0 = (es, (st', s')) -> sjf_inv st' s'.
Proof.
  intros Hp Hi Hst Hc E. apply (sjf_run_inv predictor log1p exp Hp os st s0 es st' s' Hc); [|exact E].
  unfold sjf_init in Hi. apply rbind_Ok in Hi as (a & _ & Hi). injection Hi as <-.
  split; cbn [s_queue s_pending]; [apply new_queue_inv| |constructor|done|exact Hst].
  intros it Hit. by apply elem_of_nil in Hit.
Qed.

(** ** Witnesses *)

Lemma run_parts {A B C} (z : A * (B * C)) : z = (fst z, (fst (snd z), snd (snd z))).
Proof. by destruct z as [? []]. Qed.

Definition overtaking_ops : list (op string) :=
  [Dequeue (of_int 4); Enqueue (of_int 5) "d" (of_int 200) "longer"; Cancel "c";
   Dequeue (of_int 6); Dequeue (of_int 7)].

Lemma bounded_overtaking_witness :
  Popped (Some item_a) ∈ fst (run overtaking_ops demo_queue).
Proof.
  apply (bounded_overtaking overtaking_ops demo_queue (fst (run overtaking_ops demo_queue))
           (snd (run overtaking_ops demo_queue))).
  - exact demo_queue_inv.
  - split; [vm_compute; right; left|]. intros H. vm_compute in H. discriminate H.
  - repeat (apply Forall_cons; split); try (apply Forall_nil; exact I);
      (split; [first [exact I|split; fcompute]|first [exact I|fcompute|discriminate]]).
  - apply surjective_pairing.
  - vm_compute. lia.
Defined.

Definition steady_predictor (_ : string) : result PredictionResult :=
  Ok (mkPrediction (of_int 7) (mkFeatures []) f0 f0).

Lemma steady_predictor_ok prompt :
  exists pred, steady_predictor prompt = Ok pred /\ (f1 <= pred.(predicted_tokens))%float.
Proof. eexists. split; [reflexivity|]. fcompute. Qed.

(** A request of three tokens, and a store of it and of one whose length is
    not predicted yet. *)
Definition short_store : store :=
  <[1 := demo_request "a" 3 64]> (<[2 := demo_request "b" 0 32]> ∅).

Lemma short_store_lookup l req :
  short_store !! l = Some req ->
  (l = 1 /\ req = demo_request "a" 3 64) \/ (l = 2 /\ req = demo_request "b" 0 32).
Proof.
  unfold short_store. rewrite !lookup_insert, lookup_empty.
  repeat case_decide; intros; simplify_eq; auto.
Qed.

Lemma short_store_predictions : predictions_ok short_store.
Proof.
  intros l req [[_ ->]|[_ ->]]%short_store_lookup; [intros _; fcompute|].
  intros H. vm_compute in H. discriminate H.
Qed.

Definition starving_ops : list sjf_op :=
  [SAging (of_int 1); SSubmit demo_clock 2; SAging (of_int 2); SAcquire demo_aclock None;
   SAging (of_int 3)].
Definition serving_ops : list sjf_op := SAging (of_int 4) :: replicate 10 (SAcquire demo_aclock None).

(** A predictor that fails on one prompt, and a third request that has it. *)
Definition moody_predictor (prompt : string) : result PredictionResult :=
  if String.eqb prompt "boom" then Raise (ValueError prompt) else steady_predictor prompt.

Lemma steady_predictor_number prompt pred :
  steady_predictor prompt = Ok pred -> is_nan pred.(predicted_tokens) = false.
Proof. intros [= <-]. fcompute. Qed.

Lemma moody_predictor_number prompt pred :
  moody_predictor prompt = Ok pred -> is_nan pred.(predicted_tokens) = false.
Proof.
  unfold moody_predictor. destruct (String.eqb prompt "boom"); [discriminate 1|]. apply steady_predictor_number.
Qed.

Definition moody_store : store :=
  <[3 := mkRequest "c" "boom" [] 16 f0 f0 f0 empty_metadata]> short_store.

Lemma short_store_numbers : predictions_numbers short_store.
Proof. intros l req [[_ ->]|[_ ->]]%short_store_lookup; fcompute. Qed.

Lemma moody_store_numbers : predictions_numbers moody_store.
Proof. apply numbers_insert; [exact short_store_numbers|fcompute]. Qed.

Definition moody_ops : list sjf_op :=
  [SSubmit demo_clock 1; SAging (of_int 1); SSubmit demo_clock 2; SAcquire demo_aclock None;
   SSubmit demo_clock 3; SAging (of_int 2); SAcquire demo_aclock None].

(** The third submission switches to the fallback. *)
Lemma sjf_invariant_witness :
  let z := sjf_run moody_predictor toy_log1p toy_exp moody_ops moody_store demo_sjf in
  sjf_inv (fst (snd z)) (snd (snd z)) /\ s_use_fallback (snd (snd z)) = true.
Proof.
  intros z. split; [|vm_compute; reflexivity].
  apply (sjf_invariant moody_predictor toy_log1p toy_exp (Some demo_aging) true (flit 1 2) 3
           (of_int 300) moody_ops moody_store demo_sjf (fst z)).
  - exact moody_predictor_number.
  - reflexivity.
  - exact moody_store_numbers.
  - repeat (apply Forall_cons; split); try apply Forall_nil; first [exact I|reflexivity].
  - exact (run_parts z).
Defined.

Lemma demo_fresh_request :
  fresh_request steady_predictor demo_aging (of_int 300) "a" 1 f0 demo_clock (of_int 3) short_store demo_sjf.
Proof.
  split; try reflexivity.
  - split; cbn [s_queue s_pending demo_sjf]; [apply new_queue_inv| |constructor|discriminate|].
    + intros it Hit. by apply elem_of_nil in Hit.
    + exact short_store_numbers.
  - exists (demo_request "a" 3 64). split_and!; [reflexivity..|vm_compute; reflexivity].
  - intros l'. unfold rid_at. destruct (short_store !! l') as [req|] eqn:E; [|discriminate].
    apply short_store_lookup in E as [[-> ->]|[-> ->]]; [reflexivity|]. discriminate.
  - intros H. vm_compute in H. discriminate H.
  - exact short_store_predictions.
Qed.

Lemma aging_prevents_starvation_witness :
  let z1 := sjf_run steady_predictor toy_log1p toy_exp (SSubmit demo_clock 1 :: starving_ops)
              short_store demo_sjf in
  let z2 := sjf_run steady_predictor toy_log1p toy_exp serving_ops (fst (snd z1)) (snd (snd z1)) in
  1 ∈ delivered (fst z1 ++ fst z2).
Proof.
  intros z1 z2.
  apply (aging_prevents_starvation steady_predictor toy_log1p toy_exp demo_aging (of_int 300) "a" 1 f0
           steady_predictor_ok demo_clock 3 (of_int 3) starving_ops serving_ops short_store demo_sjf
           (fst z1) (fst (snd z1)) (snd (snd z1)) (fst z2) (fst (snd z2)) (snd (snd z2))).
  - exact demo_fresh_request.
  - fcompute.
  - unfold max_tokens_bound. lia.
  - unfold starving_ops, serving_ops. simpl.
    repeat (apply Forall_cons; split); try apply Forall_nil; try exact I.
    split; [lia|reflexivity].
  - repeat (apply Forall_cons; split); try apply Forall_nil; try exact I; split; fcompute.
  - vm_compute. lia.
  - exact (run_parts z1).
  - repeat (apply Forall_cons; split); try apply Forall_nil; try exact I. fcompute.
  - vm_compute. lia.
  - exact (run_parts z2).
Defined.

(** The scheduler [build_scheduler] makes of the shipped configuration, and a
    request of 900 tokens queued in it. *)
Definition shipped_empty : SJFScheduler :=
  mkSjf (base_init "sjf") new_queue (LinearAging default_aging_config) default_aging_config true
    (Some fcfs_init) (flit 1 2) 3 shipped_timeout [] false false false.

Definition long_request : ScheduledRequest := set_priority (of_int 900) (demo_request "a" 900 1024).
Definition long_store : store := <[1 := long_request]> short_store.

Definition shipped_sjf : SJFScheduler :=
  set_base (base_init "sjf")
    (set_queue (enqueue f0 "a" (of_int 900) 1 shipped_empty.(s_queue))
       (set_pending (od_set "a" 1 shipped_empty.(s_pending)) shipped_empty)).

Lemma shipped_sjf_inv : sjf_inv long_store shipped_sjf.
Proof.
  apply (sjf_inv_enqueue long_store shipped_empty f0 1 long_request (of_int 900));
    [|reflexivity|fcompute|fcompute].
  split; cbn [s_queue s_pending shipped_empty]; [apply new_queue_inv| |constructor|discriminate|].
  - intros it Hit. by apply elem_of_nil in Hit.
  - apply numbers_insert; [exact short_store_numbers|fcompute].
Qed.

Definition shipped_ops : list sjf_op := [SAging (of_int 100); SSubmit demo_clock 2; SAging (of_int 200)].

(** After two passes the request of 7 tokens is still before the one of 900. *)
Lemma shipped_aging_too_weak_witness :
  let z := sjf_run steady_predictor toy_log1p toy_exp shipped_ops long_store shipped_sjf in
  (exists req', fst (snd z) !! 1 = Some req' /\ (half_tokens (2 * 900 - 2) <= req'.(r_priority))%float) /\
  fst (sjf_acquire demo_aclock None (snd (snd z))) <> Acquired 1.
Proof.
  intros z.
  destruct (shipped_aging_too_weak steady_predictor toy_log1p toy_exp "a" 1 900 shipped_ops long_store
              shipped_sjf (fst z) (fst (snd z)) (snd (snd z)) long_request) as [Hf Hs].
  - exact steady_predictor_number.
  - exact shipped_sjf_inv.
  - reflexivity.
  - reflexivity.
  - reflexivity.
  - reflexivity.
  - intros l'. unfold rid_at, long_store. rewrite lookup_insert. case_decide as Hl; [by intros _|].
    destruct (short_store !! l') as [req|] eqn:E; [|discriminate].
    apply short_store_lookup in E as [[-> ->]|[-> ->]]; [reflexivity|discriminate].
  - fcompute.
  - intros it. vm_compute. intros Hin _. apply list_elem_of_singleton in Hin as ->. reflexivity.
  - unfold max_tokens_bound. lia.
  - vm_compute. lia.
  - repeat (apply Forall_cons; split); try apply Forall_nil; try exact I. split; [lia|reflexivity].
  - exact (run_parts z).
  - split; [exact Hf|].
    apply (Hs demo_aclock None (mkItem (of_int 7) (sc_now demo_clock) "b" 2)).
    + vm_compute. reflexivity.
    + split; [vm_compute; first [left|right; left|right; right; left|right; right; right; left]|]. intros H. vm_compute in H. discriminate H.
    + fcompute.
Defined.
