(* ===== verification/MinHeap.v ===== *)
(** * Heaps of a standard library, by their documentation

    C++'s [std::priority_queue] and Go's [container/heap] are code outside the
    repository.  What the two other implementations of the queue rely on is a
    class: pushing adds an element, popping removes one that no other element is
    before, as long as the elements are comparable.  A heap is the list of its
    elements, in no particular order.  An instance that scans for the top shows
    that the laws can be kept. *)
From stdpp Require Import base option list.
From S2P Require Import Prelude.
Local Open Scope list_scope.

Class MinHeap (A : Type) := {
  heap_push : A -> list A -> list A;
  heap_pop : list A -> option (A * list A);
}.

Class MinHeapLaws (A : Type) `{MinHeap A} (valid : A -> Prop) (before : A -> A -> bool) : Prop := {
  push_perm x h : heap_push x h ≡ₚ x :: h;
  pop_none h : heap_pop h = None <-> h = [];
  pop_perm h x h' : heap_pop h = Some (x, h') -> h ≡ₚ x :: h';
  pop_first h x h' : Forall valid h -> heap_pop h = Some (x, h') -> Forall (fun y => before y x = false) h';
}.

Section Consequences.
Context {A : Type} `{MinHeapLaws A valid before}.

(** Of two elements the one before the other is popped. *)
Lemma pop_smaller x y h :
  h ≡ₚ [y; x] -> valid x -> valid y -> before y x = true -> heap_pop h = Some (y, [x]).
Proof.
  intros Hp Hx Hy Hlt. destruct (heap_pop h) as [[item h']|] eqn:E.
  2: { apply pop_none in E as ->. by apply Permutation_nil in Hp. }
  assert (Hv : Forall valid h) by (rewrite Hp; by repeat constructor).
  pose proof (pop_first _ _ _ Hv E) as Ht.
  pose proof (pop_perm _ _ _ E) as Hi. rewrite Hp in Hi.
  apply Permutation_length_2_inv in Hi as [Hi|Hi]; injection Hi as -> ->; [done|]. exfalso.
  apply Forall_cons in Ht as [Ht _]. congruence.
Qed.
End Consequences.

(** ** An instance *)

Section Scan.
Context {A : Type} (valid : A -> Prop) (before : A -> A -> bool).

Fixpoint scan_top (m : A) (seen h : list A) : A * list A :=
  match h with
  | [] => (m, seen)
  | y :: h' => if before y m then scan_top y (m :: seen) h' else scan_top m (y :: seen) h'
  end.

Definition scan_heap : MinHeap A := {|
  heap_push x h := x :: h;
  heap_pop h := match h with [] => None | m :: h' => Some (scan_top m [] h') end;
|}.

Hypothesis before_asym : forall a b, before a b = true -> before b a = false.
Hypothesis before_trans : forall a b c, valid a -> valid b -> valid c ->
  before b a = true -> before c a = false -> before c b = false.

Lemma scan_top_perm m seen h : (scan_top m seen h).1 :: (scan_top m seen h).2 ≡ₚ m :: seen ++ h.
Proof.
  revert m seen. induction h as [|y h IH]; intros m seen; cbn [scan_top]; [by rewrite app_nil_r|].
  destruct (before y m); rewrite IH; cbn; rewrite <- Permutation_middle; [apply perm_swap|done].
Qed.

Lemma scan_top_min m seen h :
  Forall valid (m :: seen ++ h) -> Forall (fun y => before y m = false) seen ->
  Forall (fun y => before y (scan_top m seen h).1 = false) (scan_top m seen h).2.
Proof.
  revert m seen. induction h as [|y h IH]; intros m seen Hc Hs; cbn [scan_top]; [done|].
  rewrite <- Permutation_middle in Hc.
  apply Forall_cons in Hc as [Hm Hc]. apply Forall_cons in Hc as [Hy Hc]. destruct (before y m) eqn:E.
  - apply IH; [constructor; [done|by constructor]|]. constructor; [by apply before_asym|].
    apply Forall_app in Hc as [Hc _]. rewrite Forall_forall in *. intros z Hz.
    apply (before_trans m y z); auto.
  - apply IH; [constructor; [done|by constructor]|]. by constructor.
Qed.

Lemma scan_heap_laws : MinHeapLaws A (H := scan_heap) valid before.
Proof.
  split.
  - done.
  - by intros [|? ?].
  - intros [|m h] x h' E; [done|]. injection E as E. pose proof (scan_top_perm m [] h) as Hp. rewrite E in Hp. by symmetry.
  - intros [|m h] x h' Hc E; [done|]. injection E as E. pose proof (scan_top_min m [] h Hc) as Hm.
    rewrite E in Hm. by apply Hm.
Qed.
End Scan.
