(* ===== verification/CppRuntime.v ===== *)
(** * The queue of the C++ runtime (cpp/src/priority_queue.cpp)

    A second implementation of the shortest-job-first queue, with copies of each
    item in a [std::priority_queue] and in a hash map of pending requests.  Every
    method holds the mutex, so a run is a sequence of calls.  The heap of the C++
    standard library is the class of MinHeap.v.  Nanoseconds and 32-bit token
    counts are integers (the clock does not reach 2^63), counters wrap at 2^64. *)
From Stdlib Require Import ZArith Lia.
From stdpp Require Import base option list strings gmap.
From S2P Require Import Prelude PyFloat Heapq MinHeap PriorityQueue Sjf.
Local Open Scope string_scope.
Local Open Scope list_scope.
Local Open Scope Z_scope.

(** ** Data *)

(** [ScheduledRequest] of priority_queue.hpp. *)
Record CppRequest := mkCppRequest {
  cr_request_id : string;
  cr_prompt : string;
  cr_max_tokens : Z;
  cr_predicted_tokens : float;
  cr_priority : float;
  cr_enqueue_ns : Z;
}.

Record HeapItem := mkHeapItem {
  hi_priority : float;
  hi_enqueue_ns : Z;
  hi_req : CppRequest;
}.

(** [operator>] *)
Definition item_gt (a b : HeapItem) : bool :=
  if negb (feqb a.(hi_priority) b.(hi_priority)) then fltb b.(hi_priority) a.(hi_priority)
  else b.(hi_enqueue_ns) <? a.(hi_enqueue_ns).

(** [std::priority_queue] with [std::greater] is a heap (MinHeap.v) whose elements come
    before those they are not greater than; [top] and [pop] are one operation. *)
Definition item_before (a b : HeapItem) : bool := item_gt b a.
Definition item_comparable (i : HeapItem) : Prop := is_nan i.(hi_priority) = false.

Record CppQueue := mkCppQueue {
  cq_heap : list HeapItem;
  cq_cancelled : gset string;
  cq_pending : gmap string HeapItem;
  cq_total_enqueued : Z;
  cq_total_dequeued : Z;
  cq_wait_ms : list float;
}.

Definition new_cpp_queue : CppQueue := mkCppQueue [] ∅ ∅ 0 0 [].

Definition u64 (n : Z) : Z := n mod 2 ^ 64.

(** [static_cast<double>(d) / unit] *)
Definition ns_over (d unit : Z) : float :=
  match fdiv (of_int d) (of_int unit) with Ok x => x | Raise _ => NaN end.

(** ** Operations *)

Section Operations.
Context `{MinHeap HeapItem}.

(** The request as it is stored: stamped, with its prediction or its budget as priority. *)
Definition stamped (now : Z) (req : CppRequest) : CppRequest :=
  mkCppRequest req.(cr_request_id) req.(cr_prompt) req.(cr_max_tokens) req.(cr_predicted_tokens)
    (if fltb f0 req.(cr_predicted_tokens) then req.(cr_predicted_tokens) else of_int req.(cr_max_tokens)) now.

Definition item_of (req : CppRequest) : HeapItem := mkHeapItem req.(cr_priority) req.(cr_enqueue_ns) req.

Definition item_id (i : HeapItem) : string := i.(hi_req).(cr_request_id).

Definition cpp_enqueue (now : Z) (req : CppRequest) (q : CppQueue) : CppQueue :=
  let item := item_of (stamped now req) in
  mkCppQueue (heap_push item q.(cq_heap)) q.(cq_cancelled) (<[item_id item := item]> q.(cq_pending))
    (u64 (q.(cq_total_enqueued) + 1)) q.(cq_total_dequeued) q.(cq_wait_ms).

(** [wait_ms.push_back], the oldest entry dropped beyond 10000. *)
Definition cpp_log_wait (ws : list float) (w : float) : list float :=
  let ws' := ws ++ [w] in if 10000 <? Z.of_nat (length ws') then tail ws' else ws'.

(** The loop of [dequeue]; each turn removes an item. *)
Fixpoint cpp_pop_loop (fuel : nat) (now : Z) (q : CppQueue) : option CppRequest * CppQueue :=
  match fuel with
  | O => (None, q)
  | S fuel' =>
      match heap_pop q.(cq_heap) with
      | None => (None, q)
      | Some (item, h) =>
          let rid := item_id item in
          if bool_decide (rid ∈ q.(cq_cancelled)) then
            cpp_pop_loop fuel' now
              (mkCppQueue h (q.(cq_cancelled) ∖ {[rid]}) (delete rid q.(cq_pending)) q.(cq_total_enqueued)
                 q.(cq_total_dequeued) q.(cq_wait_ms))
          else
            (Some item.(hi_req),
             mkCppQueue h q.(cq_cancelled) (delete rid q.(cq_pending)) q.(cq_total_enqueued)
               (u64 (q.(cq_total_dequeued) + 1))
               (cpp_log_wait q.(cq_wait_ms) (ns_over (now - item.(hi_enqueue_ns)) 1000000)))
      end
  end.

(** [dequeue] after its wait: an empty heap is a timeout. *)
Definition cpp_dequeue (now : Z) (q : CppQueue) : option CppRequest * CppQueue :=
  cpp_pop_loop (length q.(cq_heap)) now q.

Definition cpp_cancel (rid : string) (q : CppQueue) : bool * CppQueue :=
  if bool_decide (is_Some (q.(cq_pending) !! rid)) then
    (true, mkCppQueue q.(cq_heap) ({[rid]} ∪ q.(cq_cancelled)) q.(cq_pending) q.(cq_total_enqueued)
             q.(cq_total_dequeued) q.(cq_wait_ms))
  else (false, q).

(** [std::min(a, b)] and [std::max(a, b)] keep the first unless the second is better. *)
Definition aged_item (now : Z) (factor max_boost : float) (item : HeapItem) : HeapItem :=
  let wait_s := ns_over (now - item.(hi_enqueue_ns)) 1000000000 in
  let boost := fmin max_boost (fmul (fmul factor wait_s) (of_int 1000)) in
  let p := fmax f1 (fsub item.(hi_req).(cr_priority) boost) in
  let r := item.(hi_req) in
  mkHeapItem p item.(hi_enqueue_ns)
    (mkCppRequest r.(cr_request_id) r.(cr_prompt) r.(cr_max_tokens) r.(cr_predicted_tokens) p r.(cr_enqueue_ns)).

(** [apply_aging] visits the items of the pending map. *)
Definition apply_aging (now : Z) (factor max_boost : float) (q : CppQueue) : CppQueue :=
  mkCppQueue q.(cq_heap) q.(cq_cancelled) (aged_item now factor max_boost <$> q.(cq_pending))
    q.(cq_total_enqueued) q.(cq_total_dequeued) q.(cq_wait_ms).

Record CppStats := mkCppStats { st_depth : nat; st_enqueued : Z; st_dequeued : Z; st_avg_wait_ms : float }.

Definition cpp_stats (q : CppQueue) : CppStats :=
  mkCppStats (length q.(cq_heap)) q.(cq_total_enqueued) q.(cq_total_dequeued)
    (match q.(cq_wait_ms) with
     | [] => f0
     | ws => match fdiv (fold_left fadd ws f0) (of_int (Z.of_nat (length ws))) with Ok x => x | Raise _ => NaN end
     end).

(** ** The scheduler on top *)

Record CppScheduler := mkCppScheduler { cs_queue : CppQueue; cs_completed : Z; cs_errors : Z }.

Definition new_cpp_scheduler : CppScheduler := mkCppScheduler new_cpp_queue 0 0.

Definition cpp_submit (now : Z) (req : CppRequest) (s : CppScheduler) : CppScheduler :=
  mkCppScheduler (cpp_enqueue now req s.(cs_queue)) s.(cs_completed) s.(cs_errors).

(** [acquire]: a pass of aging, then a dequeue. *)
Definition cpp_acquire (now now' : Z) (s : CppScheduler) : option CppRequest * CppScheduler :=
  let '(r, q) := cpp_dequeue now' (apply_aging now (flit 1 1000) (of_int 500) s.(cs_queue)) in
  (r, mkCppScheduler q s.(cs_completed) s.(cs_errors)).

Definition cpp_complete (success : bool) (s : CppScheduler) : CppScheduler :=
  if success then mkCppScheduler s.(cs_queue) (u64 (s.(cs_completed) + 1)) s.(cs_errors)
  else mkCppScheduler s.(cs_queue) s.(cs_completed) (u64 (s.(cs_errors) + 1)).

Definition cpp_scheduler_cancel (rid : string) (s : CppScheduler) : bool * CppScheduler :=
  let '(b, q) := cpp_cancel rid s.(cs_queue) in (b, mkCppScheduler q s.(cs_completed) s.(cs_errors)).

(** ** Sequences of calls *)

Inductive cpp_op :=
| CEnqueue (now : Z) (req : CppRequest)
| CDequeue (now : Z)
| CCancel (rid : string)
| CAging (now : Z) (factor max_boost : float).

Inductive cpp_out :=
| CDone
| CPopped (r : option CppRequest)
| CFlag (b : bool).

(** The answers of one call; aging answers nothing. *)
Definition cpp_step (o : cpp_op) (q : CppQueue) : list cpp_out * CppQueue :=
  match o with
  | CEnqueue now req => ([CDone], cpp_enqueue now req q)
  | CDequeue now => let '(r, q') := cpp_dequeue now q in ([CPopped r], q')
  | CCancel rid => let '(b, q') := cpp_cancel rid q in ([CFlag b], q')
  | CAging now factor max_boost => ([], apply_aging now factor max_boost q)
  end.

Fixpoint cpp_run (os : list cpp_op) (q : CppQueue) : list cpp_out * CppQueue :=
  match os with
  | [] => ([], q)
  | o :: os' =>
      let '(r, q1) := cpp_step o q in
      let '(rs, q2) := cpp_run os' q1 in (r ++ rs, q2)
  end.
End Operations.

(** ** Properties: aging *)

Definition is_cpp_aging (o : cpp_op) : bool := match o with CAging _ _ _ => true | _ => false end.

(** Queues that differ only in what the pending map holds for its keys. *)
Record same_but_pending (q q' : CppQueue) : Prop := {
  sp_heap : q.(cq_heap) = q'.(cq_heap);
  sp_cancelled : q.(cq_cancelled) = q'.(cq_cancelled);
  sp_pending : dom q.(cq_pending) = dom q'.(cq_pending);
  sp_enqueued : q.(cq_total_enqueued) = q'.(cq_total_enqueued);
  sp_dequeued : q.(cq_total_dequeued) = q'.(cq_total_dequeued);
  sp_wait : q.(cq_wait_ms) = q'.(cq_wait_ms);
}.

#[global] Instance same_but_pending_equiv : Equivalence same_but_pending.
Proof.
  split.
  - by intros q.
  - intros q q' [? ? ? ? ? ?]. by split.
  - intros q1 q2 q3 [? ? ? ? ? ?] [? ? ? ? ? ?]. split; congruence.
Qed.

Section Aging.
Context `{MinHeap HeapItem}.

Lemma aging_changes_pending now factor max_boost q :
  same_but_pending (apply_aging now factor max_boost q) q.
Proof. split; try reflexivity. cbn. apply dom_fmap_L. Qed.

Lemma pop_loop_same fuel now q q' :
  same_but_pending q q' ->
  (cpp_pop_loop fuel now q).1 = (cpp_pop_loop fuel now q').1 /\
  same_but_pending (cpp_pop_loop fuel now q).2 (cpp_pop_loop fuel now q').2.
Proof.
  revert q q'. induction fuel as [|fuel IH]; intros q q' Hs; cbn; [done|].
  pose proof Hs as [Hh Hc Hp He Hd Hw]. rewrite Hh, Hc.
  destruct (heap_pop (cq_heap q')) as [[item h]|]; [|done]. case_bool_decide.
  - apply IH. split; cbn; try congruence. rewrite !dom_delete_L. congruence.
  - split; [done|]. split; cbn; try congruence. rewrite !dom_delete_L. congruence.
Qed.

Lemma cpp_step_same o q q' :
  same_but_pending q q' -> (cpp_step o q).1 = (cpp_step o q').1 /\
  same_but_pending (cpp_step o q).2 (cpp_step o q').2.
Proof.
  intros Hs. pose proof Hs as [Hh Hc Hp He Hd Hw]. destruct o as [now req|now|rid|now f m]; cbn.
  - split; [done|]. split; cbn; try congruence. rewrite !dom_insert_L. congruence.
  - unfold cpp_dequeue. rewrite Hh. destruct (pop_loop_same (length (cq_heap q')) now q q' Hs) as [H1 H2].
    destruct (cpp_pop_loop _ _ q), (cpp_pop_loop _ _ q'). cbn in *. by subst.
  - unfold cpp_cancel.
    assert (Hk : bool_decide (is_Some (cq_pending q !! rid)) = bool_decide (is_Some (cq_pending q' !! rid)))
      by (apply bool_decide_ext; by rewrite <- !elem_of_dom, Hp).
    rewrite Hk. clear Hk. destruct (bool_decide _); cbn; [|by split].
    split; [done|]. split; cbn; congruence.
  - split; [done|]. etransitivity; [apply aging_changes_pending|].
    etransitivity; [exact Hs|symmetry; apply aging_changes_pending].
Qed.

(** Aging is without effect: whatever passes of aging are interleaved with the other calls,
    and whatever their factors, caps and clocks, every call answers what it answers without them. *)
Theorem cpp_aging_is_invisible os q :
  (cpp_run os q).1 = (cpp_run (filter (fun o => is_cpp_aging o = false) os) q).1.
Proof.
  assert (Hs : same_but_pending q q) by reflexivity. revert Hs. generalize q at 1 3 as q1. revert q.
  induction os as [|o os IH]; intros q q1 Hs; [done|].
  rewrite filter_cons. cbn [cpp_run]. destruct (cpp_step_same o q1 q Hs) as [H1 H2].
  destruct (cpp_step o q1) as [r1 q1'] eqn:E1. case_decide as Ha.
  - cbn [cpp_run]. destruct (cpp_step o q) as [r q'] eqn:E. cbn in H1, H2. subst r1. specialize (IH q' q1' H2).
    destruct (cpp_run os q1'), (cpp_run _ q'). cbn in *. by subst.
  - assert (Hs' : same_but_pending q1' q).
    { destruct o as [| | |now f m]; try done. injection E1 as <- <-.
      etransitivity; [apply aging_changes_pending|exact Hs]. }
    assert (Hr : r1 = []) by (by destruct o; try done; injection E1 as <-). subst r1.
    specialize (IH q q1' Hs'). by destruct (cpp_run os q1').
Qed.
End Aging.

(** ** Properties: the same bag as the Python queue *)

(** An item as the queue of PriorityQueue.v would hold it. *)
Definition view (i : HeapItem) : PrioritizedItem CppRequest :=
  mkItem i.(hi_priority) (of_int i.(hi_enqueue_ns)) (item_id i) i.(hi_req).

Definition cpp_live (q : CppQueue) : list (PrioritizedItem CppRequest) :=
  map view (filter (fun i => item_id i ∉ q.(cq_cancelled)) q.(cq_heap)).

(** Calls and answers as those of the bag; aging is none of them. *)
Definition spec_op (o : cpp_op) : option (op CppRequest) :=
  match o with
  | CEnqueue now req =>
      let r := stamped now req in
      Some (Enqueue (of_int now) r.(cr_request_id) r.(cr_priority) r)
  | CDequeue now => Some (Dequeue (of_int now))
  | CCancel rid => Some (Cancel rid)
  | CAging _ _ _ => None
  end.

Definition spec_out (r : cpp_out) : out CppRequest :=
  match r with
  | CDone => Done
  | CPopped r => Popped ((fun r => view (item_of r)) <$> r)
  | CFlag b => Flag b
  end.

Definition cpp_ids (os : list cpp_op) : list string :=
  omap (fun o => match o with CEnqueue _ req => Some req.(cr_request_id) | _ => None end) os.

Record cpp_inv (q : CppQueue) : Prop := {
  ci_comparable : Forall item_comparable q.(cq_heap);
  ci_items : Forall (fun i => i = item_of i.(hi_req)) q.(cq_heap);
  ci_nodup : NoDup (map item_id q.(cq_heap));
  ci_pending rid : is_Some (q.(cq_pending) !! rid) <-> rid ∈ map item_id q.(cq_heap);
  ci_cancelled rid : rid ∈ q.(cq_cancelled) -> rid ∈ map item_id q.(cq_heap);
}.

Lemma feqb_sym x y : feqb x y = feqb y x.
Proof. destruct x as [a|a|], y as [b|b|]; cbn; try done; [apply Z.eqb_sym|]. by destruct a, b. Qed.

(** The order of the C++ items refines that of their views. *)
Lemma view_above a b : item_gt a b = false -> above item_lt (view a) (view b).
Proof.
  unfold item_gt, above, item_lt, view. cbn. rewrite (feqb_sym (hi_priority b)).
  destruct (feqb _ _); cbn; [|done]. intros H. apply Z.ltb_ge in H. by apply fltb_not_le, of_int_mono.
Qed.

Lemma stamped_not_nan now req : is_nan (stamped now req).(cr_priority) = false.
Proof.
  unfold stamped. cbn [cr_priority]. destruct (fltb f0 (cr_predicted_tokens req)) eqn:E; [|apply of_int_not_nan].
  by destruct (cr_predicted_tokens req).
Qed.

Lemma list_filter_fmap_view (h : list HeapItem) rid :
  map view (filter (fun i => item_id i <> rid) h) = filter (fun it => it.(request_id) <> rid) (map view h).
Proof.
  induction h as [|i h IH]; [done|]. cbn [map]. rewrite !filter_cons. change (request_id (view i)) with (item_id i).
  case_decide; cbn; by rewrite IH.
Qed.

Section Refinement.
Context `{!MinHeap HeapItem, !MinHeapLaws HeapItem item_comparable item_before}.

Lemma new_cpp_inv : cpp_inv new_cpp_queue.
Proof.
  split; cbn; try constructor; try done.
  - intros [? Hx]. by rewrite lookup_empty in Hx.
  - intros Hx. by apply elem_of_nil in Hx.
Qed.

Lemma bag_run_app {T} (b b1 b2 : list (PrioritizedItem T)) os rs os' rs' :
  bag_run b os rs b1 -> bag_run b1 os' rs' b2 -> bag_run b (os ++ os') (rs ++ rs') b2.
Proof. induction 1 as [|b o r b' os rs b1 Hs _ IH]; [done|]. intros Hr. econstructor; [exact Hs|by apply IH]. Qed.

Lemma bag_one {T} (b b' : list (PrioritizedItem T)) o r : bag_step b o r b' -> bag_run b [o] [r] b'.
Proof. intros Hs. econstructor; [exact Hs|constructor]. Qed.

Lemma bag_dequeue_perm {T} (b b' c : list (PrioritizedItem T)) t r :
  b ≡ₚ b' -> bag_step b' (Dequeue t) r c -> bag_step b (Dequeue t) r c.
Proof.
  intros Hp Hs. inversion Hs; subst.
  - constructor; [by rewrite Hp|done].
  - apply Permutation_nil_r in Hp as ->. constructor.
Qed.

Lemma filter_ids_ext (c c' : gset string) (h : list HeapItem) :
  (forall i, i ∈ h -> item_id i ∈ c <-> item_id i ∈ c') ->
  filter (fun i => item_id i ∉ c) h = filter (fun i => item_id i ∉ c') h.
Proof. intros Hc. apply list_filter_ext_in. intros i Hi. by rewrite Hc. Qed.

(** What popping an item leaves, cancelled or not. *)
Lemma pop_inv q item h c e d w :
  cpp_inv q -> heap_pop q.(cq_heap) = Some (item, h) ->
  (forall rid, rid ∈ c -> rid ∈ q.(cq_cancelled) /\ rid <> item_id item) ->
  cpp_inv (mkCppQueue h c (delete (item_id item) q.(cq_pending)) e d w) /\
  item = item_of item.(hi_req) /\ item_id item ∉ map item_id h.
Proof.
  intros [Hn Hi Hd Hp Hc] E Hcc. pose proof (pop_perm _ _ _ E) as Hperm.
  rewrite Hperm in Hn, Hi, Hd. cbn in Hd.
  apply Forall_cons in Hn as [_ Hn]. apply Forall_cons in Hi as [Hi0 Hi]. apply NoDup_cons in Hd as [Hni Hd].
  split; [|by split]. split; cbn; try done.
  - intros rid. rewrite lookup_delete_is_Some, Hp, Hperm. cbn. rewrite elem_of_cons.
    split; [intros [Hne [->|?]]; done|]. intros Hin. split; [by intros <-|by right].
  - intros rid Hin. apply Hcc in Hin as [Hin Hne]. apply Hc in Hin. rewrite Hperm in Hin. cbn in Hin.
    by apply elem_of_cons in Hin as [->|?].
Qed.

Lemma pop_loop_refines fuel now q r q' :
  cpp_inv q -> (length q.(cq_heap) <= fuel)%nat -> cpp_pop_loop fuel now q = (r, q') ->
  cpp_inv q' /\ (forall rid, rid ∈ map item_id q'.(cq_heap) -> rid ∈ map item_id q.(cq_heap)) /\
  bag_step (cpp_live q) (Dequeue (of_int now)) (spec_out (CPopped r)) (cpp_live q').
Proof.
  revert q. induction fuel as [|fuel IH]; intros q Hv Hf E; cbn [cpp_pop_loop] in E.
  { injection E as <- <-. split; [done|]. split; [done|]. unfold cpp_live.
    destruct (cq_heap q); [constructor|cbn in Hf; lia]. }
  destruct (heap_pop (cq_heap q)) as [[item h]|] eqn:Ep.
  2: { apply pop_none in Ep. injection E as <- <-. split; [done|]. split; [done|].
       unfold cpp_live. rewrite Ep. constructor. }
  pose proof (pop_perm _ _ _ Ep) as Hperm. pose proof (pop_first _ _ _ (ci_comparable _ Hv) Ep) as Htop.
  assert (Hlen : length (cq_heap q) = S (length h)) by (by rewrite Hperm).
  case_bool_decide as Hc.
  - destruct (pop_inv q item h (cq_cancelled q ∖ {[item_id item]}) (cq_total_enqueued q)
                (cq_total_dequeued q) (cq_wait_ms q) Hv Ep) as (Hv1 & _ & Hni); [set_solver|].
    apply IH in E as (Hv' & Hids & Hs); [|exact Hv1|cbn; lia]. split; [exact Hv'|]. split.
    { intros rid Hin. rewrite Hperm. cbn. apply elem_of_cons. right. by apply Hids. }
    eapply bag_dequeue_perm; [|exact Hs]. unfold cpp_live. cbn. rewrite Hperm.
    rewrite filter_cons_False by (by intros Hx). rewrite (filter_ids_ext _ (cq_cancelled q ∖ {[item_id item]})); [done|].
    intros i Hi. assert (item_id i <> item_id item)
      by (intros Heq; apply Hni; rewrite <- Heq; by apply (list_elem_of_fmap_2 item_id)).
    set_solver.
  - injection E as <- <-.
    destruct (pop_inv q item h (cq_cancelled q) (cq_total_enqueued q) (u64 (cq_total_dequeued q + 1))
                (cpp_log_wait (cq_wait_ms q) (ns_over (now - hi_enqueue_ns item) 1000000)) Hv Ep)
      as (Hv1 & Hit & Hni); [set_solver|].
    split; [exact Hv1|]. split; [intros rid Hin; rewrite Hperm; by right|].
    cbn [spec_out fmap option_fmap option_map]. rewrite <- Hit. constructor.
    + unfold cpp_live. cbn. rewrite Hperm, filter_cons_True by done. done.
    + intros x Hx. unfold cpp_live in Hx. cbn in Hx. apply list_elem_of_fmap in Hx as (y & -> & Hy).
      apply list_elem_of_filter in Hy as [_ Hy]. rewrite Forall_forall in Htop. by apply view_above, Htop.
Qed.

Lemma cpp_step_refines o q rs q' :
  cpp_inv q -> (forall rid, rid ∈ cpp_ids [o] -> rid ∉ map item_id q.(cq_heap)) -> cpp_step o q = (rs, q') ->
  cpp_inv q' /\ bag_run (cpp_live q) (option_list (spec_op o)) (map spec_out rs) (cpp_live q') /\
  (forall rid, rid ∈ map item_id q'.(cq_heap) -> rid ∈ map item_id q.(cq_heap) \/ rid ∈ cpp_ids [o]).
Proof.
  intros Hv Hf E. destruct o as [now req|now|rid|now f m]; cbn [cpp_step] in E.
  - injection E as <- <-. pose proof Hv as [Hn Hi Hd Hp Hc]. set (x := item_of (stamped now req)).
    assert (Hx : item_id x ∉ map item_id (cq_heap q)) by (apply Hf; left).
    assert (Hperm : heap_push x (cq_heap q) ≡ₚ x :: cq_heap q) by apply push_perm.
    assert (Hxp : is_nan x.(hi_priority) = false) by apply stamped_not_nan.
    assert (Hxi : x = item_of x.(hi_req)) by reflexivity.
    assert (Hid : cpp_ids [CEnqueue now req] = [item_id x]) by reflexivity.
    assert (Hspec : spec_op (CEnqueue now req) =
              Some (Enqueue (of_int x.(hi_enqueue_ns)) (item_id x) x.(hi_priority) x.(hi_req))) by reflexivity.
    rewrite Hid, Hspec in *. unfold cpp_enqueue. fold x. clearbody x. split; [split; cbn|split].
    + rewrite Hperm. by constructor.
    + rewrite Hperm. by constructor.
    + rewrite Hperm. cbn. by constructor.
    + intros rid. rewrite lookup_insert_is_Some', Hp, Hperm. cbn. rewrite elem_of_cons. split; intros [?|?]; auto.
    + intros rid Hin. rewrite Hperm. right. by apply Hc.
    + apply bag_one. constructor. unfold cpp_live. cbn. rewrite Hperm.
      rewrite filter_cons_True by (intros Hin; by apply Hx, Hc). done.
    + intros rid. cbn. rewrite Hperm. cbn. rewrite elem_of_cons, list_elem_of_singleton. tauto.
  - destruct (cpp_dequeue now q) as [r q''] eqn:Ed. injection E as <- <-.
    apply pop_loop_refines in Ed as (Hv' & Hids & Hs); [|done|done].
    split; [done|]. split; [by apply bag_one|]. auto.
  - destruct (cpp_cancel rid q) as [b q''] eqn:Ed. injection E as <- <-.
    pose proof Hv as [Hn Hi Hd Hp Hc]. unfold cpp_cancel in Ed. case_bool_decide as Hk; injection Ed as <- <-.
    + split; [split; cbn; try done; intros r; set_solver|]. split; [|auto]. apply bag_one. constructor; [|done].
      unfold cpp_live. cbn. rewrite <- list_filter_fmap_view, list_filter_filter.
      erewrite list_filter_iff; [done|]. intros i. cbn. set_solver.
    + split; [done|]. split; [|auto]. rewrite Hp in Hk. apply bag_one. constructor.
      * unfold cpp_live. rewrite <- list_filter_fmap_view, list_filter_filter.
        erewrite list_filter_ext_in; [done|]. intros i Hin. split; [|tauto]. intros Hni. split; [|done].
        intros Heq. apply Hk. rewrite <- Heq. by apply (list_elem_of_fmap_2 item_id).
      * intros Hin. destruct Hk. unfold cpp_live in Hin. rewrite map_map in Hin.
        apply list_elem_of_fmap in Hin as (i & -> & Hin). apply list_elem_of_filter in Hin as [_ Hin].
        by apply (list_elem_of_fmap_2 item_id).
  - injection E as <- <-. destruct Hv as [Hn Hi Hd Hp Hc]. split; [|split; [constructor|auto]].
    split; cbn; try done. intros rid. rewrite lookup_fmap, fmap_is_Some. apply Hp.
Qed.

Lemma cpp_run_refines os q rs q' :
  cpp_inv q -> NoDup (cpp_ids os) -> (forall rid, rid ∈ cpp_ids os -> rid ∉ map item_id q.(cq_heap)) ->
  cpp_run os q = (rs, q') -> bag_run (cpp_live q) (omap spec_op os) (map spec_out rs) (cpp_live q').
Proof.
  revert q rs. induction os as [|o os IH]; intros q rs Hv Hnd Hf E; cbn [cpp_run] in E.
  { injection E as <- <-. constructor. }
  destruct (cpp_step o q) as [r q1] eqn:Es. destruct (cpp_run os q1) as [rs' q2] eqn:Er. injection E as <- <-.
  change (o :: os) with ([o] ++ os) in *. unfold cpp_ids in Hnd, Hf. rewrite omap_app in Hnd, Hf.
  apply NoDup_app in Hnd as (_ & Hdis & Hnd).
  destruct (cpp_step_refines o q r q1 Hv) as (Hv1 & Hs & Hids); [|exact Es|].
  { intros rid Hin. apply Hf, elem_of_app. by left. }
  rewrite omap_app, map_app.
  replace (omap spec_op [o]) with (option_list (spec_op o)) by (cbn; by destruct (spec_op o)).
  eapply bag_run_app; [exact Hs|]. apply IH; [done|done| |exact Er].
  intros rid Hin Hh. apply Hids in Hh as [Hh|Hh]; [|by apply (Hdis rid)].
  revert Hh. apply Hf, elem_of_app. by right.
Qed.

(** C28.  The C++ queue keeps the contract of the Python one: with fresh request ids every sequence
    of calls answers as the bag served by priority and age, to which aging contributes nothing,
    and the bag it ends with is the heap without the cancelled ids. *)
Theorem cpp_queue_refines_bag os rs q :
  NoDup (cpp_ids os) -> cpp_run os new_cpp_queue = (rs, q) ->
  bag_run [] (omap spec_op os) (map spec_out rs) (cpp_live q).
Proof.
  intros Hnd E. apply (cpp_run_refines os new_cpp_queue rs q new_cpp_inv Hnd); [|exact E].
  intros rid _ Hin. by apply elem_of_nil in Hin.
Qed.
End Refinement.

(** ** Properties: starvation *)

(** A round: a request is submitted and one is acquired. *)
Record round := mkRound { rd_now : Z; rd_req : CppRequest; rd_aging : Z; rd_dequeue : Z }.

Fixpoint cpp_rounds `{MinHeap HeapItem} (rs : list round) (s : CppScheduler) : list (option CppRequest) * CppScheduler :=
  match rs with
  | [] => ([], s)
  | r :: rs' =>
      let '(x, s1) := cpp_acquire r.(rd_aging) r.(rd_dequeue) (cpp_submit r.(rd_now) r.(rd_req) s) in
      let '(xs, s2) := cpp_rounds rs' s1 in (x :: xs, s2)
  end.

Section Starving.
Context `{!MinHeap HeapItem, !MinHeapLaws HeapItem item_comparable item_before}.

Definition priority_of (req : CppRequest) : float := (stamped 0 req).(cr_priority).

Lemma round_serves_short x now req t t' s :
  s.(cs_queue).(cq_heap) = [x] -> s.(cs_queue).(cq_cancelled) = ∅ -> is_nan x.(hi_priority) = false ->
  fltb (priority_of req) x.(hi_priority) = true ->
  exists s', cpp_acquire t t' (cpp_submit now req s) = (Some (stamped now req), s') /\
    s'.(cs_queue).(cq_heap) = [x] /\ s'.(cs_queue).(cq_cancelled) = ∅.
Proof.
  intros Hh Hc Hx Hlt. set (y := item_of (stamped now req)).
  assert (Hy : is_nan y.(hi_priority) = false) by apply stamped_not_nan.
  assert (Hp : heap_push y [x] ≡ₚ [y; x]) by apply push_perm.
  assert (Hb : item_before y x = true).
  { unfold item_before, item_gt. destruct (feqb (hi_priority x) (hi_priority y)) eqn:Ef; [|exact Hlt].
    apply feqb_eq in Ef. change (fltb (hi_priority y) (hi_priority x) = true) in Hlt.
    rewrite Ef, fltb_irrefl in Hlt. discriminate Hlt. }
  pose proof (pop_smaller x y (heap_push y [x]) Hp Hx Hy Hb) as Hpop.
  unfold cpp_acquire, cpp_dequeue, cpp_submit, cpp_enqueue, apply_aging. cbn [cs_queue cq_heap cq_cancelled].
  rewrite Hh, Hc. fold y. replace (length (heap_push y [x])) with 2%nat by (by rewrite Hp).
  cbn [cpp_pop_loop cq_heap cq_cancelled]. rewrite Hpop.
  rewrite bool_decide_eq_false_2 by (by intros Hin%elem_of_empty). eexists. split; [reflexivity|]. by split.
Qed.

(** Aging does not prevent starvation in the C++ runtime: a submitted request is never acquired
    as long as each acquire is preceded by the submission of a request predicted shorter, for any
    number of rounds, whatever the clocks say. *)
Theorem cpp_long_request_starves now long (rs : list round) :
  Forall (fun r => fltb (priority_of r.(rd_req)) (priority_of long) = true) rs ->
  let '(acquired, s) := cpp_rounds rs (cpp_submit now long new_cpp_scheduler) in
  acquired = map (fun r => Some (stamped r.(rd_now) r.(rd_req))) rs /\
  map hi_req s.(cs_queue).(cq_heap) = [stamped now long].
Proof.
  intros Hall. set (x := item_of (stamped now long)).
  assert (Hx : is_nan x.(hi_priority) = false) by apply stamped_not_nan.
  assert (Hs : exists h, h = cpp_submit now long new_cpp_scheduler /\
            h.(cs_queue).(cq_heap) = [x] /\ h.(cs_queue).(cq_cancelled) = ∅).
  { eexists. split; [reflexivity|]. split; [|done]. cbn. apply Permutation_singleton_r. apply push_perm. }
  destruct Hs as (s & <- & Hh & Hc). revert s Hh Hc. induction Hall as [|r rs Hr Hrs IH]; intros s Hh Hc.
  { cbn. rewrite Hh. by split. }
  cbn [cpp_rounds]. destruct (round_serves_short x r.(rd_now) r.(rd_req) r.(rd_aging) r.(rd_dequeue) s Hh Hc Hx Hr)
    as (s' & -> & Hh' & Hc').
  specialize (IH s' Hh' Hc'). destruct (cpp_rounds rs s') as [xs s2]. destruct IH as [-> IH]. by split.
Qed.
End Starving.

(** ** Witnesses: a heap that scans for the top *)

Lemma item_gt_trans a b c :
  is_nan a.(hi_priority) = false -> is_nan b.(hi_priority) = false -> is_nan c.(hi_priority) = false ->
  item_gt a b = true -> item_gt a c = false -> item_gt b c = false.
Proof.
  unfold item_gt. destruct a as [[p|p|] n r], b as [[p'|p'|] n' r'], c as [[p''|p''|] n'' r'']; cbn; try done;
    intros _ _ _; repeat match goal with |- context [negb (?u =? ?v)] => destruct (Z.eqb_spec u v) end;
    repeat match goal with b : bool |- _ => destruct b end; cbn; intros;
    repeat match goal with H : (_ <? _) = _ |- _ => first [apply Z.ltb_lt in H | apply Z.ltb_ge in H] end;
    try apply Z.ltb_ge; try lia; try congruence.
Qed.

Lemma item_gt_asym a b : item_gt a b = true -> item_gt b a = false.
Proof.
  unfold item_gt. rewrite (feqb_sym (hi_priority b)). destruct (feqb _ _) eqn:E; cbn.
  - intros H. apply Z.ltb_lt in H. apply Z.ltb_ge. lia.
  - destruct a as [[p|p|] n r], b as [[p'|p'|] n' r']; cbn in *; try done;
      try (intros H; apply Z.ltb_lt in H; apply Z.ltb_ge; lia);
      by repeat match goal with b : bool |- _ => destruct b end.
Qed.

#[local] Instance scan_items : MinHeap HeapItem := scan_heap item_before.

#[local] Instance scan_items_laws : MinHeapLaws HeapItem item_comparable item_before.
Proof.
  apply scan_heap_laws.
  - intros a b. apply item_gt_asym.
  - intros a b c. apply item_gt_trans.
Qed.

Definition cpp_request (rid : string) (tokens : Z) : CppRequest := mkCppRequest rid "" tokens f0 f0 0.

Definition cpp_calls : list cpp_op :=
  [CEnqueue 1 (cpp_request "a" 300); CEnqueue 2 (cpp_request "b" 20); CAging 1000000000000 f1 (of_int 500);
   CCancel "b"; CEnqueue 3 (cpp_request "c" 50); CDequeue 4; CDequeue 5; CDequeue 6].

Example cpp_calls_answers :
  map (fun r => match r with CPopped (Some r) => r.(cr_request_id) | CPopped None => "none" | _ => "" end)
    (cpp_run cpp_calls new_cpp_queue).1 = [""; ""; ""; ""; "c"; "a"; "none"].
Proof. vm_compute. reflexivity. Qed.

Lemma cpp_queue_refines_bag_witness :
  bag_run [] (omap spec_op cpp_calls) (map spec_out (cpp_run cpp_calls new_cpp_queue).1)
    (cpp_live (cpp_run cpp_calls new_cpp_queue).2).
Proof.
  apply (cpp_queue_refines_bag cpp_calls (cpp_run cpp_calls new_cpp_queue).1 (cpp_run cpp_calls new_cpp_queue).2).
  - apply (bool_decide_eq_true_1 _). vm_compute. reflexivity.
  - apply surjective_pairing.
Defined.

Lemma cpp_long_request_starves_witness :
  (cpp_rounds [mkRound 2 (cpp_request "b" 20) 900000000000 900000000001]
     (cpp_submit 1 (cpp_request "a" 300) new_cpp_scheduler)).1 = [Some (stamped 2 (cpp_request "b" 20))].
Proof.
  pose proof (cpp_long_request_starves 1 (cpp_request "a" 300)
                [mkRound 2 (cpp_request "b" 20) 900000000000 900000000001]) as H.
  destruct (cpp_rounds _ _) as [xs s]. apply H. constructor; [|constructor]. vm_compute. reflexivity.
Defined.
