(* ===== verification/GoEngine.v ===== *)
(** * The scheduler of the Go gateway (go/internal/api/scheduler.go)

    A third implementation of the shortest-job-first queue.  Requests are shared
    by pointer: the heap's items, the pending map and the aging loop all reach
    the same object, so requests live in a store and are named by location.
    Methods that hold the mutex from start to end are one step; [Acquire] is cut
    where it waits on the condition variable.  [container/heap] is the class of
    MinHeap.v.  Times are nanoseconds; channels of a request are left out. *)
From Stdlib Require Import ZArith Lia.
From stdpp Require Import base option list strings gmap.
From S2P Require Import Prelude PyFloat Heapq MinHeap PriorityQueue BaseScheduler Sjf CppRuntime.
Local Open Scope string_scope.
Local Open Scope list_scope.
Local Open Scope Z_scope.

(** [Request], without the two channels the HTTP handlers make for it. *)
Record GoRequest := mkGoRequest {
  gr_id : string;
  gr_prompt : string;
  gr_max_tokens : Z;
  gr_predicted_tokens : float;
  gr_priority : float;
  gr_enqueued_at : Z;
}.

(** [item]: its priority is a copy, its request a pointer; its index is only written. *)
Record GoItem := mkGoItem {
  gi_priority : float;
  gi_enqueued_at : Z;
  gi_req : loc;
}.

(** [Less] compares priorities only. *)
Definition go_less (a b : GoItem) : bool := fltb a.(gi_priority) b.(gi_priority).

Definition go_comparable (i : GoItem) : Prop := is_nan i.(gi_priority) = false.

Record Engine := mkEngine {
  e_heap : list GoItem;
  e_pending : gmap string loc;
  e_cancelled : gset string;
  e_scheduled : Z;
  e_completed : Z;
  e_aging_factor : float;
}.

Abbreviation go_store := (gmap loc GoRequest).

Definition NewEngine : Engine := mkEngine [] ∅ ∅ 0 0 (flit 1 1000).

Section Operations.
Context `{MinHeap GoItem}.

(** [Submit]; a nil request panics. *)
Definition submitted (now : Z) (req : GoRequest) : GoRequest :=
  let p := if fleb req.(gr_predicted_tokens) f0 then of_int req.(gr_max_tokens) else req.(gr_predicted_tokens) in
  mkGoRequest req.(gr_id) req.(gr_prompt) req.(gr_max_tokens) p p now.

Definition go_submit (now : Z) (l : loc) (st : go_store) (e : Engine) : option (go_store * Engine) :=
  req ← st !! l;
  let req' := submitted now req in
  Some (<[l := req']> st,
        mkEngine (heap_push (mkGoItem req'.(gr_priority) req'.(gr_enqueued_at) l) e.(e_heap))
          (<[req'.(gr_id) := l]> e.(e_pending)) e.(e_cancelled) (u64 (e.(e_scheduled) + 1))
          e.(e_completed) e.(e_aging_factor)).

(** The inner loop of [Acquire]: pop until an item that is not cancelled. *)
Fixpoint go_pop_loop (fuel : nat) (st : go_store) (e : Engine) : option loc * Engine :=
  match fuel with
  | O => (None, e)
  | S fuel' =>
      match heap_pop e.(e_heap) with
      | None => (None, e)
      | Some (it, h) =>
          let rid := from_option gr_id "" (st !! it.(gi_req)) in
          if bool_decide (rid ∈ e.(e_cancelled)) then
            go_pop_loop fuel' st
              (mkEngine h (delete rid e.(e_pending)) (e.(e_cancelled) ∖ {[rid]}) e.(e_scheduled) e.(e_completed)
                 e.(e_aging_factor))
          else
            (Some it.(gi_req),
             mkEngine h (delete rid e.(e_pending)) e.(e_cancelled) e.(e_scheduled) e.(e_completed) e.(e_aging_factor))
      end
  end.

Inductive acquired := Got (l : loc) | Waits | CtxErr.

(** One stretch of [Acquire]: from the call, or from a wake-up ([woken]), to its end or its next
    wait; only a woken call looks at its context. *)
Definition go_acquire (woken ctx_done : bool) (st : go_store) (e : Engine) : acquired * Engine :=
  if woken && ctx_done then (CtxErr, e)
  else
    match go_pop_loop (length e.(e_heap)) st e with
    | (Some l, e') => (Got l, e')
    | (None, e') => (Waits, e')
    end.

Definition go_complete (success : bool) (e : Engine) : Engine :=
  if success then
    mkEngine e.(e_heap) e.(e_pending) e.(e_cancelled) e.(e_scheduled) (u64 (e.(e_completed) + 1)) e.(e_aging_factor)
  else e.

Definition go_cancel (rid : string) (e : Engine) : bool * Engine :=
  if bool_decide (is_Some (e.(e_pending) !! rid)) then
    (true, mkEngine e.(e_heap) e.(e_pending) ({[rid]} ∪ e.(e_cancelled)) e.(e_scheduled) e.(e_completed)
             e.(e_aging_factor))
  else (false, e).

Definition go_depth (e : Engine) : nat := length e.(e_heap).

Definition go_stats (e : Engine) : list (string * Z) :=
  [("queue_depth", Z.of_nat (length e.(e_heap))); ("total_scheduled", e.(e_scheduled));
   ("total_completed", e.(e_completed))].

(** [Duration.Seconds]: whole seconds and the rest, each as a float. *)
Definition go_seconds (d : Z) : float :=
  fadd (of_int (Z.quot d 1000000000)) (ns_over (Z.rem d 1000000000) 1000000000).

(** The body of the aging loop for one request. *)
Definition go_aged (now : Z) (factor : float) (req : GoRequest) : GoRequest :=
  let wait := go_seconds (now - req.(gr_enqueued_at)) in
  let boost := fmul (fmul factor wait) (of_int 1000) in
  let boost := if fltb (of_int 500) boost then of_int 500 else boost in
  mkGoRequest req.(gr_id) req.(gr_prompt) req.(gr_max_tokens) req.(gr_predicted_tokens)
    (fsub req.(gr_predicted_tokens) boost) req.(gr_enqueued_at).

(** A tick of [agingLoop]: every pending request, through its pointer. *)
Definition go_aging (now : Z) (st : go_store) (e : Engine) : go_store :=
  map_fold (fun _ l st' => alter (go_aged now e.(e_aging_factor)) l st') st e.(e_pending).

(** ** Sequences of steps *)

Inductive go_op :=
| GSubmit (now : Z) (l : loc)
| GAcquire (woken ctx_done : bool)
| GComplete (success : bool)
| GCancel (rid : string)
| GAging (now : Z).

Inductive go_out :=
| GDone
| GPanic
| GAcquired (r : acquired)
| GFlag (b : bool).

Definition go_step (o : go_op) (st : go_store) (e : Engine) : list go_out * (go_store * Engine) :=
  match o with
  | GSubmit now l =>
      match go_submit now l st e with
      | Some z => ([GDone], z)
      | None => ([GPanic], (st, e))
      end
  | GAcquire woken ctx_done => let '(r, e') := go_acquire woken ctx_done st e in ([GAcquired r], (st, e'))
  | GComplete success => ([GDone], (st, go_complete success e))
  | GCancel rid => let '(b, e') := go_cancel rid e in ([GFlag b], (st, e'))
  | GAging now => ([], (go_aging now st e, e))
  end.

Fixpoint go_run (os : list go_op) (st : go_store) (e : Engine) : list go_out * (go_store * Engine) :=
  match os with
  | [] => ([], (st, e))
  | o :: os' =>
      let '(r, (st1, e1)) := go_step o st e in
      let '(rs, z) := go_run os' st1 e1 in (r ++ rs, z)
  end.
End Operations.

(** ** Properties: aging *)

Definition is_go_aging (o : go_op) : bool := match o with GAging _ => true | _ => false end.

(** A request without its current priority, and stores that agree on that. *)
Definition unranked (req : GoRequest) : string * string * Z * float * Z :=
  (req.(gr_id), req.(gr_prompt), req.(gr_max_tokens), req.(gr_predicted_tokens), req.(gr_enqueued_at)).

Definition same_unranked (st st' : go_store) : Prop := forall l, unranked <$> st !! l = unranked <$> st' !! l.

Section Aging.
Context `{MinHeap GoItem}.

Lemma go_aging_unranked now st e : same_unranked (go_aging now st e) st.
Proof.
  unfold go_aging. apply (map_fold_weak_ind (fun st' _ => same_unranked st' st)); [by intros l|].
  intros rid l m st' _ IH l'. rewrite lookup_alter. case_decide as E; [subst l'|by apply IH].
  rewrite <- IH. by destruct (st' !! l).
Qed.

Lemma unranked_id st st' l :
  same_unranked st st' -> from_option gr_id "" (st !! l) = from_option gr_id "" (st' !! l).
Proof. intros Hs. specialize (Hs l). destruct (st !! l), (st' !! l); cbn in *; try done. by injection Hs. Qed.

Lemma go_pop_same fuel st st' e : same_unranked st st' -> go_pop_loop fuel st e = go_pop_loop fuel st' e.
Proof.
  intros Hs. revert e. induction fuel as [|fuel IH]; intros e; [done|]. cbn.
  destruct (heap_pop (e_heap e)) as [[it h]|]; [|done]. rewrite (unranked_id st st') by done.
  case_bool_decide; [by rewrite IH|done].
Qed.

Lemma submitted_same now r r' : unranked r = unranked r' -> submitted now r = submitted now r'.
Proof. destruct r, r'. unfold unranked, submitted. cbn. by intros [= <- <- <- <- <-]. Qed.

Lemma go_step_same o st st' e :
  same_unranked st st' ->
  (go_step o st e).1 = (go_step o st' e).1 /\ (go_step o st e).2.2 = (go_step o st' e).2.2 /\
  same_unranked (go_step o st e).2.1 (go_step o st' e).2.1.
Proof.
  intros Hs. destruct o as [now l|w c|b|rid|now]; cbn [go_step].
  - unfold go_submit. pose proof (Hs l) as Hl. destruct (st !! l) as [r|], (st' !! l) as [r'|]; try done.
    cbn [mbind option_bind fmap option_fmap option_map] in *.
    apply (inj Some) in Hl. rewrite (submitted_same now r r' Hl). split; [done|]. split; [done|].
    intros l'. cbn [fst snd]. rewrite !lookup_insert. case_decide; [done|apply Hs].
  - unfold go_acquire. destruct (w && c); [done|]. rewrite (go_pop_same _ st st') by done.
    by destruct (go_pop_loop _ st' e) as [[l|] e'].
  - done.
  - by destruct (go_cancel rid e).
  - split; [done|]. split; [done|]. intros l. cbn [fst snd]. rewrite (go_aging_unranked now st e l),
      (go_aging_unranked now st' e l). apply Hs.
Qed.

(** Aging is without effect in the Go engine too: the ticks of its loop write the priority of the
    request, which the heap never reads; whatever ticks are interleaved with the other calls, all
    answers are what they are without them. *)
Theorem go_aging_is_invisible os st e :
  (go_run os st e).1 = (go_run (filter (fun o => is_go_aging o = false) os) st e).1.
Proof.
  assert (Hs : same_unranked st st) by done. revert Hs. generalize st at 1 3 as st1. revert st e.
  induction os as [|o os IH]; intros st e st1 Hs; [done|].
  rewrite filter_cons. cbn [go_run]. destruct (go_step_same o st1 st e Hs) as (H1 & H2 & H3).
  destruct (go_step o st1 e) as [r1 [st1' e1]] eqn:E1. case_decide as Ha.
  - cbn [go_run]. destruct (go_step o st e) as [r [st' e']] eqn:E. cbn in H1, H2, H3. subst r1 e1.
    specialize (IH st' e' st1' H3). destruct (go_run os st1' e'), (go_run _ st' e'). cbn in *. by subst.
  - destruct o as [| | | |now]; try done. injection E1 as <- <- <-.
    specialize (IH st e (go_aging now st1 e)). destruct (go_run os _ e). apply IH.
    intros l0. rewrite (go_aging_unranked now st1 e l0). apply Hs.
Qed.
End Aging.

(** ** Properties: the bag, without ties *)

(** The item as the bag of PriorityQueue.v holds it.  [Less] does not look at the time, so every
    item gets the same one. *)
Definition go_view (st : go_store) (i : GoItem) : PrioritizedItem loc :=
  mkItem i.(gi_priority) f0 (from_option gr_id "" (st !! i.(gi_req))) i.(gi_req).

Definition go_id (st : go_store) (i : GoItem) : string := from_option gr_id "" (st !! i.(gi_req)).

Definition go_live (st : go_store) (e : Engine) : list (PrioritizedItem loc) :=
  map (go_view st) (filter (fun i => go_id st i ∉ e.(e_cancelled)) e.(e_heap)).

(** What a step is for the bag, with its answer: a call that waits has found the bag empty; a
    call that gives up does nothing, and no more do a completion, a tick or a panic. *)
Definition go_event (st : go_store) (o : go_op) (r : list go_out) : option (op loc * out loc) :=
  match o, r with
  | GSubmit now l, [GDone] =>
      req ← st !! l; Some (Enqueue f0 req.(gr_id) (submitted now req).(gr_priority) l, Done)
  | GAcquire _ _, [GAcquired (Got l)] =>
      req ← st !! l; Some (Dequeue f0, Popped (Some (mkItem req.(gr_predicted_tokens) f0 req.(gr_id) l)))
  | GAcquire _ _, [GAcquired Waits] => Some (Dequeue f0, Popped None)
  | GCancel rid, [GFlag b] => Some (Cancel rid, Flag b)
  | _, _ => None
  end.

Fixpoint go_events `{MinHeap GoItem} (os : list go_op) (st : go_store) (e : Engine) : list (op loc * out loc) :=
  match os with
  | [] => []
  | o :: os' =>
      let '(r, (st1, e1)) := go_step o st e in option_list (go_event st o r) ++ go_events os' st1 e1
  end.

(** The ids a run submits; no step changes the id of a request. *)
Definition go_ids (st : go_store) (os : list go_op) : list string :=
  omap (fun o => match o with GSubmit _ l => gr_id <$> st !! l | _ => None end) os.

Definition predictions_are_numbers (st : go_store) : Prop :=
  forall l req, st !! l = Some req -> is_nan req.(gr_predicted_tokens) = false.

Record go_inv (st : go_store) (e : Engine) : Prop := {
  gv_items : Forall (fun i => exists req, st !! i.(gi_req) = Some req /\ i.(gi_priority) = req.(gr_predicted_tokens))
               e.(e_heap);
  gv_nodup : NoDup (map (go_id st) e.(e_heap));
  gv_pending rid : is_Some (e.(e_pending) !! rid) <-> rid ∈ map (go_id st) e.(e_heap);
  gv_cancelled rid : rid ∈ e.(e_cancelled) -> rid ∈ map (go_id st) e.(e_heap);
  gv_numbers : predictions_are_numbers st;
}.

(** Stores with the same ids and predictions for the requests of a heap. *)
Definition agree_on (h : list GoItem) (st st' : go_store) : Prop :=
  forall i, i ∈ h -> gr_id <$> st !! i.(gi_req) = gr_id <$> st' !! i.(gi_req) /\
    gr_predicted_tokens <$> st !! i.(gi_req) = gr_predicted_tokens <$> st' !! i.(gi_req).

Lemma agree_id h st st' i : agree_on h st st' -> i ∈ h -> go_id st i = go_id st' i.
Proof. intros Ha Hi. unfold go_id. destruct (Ha i Hi) as [H _]. by destruct (st !! _), (st' !! _); simplify_eq/=. Qed.

Lemma agree_ids h st st' : agree_on h st st' -> map (go_id st) h = map (go_id st') h.
Proof. intros Ha. apply map_ext_in. intros i Hi. apply (agree_id h); [done|by apply list_elem_of_In]. Qed.

Lemma agree_live e st st' : agree_on e.(e_heap) st st' -> go_live st e = go_live st' e.
Proof.
  intros Ha. unfold go_live. rewrite (list_filter_ext_in _ (fun i => go_id st' i ∉ e_cancelled e)).
  - apply map_ext_in. intros i Hi. apply list_elem_of_In, list_elem_of_filter in Hi as [_ Hi].
    unfold go_view. fold (go_id st i) (go_id st' i). by rewrite (agree_id _ st st' i Ha Hi).
  - intros i Hi. by rewrite (agree_id _ st st' i Ha Hi).
Qed.

Lemma agree_inv e st st' :
  agree_on e.(e_heap) st st' -> predictions_are_numbers st' -> go_inv st e -> go_inv st' e.
Proof.
  intros Ha Hn [Hi Hd Hp Hc _]. split; try done.
  - rewrite Forall_forall in *. intros i Hin. destruct (Hi i Hin) as (req & Hr & Hpr).
    destruct (Ha i Hin) as [_ H]. rewrite Hr in H. destruct (st' !! gi_req i) as [req'|]; [|done].
    exists req'. split; [done|]. cbn in H. congruence.
  - by rewrite <- (agree_ids _ _ _ Ha).
  - intros rid. rewrite <- (agree_ids _ _ _ Ha). apply Hp.
  - intros rid. rewrite <- (agree_ids _ _ _ Ha). apply Hc.
Qed.

Lemma unranked_agree h st st' : same_unranked st st' -> agree_on h st st'.
Proof.
  intros Hs i _. specialize (Hs i.(gi_req)). destruct (st !! _), (st' !! _); cbn in *; try done.
  unfold unranked in Hs. injection Hs as E1 _ _ E4 _. by rewrite E1, E4.
Qed.

Section Refinement.
Context `{!MinHeap GoItem, !MinHeapLaws GoItem go_comparable go_less}.

Lemma inv_comparable st e : go_inv st e -> Forall go_comparable e.(e_heap).
Proof.
  intros [Hi _ _ _ Hn]. eapply Forall_impl; [exact Hi|]. intros i (req & Hr & Hp).
  unfold go_comparable. rewrite Hp. by apply (Hn i.(gi_req)).
Qed.

(** What popping an item leaves. *)
Lemma go_pop_inv st e it h c :
  go_inv st e -> heap_pop e.(e_heap) = Some (it, h) ->
  (forall rid, rid ∈ c -> rid ∈ e.(e_cancelled) /\ rid <> go_id st it) ->
  go_inv st (mkEngine h (delete (go_id st it) e.(e_pending)) c e.(e_scheduled) e.(e_completed) e.(e_aging_factor)) /\
  go_id st it ∉ map (go_id st) h.
Proof.
  intros [Hi Hd Hp Hc Hn] E Hcc. pose proof (pop_perm _ _ _ E) as Hperm.
  rewrite Hperm in Hi, Hd. cbn in Hd. apply Forall_cons in Hi as [_ Hi]. apply NoDup_cons in Hd as [Hni Hd].
  split; [|done]. split; cbn; try done.
  - intros rid. rewrite lookup_delete_is_Some, Hp, Hperm. cbn. rewrite elem_of_cons.
    split; [intros [Hne [->|?]]; done|]. intros Hin. split; [by intros <-|by right].
  - intros rid Hin. apply Hcc in Hin as [Hin Hne]. apply Hc in Hin. rewrite Hperm in Hin. cbn in Hin.
    by apply elem_of_cons in Hin as [->|?].
Qed.

Lemma go_filter_ext (c c' : gset string) st (h : list GoItem) :
  (forall i, i ∈ h -> go_id st i ∈ c <-> go_id st i ∈ c') ->
  filter (fun i => go_id st i ∉ c) h = filter (fun i => go_id st i ∉ c') h.
Proof. intros Hc. apply list_filter_ext_in. intros i Hi. by rewrite Hc. Qed.

Lemma less_above st a b : go_less b a = false -> above item_lt (go_view st a) (go_view st b).
Proof.
  unfold go_less, above, item_lt, go_view. cbn. intros Hl. destruct (feqb _ _); [reflexivity|exact Hl].
Qed.

Lemma go_pop_refines fuel st e r e' :
  go_inv st e -> (length e.(e_heap) <= fuel)%nat -> go_pop_loop fuel st e = (r, e') ->
  go_inv st e' /\ (forall rid, rid ∈ map (go_id st) e'.(e_heap) -> rid ∈ map (go_id st) e.(e_heap)) /\
  match r with
  | Some l => exists req, st !! l = Some req /\
      bag_step (go_live st e) (Dequeue f0) (Popped (Some (mkItem req.(gr_predicted_tokens) f0 req.(gr_id) l)))
        (go_live st e')
  | None => bag_step (go_live st e) (Dequeue f0) (Popped None) (go_live st e')
  end.
Proof.
  revert e. induction fuel as [|fuel IH]; intros e Hv Hf E; cbn [go_pop_loop] in E.
  { injection E as <- <-. split; [done|]. split; [done|]. unfold go_live.
    destruct (e_heap e); [constructor|cbn in Hf; lia]. }
  destruct (heap_pop (e_heap e)) as [[it h]|] eqn:Ep.
  2: { apply pop_none in Ep. injection E as <- <-. split; [done|]. split; [done|].
       unfold go_live. rewrite Ep. constructor. }
  pose proof (pop_perm _ _ _ Ep) as Hperm. pose proof (pop_first _ _ _ (inv_comparable _ _ Hv) Ep) as Htop.
  assert (Hlen : length (e_heap e) = S (length h)) by (by rewrite Hperm).
  fold (go_id st it) in E. case_bool_decide as Hc.
  - destruct (go_pop_inv st e it h (e_cancelled e ∖ {[go_id st it]}) Hv Ep) as (Hv1 & Hni); [set_solver|].
    apply IH in E as (Hv' & Hids & Hs); [|exact Hv1|cbn; lia]. split; [exact Hv'|]. split.
    { intros rid Hin. rewrite Hperm. cbn. apply elem_of_cons. right. by apply Hids. }
    assert (Hl : go_live st e ≡ₚ go_live st (mkEngine h (delete (go_id st it) (e_pending e))
              (e_cancelled e ∖ {[go_id st it]}) (e_scheduled e) (e_completed e) (e_aging_factor e))).
    { unfold go_live. cbn. rewrite Hperm. rewrite filter_cons_False by (by intros Hx).
      rewrite (go_filter_ext _ (e_cancelled e ∖ {[go_id st it]})); [done|].
      intros i Hi. assert (go_id st i <> go_id st it)
        by (intros Heq; apply Hni; rewrite <- Heq; by apply (list_elem_of_fmap_2 (go_id st))).
      set_solver. }
    destruct r as [l|].
    + destruct Hs as (req & Hr & Hs). exists req. split; [done|]. by eapply bag_dequeue_perm.
    + by eapply bag_dequeue_perm.
  - injection E as <- <-.
    destruct (go_pop_inv st e it h (e_cancelled e) Hv Ep) as (Hv1 & Hni); [set_solver|].
    split; [exact Hv1|]. split; [intros rid Hin; rewrite Hperm; by right|].
    pose proof (gv_items _ _ Hv) as Hi. rewrite Hperm in Hi. apply Forall_cons in Hi as [(req & Hr & Hpr) _].
    exists req. split; [done|].
    assert (Hit : mkItem (gr_predicted_tokens req) f0 (gr_id req) (gi_req it) = go_view st it)
      by (unfold go_view; by rewrite Hr, Hpr).
    rewrite Hit. constructor.
    + unfold go_live. cbn. rewrite Hperm, filter_cons_True by done. done.
    + intros x Hx. unfold go_live in Hx. cbn in Hx. apply list_elem_of_fmap in Hx as (y & -> & Hy).
      apply list_elem_of_filter in Hy as [_ Hy]. rewrite Forall_forall in Htop. by apply less_above, Htop.
Qed.

Lemma go_submit_frame now l st e req :
  st !! l = Some req -> gr_id req ∉ map (go_id st) e.(e_heap) ->
  agree_on e.(e_heap) st (<[l := submitted now req]> st).
Proof.
  intros Hl Hf i Hi. rewrite lookup_insert_ne; [done|]. intros Heq. apply Hf.
  apply list_elem_of_fmap. exists i. split; [|done]. unfold go_id. by rewrite <- Heq, Hl.
Qed.

Lemma submitted_number now req :
  is_nan req.(gr_predicted_tokens) = false -> is_nan (submitted now req).(gr_predicted_tokens) = false.
Proof. intros H. unfold submitted. cbn [gr_predicted_tokens]. by destruct (fleb _ _); [apply of_int_not_nan|]. Qed.

Lemma go_submit_refines now l st e st' e' :
  go_inv st e -> (forall rid, rid ∈ go_ids st [GSubmit now l] -> rid ∉ map (go_id st) e.(e_heap)) ->
  go_submit now l st e = Some (st', e') ->
  exists req, st !! l = Some req /\ st' = <[l := submitted now req]> st /\ go_inv st' e' /\
    bag_step (go_live st e) (Enqueue f0 req.(gr_id) (submitted now req).(gr_priority) l) Done (go_live st' e') /\
    (forall rid, rid ∈ map (go_id st') e'.(e_heap) -> rid ∈ map (go_id st) e.(e_heap) \/ rid = req.(gr_id)).
Proof.
  intros Hv Hf E. unfold go_submit in E. destruct (st !! l) as [req|] eqn:Hl; [|discriminate E].
  assert (Hfr : gr_id req ∉ map (go_id st) (e_heap e))
    by (apply Hf; unfold go_ids; cbn; rewrite Hl; by left).
  pose proof (go_submit_frame now l st e req Hl Hfr) as Ha.
  assert (Hn : predictions_are_numbers (<[l := submitted now req]> st)).
  { intros l' r'. rewrite lookup_insert. case_decide; [|apply (gv_numbers _ _ Hv)].
    intros [= <-]. apply submitted_number. by apply (gv_numbers _ _ Hv l). }
  pose proof (agree_inv _ _ _ Ha Hn Hv) as [Hi Hd Hp Hc _]. rewrite (agree_ids _ _ _ Ha) in Hfr.
  pose proof (agree_ids _ _ _ Ha) as Hids. pose proof (agree_live _ _ _ Ha) as Hlive.
  exists req. cbn [mbind option_bind] in E. set (st1 := <[l := submitted now req]> st) in *.
  assert (Hl1 : st1 !! l = Some (submitted now req)) by apply lookup_insert_eq.
  set (it := mkGoItem (gr_priority (submitted now req)) (gr_enqueued_at (submitted now req)) l) in E.
  assert (Hit : go_id st1 it = gr_id req) by (unfold go_id; cbn [gi_req it]; by rewrite Hl1).
  assert (Hvw : go_view st1 it = mkItem (gr_priority (submitted now req)) f0 (gr_id req) l)
    by (unfold go_view; fold (go_id st1 it); by rewrite Hit).
  assert (Hpr : gi_priority it = gr_predicted_tokens (submitted now req)) by reflexivity.
  assert (Hrq : gi_req it = l) by reflexivity.
  change (gr_id (submitted now req)) with (gr_id req) in E. clearbody it. injection E as <- <-.
  assert (Hperm : heap_push it (e_heap e) ≡ₚ it :: e_heap e) by apply push_perm.
  split; [done|]. split; [done|]. split; [split; cbn|split].
  - rewrite Hperm. constructor; [|exact Hi]. exists (submitted now req). by rewrite Hrq.
  - rewrite Hperm. cbn. rewrite Hit. by constructor.
  - intros rid. rewrite lookup_insert_is_Some', Hp, Hperm. cbn. rewrite Hit, elem_of_cons. split; intros [?|?]; auto.
  - intros rid Hin. rewrite Hperm. right. by apply Hc.
  - exact Hn.
  - rewrite Hlive. constructor. unfold go_live. cbn [e_heap e_cancelled]. rewrite Hperm.
    rewrite filter_cons_True by (rewrite Hit; intros Hin; by apply Hfr, Hc). cbn [map]. by rewrite Hvw.
  - intros rid. cbn. rewrite Hperm. cbn. rewrite Hit, elem_of_cons, Hids. tauto.
Qed.

Lemma go_live_cancel st (h : list GoItem) rid :
  map (go_view st) (filter (fun i => go_id st i <> rid) h) =
  filter (fun it => it.(request_id) <> rid) (map (go_view st) h).
Proof.
  induction h as [|i h IH]; [done|]. cbn [map]. rewrite !filter_cons.
  change (request_id (go_view st i)) with (go_id st i). case_decide; cbn; by rewrite IH.
Qed.

Lemma go_cancel_refines rid st e b e' :
  go_inv st e -> go_cancel rid e = (b, e') ->
  go_inv st e' /\ e'.(e_heap) = e.(e_heap) /\ bag_step (go_live st e) (Cancel rid) (Flag b) (go_live st e').
Proof.
  intros Hv E. pose proof Hv as [Hi Hd Hp Hc Hn]. unfold go_cancel in E.
  case_bool_decide as Hk; injection E as <- <-; (split; [|split; [done|constructor]]); try done.
  - split; cbn; try done. intros r Hr. apply elem_of_union in Hr as [Hr|Hr]; [|by apply Hc].
    apply elem_of_singleton in Hr as ->. by apply Hp.
  - unfold go_live. cbn. rewrite <- go_live_cancel, list_filter_filter.
    erewrite list_filter_iff; [done|]. intros i. cbn. set_solver.
  - unfold go_live. rewrite <- go_live_cancel, list_filter_filter.
    erewrite list_filter_ext_in; [done|]. intros i Hin. split; [|tauto]. intros Hni. split; [|done].
    intros Heq. apply Hk, Hp. rewrite <- Heq. by apply (list_elem_of_fmap_2 (go_id st)).
  - intros Hin. destruct Hk. apply Hp. unfold go_live in Hin. rewrite map_map in Hin.
    apply list_elem_of_fmap in Hin as (i & -> & Hin). apply list_elem_of_filter in Hin as [_ Hin].
    by apply (list_elem_of_fmap_2 (go_id st)).
Qed.

Lemma go_step_refines o st e r st' e' :
  go_inv st e -> (forall rid, rid ∈ go_ids st [o] -> rid ∉ map (go_id st) e.(e_heap)) ->
  go_step o st e = (r, (st', e')) ->
  let evs := option_list (go_event st o r) in
  go_inv st' e' /\ bag_run (go_live st e) (map fst evs) (map snd evs) (go_live st' e') /\
  (forall rid, rid ∈ map (go_id st') e'.(e_heap) -> rid ∈ map (go_id st) e.(e_heap) \/ rid ∈ go_ids st [o]) /\
  (forall l, gr_id <$> st' !! l = gr_id <$> st !! l).
Proof.
  intros Hv Hf E. destruct o as [now l|w c|b|rid|now]; cbn [go_step] in E.
  - destruct (go_submit now l st e) as [[st1 e1]|] eqn:Es.
    + injection E as <- <- <-. destruct (go_submit_refines now l st e st1 e1 Hv Hf Es) as (req & Hl & -> & Hv' & Hs & Hids).
      cbn [go_event]. rewrite Hl. split; [done|]. split; [by apply bag_one|]. split.
      * intros rid Hin. apply Hids in Hin as [?| ->]; [by left|right]. unfold go_ids. cbn. rewrite Hl. by left.
      * intros l'. rewrite lookup_insert. case_decide as Hd; [|done]. subst l'. by rewrite Hl.
    + injection E as <- <- <-. split; [done|]. split; [constructor|]. auto.
  - unfold go_acquire in E. destruct (w && c).
    { injection E as <- <- <-. split; [done|]. split; [constructor|]. auto. }
    destruct (go_pop_loop _ st e) as [x e1] eqn:Ep. apply go_pop_refines in Ep as (Hv' & Hids & Hs); [|done|done].
    destruct x as [l|]; injection E as <- <- <-; cbn [go_event].
    + destruct Hs as (req & Hl & Hs). rewrite Hl. split; [done|]. split; [by apply bag_one|]. auto.
    + split; [done|]. split; [by apply bag_one|]. auto.
  - injection E as <- <- <-. destruct Hv as [Hi Hd Hp Hc Hn].
    split; [by destruct b; split|]. split; [destruct b; constructor|]. split; [by destruct b; auto|done].
  - destruct (go_cancel rid e) as [b e1] eqn:Ec. injection E as <- <- <-.
    destruct (go_cancel_refines rid st e b e1 Hv Ec) as (Hv' & Hh & Hs).
    split; [done|]. split; [by apply bag_one|]. rewrite Hh. auto.
  - injection E as <- <- <-. pose proof (go_aging_unranked now st e) as Hu.
    assert (Hu' : same_unranked st (go_aging now st e)) by (intros l; by rewrite Hu).
    pose proof (unranked_agree (e_heap e) _ _ Hu') as Ha.
    assert (Hid : forall l, gr_id <$> go_aging now st e !! l = gr_id <$> st !! l).
    { intros l. specialize (Hu l). destruct (go_aging now st e !! l), (st !! l); cbn in *; try done.
      unfold unranked in Hu. injection Hu as -> _ _ _ _. done. }
    split; [|split; [cbn; rewrite (agree_live _ _ _ Ha); constructor|split; [|done]]].
    + apply (agree_inv e st); [done| |done]. intros l q Hq. specialize (Hu l). rewrite Hq in Hu.
      destruct (st !! l) as [q'|] eqn:Hl; [|done]. cbn in Hu. unfold unranked in Hu. injection Hu as _ _ _ Hp _.
      rewrite Hp. by apply (gv_numbers _ _ Hv l).
    + intros rid Hin. left. by rewrite (agree_ids _ _ _ Ha).
Qed.

Lemma go_ids_same st st' os : (forall l, gr_id <$> st' !! l = gr_id <$> st !! l) -> go_ids st' os = go_ids st os.
Proof.
  intros Hs. unfold go_ids. induction os as [|o os IH]; [done|]. cbn. rewrite IH.
  destruct o as [now l| | | |]; try done. by rewrite Hs.
Qed.

Lemma go_run_refines os st e rs st' e' :
  go_inv st e -> NoDup (go_ids st os) -> (forall rid, rid ∈ go_ids st os -> rid ∉ map (go_id st) e.(e_heap)) ->
  go_run os st e = (rs, (st', e')) ->
  bag_run (go_live st e) (map fst (go_events os st e)) (map snd (go_events os st e)) (go_live st' e').
Proof.
  revert st e rs. induction os as [|o os IH]; intros st e rs Hv Hnd Hf E; cbn [go_run go_events] in *.
  { injection E as <- <- <-. constructor. }
  destruct (go_step o st e) as [r [st1 e1]] eqn:Es. destruct (go_run os st1 e1) as [rs' z] eqn:Er.
  injection E as <- ->. change (o :: os) with ([o] ++ os) in *. unfold go_ids in Hnd, Hf.
  rewrite omap_app in Hnd, Hf. apply NoDup_app in Hnd as (_ & Hdis & Hnd).
  destruct (go_step_refines o st e r st1 e1 Hv) as (Hv1 & Hs & Hids & Hsame); [|exact Es|].
  { intros rid Hin. apply Hf, elem_of_app. by left. }
  fold (go_ids st [o]) in Hdis, Hf. fold (go_ids st os) in Hdis, Hf, Hnd.
  rewrite <- (go_ids_same st st1 os Hsame) in Hdis, Hf, Hnd.
  rewrite !map_app. eapply bag_run_app; [exact Hs|]. apply (IH st1 e1 rs'); [done|done| |exact Er].
  intros rid Hin Hh. apply Hids in Hh as [Hh|Hh]; [|by apply (Hdis rid)].
  revert Hh. apply Hf, elem_of_app. by right.
Qed.

(** C29.  The Go engine keeps the contract of the two other queues except for ties: with distinct ids
    (main.go takes them from the clock and does not check that they are) and predictions that are numbers, every sequence of calls, ticks of the aging loop included,
    answers as the bag in which every item carries the same time; what is acquired has the
    smallest submitted prediction of all requests that are neither cancelled nor taken, and a call
    waits only when there is none. *)
Theorem go_engine_refines_bag os st rs st' e' :
  predictions_are_numbers st -> NoDup (go_ids st os) -> go_run os st NewEngine = (rs, (st', e')) ->
  bag_run [] (map fst (go_events os st NewEngine)) (map snd (go_events os st NewEngine)) (go_live st' e').
Proof.
  intros Hn Hnd E. apply (go_run_refines os st NewEngine rs); [|done| |exact E].
  - split; cbn; try constructor; try done.
    + intros [? Hx]. by rewrite lookup_empty in Hx.
    + intros Hx. by apply elem_of_nil in Hx.
  - intros rid _ Hin. by apply elem_of_nil in Hin.
Qed.
End Refinement.

(** ** Witnesses and examples *)

#[export] Instance scan_go_items : MinHeap GoItem := scan_heap go_less.

#[export] Instance scan_go_items_laws : MinHeapLaws GoItem go_comparable go_less.
Proof.
  apply scan_heap_laws; unfold go_less, go_comparable.
  - intros a b H. apply fltb_not_le, flt_le. exact H.
  - intros a b c Ha Hb Hc Hlt Hge. apply fltb_not_le. apply fltb_false in Hge; [|done..].
    apply flt_le. eapply flt_le_trans; [exact Hlt|exact Hge].
Qed.

Definition go_request (rid : string) (tokens : Z) : GoRequest := mkGoRequest rid "" tokens f0 f0 0.

Definition go_demo_store : go_store :=
  {[ 0%nat := go_request "a" 300; 1%nat := go_request "b" 20; 2%nat := go_request "c" 50 ]}.

Definition go_calls : list go_op :=
  [GSubmit 1 0; GSubmit 2 1; GAging 1000000000000; GCancel "b"; GSubmit 3 2;
   GAcquire false false; GAcquire true true; GAcquire true false; GAcquire false true].

Example go_calls_answers :
  (go_run go_calls go_demo_store NewEngine).1 =
  [GDone; GDone; GFlag true; GDone; GAcquired (Got 2%nat); GAcquired CtxErr; GAcquired (Got 0%nat); GAcquired Waits].
Proof. vm_compute. reflexivity. Qed.

Lemma go_demo_numbers : predictions_are_numbers go_demo_store.
Proof.
  intros l req H. unfold go_demo_store in H.
  repeat (apply lookup_insert_Some in H as [[_ <-]|[_ H]]; [reflexivity|]).
  by apply lookup_singleton_Some in H as [_ <-].
Qed.

Lemma go_engine_refines_bag_witness :
  bag_run [] (map fst (go_events go_calls go_demo_store NewEngine))
    (map snd (go_events go_calls go_demo_store NewEngine))
    (go_live (go_run go_calls go_demo_store NewEngine).2.1 (go_run go_calls go_demo_store NewEngine).2.2).
Proof.
  apply (go_engine_refines_bag go_calls go_demo_store (go_run go_calls go_demo_store NewEngine).1).
  - exact go_demo_numbers.
  - apply (bool_decide_eq_true_1 _). vm_compute. reflexivity.
  - by destruct (go_run go_calls go_demo_store NewEngine) as [rs [st e]].
Defined.

(** [up] and [down] of container/heap, on the list of items. *)
Definition go_swap (i j : nat) (h : list GoItem) : list GoItem :=
  match h !! i, h !! j with
  | Some a, Some b => <[i := b]> (<[j := a]> h)
  | _, _ => h
  end.

Definition go_less_at (h : list GoItem) (i j : nat) : bool :=
  match h !! i, h !! j with Some a, Some b => go_less a b | _, _ => false end.

Fixpoint go_up (fuel j : nat) (h : list GoItem) : list GoItem :=
  match fuel with
  | O => h
  | S fuel' =>
      let i := ((j - 1) / 2)%nat in
      if (i =? j)%nat || negb (go_less_at h j i) then h else go_up fuel' i (go_swap i j h)
  end.

Fixpoint go_down (fuel i n : nat) (h : list GoItem) : list GoItem :=
  match fuel with
  | O => h
  | S fuel' =>
      let j1 := (2 * i + 1)%nat in
      if (n <=? j1)%nat then h
      else
        let j := if (j1 + 1 <? n)%nat && go_less_at h (j1 + 1) j1 then (j1 + 1)%nat else j1 in
        if negb (go_less_at h j i) then h else go_down fuel' j n (go_swap i j h)
  end.

Definition container_heap : MinHeap GoItem := {|
  heap_push x h := go_up (length h) (length h) (h ++ [x]);
  heap_pop h :=
    match h with
    | [] => None
    | _ =>
        let n := (length h - 1)%nat in
        let h' := go_down (length h) 0 n (go_swap 0 n h) in
        (fun x => (x, take n h')) <$> h' !! n
    end;
|}.

(** Of three requests of the same length the last one submitted is served second: the engine
    does not break ties by age. *)
Example go_ties_are_not_fifo :
  let st : go_store := {[ 0%nat := go_request "a" 9; 1%nat := go_request "b" 9; 2%nat := go_request "c" 9 ]} in
  (go_run (H := container_heap)
     [GSubmit 1 0; GSubmit 2 1; GSubmit 3 2; GAcquire false false; GAcquire false false; GAcquire false false]
     st NewEngine).1 =
  [GDone; GDone; GDone; GAcquired (Got 0%nat); GAcquired (Got 2%nat); GAcquired (Got 1%nat)].
Proof. vm_compute. reflexivity. Qed.
