(* ===== verification/GoWait.v ===== *)
(** * Waiting in the Go engine ([Acquire] of go/internal/api/scheduler.go)

    Callers of [Acquire] that find nothing wait on a condition variable.  Each
    wait starts a helper that broadcasts when the caller's context ends, and that
    the caller dismisses by closing a channel when it wakes up; a helper that can
    do both chooses.  [Submit] signals, which wakes one sleeping caller if there is
    one.  The mutex makes the stretches of code between two waits steps; a run is
    a sequence of steps in any order, as the Go scheduler and the clients make
    them. *)
From Stdlib Require Import ZArith Lia.
From stdpp Require Import base option list strings gmap.
From S2P Require Import Prelude PyFloat Heapq MinHeap PriorityQueue BaseScheduler Sjf CppRuntime GoEngine.
Local Open Scope string_scope.
Local Open Scope list_scope.
Local Open Scope nat_scope.

(** Where a call of [Acquire] stands. *)
Inductive phase :=
| Entering                     (* called, before its first look at the heap *)
| Sleeping                     (* in [cond.Wait] *)
| Awake                        (* woken, before it has the mutex again *)
| Finished (r : acquired).

#[global] Instance acquired_eq_dec : EqDecision acquired.
Proof. solve_decision. Defined.
#[global] Instance phase_eq_dec : EqDecision phase.
Proof. solve_decision. Defined.

Record Caller := mkCaller { ca_phase : phase; ca_ctx_done : bool }.

(** A helper: the caller it serves, and whether that caller has closed its channel. *)
Record Helper := mkHelper { he_caller : nat; he_dismissed : bool }.

Record World := mkWorld {
  w_store : gmap loc GoRequest;
  w_engine : Engine;
  w_callers : list Caller;
  w_helpers : list Helper;
}.

Inductive event :=
| Submits (now : Z) (l : loc) (signalled : option nat)
| Calls                        (* a new call of [Acquire] *)
| Runs (i : nat)               (* caller [i] has the mutex *)
| ContextEnds (i : nat)
| Broadcasts (k : nat)         (* helper [k] takes the branch of the context *)
| Leaves (k : nat)             (* helper [k] takes the branch of its channel *)
| Cancels (rid : string)
| Completes (success : bool)
| Ticks (now : Z).

Section Waiting.
Context `{MinHeap GoItem}.

Definition set_phase (p : phase) (c : Caller) : Caller := mkCaller p c.(ca_ctx_done).

Definition is_sleeping (c : Caller) : bool := bool_decide (c.(ca_phase) = Sleeping).
Definition is_awake (c : Caller) : bool := bool_decide (c.(ca_phase) = Awake).

Definition wake (c : Caller) : Caller := if is_sleeping c then set_phase Awake c else c.

(** [cond.Signal]: one of the sleeping callers, when there is one. *)
Definition signal (signalled : option nat) (cs : list Caller) : option (list Caller) :=
  match signalled with
  | None => if existsb is_sleeping cs then None else Some cs
  | Some i => c ← cs !! i; if is_sleeping c then Some (<[i := wake c]> cs) else None
  end.

(** [close(done)] after waking. *)
Definition dismiss (i : nat) (hs : list Helper) : list Helper :=
  map (fun h => if h.(he_caller) =? i then mkHelper i true else h) hs.

(** A stretch of caller [i]: it ends, or sleeps with a new helper. *)
Definition run_caller (i : nat) (w : World) : option World :=
  c ← w.(w_callers) !! i;
  let go (woken : bool) (hs : list Helper) :=
    let '(r, e) := go_acquire woken c.(ca_ctx_done) w.(w_store) w.(w_engine) in
    match r with
    | Waits => Some (mkWorld w.(w_store) e (<[i := set_phase Sleeping c]> w.(w_callers)) (hs ++ [mkHelper i false]))
    | _ => Some (mkWorld w.(w_store) e (<[i := set_phase (Finished r) c]> w.(w_callers)) hs)
    end in
  match c.(ca_phase) with
  | Entering => go false w.(w_helpers)
  | Awake => go true (dismiss i w.(w_helpers))
  | Sleeping | Finished _ => None
  end.

Definition world_step (ev : event) (w : World) : option World :=
  match ev with
  | Submits now l signalled =>
      '(st, e) ← go_submit now l w.(w_store) w.(w_engine);
      cs ← signal signalled w.(w_callers);
      Some (mkWorld st e cs w.(w_helpers))
  | Calls => Some (mkWorld w.(w_store) w.(w_engine) (w.(w_callers) ++ [mkCaller Entering false]) w.(w_helpers))
  | Runs i => run_caller i w
  | ContextEnds i =>
      c ← w.(w_callers) !! i;
      Some (mkWorld w.(w_store) w.(w_engine) (<[i := mkCaller c.(ca_phase) true]> w.(w_callers)) w.(w_helpers))
  | Broadcasts k =>
      h ← w.(w_helpers) !! k; c ← w.(w_callers) !! h.(he_caller);
      if c.(ca_ctx_done) then
        Some (mkWorld w.(w_store) w.(w_engine) (map wake w.(w_callers)) (delete k w.(w_helpers)))
      else None
  | Leaves k =>
      h ← w.(w_helpers) !! k;
      if h.(he_dismissed) then Some (mkWorld w.(w_store) w.(w_engine) w.(w_callers) (delete k w.(w_helpers))) else None
  | Cancels rid => Some (mkWorld w.(w_store) (go_cancel rid w.(w_engine)).2 w.(w_callers) w.(w_helpers))
  | Completes success => Some (mkWorld w.(w_store) (go_complete success w.(w_engine)) w.(w_callers) w.(w_helpers))
  | Ticks now => Some (mkWorld (go_aging now w.(w_store) w.(w_engine)) w.(w_engine) w.(w_callers) w.(w_helpers))
  end.

Fixpoint world_run (evs : list event) (w : World) : option World :=
  match evs with
  | [] => Some w
  | ev :: evs' => w' ← world_step ev w; world_run evs' w'
  end.

Definition start_world (st : gmap loc GoRequest) : World := mkWorld st NewEngine [] [].

(** What the program does by itself, and what its clients do. *)
Definition internal (ev : event) : bool :=
  match ev with Runs _ | Broadcasts _ | Leaves _ => true | _ => false end.

Definition ends_context (ev : event) : bool := match ev with ContextEnds _ => true | _ => false end.
End Waiting.

(** ** Properties *)

Definition awake_count (cs : list Caller) : nat := length (List.filter is_awake cs).

(** No wake-up is lost: while someone sleeps there is an awake caller for every item of the heap;
    and no context has ended. *)
Record wait_inv (w : World) : Prop := {
  wi_awake : existsb is_sleeping w.(w_callers) = true -> length w.(w_engine).(e_heap) <= awake_count w.(w_callers);
  wi_contexts : Forall (fun c => c.(ca_ctx_done) = false) w.(w_callers);
}.

Lemma existsb_insert (f : Caller -> bool) i c c' (cs : list Caller) :
  cs !! i = Some c -> existsb f (<[i := c']> cs) = true -> f c' = true \/ existsb f cs = true.
Proof.
  intros Hi Hf. apply existsb_exists in Hf as (x & Hin & Hx). apply list_elem_of_In, list_elem_of_lookup in Hin as [j Hj].
  destruct (decide (j = i)) as [->|Hne].
  - rewrite list_lookup_insert_eq in Hj by (by eapply lookup_lt_Some). injection Hj as <-. by left.
  - rewrite list_lookup_insert_ne in Hj by done. right. apply existsb_exists. exists x. split; [|done].
    apply list_elem_of_In. by eapply list_elem_of_lookup_2.
Qed.

Lemma awake_cons c cs : awake_count (c :: cs) = (if is_awake c then 1 else 0) + awake_count cs.
Proof. unfold awake_count. cbn [List.filter]. by destruct (is_awake c). Qed.

Lemma awake_insert i c c' (cs : list Caller) :
  cs !! i = Some c ->
  awake_count (<[i := c']> cs) + (if is_awake c then 1 else 0) = awake_count cs + (if is_awake c' then 1 else 0).
Proof.
  revert i. induction cs as [|d cs IH]; intros [|i] Hi; try done.
  - injection Hi as ->. change (<[0 := c']> (c :: cs)) with (c' :: cs). rewrite !awake_cons. lia.
  - change (<[S i := c']> (d :: cs)) with (d :: <[i := c']> cs). rewrite !awake_cons. specialize (IH i Hi). lia.
Qed.

Lemma contexts_insert i c' (cs : list Caller) :
  Forall (fun c => c.(ca_ctx_done) = false) cs -> c'.(ca_ctx_done) = false ->
  Forall (fun c => c.(ca_ctx_done) = false) (<[i := c']> cs).
Proof. intros Hcs Hc. by apply Forall_insert. Qed.

Section NoLostWakeups.
Context `{!MinHeap GoItem, !MinHeapLaws GoItem go_comparable go_less}.

(** Popping shortens the heap, and finds nothing only by emptying it. *)
Lemma go_pop_length fuel st e :
  length e.(e_heap) <= fuel ->
  match go_pop_loop fuel st e with
  | (Some _, e') => S (length e'.(e_heap)) <= length e.(e_heap)
  | (None, e') => e'.(e_heap) = []
  end.
Proof.
  revert e. induction fuel as [|fuel IH]; intros e Hf; cbn [go_pop_loop].
  { destruct (e_heap e); [done|cbn in Hf; lia]. }
  destruct (heap_pop (e_heap e)) as [[it h]|] eqn:Ep; [|by apply pop_none in Ep].
  assert (Hl : length (e_heap e) = S (length h)) by (by rewrite (pop_perm _ _ _ Ep)).
  case_bool_decide; [|cbn; lia].
  match goal with |- context [go_pop_loop fuel st ?e1] => specialize (IH e1) end. cbn [e_heap] in IH.
  destruct (go_pop_loop fuel st _) as [[l|] e']; specialize (IH ltac:(lia)); [lia|done].
Qed.

Lemma wait_inv_run i w w' : wait_inv w -> run_caller i w = Some w' -> wait_inv w'.
Proof.
  intros [Ha Hc] E. unfold run_caller in E. destruct (w_callers w !! i) as [c|] eqn:Hi; [|discriminate E].
  cbn [mbind option_bind] in E. assert (Hctx : ca_ctx_done c = false) by (rewrite Forall_forall in Hc; eapply Hc, list_elem_of_lookup_2, Hi).
  assert (Hgo : forall woken hs z, (let '(r, e) := go_acquire woken (ca_ctx_done c) (w_store w) (w_engine w) in
      match r with
      | Waits => Some (mkWorld (w_store w) e (<[i := set_phase Sleeping c]> (w_callers w)) (hs ++ [mkHelper i false]))
      | _ => Some (mkWorld (w_store w) e (<[i := set_phase (Finished r) c]> (w_callers w)) hs)
      end) = Some z -> is_sleeping c = false -> wait_inv z).
  { intros woken hs z Ez Hs. unfold go_acquire in Ez. rewrite Hctx, andb_false_r in Ez.
    pose proof (go_pop_length _ (w_store w) (w_engine w) (Nat.le_refl _)) as Hl.
    destruct (go_pop_loop _ _ _) as [[l|] e']; injection Ez as <-; split; cbn [w_engine w_callers].
    - intros Hsl. apply (existsb_insert _ _ c) in Hsl as [Hsl|Hsl]; [discriminate Hsl| |done].
      specialize (Ha Hsl). pose proof (awake_insert i c (set_phase (Finished (Got l)) c) _ Hi) as Hcnt.
      change (is_awake (set_phase (Finished (Got l)) c)) with false in Hcnt. destruct (is_awake c); lia.
    - by apply contexts_insert.
    - intros _. rewrite Hl. cbn. lia.
    - by apply contexts_insert. }
  unfold is_sleeping in Hgo. destruct (ca_phase c) eqn:Hp; try discriminate E; by eapply Hgo.
Qed.

Lemma wake_awake (cs : list Caller) : existsb is_sleeping (map wake cs) = false.
Proof.
  induction cs as [|c cs IH]; [done|]. cbn [map existsb]. rewrite IH, orb_false_r.
  unfold wake. destruct (is_sleeping c) eqn:E; [done|exact E].
Qed.

Lemma wait_inv_step ev w w' :
  ends_context ev = false -> wait_inv w -> world_step ev w = Some w' -> wait_inv w'.
Proof.
  intros He Hv E. pose proof Hv as [Ha Hc]. destruct ev as [now l sg| |i|i|k|k|rid|b|now]; cbn [world_step] in E.
  - unfold go_submit in E. destruct (w_store w !! l) as [req|]; [|discriminate E].
    cbn [mbind option_bind] in E. destruct (signal sg (w_callers w)) as [cs|] eqn:Es; [|discriminate E].
    injection E as <-. match goal with |- wait_inv (mkWorld _ (mkEngine ?h _ _ _ _ _) _ _) => assert (Hp : length h = S (length (e_heap (w_engine w))))
      by (by rewrite push_perm) end.
    unfold signal in Es. destruct sg as [i|].
    + destruct (w_callers w !! i) as [c|] eqn:Hi; [|discriminate Es]. cbn [mbind option_bind] in Es.
      destruct (is_sleeping c) eqn:Hs; [|discriminate Es]. injection Es as <-. split; cbn [w_engine w_callers e_heap].
      * intros _. rewrite Hp. assert (Hsl : existsb is_sleeping (w_callers w) = true)
          by (apply existsb_exists; exists c; split; [by eapply list_elem_of_In, list_elem_of_lookup_2|done]).
        specialize (Ha Hsl). pose proof (awake_insert i c (wake c) _ Hi) as Hcnt. unfold wake in Hcnt |- *. rewrite Hs in Hcnt |- *.
        change (is_awake (set_phase Awake c)) with true in Hcnt.
        assert (Haw : is_awake c = false) by (unfold is_sleeping in Hs; unfold is_awake; by destruct (ca_phase c)).
        rewrite Haw in Hcnt. lia.
      * apply contexts_insert; [done|]. unfold wake. rewrite Hs. rewrite Forall_forall in Hc.
        cbn. eapply Hc, list_elem_of_lookup_2, Hi.
    + destruct (existsb is_sleeping (w_callers w)) eqn:Hs; [discriminate Es|]. injection Es as <-.
      split; cbn [w_engine w_callers e_heap]; [by rewrite Hs|done].
  - injection E as <-. split; cbn [w_engine w_callers].
    + rewrite existsb_app. cbn [existsb]. intros Hs. assert (Hs' : existsb is_sleeping (w_callers w) = true)
        by (by destruct (existsb is_sleeping (w_callers w))).
      unfold awake_count. rewrite List.filter_app, length_app. cbn. specialize (Ha Hs'). unfold awake_count in Ha. lia.
    + apply Forall_app. split; [done|]. by constructor.
  - by eapply wait_inv_run.
  - discriminate He.
  - destruct (w_helpers w !! k) as [h|]; [|discriminate E]. cbn [mbind option_bind] in E.
    destruct (w_callers w !! he_caller h) as [c|]; [|discriminate E]. cbn [mbind option_bind] in E.
    destruct (ca_ctx_done c); [|discriminate E]. injection E as <-. split; cbn [w_engine w_callers].
    + by rewrite wake_awake.
    + apply Forall_map. eapply Forall_impl; [exact Hc|]. intros d Hd. unfold wake. by destruct (is_sleeping d).
  - destruct (w_helpers w !! k) as [h|]; [|discriminate E]. cbn [mbind option_bind] in E.
    destruct (he_dismissed h); [|discriminate E]. by injection E as <-.
  - injection E as <-. split; cbn [w_engine w_callers]; [|done]. unfold go_cancel. by case_bool_decide.
  - injection E as <-. split; cbn [w_engine w_callers]; [|done]. unfold go_complete. by destruct b.
  - by injection E as <-.
Qed.

Lemma world_run_inv evs w w' :
  Forall (fun ev => ends_context ev = false) evs -> wait_inv w -> world_run evs w = Some w' -> wait_inv w'.
Proof.
  intros Hevs. revert w. induction Hevs as [|ev evs He _ IH]; intros w Hv E; cbn [world_run] in E.
  { by injection E as <-. }
  destruct (world_step ev w) as [w1|] eqn:Es; [|discriminate E]. apply (IH w1); [|exact E].
  by eapply wait_inv_step.
Qed.

Lemma awake_exists cs : 0 < awake_count cs -> exists i c, cs !! i = Some c /\ c.(ca_phase) = Awake.
Proof.
  unfold awake_count. intros Hn. destruct (List.filter is_awake cs) as [|c l] eqn:E; [cbn in Hn; lia|].
  assert (Hin : In c (List.filter is_awake cs)) by (rewrite E; by left).
  apply List.filter_In in Hin as [Hin Hc]. apply list_elem_of_In, list_elem_of_lookup in Hin as [i Hi].
  exists i, c. split; [done|]. by apply bool_decide_eq_true_1 in Hc.
Qed.

(** An awake caller whose context has not ended takes an item off a heap that is not empty. *)
Lemma awake_takes i c w :
  w.(w_callers) !! i = Some c -> c.(ca_phase) = Awake -> c.(ca_ctx_done) = false -> w.(w_engine).(e_heap) <> [] ->
  exists w', world_step (Runs i) w = Some w' /\
    length w'.(w_engine).(e_heap) < length w.(w_engine).(e_heap).
Proof.
  intros Hi Hp Hc Hne. cbn [world_step]. unfold run_caller. rewrite Hi. cbn [mbind option_bind]. rewrite Hp.
  unfold go_acquire. rewrite Hc, andb_false_r.
  pose proof (go_pop_length _ (w_store w) (w_engine w) (Nat.le_refl _)) as Hl.
  destruct (go_pop_loop _ _ _) as [[l|] e']; (eexists; split; [reflexivity|]); cbn [w_engine]; [lia|].
  rewrite Hl. destruct (e_heap (w_engine w)); [done|cbn; lia].
Qed.

(** C30.  No wake-up is lost as long as no context ends: however submissions, calls, cancellations, ticks
    and the callers' stretches interleave, while a caller sleeps although the heap holds items
    there is an awake caller for each of them, and the next step of one takes an item off. *)
Theorem no_lost_wakeup evs st w :
  Forall (fun ev => ends_context ev = false) evs -> world_run evs (start_world st) = Some w ->
  existsb is_sleeping w.(w_callers) = true -> w.(w_engine).(e_heap) <> [] ->
  length w.(w_engine).(e_heap) <= awake_count w.(w_callers) /\
  exists i w', world_step (Runs i) w = Some w' /\
    length w'.(w_engine).(e_heap) < length w.(w_engine).(e_heap).
Proof.
  intros Hevs E Hs Hne. assert (Hv : wait_inv w).
  { apply (world_run_inv evs (start_world st)); [done| |done]. by split. }
  destruct Hv as [Ha Hc]. specialize (Ha Hs). split; [done|].
  destruct (awake_exists (w_callers w)) as (i & c & Hi & Hp).
  { destruct (e_heap (w_engine w)); [done|cbn in Ha; lia]. }
  exists i. apply (awake_takes i c); try done. rewrite Forall_forall in Hc. by eapply Hc, list_elem_of_lookup_2.
Qed.
End NoLostWakeups.

(** ** When a context ends *)

Definition stranding : list event :=
  [Calls; Calls; Runs 0; Runs 1; ContextEnds 0; Submits 5 0 (Some 0); Runs 0; Leaves 0].

(** A wake-up is lost when the signalled caller's context has ended: it gives up without passing
    the wake-up on, and its helper may leave without a broadcast.  The request then stays in the
    heap, not cancelled, while another caller with a live context sleeps, and nothing the program
    does by itself is possible any more: the request waits for another client. *)
Theorem cancelled_waiter_strands_request :
  exists w, world_run stranding (start_world go_demo_store) = Some w /\
    map gi_req w.(w_engine).(e_heap) = [0] /\ w.(w_engine).(e_cancelled) = ∅ /\
    w.(w_callers) = [mkCaller (Finished CtxErr) true; mkCaller Sleeping false] /\
    forall ev, internal ev = true -> world_step ev w = None.
Proof.
  eexists. split; [vm_compute; reflexivity|]. split; [reflexivity|]. split; [reflexivity|]. split; [reflexivity|].
  intros ev Hi. destruct ev as [| |i| |k|k| | |]; try discriminate Hi; clear Hi.
  - by destruct i as [|[|i]].
  - by destruct k as [|[|k]].
  - by destruct k as [|[|k]].
Qed.

(** ** Witness *)

Definition two_callers : list event := [Calls; Runs 0; Calls; Submits 5 0 (Some 0)].

Lemma no_lost_wakeup_witness :
  exists w, world_run (two_callers ++ [Runs 1; Calls; Submits 6 1 None; Runs 2; Runs 0; Calls; Runs 3; Submits 7 2 (Some 0)])
              (start_world go_demo_store) = Some w /\
    length w.(w_engine).(e_heap) <= awake_count w.(w_callers).
Proof.
  eexists. split; [vm_compute; reflexivity|].
  apply (no_lost_wakeup (two_callers ++ [Runs 1; Calls; Submits 6 1 None; Runs 2; Runs 0; Calls; Runs 3; Submits 7 2 (Some 0)])
           go_demo_store _); [by repeat constructor|vm_compute; reflexivity|reflexivity|discriminate].
Defined.
