(* ===== verification/GoGateway.v ===== *)
(** * The Go gateway (go/cmd/gateway/main.go and go/internal/config)

    A handler of the chat endpoint submits its request to the engine and, unless it
    streams, calls [Acquire] before it forwards; [dispatchLoop] calls [Acquire] in a
    loop and forwards nothing.  Handlers and loops are goroutines over the engine and
    its condition variable (GoWait.v); a run is any sequence of their steps.  JSON,
    YAML, the parser of URLs and the backend are parameters. *)
From Stdlib Require Import ZArith Lia.
From stdpp Require Import base option list strings gmap.
From S2P Require Import Prelude PyFloat FloatBounds Heapq MinHeap PriorityQueue BaseScheduler Sjf CppRuntime GoEngine GoWait.
Local Open Scope string_scope.
Local Open Scope list_scope.
Local Open Scope nat_scope.

(** ** Configuration *)

Record ServerConfig := mkServerConfig { sc_host : string; sc_port : Z; sc_read_timeout : Z; sc_write_timeout : Z }.
Record VLLMConfig := mkVLLMConfig { vc_base_url : string; vc_model : string }.
Record RuntimeConfig := mkRuntimeConfig { rc_scheduler_type : string; rc_max_workers : Z; rc_model_path : string }.
Record AuthConfig := mkAuthConfig { ac_enabled : bool; ac_jwt_secret : string }.
Record GoMetricsConfig := mkGoMetricsConfig { mc_enabled : bool; mc_port : Z }.

Record Config := mkConfig {
  gc_server : ServerConfig;
  gc_vllm : VLLMConfig;
  gc_runtime : RuntimeConfig;
  gc_auth : AuthConfig;
  gc_metrics : GoMetricsConfig;
}.

(** [config.Default]. *)
Definition Default : Config :=
  mkConfig (mkServerConfig "0.0.0.0" 8080 300 300) (mkVLLMConfig "http://localhost:8002" "HuggingFaceTB/SmolLM3-3B")
    (mkRuntimeConfig "sjf" 32 "shared/models/output_length.onnx") (mkAuthConfig false "") (mkGoMetricsConfig true 9091).

(** [config.Load]: the file laid over the defaults; a file that cannot be read is no error. *)
Definition go_load (read_file : string -> option string) (unmarshal : string -> Config -> string + Config)
    (path : string) : string + Config :=
  match read_file path with
  | None => inr Default
  | Some data => unmarshal data Default
  end.

(** ** Length prediction *)

(** A decoded JSON value, as far as a type assertion to a string sees it. *)
Inductive go_value := GoString (s : string) | GoOther.

Abbreviation go_message := (gmap string go_value).

Record chatRequest := mkChatRequest {
  ch_model : string;
  ch_messages : list go_message;
  ch_max_tokens : Z;
  ch_stream : bool;
}.

(** [m[key].(string)] with its second result dropped. *)
Definition string_field (key : string) (m : go_message) : string :=
  match m !! key with Some (GoString s) => s | _ => "" end.

Definition extractPrompt (messages : list go_message) : string :=
  foldr (fun m acc => (string_field "role" m +:+ ": " +:+ string_field "content" m +:+ newline) +:+ acc) "" messages.

Definition predictLength (prompt : string) (max_tokens : Z) : float :=
  let base := fmul (of_int (Z.of_nat (String.length prompt))) (flit 15 100) in
  let base := if fltb base (of_int 10) then of_int 10 else base in
  if fltb (of_int max_tokens) base then of_int max_tokens else base.

(** ** State *)

(** Where a handler stands; a reply is its status and what was written. *)
Inductive handler_state :=
| HSubmitted                           (* after [Submit] *)
| HAcquiring (i : nat)                 (* in [Acquire], as caller [i] *)
| HForwarding                          (* in [client.Do] or reading its answer *)
| HReplied (code : Z) (content : string).

Record GoHandler := mkGoHandler {
  ha_body : string;
  ha_accepted : bool;                  (* it submitted a request *)
  ha_stream : bool;
  ha_state : handler_state;
}.

(** The goroutine that made a call of [Acquire]. *)
Inductive owner := OfHandler (h : nat) | OfLoop (k : nat).

(** A call of [client.Do]: who made it, with what. *)
Record GoCall := mkGoCall { ca_handler : nat; ca_url : string; ca_body : string }.

Record GoGateway := mkGoGateway {
  gg_world : World;
  gg_owners : list owner;              (* of the callers of the world, in order *)
  gg_handlers : list GoHandler;
  gg_loops : list (option nat);        (* the current call of each dispatch loop *)
  gg_calls : list GoCall;
  gg_success : Z;                      (* requestsTotal by status *)
  gg_error : Z;
  gg_timeout : Z;
  gg_queue_depth : nat;
}.

(** [main] up to the first goroutine. *)
Definition start_gateway (cfg : Config) : GoGateway :=
  mkGoGateway (start_world ∅) [] [] (replicate (Z.to_nat cfg.(gc_runtime).(rc_max_workers)) None) [] 0 0 0 0.

(** How [client.Do] and the reading of its body end: chunks, and the error of a read other than
    the end of the body. *)
Inductive GoAnswer :=
| DoFails (err : string)
| Responds (status : Z) (chunks : list string) (read_error : option string).

(** What happens to the gateway, or what a goroutine does next. *)
Inductive go_gateway_event :=
| Arrives (rid : string) (now : Z) (post : bool) (read : string + string) (signalled : option nat)
| Continues (h : nat) (flusher : bool)
| Inside (ev : event)                  (* a step of the condition variable *)
| Resumes (h : nat)
| Answers (h : nat) (a : GoAnswer)
| Loops (k : nat).

(** ** Steps *)

Section Steps.
Context `{MinHeap GoItem}.
Variable cfg : Config.
Variable unmarshal : string -> string + chatRequest.
Variable new_request_error : string -> option string.  (* http.NewRequest on a URL *)

Definition chat_url : string := cfg.(gc_vllm).(vc_base_url) +:+ "/v1/chat/completions".

Definition set_handler (h : nat) (st : handler_state) (g : GoGateway) : GoGateway :=
  mkGoGateway g.(gg_world) g.(gg_owners)
    (alter (fun hd => mkGoHandler hd.(ha_body) hd.(ha_accepted) hd.(ha_stream) st) h g.(gg_handlers))
    g.(gg_loops) g.(gg_calls) g.(gg_success) g.(gg_error) g.(gg_timeout) g.(gg_queue_depth).

Definition set_world (w : World) (g : GoGateway) : GoGateway :=
  mkGoGateway w g.(gg_owners) g.(gg_handlers) g.(gg_loops) g.(gg_calls) g.(gg_success) g.(gg_error) g.(gg_timeout)
    g.(gg_queue_depth).

Definition add_handler (hd : GoHandler) (g : GoGateway) : GoGateway :=
  mkGoGateway g.(gg_world) g.(gg_owners) (g.(gg_handlers) ++ [hd]) g.(gg_loops) g.(gg_calls) g.(gg_success)
    g.(gg_error) g.(gg_timeout) g.(gg_queue_depth).

Definition set_depth (n : nat) (g : GoGateway) : GoGateway :=
  mkGoGateway g.(gg_world) g.(gg_owners) g.(gg_handlers) g.(gg_loops) g.(gg_calls) g.(gg_success) g.(gg_error)
    g.(gg_timeout) n.

Definition count_success (g : GoGateway) : GoGateway :=
  mkGoGateway g.(gg_world) g.(gg_owners) g.(gg_handlers) g.(gg_loops) g.(gg_calls) (g.(gg_success) + 1) g.(gg_error)
    g.(gg_timeout) g.(gg_queue_depth).

Definition count_error (g : GoGateway) : GoGateway :=
  mkGoGateway g.(gg_world) g.(gg_owners) g.(gg_handlers) g.(gg_loops) g.(gg_calls) g.(gg_success) (g.(gg_error) + 1)
    g.(gg_timeout) g.(gg_queue_depth).

Definition count_timeout (g : GoGateway) : GoGateway :=
  mkGoGateway g.(gg_world) g.(gg_owners) g.(gg_handlers) g.(gg_loops) g.(gg_calls) g.(gg_success) g.(gg_error)
    (g.(gg_timeout) + 1) g.(gg_queue_depth).

(** A goroutine calls [Acquire]. *)
Definition call_acquire (o : owner) (g : GoGateway) : GoGateway :=
  let w := g.(gg_world) in
  mkGoGateway (mkWorld w.(w_store) w.(w_engine) (w.(w_callers) ++ [mkCaller Entering false]) w.(w_helpers))
    (g.(gg_owners) ++ [o]) g.(gg_handlers) g.(gg_loops) g.(gg_calls) g.(gg_success) g.(gg_error) g.(gg_timeout)
    g.(gg_queue_depth).

Definition call_complete (success : bool) (g : GoGateway) : GoGateway :=
  let w := g.(gg_world) in
  set_world (mkWorld w.(w_store) (go_complete success w.(w_engine)) w.(w_callers) w.(w_helpers)) g.

(** [http.Error] ends what it writes with a newline. *)
Definition http_error (h : nat) (msg : string) (code : Z) (g : GoGateway) : GoGateway :=
  set_handler h (HReplied code (msg +:+ newline)) g.

Definition log_call (h : nat) (body : string) (g : GoGateway) : GoGateway :=
  mkGoGateway g.(gg_world) g.(gg_owners) g.(gg_handlers) g.(gg_loops) (g.(gg_calls) ++ [mkGoCall h chat_url body])
    g.(gg_success) g.(gg_error) g.(gg_timeout) g.(gg_queue_depth).

(** What follows an error of [forward] or of [forwardStream]. *)
Definition forward_failed (h : nat) (stream : bool) (err : string) (g : GoGateway) : GoGateway :=
  let g := if stream then g else call_complete false g in
  http_error h err 502 (count_error g).

(** [forward] and [forwardStream] up to the call of the backend. *)
Definition start_forward (h : nat) (hd : GoHandler) (g : GoGateway) : GoGateway :=
  match new_request_error chat_url with
  | Some err => forward_failed h hd.(ha_stream) err g
  | None => set_handler h HForwarding (log_call h hd.(ha_body) g)
  end.

(** From the answer of the backend to the reply.  The status of the answer is not looked at; a
    stream ends where reading fails. *)
Definition finish_forward (h : nat) (hd : GoHandler) (a : GoAnswer) (g : GoGateway) : GoGateway :=
  match a with
  | DoFails err => forward_failed h hd.(ha_stream) err g
  | Responds status chunks read_error =>
      let content := String.concat "" chunks in
      match hd.(ha_stream), read_error with
      | false, Some err => forward_failed h false err g
      | _, _ => set_handler h (HReplied 200 content) (count_success (call_complete true g))
      end
  end.

Definition go_arrive (rid : string) (now : Z) (post : bool) (read : string + string) (signalled : option nat)
    (g : GoGateway) : option GoGateway :=
  let refuse code msg := Some (add_handler (mkGoHandler "" false false (HReplied code (msg +:+ newline))) g) in
  if negb post then refuse 405%Z "method not allowed"
  else
    match read with
    | inl err => refuse 400%Z err
    | inr body =>
        match unmarshal body with
        | inl err => refuse 400%Z err
        | inr req =>
            let prompt := extractPrompt req.(ch_messages) in
            let predicted := predictLength prompt req.(ch_max_tokens) in
            let sr := mkGoRequest rid prompt req.(ch_max_tokens) predicted f0 0 in
            let l := length g.(gg_handlers) in
            let w := g.(gg_world) in
            w' ← world_step (Submits now l signalled)
                   (mkWorld (<[l := sr]> w.(w_store)) w.(w_engine) w.(w_callers) w.(w_helpers));
            Some (add_handler (mkGoHandler body true req.(ch_stream) HSubmitted) (set_world w' g))
        end
    end.

(** A handler after [Submit]: the gauge, then the backend if it streams, else [Acquire]. *)
Definition go_continue (h : nat) (flusher : bool) (g : GoGateway) : option GoGateway :=
  hd ← g.(gg_handlers) !! h;
  match hd.(ha_state) with
  | HSubmitted =>
      let g := set_depth (go_depth g.(gg_world).(w_engine)) g in
      if hd.(ha_stream) then
        if flusher then Some (start_forward h hd g)
        else Some (http_error h "streaming unsupported" 500 g)
      else
        Some (set_handler h (HAcquiring (length g.(gg_world).(w_callers))) (call_acquire (OfHandler h) g))
  | _ => None
  end.

(** A handler whose [Acquire] has returned: what it acquired is not used. *)
Definition go_resume (h : nat) (g : GoGateway) : option GoGateway :=
  hd ← g.(gg_handlers) !! h;
  match hd.(ha_state) with
  | HAcquiring i =>
      c ← g.(gg_world).(w_callers) !! i;
      match c.(ca_phase) with
      | Finished CtxErr => Some (http_error h "scheduler timeout" 504 (count_timeout g))
      | Finished (Got _) => Some (start_forward h hd g)
      | _ => None
      end
  | _ => None
  end.

Definition go_answer (h : nat) (a : GoAnswer) (g : GoGateway) : option GoGateway :=
  hd ← g.(gg_handlers) !! h;
  match hd.(ha_state) with
  | HForwarding => Some (finish_forward h hd a g)
  | _ => None
  end.

Definition is_finished (c : Caller) : bool := match c.(ca_phase) with Finished _ => true | _ => false end.

(** [dispatchLoop]: once its call has returned, whatever it returned, it calls again. *)
Definition dispatch_loop (k : nat) (g : GoGateway) : option GoGateway :=
  current ← g.(gg_loops) !! k;
  let idle :=
    match current with
    | None => true
    | Some i => match g.(gg_world).(w_callers) !! i with Some c => is_finished c | None => false end
    end in
  if idle then
    let g' := call_acquire (OfLoop k) g in
    Some (mkGoGateway g'.(gg_world) g'.(gg_owners) g'.(gg_handlers)
            (<[k := Some (length g.(gg_world).(w_callers))]> g'.(gg_loops)) g'.(gg_calls) g'.(gg_success)
            g'.(gg_error) g'.(gg_timeout) g'.(gg_queue_depth))
  else None.

(** The events that are not a client's or a goroutine's own. *)
Definition inside (ev : event) : bool :=
  match ev with Runs _ | ContextEnds _ | Broadcasts _ | Leaves _ | Ticks _ => true | _ => false end.

Definition go_gateway_step (ev : go_gateway_event) (g : GoGateway) : option GoGateway :=
  match ev with
  | Arrives rid now post read signalled => go_arrive rid now post read signalled g
  | Continues h flusher => go_continue h flusher g
  | Inside e => if inside e then w' ← world_step e g.(gg_world); Some (set_world w' g) else None
  | Resumes h => go_resume h g
  | Answers h a => go_answer h a g
  | Loops k => dispatch_loop k g
  end.

Fixpoint go_gateway_run (evs : list go_gateway_event) (g : GoGateway) : option GoGateway :=
  match evs with
  | [] => Some g
  | ev :: evs' => g' ← go_gateway_step ev g; go_gateway_run evs' g'
  end.
End Steps.

(** ** Accounting *)

Definition got_request (c : Caller) : bool := match c.(ca_phase) with Finished (Got _) => true | _ => false end.

Definition got_count (cs : list Caller) : nat := length (List.filter got_request cs).

Definition of_loop (o : owner) : bool := match o with OfLoop _ => true | OfHandler _ => false end.

(** The requests the dispatch loops, and the handlers, have taken off the queue. *)
Definition taken_by_loops (g : GoGateway) : nat :=
  length (List.filter (fun '(o, c) => of_loop o && got_request c) (zip g.(gg_owners) g.(gg_world).(w_callers))).

Definition granted_handlers (g : GoGateway) : list nat :=
  omap (fun '(o, c) => match o with OfHandler h => if got_request c then Some h else None | OfLoop _ => None end)
    (zip g.(gg_owners) g.(gg_world).(w_callers)).

Definition accepted_requests (g : GoGateway) : nat := length (List.filter ha_accepted g.(gg_handlers)).

Definition streams (hs : list GoHandler) (h : nat) : bool := from_option ha_stream false (hs !! h).

(** The calls of the backend by handlers that do not stream. *)
Definition plain_calls (g : GoGateway) : list GoCall :=
  List.filter (fun c => negb (streams g.(gg_handlers) c.(ca_handler))) g.(gg_calls).

Definition has_forwarded (st : handler_state) : bool :=
  match st with HForwarding | HReplied _ _ => true | _ => false end.

Lemma got_insert i c c' (cs : list Caller) :
  cs !! i = Some c ->
  got_count (<[i := c']> cs) + (if got_request c then 1 else 0) = got_count cs + (if got_request c' then 1 else 0).
Proof.
  unfold got_count. revert i. induction cs as [|d cs IH]; intros [|i] Hi; try done.
  - injection Hi as ->. change (<[0 := c']> (c :: cs)) with (c' :: cs). cbn [List.filter].
    destruct (got_request c), (got_request c'); cbn; lia.
  - change (<[S i := c']> (d :: cs)) with (d :: <[i := c']> cs). cbn [List.filter]. specialize (IH i Hi).
    destruct (got_request d); cbn; lia.
Qed.

Lemma got_app cs c : got_count (cs ++ [c]) = got_count cs + (if got_request c then 1 else 0).
Proof. unfold got_count. rewrite List.filter_app, length_app. cbn. by destruct (got_request c). Qed.

Lemma got_wake c : got_request (wake c) = got_request c.
Proof. unfold wake, is_sleeping, got_request. case_bool_decide as E; [|done]. by rewrite E. Qed.

Lemma got_map_wake cs : got_count (map wake cs) = got_count cs.
Proof. unfold got_count. induction cs as [|c cs IH]; [done|]. cbn [map List.filter]. rewrite got_wake. by destruct (got_request c); cbn; rewrite IH. Qed.

(** The calls that have got a request keep it. *)
Definition keeps_grants (cs cs' : list Caller) : Prop :=
  length cs <= length cs' /\ forall i c, cs !! i = Some c -> got_request c = true -> exists c', cs' !! i = Some c' /\ got_request c' = true.

Lemma keeps_refl cs : keeps_grants cs cs.
Proof. split; [done|]. intros i c Hi Hc. by exists c. Qed.

Lemma keeps_app cs c : keeps_grants cs (cs ++ [c]).
Proof.
  split; [rewrite length_app; lia|]. intros i d Hi Hd. exists d. split; [|done].
  rewrite lookup_app_l; [done|]. by eapply lookup_lt_Some.
Qed.

Lemma keeps_insert i c c' cs :
  cs !! i = Some c -> (got_request c = true -> got_request c' = true) -> keeps_grants cs (<[i := c']> cs).
Proof.
  intros Hi Hc. split; [by rewrite length_insert|]. intros j d Hj Hd. destruct (decide (j = i)) as [->|Hne].
  - rewrite list_lookup_insert_eq by (by eapply lookup_lt_Some). exists c'. split; [done|]. apply Hc. congruence.
  - rewrite list_lookup_insert_ne by done. by exists d.
Qed.

Lemma keeps_wake cs : keeps_grants cs (map wake cs).
Proof.
  split; [by rewrite length_map|]. intros i c Hi Hc. exists (wake c). rewrite list_lookup_fmap, Hi. by rewrite got_wake.
Qed.

Section Accounting.
Context `{!MinHeap GoItem, !MinHeapLaws GoItem go_comparable go_less}.

(** Nothing is cancelled in the gateway: a pop takes one item, unless there is none. *)
Lemma go_pop_uncancelled st e :
  e.(e_cancelled) = ∅ ->
  match go_pop_loop (length e.(e_heap)) st e with
  | (Some _, e') => e'.(e_cancelled) = ∅ /\ S (length e'.(e_heap)) = length e.(e_heap)
  | (None, e') => e' = e
  end.
Proof.
  intros Hc. destruct (length (e_heap e)) as [|n] eqn:El; cbn [go_pop_loop]; [done|].
  destruct (heap_pop (e_heap e)) as [[it h]|] eqn:Ep; [|done].
  rewrite Hc, bool_decide_eq_false_2 by set_solver. cbn. split; [done|].
  rewrite (pop_perm _ _ _ Ep) in El. cbn in El. lia.
Qed.

(** The callers that hold a request, and the requests that wait. *)
Definition held (w : World) : nat := got_count w.(w_callers) + length w.(w_engine).(e_heap).

Lemma run_caller_held i w w' :
  w.(w_engine).(e_cancelled) = ∅ -> run_caller i w = Some w' ->
  w'.(w_engine).(e_cancelled) = ∅ /\ held w' = held w /\ length w'.(w_callers) = length w.(w_callers) /\
  keeps_grants w.(w_callers) w'.(w_callers).
Proof.
  intros Hc E. unfold run_caller in E. destruct (w_callers w !! i) as [c|] eqn:Hi; [|discriminate E].
  cbn [mbind option_bind] in E.
  assert (Hgo : forall woken hs z, (let '(r, e) := go_acquire woken (ca_ctx_done c) (w_store w) (w_engine w) in
      match r with
      | Waits => Some (mkWorld (w_store w) e (<[i := set_phase Sleeping c]> (w_callers w)) (hs ++ [mkHelper i false]))
      | _ => Some (mkWorld (w_store w) e (<[i := set_phase (Finished r) c]> (w_callers w)) hs)
      end) = Some z -> got_request c = false ->
      e_cancelled (w_engine z) = ∅ /\ held z = held w /\ length (w_callers z) = length (w_callers w) /\
      keeps_grants (w_callers w) (w_callers z)).
  { intros woken hs z Ez Hg. unfold go_acquire in Ez.
    assert (Hk : forall p, keeps_grants (w_callers w) (<[i := set_phase p c]> (w_callers w)))
      by (intros p; apply (keeps_insert i c); [done|by rewrite Hg]).
    assert (Hn : forall p, got_count (<[i := set_phase p c]> (w_callers w)) =
                           got_count (w_callers w) + (if got_request (set_phase p c) then 1 else 0))
      by (intros p; pose proof (got_insert i c (set_phase p c) _ Hi) as Hq; rewrite Hg in Hq; lia).
    destruct (woken && ca_ctx_done c).
    - injection Ez as <-. unfold held. cbn [w_engine w_callers]. rewrite Hn, length_insert. cbn.
      repeat split; [done|lia|apply Hk..].
    - pose proof (go_pop_uncancelled (w_store w) (w_engine w) Hc) as Hp.
      destruct (go_pop_loop _ _ _) as [[l|] e']; injection Ez as <-; unfold held; cbn [w_engine w_callers];
        rewrite Hn, length_insert; cbn.
      + destruct Hp as [Hp1 Hp2]. repeat split; [done|lia|apply Hk..].
      + subst e'. repeat split; [done|lia|apply Hk..]. }
  unfold got_request in Hgo at 1. destruct (ca_phase c) eqn:Hp; try discriminate E; by eapply Hgo.
Qed.

Lemma world_step_held ev w w' :
  inside ev = true -> w.(w_engine).(e_cancelled) = ∅ -> world_step ev w = Some w' ->
  w'.(w_engine).(e_cancelled) = ∅ /\ held w' = held w /\ length w'.(w_callers) = length w.(w_callers) /\
  keeps_grants w.(w_callers) w'.(w_callers).
Proof.
  intros Hin Hc E. destruct ev as [| |i|i|k|k| | |]; try discriminate Hin; cbn [world_step] in E.
  - by eapply run_caller_held.
  - destruct (w_callers w !! i) as [c|] eqn:Hi; [|discriminate E]. injection E as <-. unfold held. cbn [w_engine w_callers].
    pose proof (got_insert i c (mkCaller (ca_phase c) true) _ Hi) as Hn.
    change (got_request (mkCaller (ca_phase c) true)) with (got_request c) in Hn. rewrite length_insert.
    repeat split; [done|lia|by apply (keeps_insert i c)..].
  - destruct (w_helpers w !! k) as [h|]; [|discriminate E]. cbn [mbind option_bind] in E.
    destruct (w_callers w !! he_caller h) as [c|]; [|discriminate E]. cbn [mbind option_bind] in E.
    destruct (ca_ctx_done c); [|discriminate E]. injection E as <-. unfold held. cbn [w_engine w_callers].
    rewrite got_map_wake, length_map. repeat split; [done|apply keeps_wake..].
  - destruct (w_helpers w !! k) as [h|]; [|discriminate E]. cbn [mbind option_bind] in E.
    destruct (he_dismissed h); [|discriminate E]. injection E as <-. repeat split; [done|apply keeps_refl..].
  - injection E as <-. repeat split; [done|apply keeps_refl..].
Qed.

Lemma submits_held now l sg w w' :
  w.(w_engine).(e_cancelled) = ∅ -> world_step (Submits now l sg) w = Some w' ->
  w'.(w_engine).(e_cancelled) = ∅ /\ held w' = S (held w) /\ length w'.(w_callers) = length w.(w_callers) /\
  keeps_grants w.(w_callers) w'.(w_callers).
Proof.
  intros Hc E. cbn [world_step] in E. unfold go_submit in E. destruct (w_store w !! l) as [req|]; [|discriminate E].
  cbn [mbind option_bind] in E. destruct (signal sg (w_callers w)) as [cs|] eqn:Es; [|discriminate E]. injection E as <-.
  unfold held. cbn [w_engine w_callers e_cancelled e_heap]. rewrite push_perm. cbn [length].
  assert (Hs : got_count cs = got_count (w_callers w) /\ length cs = length (w_callers w) /\ keeps_grants (w_callers w) cs).
  { unfold signal in Es. destruct sg as [i|].
    - destruct (w_callers w !! i) as [c|] eqn:Hi; [|discriminate Es]. cbn [mbind option_bind] in Es.
      destruct (is_sleeping c); [|discriminate Es]. injection Es as <-. rewrite length_insert.
      pose proof (got_insert i c (wake c) _ Hi) as Hn. rewrite got_wake in Hn.
      repeat split; [lia|apply (keeps_insert i c); [done|by rewrite got_wake]..].
    - destruct (existsb _ _); [discriminate Es|]. injection Es as <-. repeat split; apply keeps_refl. }
  destruct Hs as (Hs1 & Hs2 & Hs3). split; [done|]. split; [lia|done].
Qed.
End Accounting.

(** ** Invariant *)

#[local] Arguments got_count : simpl never.
#[local] Arguments held : simpl never.

(** Handler [h] got a request from [Acquire]. *)
Definition granted (os : list owner) (cs : list Caller) (h : nat) : Prop :=
  exists i c, os !! i = Some (OfHandler h) /\ cs !! i = Some c /\ got_request c = true.

Definition call_of (url : string) (os : list owner) (cs : list Caller) (hs : list GoHandler) (c : GoCall) : Prop :=
  exists hd, hs !! c.(ca_handler) = Some hd /\ hd.(ha_accepted) = true /\ c.(ca_url) = url /\
    c.(ca_body) = hd.(ha_body) /\ has_forwarded hd.(ha_state) = true /\
    (hd.(ha_stream) = false -> granted os cs c.(ca_handler)).

Record go_gateway_inv (url : string) (w : World) (os : list owner) (hs : list GoHandler) (calls : list GoCall) : Prop := {
  gw_cancelled : w.(w_engine).(e_cancelled) = ∅;
  gw_owners : length os = length w.(w_callers);
  gw_held : held w = length (List.filter ha_accepted hs);
  gw_acquiring h hd i : hs !! h = Some hd -> hd.(ha_state) = HAcquiring i -> hd.(ha_accepted) = true /\ os !! i = Some (OfHandler h);
  gw_submitted h hd : hs !! h = Some hd -> hd.(ha_state) = HSubmitted -> hd.(ha_accepted) = true;
  gw_once : NoDup (map ca_handler calls);
  gw_called : Forall (call_of url os w.(w_callers) hs) calls;
}.

Lemma granted_keeps os cs cs' h : keeps_grants cs cs' -> granted os cs h -> granted os cs' h.
Proof.
  intros [_ Hk] (i & c & Ho & Hc & Hg). destruct (Hk i c Hc Hg) as (c' & Hc' & Hg'). by exists i, c'.
Qed.

Lemma granted_app os cs h o : granted os cs h -> granted (os ++ [o]) cs h.
Proof.
  intros (i & c & Ho & Hc & Hg). exists i, c. split; [|done]. rewrite lookup_app_l; [done|]. by eapply lookup_lt_Some.
Qed.

Lemma call_of_mono url os os' cs cs' hs calls :
  (forall h, granted os cs h -> granted os' cs' h) ->
  Forall (call_of url os cs hs) calls -> Forall (call_of url os' cs' hs) calls.
Proof.
  intros Hg Hall. eapply Forall_impl; [exact Hall|]. intros c (hd & H1 & H2 & H3 & H4 & H5 & H6). exists hd. auto 10.
Qed.

Section Invariant.
Context `{!MinHeap GoItem, !MinHeapLaws GoItem go_comparable go_less}.
Variable cfg : Config.
Variable unmarshal : string -> string + chatRequest.
Variable new_request_error : string -> option string.

Abbreviation inv g := (go_gateway_inv (chat_url cfg) (gg_world g) (gg_owners g) (gg_handlers g) (gg_calls g)).

Lemma inv_world w' g :
  w'.(w_engine).(e_cancelled) = ∅ -> held w' = held g.(gg_world) ->
  length w'.(w_callers) = length g.(gg_world).(w_callers) -> keeps_grants g.(gg_world).(w_callers) w'.(w_callers) ->
  inv g -> inv (set_world w' g).
Proof.
  intros Hc Hh Hl Hk [I1 I2 I3 I4 I5 I6 I7]. split; cbn; try done; [congruence|congruence|].
  eapply call_of_mono; [|exact I7]. intros h. by apply granted_keeps.
Qed.

Lemma inv_complete b g : inv g -> inv (call_complete b g).
Proof.
  intros Hi. apply inv_world; try done; [|by destruct b|apply keeps_refl]. by destruct b; apply Hi.
Qed.

Lemma inv_call o g : inv g -> inv (call_acquire o g).
Proof.
  intros [I1 I2 I3 I4 I5 I6 I7]. split; cbn; try done.
  - rewrite !length_app. cbn. lia.
  - rewrite <- I3. unfold held, call_acquire. cbn [gg_world w_callers w_engine]. by rewrite got_app, Nat.add_0_r.
  - intros h hd i Hh Hs. destruct (I4 h hd i Hh Hs) as [Ha Ho]. split; [done|].
    rewrite lookup_app_l; [done|]. by eapply lookup_lt_Some.
  - eapply call_of_mono; [|exact I7]. intros h Hg. by eapply granted_keeps, granted_app; [apply keeps_app|].
Qed.

Lemma alter_accepted (hs : list GoHandler) h st :
  length (List.filter ha_accepted (alter (fun hd => mkGoHandler hd.(ha_body) hd.(ha_accepted) hd.(ha_stream) st) h hs)) =
  length (List.filter ha_accepted hs).
Proof.
  set (f := fun hd => mkGoHandler hd.(ha_body) hd.(ha_accepted) hd.(ha_stream) st).
  revert h. induction hs as [|hd hs IH]; intros [|h]; try done.
  - change (alter f 0 (hd :: hs)) with (f hd :: hs). cbn [List.filter f ha_accepted]. by destruct (ha_accepted hd).
  - change (alter f (S h) (hd :: hs)) with (hd :: alter f h hs). cbn [List.filter]. destruct (ha_accepted hd); cbn; by rewrite IH.
Qed.

(** A handler moves on. *)
Lemma inv_handler h hd st g :
  g.(gg_handlers) !! h = Some hd -> (has_forwarded hd.(ha_state) = true -> has_forwarded st = true) ->
  (forall i, st = HAcquiring i -> hd.(ha_accepted) = true /\ g.(gg_owners) !! i = Some (OfHandler h)) ->
  st <> HSubmitted -> inv g -> inv (set_handler h st g).
Proof.
  intros Hh Hf Ha Hn [I1 I2 I3 I4 I5 I6 I7]. split; cbn; try done.
  - by rewrite alter_accepted.
  - intros k hd' i Hk Hs. destruct (decide (k = h)) as [->|Hne].
    + rewrite list_lookup_alter_eq, Hh in Hk. injection Hk as <-. by apply Ha.
    + rewrite list_lookup_alter_ne in Hk by done. by eapply I4.
  - intros k hd' Hk Hs. destruct (decide (k = h)) as [->|Hne].
    + rewrite list_lookup_alter_eq, Hh in Hk. injection Hk as <-. done.
    + rewrite list_lookup_alter_ne in Hk by done. by eapply I5.
  - eapply Forall_impl; [exact I7|]. intros c (hd' & H1 & H2 & H3 & H4 & H5 & H6).
    destruct (decide (ca_handler c = h)) as [He|Hne].
    + rewrite He, Hh in H1. injection H1 as <-. eexists. rewrite He, list_lookup_alter_eq, Hh. split; [reflexivity|].
      cbn. rewrite He in H6. auto 10.
    + exists hd'. rewrite list_lookup_alter_ne by done. auto 10.
Qed.

(** A handler that has not forwarded yet calls the backend. *)
Lemma inv_forward h hd g :
  g.(gg_handlers) !! h = Some hd -> has_forwarded hd.(ha_state) = false -> hd.(ha_accepted) = true ->
  (hd.(ha_stream) = false -> granted g.(gg_owners) g.(gg_world).(w_callers) h) -> inv g ->
  inv (set_handler h HForwarding (log_call cfg h hd.(ha_body) g)).
Proof.
  intros Hh Hf Ha Hg Hi. assert (Hi' := inv_handler h hd HForwarding g Hh ltac:(done) ltac:(done) ltac:(done) Hi).
  destruct Hi as [I1 I2 I3 I4 I5 I6 I7], Hi' as [J1 J2 J3 J4 J5 J6 J7]. split; try done; cbn in *.
  - rewrite map_app. apply NoDup_app. split; [done|]. split; [|by apply NoDup_singleton].
    intros x Hx Hin. apply list_elem_of_singleton in Hin as ->. apply list_elem_of_fmap in Hx as (c & Hc & Hin).
    rewrite Forall_forall in I7. destruct (I7 c Hin) as (hd' & H1 & _ & _ & _ & H5 & _). cbn in Hc. rewrite <- Hc, Hh in H1.
    injection H1 as <-. congruence.
  - apply Forall_app. split; [done|]. constructor; [|done]. eexists. cbn. rewrite list_lookup_alter_eq, Hh.
    split; [reflexivity|]. cbn. auto 10.
Qed.

Lemma inv_failed h hd stream err g :
  g.(gg_handlers) !! h = Some hd -> inv g -> inv (forward_failed h stream err g).
Proof.
  intros Hh Hi. unfold forward_failed, http_error. apply (inv_handler h hd); try done; [by destruct stream|].
  destruct stream; [exact Hi|by apply inv_complete].
Qed.

Lemma inv_start_forward h hd g :
  g.(gg_handlers) !! h = Some hd -> has_forwarded hd.(ha_state) = false -> hd.(ha_accepted) = true ->
  (hd.(ha_stream) = false -> granted g.(gg_owners) g.(gg_world).(w_callers) h) -> inv g ->
  inv (start_forward cfg new_request_error h hd g).
Proof.
  intros Hh Hf Ha Hg Hi. unfold start_forward. destruct (new_request_error _); [by eapply inv_failed|by apply inv_forward].
Qed.

Lemma inv_finish h hd a g :
  g.(gg_handlers) !! h = Some hd -> inv g -> inv (finish_forward h hd a g).
Proof.
  intros Hh Hi. unfold finish_forward. destruct a as [err|status chunks re]; [by eapply inv_failed|].
  assert (Hok : inv (set_handler h (HReplied 200 (String.concat "" chunks)) (count_success (call_complete true g)))).
  { apply (inv_handler h hd); try done. by apply (inv_complete true). }
  destruct (ha_stream hd); [done|]. destruct re; [by eapply inv_failed|done].
Qed.

Lemma inv_add hd w' g :
  w'.(w_engine).(e_cancelled) = ∅ -> held w' = held g.(gg_world) + (if hd.(ha_accepted) then 1 else 0) ->
  length w'.(w_callers) = length g.(gg_world).(w_callers) -> keeps_grants g.(gg_world).(w_callers) w'.(w_callers) ->
  hd.(ha_state) = HSubmitted /\ hd.(ha_accepted) = true \/ has_forwarded hd.(ha_state) = true ->
  inv g -> inv (add_handler hd (set_world w' g)).
Proof.
  intros Hc Hh Hl Hk Hst [I1 I2 I3 I4 I5 I6 I7]. split; cbn; try done.
  - congruence.
  - rewrite List.filter_app, length_app, Hh, I3. cbn. by destruct (ha_accepted hd).
  - intros h hd' i Hd Hs. apply lookup_snoc_Some in Hd as [[_ Hd]|[_ ->]]; [by eapply I4|].
    destruct Hst as [[E _]|E]; rewrite Hs in E; discriminate E.
  - intros h hd' Hd Hs. apply lookup_snoc_Some in Hd as [[_ Hd]|[_ ->]]; [by eapply I5|].
    destruct Hst as [[_ E]|E]; [done|]. by rewrite Hs in E.
  - eapply call_of_mono in I7; [|intros h; by apply granted_keeps]. eapply Forall_impl; [exact I7|].
    intros c (hd' & H1 & H2). exists hd'. split; [|done]. rewrite lookup_app_l; [done|]. by eapply lookup_lt_Some.
Qed.

Lemma inv_arrive rid now post read sg g g' :
  go_arrive unmarshal rid now post read sg g = Some g' -> inv g -> inv g'.
Proof.
  intros E Hi. unfold go_arrive in E.
  assert (Hr : forall code msg, inv (add_handler (mkGoHandler "" false false (HReplied code msg)) g)).
  { intros code msg. apply (inv_add _ (gg_world g)); try done; [apply Hi|apply keeps_refl|by right]. }
  destruct (negb post); [injection E as <-; apply Hr|]. destruct read as [err|body]; [injection E as <-; apply Hr|].
  destruct (unmarshal body) as [err|req]; [injection E as <-; apply Hr|].
  match type of E with context [world_step ?ev ?w0] => destruct (world_step ev w0) as [w'|] eqn:Ew; [|discriminate E] end.
  injection E as <-. apply submits_held in Ew as (H1 & H2 & H3 & H4); [|apply Hi]. cbn [w_callers] in *.
  apply inv_add; try done; [|by left]. rewrite H2. unfold held. cbn. lia.
Qed.

Lemma inv_step ev g g' : go_gateway_step cfg unmarshal new_request_error ev g = Some g' -> inv g -> inv g'.
Proof.
  intros E Hi. destruct ev as [rid now post read sg|h fl|e|h|h a|k]; cbn [go_gateway_step] in E.
  - by eapply inv_arrive.
  - unfold go_continue in E. destruct (gg_handlers g !! h) as [hd|] eqn:Hh; [|discriminate E]. cbn [mbind option_bind] in E.
    destruct (ha_state hd) eqn:Hs; try discriminate E. assert (Ha := gw_submitted _ _ _ _ _ Hi h hd Hh Hs).
    set (g1 := set_depth _ g) in E. assert (Hi1 : inv g1) by exact Hi. destruct (ha_stream hd) eqn:Hst.
    + destruct fl; injection E as <-.
      * apply inv_start_forward; try done; [by rewrite Hs|congruence].
      * apply (inv_handler h hd); try done; by rewrite Hs.
    + injection E as <-. apply (inv_handler h hd); try done; [by rewrite Hs| |by apply inv_call].
      intros i [= <-]. split; [done|]. cbn. rewrite <- (gw_owners _ _ _ _ _ Hi). by apply list_lookup_middle.
  - destruct (inside e) eqn:He; [|discriminate E]. destruct (world_step e (gg_world g)) as [w'|] eqn:Ew; [|discriminate E].
    injection E as <-. apply world_step_held in Ew as (H1 & H2 & H3 & H4); [|done|apply Hi]. by apply inv_world.
  - unfold go_resume in E. destruct (gg_handlers g !! h) as [hd|] eqn:Hh; [|discriminate E]. cbn [mbind option_bind] in E.
    destruct (ha_state hd) as [|i| |] eqn:Hs; try discriminate E.
    destruct (gw_acquiring _ _ _ _ _ Hi h hd i Hh Hs) as [Ha Ho].
    destruct (w_callers (gg_world g) !! i) as [c|] eqn:Hc; [|discriminate E]. cbn [mbind option_bind] in E.
    destruct (ca_phase c) as [| | |[l| |]] eqn:Hp; try discriminate E; injection E as <-.
    + apply inv_start_forward; try done; [by rewrite Hs|]. intros _. exists i, c. unfold got_request. by rewrite Hp.
    + apply (inv_handler h hd); try done.
  - unfold go_answer in E. destruct (gg_handlers g !! h) as [hd|] eqn:Hh; [|discriminate E]. cbn [mbind option_bind] in E.
    destruct (ha_state hd) eqn:Hs; try discriminate E. injection E as <-. by apply inv_finish.
  - unfold dispatch_loop in E. destruct (gg_loops g !! k) as [cur|]; [|discriminate E]. cbn [mbind option_bind] in E.
    match type of E with (if ?b then _ else _) = _ => destruct b end; [|discriminate E]. injection E as <-.
    apply (inv_call (OfLoop k) g Hi).
Qed.

Lemma inv_run evs g g' : go_gateway_run cfg unmarshal new_request_error evs g = Some g' -> inv g -> inv g'.
Proof.
  revert g. induction evs as [|ev evs IH]; intros g E Hi; cbn [go_gateway_run] in E; [by injection E as <-|].
  destruct (go_gateway_step _ _ _ ev g) as [g1|] eqn:Es; [|discriminate E]. apply (IH g1 E). by eapply inv_step.
Qed.

Lemma inv_start : inv (start_gateway cfg).
Proof. by split; try (intros h hd; intros; discriminate); try constructor. Qed.
End Invariant.

(** ** Properties *)

Lemma taken_split os cs :
  length os = length cs ->
  length (omap (fun '(o, c) => match o with OfHandler h => if got_request c then Some h else None | OfLoop _ => None end)
            (zip os cs)) +
  length (List.filter (fun '(o, c) => of_loop o && got_request c) (zip os cs)) = got_count cs.
Proof.
  revert cs. induction os as [|o os IH]; intros [|c cs] El; try discriminate El; [done|]. injection El as El.
  specialize (IH cs El). unfold got_count in *. cbn [zip_with List.filter]. cbn -[omap].
  change (omap ?f ((o, c) :: ?l)) with (match f (o, c) with Some y => y :: omap f l | None => omap f l end).
  cbn beta iota. destruct o, (got_request c); cbn -[omap] in *; lia.
Qed.

Lemma granted_listed g h : granted g.(gg_owners) g.(gg_world).(w_callers) h -> h ∈ granted_handlers g.
Proof.
  intros (i & c & Ho & Hc & Hg). unfold granted_handlers. apply list_elem_of_omap. exists (OfHandler h, c).
  split; [|by rewrite Hg]. apply list_elem_of_lookup. exists i. rewrite lookup_zip_with, Ho. cbn. by rewrite Hc.
Qed.

Section Properties.
Context `{!MinHeap GoItem, !MinHeapLaws GoItem go_comparable go_less}.
Variable cfg : Config.
Variable unmarshal : string -> string + chatRequest.
Variable new_request_error : string -> option string.

(** The Go gateway calls the backend only from handlers, at most once each, and always with the body
    of the handler's own client; a handler that does not stream calls it only after its [Acquire]
    has returned a request.  Which request that was plays no part. *)
Theorem gateway_forwards_own_body evs g :
  go_gateway_run cfg unmarshal new_request_error evs (start_gateway cfg) = Some g ->
  NoDup (map ca_handler g.(gg_calls)) /\
  Forall (call_of (chat_url cfg) g.(gg_owners) g.(gg_world).(w_callers) g.(gg_handlers)) g.(gg_calls).
Proof.
  intros E. destruct (inv_run _ _ _ _ _ _ E (inv_start cfg)) as [_ _ _ _ _ Ho Hc]. by split.
Qed.

(** C31.  Every request is taken off the queue by a handler or by a dispatch loop, or waits.  What the
    dispatch loops take is lost to the handlers: with [n] accepted requests of which the loops took
    [d], at most [n - d] handlers that do not stream ever call the backend. *)
Theorem dispatch_loops_cost_requests evs g :
  go_gateway_run cfg unmarshal new_request_error evs (start_gateway cfg) = Some g ->
  length (granted_handlers g) + taken_by_loops g + go_depth g.(gg_world).(w_engine) = accepted_requests g /\
  length (plain_calls g) <= length (granted_handlers g).
Proof.
  intros E. destruct (inv_run _ _ _ _ _ _ E (inv_start cfg)) as [_ Hl Hh _ _ Ho Hc]. split.
  - unfold accepted_requests. rewrite <- Hh. unfold held, granted_handlers, taken_by_loops, go_depth. by rewrite taken_split.
  - rewrite <- (length_map ca_handler). apply submseteq_length, NoDup_submseteq.
    + unfold plain_calls. revert Ho. clear. induction (gg_calls g) as [|c cs IH]; [done|]. cbn [map List.filter].
      intros [Hn Ho]%NoDup_cons. destruct (negb _); [|by apply IH]. apply NoDup_cons. split; [|by apply IH].
      intros Hin. apply Hn. apply list_elem_of_fmap in Hin as (d & Hd & Hin). apply list_elem_of_fmap. exists d.
      split; [done|]. apply list_elem_of_In in Hin. apply List.filter_In in Hin as [Hin _]. by apply list_elem_of_In.
    + intros h Hin. apply list_elem_of_fmap in Hin as (c & -> & Hin). apply list_elem_of_In in Hin.
      apply List.filter_In in Hin as [Hin Hs]. apply list_elem_of_In in Hin. rewrite Forall_forall in Hc.
      destruct (Hc c Hin) as (hd & H1 & _ & _ & _ & _ & H6). apply granted_listed, H6.
      unfold streams in Hs. rewrite H1 in Hs. by apply negb_true_iff in Hs.
Qed.
End Properties.

Lemma prompt_share_not_nan prompt : is_nan (fmul (of_int (Z.of_nat (String.length prompt))) (flit 15 100)) = false.
Proof.
  apply (fle_not_nan f0). apply fmul_nonneg_pos; [fcompute|apply of_int_nonneg; lia|fcompute].
Qed.

(** The predicted length is a number at most the budget, and at least ten tokens unless the budget
    is smaller. *)
Theorem predict_length_bounds prompt max_tokens :
  (predictLength prompt max_tokens <= of_int max_tokens)%float /\
  ((of_int 10 <= predictLength prompt max_tokens)%float \/ predictLength prompt max_tokens = of_int max_tokens).
Proof.
  unfold predictLength. pose proof (prompt_share_not_nan prompt) as Hs. set (share := fmul _ _) in *.
  set (base := if fltb share (of_int 10) then of_int 10 else share).
  assert (Hb : is_nan base = false /\ (of_int 10 <= base)%float).
  { unfold base. destruct (fltb share (of_int 10)) eqn:E.
    - split; [apply of_int_not_nan|]. apply fle_refl, of_int_not_nan.
    - split; [exact Hs|]. apply fltb_false; [exact Hs|apply of_int_not_nan|exact E]. }
  destruct Hb as [Hn Hten]. destruct (fltb (of_int max_tokens) base) eqn:E.
  - split; [apply fle_refl, of_int_not_nan|by right].
  - split; [|by left]. apply fltb_false; [apply of_int_not_nan|exact Hn|exact E].
Qed.

(** ** Runs *)

(** A heap that serves the examples. *)
Definition one_worker : Config :=
  mkConfig Default.(gc_server) Default.(gc_vllm) (mkRuntimeConfig "sjf" 1 "") Default.(gc_auth) Default.(gc_metrics).

Definition no_workers : Config :=
  mkConfig Default.(gc_server) Default.(gc_vllm) (mkRuntimeConfig "sjf" 0 "") Default.(gc_auth) Default.(gc_metrics).

(** The body is the content of one message. *)
Definition plain_chat (max_tokens : Z) (body : string) : string + chatRequest :=
  inr (mkChatRequest "" [{[ "role" := GoString "user"; "content" := GoString body ]}] max_tokens false).

(** An idle loop sleeps; the request of a client wakes it, it takes the request and drops it; the
    client's handler sleeps until its context ends. *)
Definition stolen : list go_gateway_event :=
  [Loops 0; Inside (Runs 0); Arrives "1" 5 true (inr "hello") (Some 0); Inside (Runs 0);
   Continues 0 true; Inside (Runs 1); Loops 0; Inside (Runs 2); Inside (ContextEnds 1); Inside (Broadcasts 1); Inside (Runs 1);
   Resumes 0].

(** A run whose end looks as stated. *)
Lemma run_ends {A} cfg unmarshal nre evs g0 (f : GoGateway -> A) (a : A) :
  f <$> go_gateway_run cfg unmarshal nre evs g0 = Some a ->
  exists g, go_gateway_run cfg unmarshal nre evs g0 = Some g /\ f g = a.
Proof. destruct (go_gateway_run _ _ _ _ _) as [g|]; [|discriminate 1]. intros [= <-]. by exists g. Qed.

(** The gateway with one worker refuses a request that nothing stood in the way of: the backend is
    never called, and the client is answered with 504. *)
Theorem dispatch_loop_steals_request :
  exists g, go_gateway_run one_worker (plain_chat 100) (fun _ => None) stolen (start_gateway one_worker) = Some g /\
    g.(gg_calls) = [] /\ taken_by_loops g = 1 /\
    g.(gg_handlers) = [mkGoHandler "hello" true false (HReplied 504 ("scheduler timeout" +:+ newline))].
Proof.
  destruct (run_ends one_worker (plain_chat 100) (fun _ => None) stolen (start_gateway one_worker)
    (fun g => (gg_calls g, taken_by_loops g, gg_handlers g))
    ([], 1, [mkGoHandler "hello" true false (HReplied 504 ("scheduler timeout" +:+ newline))])) as (g & E & [= H1 H2 H3]).
  - vm_compute. reflexivity.
  - exists g. exact (conj E (conj H1 (conj H2 H3))).
Qed.

(** Budgets of ten and of five tokens. *)
Definition two_budgets (body : string) : string + chatRequest :=
  plain_chat (if bool_decide (body = "short") then 5 else 10) body.

Definition crossed : list go_gateway_event :=
  [Arrives "1" 5 true (inr "long") None; Arrives "2" 6 true (inr "short") None;
   Continues 0 true; Inside (Runs 0); Resumes 0].

(** Without dispatch loops the shorter request is acquired first, and the longer one is forwarded
    first: by the handler that acquired the shorter one. *)
Theorem acquires_anothers_request :
  exists g, go_gateway_run no_workers two_budgets (fun _ => None) crossed (start_gateway no_workers) = Some g /\
    map ca_phase g.(gg_world).(w_callers) = [Finished (Got 1)] /\ map ca_body g.(gg_calls) = ["long"].
Proof.
  destruct (run_ends no_workers two_budgets (fun _ => None) crossed (start_gateway no_workers)
    (fun g => (map ca_phase g.(gg_world).(w_callers), map ca_body g.(gg_calls))) ([Finished (Got 1)], ["long"]))
    as (g & E & [= H1 H2]).
  - vm_compute. reflexivity.
  - exists g. exact (conj E (conj H1 H2)).
Qed.

(** A request without a budget is predicted to take no tokens, and is queued ahead of every
    request with one. *)
Theorem no_budget_goes_first prompt now rid :
  predictLength prompt 0 = f0 /\
  (submitted now (mkGoRequest rid prompt 0 (predictLength prompt 0) f0 0)).(gr_priority) = f0.
Proof.
  assert (E : predictLength prompt 0 = f0).
  { destruct (predict_length_bounds prompt 0) as [_ [Hb|Hb]]; [|rewrite Hb; apply of_int_0].
    destruct (predict_length_bounds prompt 0) as [Hle _]. pose proof (fltb_not_le _ _ (fle_trans _ _ _ Hb Hle)) as Hx.
    assert (Hlt : fltb (of_int 0) (of_int 10) = true) by fcompute. congruence. }
  split; [exact E|]. rewrite E. unfold submitted. cbn [gr_predicted_tokens gr_max_tokens gr_priority].
  replace (fleb f0 f0) with true by fcompute. apply of_int_0.
Qed.

(** One request served by a gateway with one worker, one lost to it, and one that waits. *)
Definition one_lost : list go_gateway_event :=
  [Arrives "1" 5 true (inr "a") None; Continues 0 true; Inside (Runs 0); Resumes 0;
   Answers 0 (Responds 500 ["o"; "k"] None); Loops 0;
   Arrives "2" 6 true (inr "b") None; Inside (Runs 1); Continues 1 true; Inside (Runs 2);
   Arrives "3" 7 true (inr "c") (Some 2); Inside (Ticks 8)].

(** Where that run ends; the status of the backend's answer is not passed on. *)
Lemma one_lost_answers :
  exists g, go_gateway_run one_worker (plain_chat 100) (fun _ => None) one_lost (start_gateway one_worker) = Some g /\
    map ha_state g.(gg_handlers) = [HReplied 200 "ok"; HAcquiring 2; HSubmitted] /\
    (length (granted_handlers g), taken_by_loops g, go_depth g.(gg_world).(w_engine)) = (1, 1, 1).
Proof.
  destruct (run_ends one_worker (plain_chat 100) (fun _ => None) one_lost (start_gateway one_worker)
    (fun g => (map ha_state g.(gg_handlers), (length (granted_handlers g), taken_by_loops g, go_depth g.(gg_world).(w_engine))))
    ([HReplied 200 "ok"; HAcquiring 2; HSubmitted], (1, 1, 1))) as (g & E & [= H1 H2 H3 H4]).
  - vm_compute. reflexivity.
  - exists g. refine (conj E (conj H1 _)). by rewrite H2, H3, H4.
Qed.

Lemma dispatch_loops_cost_requests_witness :
  exists g, go_gateway_run one_worker (plain_chat 100) (fun _ => None) one_lost (start_gateway one_worker) = Some g /\
    length (granted_handlers g) + taken_by_loops g + go_depth g.(gg_world).(w_engine) = accepted_requests g /\
    length (plain_calls g) <= length (granted_handlers g).
Proof.
  destruct one_lost_answers as (g & E & _). exists g. split; [exact E|].
  exact (dispatch_loops_cost_requests one_worker (plain_chat 100) (fun _ => None) one_lost g E).
Defined.
